(* ===== verification/_CoqProject ===== *)
-Q . S2P
Prelude.v
Errors.v
Model.v
Env.v
Proto.v
World.v
Effects.v
Store.v
StoreFacts.v
Lifecycle.v
Lawful.v
Demo.v
TaskOrm.v
TaskShardOrm.v
TenantOrm.v
ClusterOrm.v
AgentService.v
TaskHooks.v
TaskStatus.v
TaskLease.v
GoText.v
TaskApi.v
ReadCommitted.v
Isolation.v
ClusterService.v
ClusterFacts.v
TaskPoll.v
PollFacts.v
Control.v
ControlFacts.v
AgentWork.v
K8sBackend.v
Config.v
GqlModel.v
Graph.v
GqlRuntime.v
GqlMarshal.v
GqlIntrospect.v
GqlExec.v
GqlComplexity.v
GqlEffects.v
GqlApi.v
GqlSpec.v
GqlSchema.v
GqlFacts.v
GqlTyping.v
GqlIntrospectFacts.v
GqlDemo.v
GqlRoot.v
GqlQueries.v
Grpc.v
System.v
Timers.v
Shutdown.v
