(* ===== verification/Prelude.v ===== *)
(** * r-orchestrator: a verification of the server

    r-orchestrator runs the scripts of uploaded bundles on agents in tenants' own
    clusters.  A task is a bundle; each script of the bundle is a shard.  The Go
    server keeps tasks, shards, tenants and clusters in PostgreSQL through gorm
    (internal/orm, internal/model) and agents in memory
    (internal/service/agent_service).  Clients submit, cancel and read tasks over
    GraphQL (graph/); a scheduler loop provisions clusters for pending tasks
    (task_service/poll_pending_tasks.go, cluster_service/backend/k8); agents open
    a bidirectional gRPC stream (internal/control) over which they register,
    report heartbeats and results and are assigned shards; a recycler loop
    (cluster_service/recycler.go) terminates idle clusters, and an orphan loop
    takes back the shards of lost agents.

    ** How code becomes Rocq

    [World] (World.v) is the whole state: the four tables, the agent registry with
    its timers, the open streams and the log of messages sent on them, the object
    store, the Kubernetes API server, the UUID counter and the clock.  A function
    that has effects is a [prog] (Effects.v), a tree whose nodes are one atomic
    action on the world (a SQL statement, a critical section under one mutex, a
    call on an external object), a question to the environment whether an external
    call fails, a reading of the clock, or a gorm transaction.  [run] executes a
    tree against an oracle of failures and clock increments, so that every handler
    can be evaluated on concrete input; [wp] describes all executions, with
    failures ([true]) or without ([false]), and is proved sound for [run]; [pstep]
    and [guarded] are its small steps and their proof rule, for interleavings, in which a
    goroutine keeps an account of what it knows and may still do.  Errors
    are values of [res], with the wrapping and the sentinels of Go errors and the
    codes of gRPC statuses (Errors.v).  An [int] is a [Z], wrapped with [wrap64] or
    [wrap32] where the source converts or can overflow; instants and durations are
    nanoseconds; strings are byte strings.

    What is outside the repository is a parameter: the classes [Env] and [EnvLaws]
    (Env.v: row order of an unordered query, collation, UUIDs, URL and zip parsing,
    pre-signed URLs) with the concrete instance [toy_env]; the Kubernetes client as
    a record of operations ([KubeClient]) with the laws [KubeLaws], met by
    [api_server]; backends as a record ([Provider]) with the interfaces
    [LawfulProvider] and [RemoteProvider] that the scheduler and the recycler are
    proved against and the Kubernetes provider discharges; the HTTP client of
    completion hooks; the environment variables and the JSON and duration parsers;
    the library that the code generated by gqlgen calls, as the classes [Gql],
    [GqlLaws] and [Introspection], met by [toy_gql] (GqlDemo.v); the gRPC
    runtime, as the classes [Grpc] and [GrpcLaws], met by [toy_grpc] (Grpc.v), and when
    its [Serve] and [GracefulStop] return (Shutdown.v).

    A function of the generated GraphQL executor is a [G] (GqlRuntime.v): a program
    that threads the errors of the response and may panic.  A request goes from
    [Exec] (GqlExec.v) through the object functions and the root fields to the
    resolvers of Graph.v and so to internal/service and the database.

    ** Files

    - Prelude.v: this header, notations, string and integer lemmas, [clean].
    - Errors.v, Model.v, Env.v, Proto.v, World.v: data (internal/model,
      proto/control.pb.go, the package variables) and the environment.
    - Effects.v: programs, their executions and the proof rules.
    - Store.v, StoreFacts.v: gorm queries over typed tables (Find, First, Count,
      Updates, Create with unique keys, GetDB) and their rules.
    - Lifecycle.v: the status graphs, the invariant [Inv] between a task and its
      shards, and the relation [life].  Lawful.v: [lawful] programs, each of whose
      atomic actions keeps [Inv], moves rows along [life], keeps the identity of
      agents, assigns shards only to agents the goroutine has registered and starts
      completion hooks only for tasks the goroutine has finished.  Demo.v: a small
      deployment on which theorems are evaluated.
    - TaskOrm.v, TaskShardOrm.v, TenantOrm.v, ClusterOrm.v: internal/orm.
    - AgentService.v: the registry, registration, heartbeats, timers.
    - TaskHooks.v, TaskStatus.v, TaskLease.v, TaskApi.v (with GoText.v), TaskPoll.v:
      internal/service/task_service.
    - ReadCommitted.v: concurrent transactions, statement by statement, with row locks
      as PostgreSQL takes them at READ COMMITTED, and a logic of lock rights for them.
      Isolation.v: the transactions of task_service and task_shard_orm in it.
    - ClusterService.v, ClusterFacts.v, PollFacts.v: cluster records, billing, the
      recycler's and the scheduler's wake-ups.
    - Control.v, ControlFacts.v: internal/control.  AgentWork.v: a whole session of an
      agent that answers what it is assigned.
    - K8sBackend.v: backend/k8.  Config.v: internal/config and internal/auth.
    - GqlModel.v, Graph.v, GqlApi.v: graph/model, the resolvers of graph/ and how the
      executor calls them.
    - GqlRuntime.v: the gqlgen library as the generated code sees it.  GqlMarshal.v,
      GqlIntrospect.v, GqlExec.v, GqlComplexity.v: graph/generated, function by
      function.  GqlSchema.v: the schema, its typing of queries and responses and its
      reference execution.
    - GqlSpec.v: a program logic for the executor, with the rules for fields, lists
      and objects.  GqlFacts.v, GqlTyping.v, GqlIntrospectFacts.v, GqlRoot.v: the
      executor against the schema.  GqlEffects.v: what a request may do follows from
      what its resolvers may do.  GqlQueries.v: requests end to end.  GqlDemo.v: a
      concrete runtime.
    - Grpc.v: the gRPC service generated from proto/control.proto and the server
      that NewGRPCServer makes of it, over an interface of the gRPC runtime.
    - Timers.v: the timers of the registry as expiring events among the other calls.
    - System.v: cmd/server; the server as interleaved goroutines with arriving
      requests, loop ticks, timers, hook goroutines, crashes and restarts.
    - Shutdown.v: the second half of cmd/server/main.go; the wait group, the signal,
      server failures and the graceful shutdown, as a step relation.

    ** What is proved

    - Whole system (C1-C4): in every interleaved execution with failures and
      crashes, task and shard statuses stay consistent and finished tasks have no
      loose ends (C1), a completion hook is started at most once per task and tells
      the truth (C2), rows move only along the life cycle and terminal statuses are
      final (C3), and shards are assigned only within their tenant (C4).  Every
      handler, loop, timer and hook goroutine is proved [lawful] for it, and System.v
      adds their accounts up.
    - Leasing (C5), the liveness of a session (C6: one agent drains its tenant's
      queue and its tasks succeed), reports and aggregation (C8-C10, with a refinement of an
      abstract aggregate), cancellation (C11) and
      submission (C13), both from the GraphQL request to the rows and the response,
      the notification of agents (C12), assignment
      with its three outcomes, complete, undone and half done (C14), report validation (C15), streams (C16): the functional
      behaviour on every branch under every oracle, and progress without failures.
    - Isolation (C7): executions of the transactions interleaved statement by statement
      refine, in the order of their commits, specifications of the transactions that
      are weaker than the bodies run alone.  The specifications keep the invariant and
      the life cycles of C1 and C3.  They allow what READ COMMITTED allows and a serial
      execution of the bodies does not: a lease can miss the oldest candidate, and a
      roll-back can leave a task QUEUED that it would have put back to waiting, which
      [roll_back_overtaken] exhibits.
    - Agents (C17-C19: registration, reconnection and, as long as no callback is
      delayed, the timers), the end of a grace period, which strands the shard when the
      roll-back fails (C20), roll-backs and clean-up (C21, C22).
    - Clusters: the recycler's safety and completeness (C23, C24), a whole wake-up
      of the scheduler (C25), one cluster record per tenant (C26), provisioning
      (C27).
    - Bundles and configuration (C28-C30), with the overflow of integer variables
      (C30).
    - Behaviour that differs from what the code means to do (C31-C34; the other
      findings are theorems of their components).  C34 is a race: it names the point at
      which a handler is interrupted and what it then does in any state.
    - The GraphQL API: every response to a valid request conforms to the schema and
      the executor never panics (C35); the object functions are the schema's
      reference execution (C36); introspection is the one solution of its recursion and
      terminates (C37); a query end to end,
      from its arguments to the response and the database (C38).
    - The process: it always shuts down (C39) and leaves no goroutine behind (C40).

    ** Bounds

    Programs are finite trees.  [___Type], whose recursion follows the query, is cut at
    the depth of the query; C37 shows that the cut is never reached, whatever is put
    there, and that the result satisfies the equation of the source.  The retry loop of
    LeaseNextShard has the source's bound of 100, which [LeaseNextShard_progress] shows
    is never exhausted without failures; the loops of the background goroutines take the number of
    wake-ups the ticker delivers, and System.v lets them wake up at any time, any
    number of times; a stream takes the finite list of results of Recv.  In
    Shutdown.v the loops see a finite number of ticks that no theorem bounds: a
    [select] on a cancelled context picks a waiting tick again only by chance.

    ** Not modelled

    A SQL statement is atomic: it sees one snapshot and waits for the rows it changes
    before it looks at them.  A transaction is one action in System.v and in the
    theorems of single handlers.  That is an idealisation: C7 shows that interleaved
    transactions keep the invariant and the life cycles too, and end a task at most
    once, but not that they leave the rows that the whole bodies would, in some order.  A deadlock is a statement that
    fails, and contexts and deadlines are failures of calls.  Logging and HTTP routing
    (gin) are left out, as are the GraphQL parser and validator (gqlparser; a query is
    its selected fields, and [valid] says what validation lets through), the [@defer]
    groups, which no code fills, the serialisation and reflection of the control messages
    (the protobuf runtime), the Helm chart and the Rust agent, whose messages are arbitrary input except in C6.
    The hooks that only tests set are nil.  Three details are simpler than in Go:
    [quoted] writes a string between quotation marks where the source's %q also escapes
    characters, in texts of errors only; [IsNearBoundary] subtracts instants without
    the saturation of time.Until at 292 years; and [MarshalSlice_order] lets the panic
    of an element pass to the field, where gqlgen, which is told not to leave panics
    alone, may recover it at the element (the elements of the API do not panic).

    ** Left for later

    The list query and CreateTenant end to end over GraphQL, the effect of scaling
    on the StatefulSet, delivery of completion hooks, the invariant of the agent
    registry in the interleaved system, and the liveness of a session with failing
    shards or among several agents. *)

From stdpp Require Export base gmap strings list sorting pretty relations.
From Stdlib Require Export ZArith Lia.

Declare Scope go_scope.
Delimit Scope go_scope with go.
Open Scope string_scope.
Open Scope go_scope.

(** ** Identifiers and machine integers

    A [uuid.UUID] is sixteen bytes; it is kept as the natural number those
    bytes write in base 256, so [uuid.Nil] is [0]. *)
Abbreviation uuid := N (only parsing).
Definition uuid_Nil : uuid := 0%N.

(** Go's [int] and [time.Duration] are 64-bit two's complement, [int32] is
    32-bit: arithmetic wraps. *)
Definition wrap (bits : Z) (x : Z) : Z :=
  ((x + 2 ^ (bits - 1)) mod 2 ^ bits - 2 ^ (bits - 1))%Z.
Definition wrap64 (x : Z) : Z := wrap 64 x.
Definition wrap32 (x : Z) : Z := wrap 32 x.

(** Durations and instants are counted in nanoseconds. *)
Definition Second : Z := 1000000000.
Definition Minute : Z := (60 * Second)%Z.
Definition duration_of_seconds (n : Z) : Z := wrap64 (n * Second).

(** ** Strings *)
Definition dquote : string := String (Ascii.ascii_of_nat 34) EmptyString.

(** [eqs] is Go's [==] on strings. *)
Definition eqs (a b : string) : bool := String.eqb a b.
Notation "a =s b" := (eqs a b) (at level 70, no associativity) : go_scope.
Notation "a <>s b" := (negb (eqs a b)) (at level 70, no associativity) : go_scope.

(** Membership of a string in a slice of strings, as in SQL's [IN ?]. *)
Definition ins (s : string) (l : list string) : bool := existsb (eqs s) l.

(** [strings.HasPrefix], [strings.CutPrefix], [strings.HasSuffix] and
    [strings.Contains]. *)
Fixpoint cut_prefix (pre s : string) : option string :=
  match pre, s with
  | EmptyString, _ => Some s
  | String a pre', String b s' =>
      if Ascii.eqb a b then cut_prefix pre' s' else None
  | String _ _, EmptyString => None
  end.

Fixpoint has_suffix (suf s : string) : bool :=
  (suf =s s) ||
  match s with
  | EmptyString => false
  | String _ s' => has_suffix suf s'
  end.

Fixpoint contains (sub s : string) : bool :=
  match cut_prefix sub s with
  | Some _ => true
  | None =>
      match s with
      | EmptyString => false
      | String _ s' => contains sub s'
      end
  end.

(** [fmt]'s [%v] of a slice of strings and [%q] of a string whose characters
    are printable and hold neither a quote nor a backslash (statuses, UUIDs and
    backend names). *)
Fixpoint joins (sep : string) (l : list string) : string :=
  match l with
  | [] => ""
  | [x] => x
  | x :: l' => x +:+ sep +:+ joins sep l'
  end.
Definition show_slice (l : list string) : string := "[" +:+ joins " " l +:+ "]".
Definition quoted (s : string) : string := dquote +:+ s +:+ dquote.

#[global] Arguments ins : simpl never.

(** ** Generic lemmas *)
Lemma eqs_spec (a b : string) : (a =s b) = true <-> a = b.
Proof. apply String.eqb_eq. Qed.

Lemma eqs_refl (a : string) : (a =s a) = true.
Proof. by apply eqs_spec. Qed.

Lemma eqs_neq (a b : string) : (a =s b) = false <-> a <> b.
Proof. apply String.eqb_neq. Qed.

Lemma ins_spec (s : string) (l : list string) : ins s l = true <-> s ∈ l.
Proof.
  unfold ins. rewrite existsb_exists. setoid_rewrite eqs_spec.
  split.
  - intros (x & Hin & ->). by apply list_elem_of_In.
  - intros Hin. exists s. by rewrite <-list_elem_of_In.
Qed.

Lemma ins_false (s : string) (l : list string) : ins s l = false <-> s ∉ l.
Proof. rewrite <-(ins_spec s l). destruct (ins s l); naive_solver. Qed.

Lemma wrap_small (bits x : Z) :
  (0 < bits)%Z -> (- 2 ^ (bits - 1) <= x < 2 ^ (bits - 1))%Z -> wrap bits x = x.
Proof.
  intros Hb Hx. unfold wrap.
  assert (2 ^ bits = 2 * 2 ^ (bits - 1))%Z as Heq.
  { replace bits with (Z.succ (bits - 1)) at 1 by lia.
    rewrite Z.pow_succ_r by lia. lia. }
  rewrite Z.mod_small by lia. lia.
Qed.

Lemma wrap_range (bits x : Z) :
  (0 < bits)%Z -> (- 2 ^ (bits - 1) <= wrap bits x < 2 ^ (bits - 1))%Z.
Proof.
  intros Hb. unfold wrap.
  assert (2 ^ bits = 2 * 2 ^ (bits - 1))%Z as Heq.
  { replace bits with (Z.succ (bits - 1)) at 1 by lia.
    rewrite Z.pow_succ_r by lia. lia. }
  assert (0 < 2 ^ (bits - 1))%Z as Hpos by (apply Z.pow_pos_nonneg; lia).
  pose proof (Z.mod_pos_bound (x + 2 ^ (bits - 1)) (2 ^ bits)). lia.
Qed.

Lemma wrap_congr (bits x y k : Z) :
  (0 < bits)%Z -> x = (y + k * 2 ^ bits)%Z -> wrap bits x = wrap bits y.
Proof.
  intros Hb ->. unfold wrap.
  replace (y + k * 2 ^ bits + 2 ^ (bits - 1))%Z with (y + 2 ^ (bits - 1) + k * 2 ^ bits)%Z by lia.
  rewrite Z.mod_add; [done|]. assert (0 < 2 ^ bits)%Z by (apply Z.pow_pos_nonneg; lia). lia.
Qed.
Lemma wrap_off (bits x : Z) : (0 < bits)%Z -> exists k, wrap bits x = (x + k * 2 ^ bits)%Z.
Proof.
  intros Hb. assert (0 < 2 ^ bits)%Z as Hp by (apply Z.pow_pos_nonneg; lia).
  exists (- ((x + 2 ^ (bits - 1)) / 2 ^ bits))%Z. unfold wrap.
  pose proof (Z.div_mod (x + 2 ^ (bits - 1)) (2 ^ bits)). lia.
Qed.
(** A sum or product may be wrapped at every step or once at the end. *)
Lemma wrap64_add (x y : Z) : wrap64 (wrap64 x + y) = wrap64 (x + y).
Proof.
  destruct (wrap_off 64 x) as [k Hk]; [lia|]. apply (wrap_congr 64 _ _ k); [lia|].
  unfold wrap64. lia.
Qed.
Lemma wrap64_mul (x y z : Z) : wrap64 (wrap64 x * y + z) = wrap64 (x * y + z).
Proof.
  destruct (wrap_off 64 x) as [k Hk]; [lia|]. apply (wrap_congr 64 _ _ (k * y)); [lia|].
  unfold wrap64. rewrite Hk. lia.
Qed.

(** ** Automation

    The database [prog] holds the closure lemmas of program predicates, [store]
    the facts on concrete databases; [clean] turns the string and boolean tests
    among the hypotheses into propositions. *)
Create HintDb prog discriminated.
Create HintDb store discriminated.
Create HintDb gql discriminated.

Ltac clean :=
  repeat match goal with
  | H : (_ && _)%bool = true |- _ => apply andb_true_iff in H as [? ?]
  | H : (_ || _)%bool = false |- _ => apply orb_false_iff in H as [? ?]
  | H : negb _ = true |- _ => apply negb_true_iff in H
  | H : negb _ = false |- _ => apply negb_false_iff in H
  | H : eqs _ _ = true |- _ => apply eqs_spec in H
  | H : eqs _ _ = false |- _ => apply eqs_neq in H
  | H : ins _ _ = true |- _ => apply ins_spec in H
  | H : ins _ _ = false |- _ => apply ins_false in H
  | H : bool_decide _ = true |- _ => apply bool_decide_eq_true in H
  | H : bool_decide _ = false |- _ => apply bool_decide_eq_false in H
  end.
