(* ===== verification/Errors.v ===== *)
(** * Go error values

    The errors the repository builds and inspects: sentinel values compared
    with [errors.Is], [fmt.Errorf] with and without [%w], gRPC status errors
    ([status.Error], [status.Errorf]), and errors that come from outside the
    repository (database driver, OSS client, transport), of which only the text
    is visible. *)
From S2P Require Import Prelude.

Inductive sentinel :=
| ErrRecordNotFound        (* gorm.ErrRecordNotFound *)
| ErrAgentNotFound         (* agent_service.ErrAgentNotFound *)
| ErrAgentIdentityConflict (* agent_service.ErrAgentIdentityConflict *)
| ErrTaskNotFound          (* task_service.ErrTaskNotFound *)
| ErrTenantNotFound        (* task_service.ErrTenantNotFound *)
| DeadlineExceeded         (* context.DeadlineExceeded *)
| Canceled.                (* context.Canceled *)

#[export] Instance sentinel_eq_dec : EqDecision sentinel.
Proof. solve_decision. Defined.

Definition sentinel_text (s : sentinel) : string :=
  match s with
  | ErrRecordNotFound => "record not found"
  | ErrAgentNotFound => "agent not found"
  | ErrAgentIdentityConflict => "agent identity conflict"
  | ErrTaskNotFound => "task not found"
  | ErrTenantNotFound => "tenant not found"
  | DeadlineExceeded => "context deadline exceeded"
  | Canceled => "context canceled"
  end.

(** The gRPC codes the repository uses; [Unknown] is [status.Code] of an error
    that carries no status. *)
Inductive code :=
| CUnknown | InvalidArgument | NotFound | PermissionDenied
| FailedPrecondition | Unimplemented | Internal | Unauthenticated.

#[export] Instance code_eq_dec : EqDecision code.
Proof. solve_decision. Defined.

Definition code_text (c : code) : string :=
  match c with
  | CUnknown => "Unknown"
  | InvalidArgument => "InvalidArgument"
  | NotFound => "NotFound"
  | PermissionDenied => "PermissionDenied"
  | FailedPrecondition => "FailedPrecondition"
  | Unimplemented => "Unimplemented"
  | Internal => "Internal"
  | Unauthenticated => "Unauthenticated"
  end.

Inductive error :=
| ESentinel (s : sentinel)
| EExternal (msg : string)                      (* made outside the repository *)
| ENew (msg : string)                           (* fmt.Errorf without %w *)
| EWrap (pre : string) (e : error) (post : string) (* fmt.Errorf with one %w *)
| EStatus (c : code) (msg : string).            (* status.Error / status.Errorf *)

#[export] Instance error_eq_dec : EqDecision error.
Proof. solve_decision. Defined.

(** The [Error()] method. *)
Fixpoint Error (e : error) : string :=
  match e with
  | ESentinel s => sentinel_text s
  | EExternal m | ENew m => m
  | EWrap pre e' post => pre +:+ Error e' +:+ post
  | EStatus c m => "rpc error: code = " +:+ code_text c +:+ " desc = " +:+ m
  end.

(** [errors.Is(err, sentinel)]: the chain of wrapped errors is searched. *)
Fixpoint errors_Is (e : error) (s : sentinel) : bool :=
  match e with
  | ESentinel s' => bool_decide (s = s')
  | EWrap _ e' _ => errors_Is e' s
  | _ => false
  end.

(** [status.Code(err)] for a non-nil error. *)
Fixpoint status_Code (e : error) : code :=
  match e with
  | EStatus c _ => c
  | EWrap _ e' _ => status_Code e'
  | _ => CUnknown
  end.

(** [fmt.Errorf("pre: %w", err)]. *)
Definition wrapf (pre : string) (e : error) : error := EWrap (pre +:+ ": ") e "".
(** [status.Errorf(c, "pre: %v", err)]. *)
Definition statusf (c : code) (pre : string) (e : error) : error :=
  EStatus c (pre +:+ ": " +:+ Error e).

(** A Go result pair [(value, error)]: the value is only read when the error is
    nil. *)
Inductive res (A : Type) :=
| Ok (a : A)
| Err (e : error).
Arguments Ok {_} _.
Arguments Err {_} _.

Definition is_ok {A} (r : res A) : bool :=
  match r with Ok _ => true | Err _ => false end.
Definition is_err {A} (r : res A) : bool := negb (is_ok r).

Lemma errors_Is_wrap pre e post s : errors_Is (EWrap pre e post) s = errors_Is e s.
Proof. reflexivity. Qed.

Lemma status_Code_statusf c pre e : status_Code (statusf c pre e) = c.
Proof. reflexivity. Qed.
