(* ===== verification/Model.v ===== *)
(** * Persistent data (internal/model)

    The rows of the four tables, with the columns gorm derives from the struct
    tags, and the status constants.  A nullable column is an [option]: a SQL
    NULL read into a Go [string] field gives the empty string, which the
    accessor [AssignedAgentID] writes out.  Column assignments, the
    [map[string]any] handed to gorm's [Updates], are values of the [*_set]
    types. *)
From S2P Require Import Prelude.

(** base_uuid_model.go *)
Record BaseUUIDModel := mkBase {
  ID : uuid;
  CreatedAt : Z;
  UpdatedAt : Z;
  DeletedAt : option Z;
}.

(** task.go *)
Definition TaskStatusPending := "PENDING".
Definition TaskStatusWaitingForAgents := "WAITING_FOR_AGENTS".
Definition TaskStatusQueued := "QUEUED".
Definition TaskStatusRunning := "RUNNING".
Definition TaskStatusSucceeded := "SUCCEEDED".
Definition TaskStatusFailed := "FAILED".
Definition TaskStatusCancelled := "CANCELLED".

Record Task := mkTask {
  task_base : BaseUUIDModel;
  TenantID : uuid;
  Status : string;
  CompletionHookURL : string;
  ShardCount : Z;
  StartedAt : option Z;
  FinishedAt : option Z;
  HookDeliveredAt : option Z;
  HookLastError : string;
  LastError : string;
}.

(** task_shard.go *)
Definition ShardStatusQueued := "QUEUED".
Definition ShardStatusLeased := "LEASED".
Definition ShardStatusRunning := "RUNNING".
Definition ShardStatusSucceeded := "SUCCEEDED".
Definition ShardStatusFailed := "FAILED".
Definition ShardStatusCancelled := "CANCELLED".

Record TaskShard := mkShard {
  shard_base : BaseUUIDModel;
  sh_TaskID : uuid;
  ScriptName : string;
  sh_Status : string;
  sh_assigned_agent_id : option string;
  OutputOSSKey : string;
  OutputSHA256 : string;
  sh_StartedAt : option Z;
  sh_FinishedAt : option Z;
  sh_LastError : string;
}.

Definition AssignedAgentID (s : TaskShard) : string :=
  default "" (sh_assigned_agent_id s).

(** tenant.go *)
Record Tenant := mkTenant {
  tenant_base : BaseUUIDModel;
  Name : string;
  PrimaryBackendName : string;
  MaxAgents : Z;
}.

(** cluster.go *)
Definition ClusterStatusProvisioning := "PROVISIONING".
Definition ClusterStatusActive := "ACTIVE".
Definition ClusterStatusTerminated := "TERMINATED".

Record Cluster := mkCluster {
  cluster_base : BaseUUIDModel;
  cl_TenantID : uuid;
  cl_Status : string;
  BackendName : string;
  BillingCycleSeconds : Z;
  NextBillingBoundaryAt : Z;
  IdleSince : option Z;
}.

#[export] Instance base_eq_dec : EqDecision BaseUUIDModel.
Proof. solve_decision. Defined.
#[export] Instance task_eq_dec : EqDecision Task.
Proof. solve_decision. Defined.
#[export] Instance shard_eq_dec : EqDecision TaskShard.
Proof. solve_decision. Defined.
#[export] Instance tenant_eq_dec : EqDecision Tenant.
Proof. solve_decision. Defined.
#[export] Instance cluster_eq_dec : EqDecision Cluster.
Proof. solve_decision. Defined.

(** What gorm needs of a model: the embedded base (for the primary key, the
    timestamps and the soft-delete filter) and how to write it back. *)
Class Row (R : Type) := {
  base : R -> BaseUUIDModel;
  with_base : BaseUUIDModel -> R -> R;
}.

#[export] Instance Task_Row : Row Task := {
  base := task_base;
  with_base b t := mkTask b (TenantID t) (Status t) (CompletionHookURL t) (ShardCount t)
    (StartedAt t) (FinishedAt t) (HookDeliveredAt t) (HookLastError t) (LastError t);
}.
#[export] Instance TaskShard_Row : Row TaskShard := {
  base := shard_base;
  with_base b s := mkShard b (sh_TaskID s) (ScriptName s) (sh_Status s)
    (sh_assigned_agent_id s) (OutputOSSKey s) (OutputSHA256 s) (sh_StartedAt s)
    (sh_FinishedAt s) (sh_LastError s);
}.
#[export] Instance Tenant_Row : Row Tenant := {
  base := tenant_base;
  with_base b t := mkTenant b (Name t) (PrimaryBackendName t) (MaxAgents t);
}.
#[export] Instance Cluster_Row : Row Cluster := {
  base := cluster_base;
  with_base b c := mkCluster b (cl_TenantID c) (cl_Status c) (BackendName c)
    (BillingCycleSeconds c) (NextBillingBoundaryAt c) (IdleSince c);
}.

Class LawfulRow (R : Type) `{Row R} : Prop := {
  base_with_base : forall b r, base (with_base b r) = b;
  with_with_base : forall b b' r, with_base b (with_base b' r) = with_base b r;
}.
#[export] Instance Task_lawful : LawfulRow Task.
Proof. by split. Qed.
#[export] Instance TaskShard_lawful : LawfulRow TaskShard.
Proof. by split. Qed.
#[export] Instance Tenant_lawful : LawfulRow Tenant.
Proof. by split. Qed.
#[export] Instance Cluster_lawful : LawfulRow Cluster.
Proof. by split. Qed.

Definition rid {R} `{Row R} (r : R) : uuid := ID (base r).
Definition live {R} `{Row R} (r : R) : bool := bool_decide (DeletedAt (base r) = None).
(** gorm sets [updated_at] on every update made through a model. *)
Definition touch {R} `{Row R} (now : Z) (r : R) : R :=
  with_base (mkBase (rid r) (CreatedAt (base r)) now (DeletedAt (base r))) r.

#[global] Arguments rid : simpl never.
#[global] Arguments live : simpl never.
#[global] Arguments touch : simpl never.

(** Column assignments. *)
Inductive task_set :=
| SetTaskStatus (v : string)
| SetTaskStartedAt (v : option Z)
| SetTaskFinishedAt (v : option Z)
| SetHookDeliveredAt (v : option Z)
| SetHookLastError (v : string)
| SetTaskLastError (v : string).

Definition set_task (u : task_set) (t : Task) : Task :=
  match u with
  | SetTaskStatus v =>
      mkTask (task_base t) (TenantID t) v (CompletionHookURL t) (ShardCount t)
        (StartedAt t) (FinishedAt t) (HookDeliveredAt t) (HookLastError t)
        (LastError t)
  | SetTaskStartedAt v =>
      mkTask (task_base t) (TenantID t) (Status t) (CompletionHookURL t)
        (ShardCount t) v (FinishedAt t) (HookDeliveredAt t) (HookLastError t)
        (LastError t)
  | SetTaskFinishedAt v =>
      mkTask (task_base t) (TenantID t) (Status t) (CompletionHookURL t)
        (ShardCount t) (StartedAt t) v (HookDeliveredAt t) (HookLastError t)
        (LastError t)
  | SetHookDeliveredAt v =>
      mkTask (task_base t) (TenantID t) (Status t) (CompletionHookURL t)
        (ShardCount t) (StartedAt t) (FinishedAt t) v (HookLastError t)
        (LastError t)
  | SetHookLastError v =>
      mkTask (task_base t) (TenantID t) (Status t) (CompletionHookURL t)
        (ShardCount t) (StartedAt t) (FinishedAt t) (HookDeliveredAt t) v
        (LastError t)
  | SetTaskLastError v =>
      mkTask (task_base t) (TenantID t) (Status t) (CompletionHookURL t)
        (ShardCount t) (StartedAt t) (FinishedAt t) (HookDeliveredAt t)
        (HookLastError t) v
  end.

Inductive shard_set :=
| SetShardStatus (v : string)
| SetAssignedAgentID (v : option string)
| SetOutputOSSKey (v : string)
| SetOutputSHA256 (v : string)
| SetShardStartedAt (v : option Z)
| SetShardFinishedAt (v : option Z)
| SetShardLastError (v : string).

Definition set_shard (u : shard_set) (s : TaskShard) : TaskShard :=
  match u with
  | SetShardStatus v =>
      mkShard (shard_base s) (sh_TaskID s) (ScriptName s) v (sh_assigned_agent_id s)
        (OutputOSSKey s) (OutputSHA256 s) (sh_StartedAt s) (sh_FinishedAt s)
        (sh_LastError s)
  | SetAssignedAgentID v =>
      mkShard (shard_base s) (sh_TaskID s) (ScriptName s) (sh_Status s) v
        (OutputOSSKey s) (OutputSHA256 s) (sh_StartedAt s) (sh_FinishedAt s)
        (sh_LastError s)
  | SetOutputOSSKey v =>
      mkShard (shard_base s) (sh_TaskID s) (ScriptName s) (sh_Status s)
        (sh_assigned_agent_id s) v (OutputSHA256 s) (sh_StartedAt s)
        (sh_FinishedAt s) (sh_LastError s)
  | SetOutputSHA256 v =>
      mkShard (shard_base s) (sh_TaskID s) (ScriptName s) (sh_Status s)
        (sh_assigned_agent_id s) (OutputOSSKey s) v (sh_StartedAt s)
        (sh_FinishedAt s) (sh_LastError s)
  | SetShardStartedAt v =>
      mkShard (shard_base s) (sh_TaskID s) (ScriptName s) (sh_Status s)
        (sh_assigned_agent_id s) (OutputOSSKey s) (OutputSHA256 s) v
        (sh_FinishedAt s) (sh_LastError s)
  | SetShardFinishedAt v =>
      mkShard (shard_base s) (sh_TaskID s) (ScriptName s) (sh_Status s)
        (sh_assigned_agent_id s) (OutputOSSKey s) (OutputSHA256 s)
        (sh_StartedAt s) v (sh_LastError s)
  | SetShardLastError v =>
      mkShard (shard_base s) (sh_TaskID s) (ScriptName s) (sh_Status s)
        (sh_assigned_agent_id s) (OutputOSSKey s) (OutputSHA256 s)
        (sh_StartedAt s) (sh_FinishedAt s) v
  end.

Inductive cluster_set :=
| SetClusterStatus (v : string)
| SetBackendName (v : string)
| SetBillingCycleSeconds (v : Z)
| SetNextBillingBoundaryAt (v : Z)
| SetIdleSince (v : option Z).

Definition set_cluster (u : cluster_set) (c : Cluster) : Cluster :=
  match u with
  | SetClusterStatus v =>
      mkCluster (cluster_base c) (cl_TenantID c) v (BackendName c)
        (BillingCycleSeconds c) (NextBillingBoundaryAt c) (IdleSince c)
  | SetBackendName v =>
      mkCluster (cluster_base c) (cl_TenantID c) (cl_Status c) v (BillingCycleSeconds c)
        (NextBillingBoundaryAt c) (IdleSince c)
  | SetBillingCycleSeconds v =>
      mkCluster (cluster_base c) (cl_TenantID c) (cl_Status c) (BackendName c) v
        (NextBillingBoundaryAt c) (IdleSince c)
  | SetNextBillingBoundaryAt v =>
      mkCluster (cluster_base c) (cl_TenantID c) (cl_Status c) (BackendName c)
        (BillingCycleSeconds c) v (IdleSince c)
  | SetIdleSince v =>
      mkCluster (cluster_base c) (cl_TenantID c) (cl_Status c) (BackendName c)
        (BillingCycleSeconds c) (NextBillingBoundaryAt c) v
  end.

(** A list of assignments, applied to a row. *)
Definition assign_task (us : list task_set) (t : Task) : Task :=
  fold_left (fun t u => set_task u t) us t.
Definition assign_shard (us : list shard_set) (s : TaskShard) : TaskShard :=
  fold_left (fun s u => set_shard u s) us s.
Definition assign_cluster (us : list cluster_set) (c : Cluster) : Cluster :=
  fold_left (fun c u => set_cluster u c) us c.

(** The three terminal statuses, the same strings for tasks and shards. *)
Definition terminal_statuses : list string :=
  [TaskStatusSucceeded; TaskStatusFailed; TaskStatusCancelled].

(** [touch] only changes [updated_at]. *)
Lemma touch_task now (t : Task) :
  Status (touch now t) = Status t /\ TenantID (touch now t) = TenantID t /\
  rid (touch now t) = rid t /\ live (touch now t) = live t.
Proof. done. Qed.
Lemma touch_shard now (s : TaskShard) :
  sh_Status (touch now s) = sh_Status s /\ sh_TaskID (touch now s) = sh_TaskID s /\
  rid (touch now s) = rid s /\ live (touch now s) = live s.
Proof. done. Qed.
