(* ===== verification/Env.v ===== *)
(** * What lies outside the repository

    The behaviour of third-party packages and of the database engine that the
    code relies on, as operations of a type class, and what is assumed of them
    as the laws of a second class.  [toy_env] is a concrete instance, used to
    run the model. *)
From Stdlib Require Import Ascii.
From S2P Require Import Prelude Errors.

(** A parsed URL: the parts the repository reads or writes, the rest opaque. *)
Record URL := mkURL {
  u_Scheme : string;
  u_Host : string;
  u_Path : string; (* decoded *)
  u_Rest : string;
}.

Class Env := {
  (** PostgreSQL returns the rows of a table in an order of its own. *)
  scan : forall {R : Type}, gmap uuid R -> list R;
  (** The collation [ORDER BY] uses on text columns. *)
  collate : string -> string -> bool;
  (** github.com/google/uuid. *)
  uuid_String : uuid -> string;
  uuid_Parse : string -> res uuid;
  uuid_NewV7 : nat -> uuid;
  (** github.com/yichozy/hopebox/aliyun: pre-signed URLs of an object key. *)
  oss_GetObjectURL : string -> string;
  oss_SignPutURL : string -> Z -> string;
  (** net/url: parsing and [URL.String]. *)
  url_Parse : string -> res URL;
  url_String : URL -> string;
  (** archive/zip: the entries of an archive, each with its name and whether
      [FileInfo().IsDir()]. *)
  zip_NewReader : string -> res (list (string * bool));
}.

(** [scan_perm]: a query sees every row once.  [uuid_Parse_String]: parsing the
    canonical form gives the UUID back.  [collate_total], [collate_trans]: a collation
    orders any two texts, transitively.  [uuid_NewV7_inj], [uuid_NewV7_nonnil]:
    successive version-7 UUIDs are distinct and never nil. *)
Class EnvLaws (E : Env) : Prop := {
  scan_perm : forall {R : Type} (m : gmap uuid R), scan m ≡ₚ (map_to_list m).*2;
  collate_total : forall a b, collate a b = true \/ collate b a = true;
  collate_trans : forall a b c, collate a b = true -> collate b c = true -> collate a c = true;
  uuid_Parse_String : forall u, uuid_Parse (uuid_String u) = Ok u;
  uuid_NewV7_inj : forall i j, uuid_NewV7 i = uuid_NewV7 j -> i = j;
  uuid_NewV7_nonnil : forall i, uuid_NewV7 i <> uuid_Nil;
}.

(** A concrete environment: rows in the order of the finite map, UUIDs written
    in unary. *)
Fixpoint unary (n : nat) : string :=
  match n with
  | O => ""
  | S n' => String "|"%char (unary n')
  end.

Fixpoint parse_unary (s : string) : option nat :=
  match s with
  | EmptyString => Some O
  | String c s' => if Ascii.eqb c "|"%char then S <$> parse_unary s' else None
  end.

Definition toy_env : Env := {|
  scan R m := (map_to_list m).*2;
  collate := String.leb;
  uuid_String u := String "u"%char (unary (N.to_nat u));
  uuid_Parse s :=
    match s with
    | String c s' =>
        match (if Ascii.eqb c "u"%char then parse_unary s' else None) with
        | Some n => Ok (N.of_nat n)
        | None => Err (EExternal "invalid UUID")
        end
    | EmptyString => Err (EExternal "invalid UUID length: 0")
    end;
  uuid_NewV7 i := (1000 + N.of_nat i)%N;
  oss_GetObjectURL key := "https://oss/" +:+ key;
  oss_SignPutURL key _ := "https://oss/put/" +:+ key;
  url_Parse raw :=
    match cut_prefix "http://" raw with
    | Some rest => Ok (mkURL "http" rest "" "")
    | None => Ok (mkURL "" "" raw "")
    end;
  url_String u := if u_Scheme u =s "" then u_Path u else u_Scheme u +:+ "://" +:+ u_Host u;
  zip_NewReader bytes :=
    if bytes =s "" then Err (EExternal "zip: not a valid zip file")
    else Ok [("install.sh", false); ("cmd/", true); ("cmd/b.sh", false); ("cmd/a.sh", false);
             ("data/x.csv", false)];
|}.

Lemma parse_unary_unary n : parse_unary (unary n) = Some n.
Proof. induction n as [|n IH]; simpl; [done|]. by rewrite IH. Qed.

Lemma leb_trans a b c : String.leb a b = true -> String.leb b c = true -> String.leb a c = true.
Proof.
  unfold String.leb. revert b c. induction a as [|x a IH]; intros [|y b] [|z c]; cbn; try done.
  unfold Ascii.compare.
  destruct (N.compare_spec (N_of_ascii x) (N_of_ascii y)) as [Hxy|Hxy|Hxy]; try done;
    destruct (N.compare_spec (N_of_ascii y) (N_of_ascii z)) as [Hyz|Hyz|Hyz]; try done; intros H1 H2;
    destruct (N.compare_spec (N_of_ascii x) (N_of_ascii z)); try done; try lia.
  by apply (IH b).
Qed.

Lemma toy_laws : EnvLaws toy_env.
Proof.
  split; unfold toy_env; cbn.
  - done.
  - apply String.leb_total.
  - apply leb_trans.
  - intros u. rewrite parse_unary_unary. by rewrite N2Nat.id.
  - intros i j H. lia.
  - unfold uuid_Nil. lia.
Qed.
