(* ===== verification/Proto.v ===== *)
(** * Control-stream messages (proto/control.pb.go)

    A pointer to a message is an [option]: the generated getters accept nil and
    return the field's zero value for it.  The [oneof] payloads are inductive types,
    and the getters of an alternative return nil when another one is set.  The
    serialisation is protobuf's: a stream carries values of these types. *)
From S2P Require Import Prelude.

(** ** Messages and their getters *)
Record Register := mkRegister {
  reg_AgentId : string;
  reg_TenantId : string;
  reg_BackendName : string;
  reg_Token : string;
  reg_Version : string;
}.
Definition Register_GetAgentId (x : option Register) : string := from_option reg_AgentId "" x.
Definition Register_GetTenantId (x : option Register) : string := from_option reg_TenantId "" x.
Definition Register_GetBackendName (x : option Register) : string := from_option reg_BackendName "" x.
Definition Register_GetToken (x : option Register) : string := from_option reg_Token "" x.
Definition Register_GetVersion (x : option Register) : string := from_option reg_Version "" x.

Record Heartbeat := mkHeartbeat {
  hb_AgentId : string;
  hb_Status : string;
  hb_CurrentShardId : string;
}.
Definition Heartbeat_GetAgentId (x : option Heartbeat) : string := from_option hb_AgentId "" x.
Definition Heartbeat_GetStatus (x : option Heartbeat) : string := from_option hb_Status "" x.
Definition Heartbeat_GetCurrentShardId (x : option Heartbeat) : string := from_option hb_CurrentShardId "" x.

Record AssignShard := mkAssignShard {
  as_ShardId : string;
  as_TaskId : string;
  as_ScriptName : string;
  as_BundleDownloadUrl : string;
  as_OutputUploadUrl : string;
  as_OutputOssKey : string;
  as_TotalShards : Z; (* int32 *)
}.
Definition AssignShard_GetShardId (x : option AssignShard) : string := from_option as_ShardId "" x.
Definition AssignShard_GetTaskId (x : option AssignShard) : string := from_option as_TaskId "" x.
Definition AssignShard_GetScriptName (x : option AssignShard) : string := from_option as_ScriptName "" x.
Definition AssignShard_GetBundleDownloadUrl (x : option AssignShard) : string := from_option as_BundleDownloadUrl "" x.
Definition AssignShard_GetOutputUploadUrl (x : option AssignShard) : string := from_option as_OutputUploadUrl "" x.
Definition AssignShard_GetOutputOssKey (x : option AssignShard) : string := from_option as_OutputOssKey "" x.
Definition AssignShard_GetTotalShards (x : option AssignShard) : Z := from_option as_TotalShards 0%Z x.

Record Drain := mkDrain {}.
Record Shutdown := mkShutdown {}.

Record CancelShard := mkCancelShard { cs_ShardId : string }.
Definition CancelShard_GetShardId (x : option CancelShard) : string := from_option cs_ShardId "" x.

Record ShardAccepted := mkShardAccepted { sa_ShardId : string }.
Definition ShardAccepted_GetShardId (x : option ShardAccepted) : string := from_option sa_ShardId "" x.

Record ShardStarted := mkShardStarted { ss_ShardId : string }.
Definition ShardStarted_GetShardId (x : option ShardStarted) : string := from_option ss_ShardId "" x.

Record ShardFailed := mkShardFailed { sf_ShardId : string; sf_ErrorMessage : string }.
Definition ShardFailed_GetShardId (x : option ShardFailed) : string := from_option sf_ShardId "" x.
Definition ShardFailed_GetErrorMessage (x : option ShardFailed) : string := from_option sf_ErrorMessage "" x.

Record ShardResultReady := mkShardResultReady {
  sr_ShardId : string;
  sr_OutputOssKey : string;
  sr_Sha256 : string;
}.
Definition ShardResultReady_GetShardId (x : option ShardResultReady) : string := from_option sr_ShardId "" x.
Definition ShardResultReady_GetOutputOssKey (x : option ShardResultReady) : string := from_option sr_OutputOssKey "" x.
Definition ShardResultReady_GetSha256 (x : option ShardResultReady) : string := from_option sr_Sha256 "" x.

Record ShardResultStored := mkShardResultStored { st_ShardId : string }.
Definition ShardResultStored_GetShardId (x : option ShardResultStored) : string := from_option st_ShardId "" x.

(** ** What an agent sends: the payload, if it is set *)
Inductive agent_payload :=
| AgentMessage_Register (m : Register)
| AgentMessage_Heartbeat (m : Heartbeat)
| AgentMessage_ShardAccepted (m : ShardAccepted)
| AgentMessage_ShardStarted (m : ShardStarted)
| AgentMessage_ShardFailed (m : ShardFailed)
| AgentMessage_ShardResultReady (m : ShardResultReady).

Definition AgentMessage := option agent_payload.

Definition GetRegister (m : AgentMessage) : option Register :=
  match m with Some (AgentMessage_Register r) => Some r | _ => None end.
Definition GetHeartbeat (m : AgentMessage) : option Heartbeat :=
  match m with Some (AgentMessage_Heartbeat h) => Some h | _ => None end.
Definition GetShardAccepted (m : AgentMessage) : option ShardAccepted :=
  match m with Some (AgentMessage_ShardAccepted a) => Some a | _ => None end.
Definition GetShardStarted (m : AgentMessage) : option ShardStarted :=
  match m with Some (AgentMessage_ShardStarted s) => Some s | _ => None end.
Definition GetShardFailed (m : AgentMessage) : option ShardFailed :=
  match m with Some (AgentMessage_ShardFailed f) => Some f | _ => None end.
Definition GetShardResultReady (m : AgentMessage) : option ShardResultReady :=
  match m with Some (AgentMessage_ShardResultReady r) => Some r | _ => None end.

(** ** What the server sends: always with a payload *)
Inductive ServerMessage :=
| ServerMessage_AssignShard (m : AssignShard)
| ServerMessage_Drain (m : Drain)
| ServerMessage_Shutdown (m : Shutdown)
| ServerMessage_CancelShard (m : CancelShard)
| ServerMessage_ShardResultStored (m : ShardResultStored).

Definition GetAssignShard (x : option ServerMessage) : option AssignShard :=
  match x with Some (ServerMessage_AssignShard m) => Some m | _ => None end.
Definition GetDrain (x : option ServerMessage) : option Drain :=
  match x with Some (ServerMessage_Drain m) => Some m | _ => None end.
Definition GetShutdown (x : option ServerMessage) : option Shutdown :=
  match x with Some (ServerMessage_Shutdown m) => Some m | _ => None end.
Definition GetCancelShard (x : option ServerMessage) : option CancelShard :=
  match x with Some (ServerMessage_CancelShard m) => Some m | _ => None end.
Definition GetShardResultStored (x : option ServerMessage) : option ShardResultStored :=
  match x with Some (ServerMessage_ShardResultStored m) => Some m | _ => None end.

(** The getters of a message that is there are its fields. *)
Ltac getters := cbn [from_option
  Register_GetAgentId Register_GetTenantId Register_GetBackendName Register_GetToken
  Heartbeat_GetAgentId Heartbeat_GetStatus Heartbeat_GetCurrentShardId ShardStarted_GetShardId
  ShardFailed_GetShardId ShardFailed_GetErrorMessage
  ShardResultReady_GetShardId ShardResultReady_GetOutputOssKey ShardResultReady_GetSha256
  hb_AgentId hb_Status hb_CurrentShardId ss_ShardId sf_ShardId sf_ErrorMessage
  sr_ShardId sr_OutputOssKey sr_Sha256] in *.
