(* ===== verification/World.v ===== *)
(** * The state of the server process and of what it talks to

    One record, [World], holds the database (internal/orm), the in-memory agent
    registry and its timers (internal/service/agent_service/agent.go), the open
    control streams (internal/control/server.go) with the log of what was sent
    on each, the callbacks that the packages inject into each other, the
    goroutines started for completion hooks, the object store, the Kubernetes
    API server and the clock. *)
From S2P Require Import Prelude Model Proto.

(** The tables, by primary key. *)
Record DB := mkDB {
  tasks : gmap uuid Task;
  task_shards : gmap uuid TaskShard;
  tenants : gmap uuid Tenant;
  clusters : gmap uuid Cluster;
}.

(** agent_service/agent.go *)
Definition AgentStatusIdle := "IDLE".
Definition AgentStatusRunning := "RUNNING".
Definition AgentStatusDisconnected := "DISCONNECTED".
Definition AgentStatusUnresponsive := "UNRESPONSIVE".
Definition AgentStatusTimedOut := "TIMED_OUT".

Record Agent := mkAgent {
  ag_ID : string;
  ag_TenantID : uuid;
  ag_BackendName : string;
  ag_Status : string;
  PreDisconnectStatus : string;
  CurrentShardID : option string;
  LastHeartbeatAt : option Z;
}.

(** A [time.AfterFunc] timer: which callback it runs, when, and whether it is
    still pending.  Timers live in a heap and are named by their position, so
    that a timer dropped from the registry's map without [Stop] still fires. *)
Inductive timer_kind := HeartbeatTimer | GraceTimer.
#[export] Instance timer_kind_eq_dec : EqDecision timer_kind.
Proof. solve_decision. Defined.

Record Timer := mkTimer {
  tm_agent : string;
  tm_kind : timer_kind;
  tm_deadline : Z;
  tm_active : bool;
}.

(** The package variables of agent_service. *)
Record Registry := mkRegistry {
  agents : gmap string Agent;
  timers : gmap string nat;
  theap : list Timer;
  heartbeatTimeout : Z;
  gracePeriod : Z;
  onTimeout : bool; (* the callback, control.HandleAgentTimeout, is set *)
}.

(** task_service/service.go *)
Record CompletionHookPayload := mkPayload {
  pl_TaskID : uuid;
  pl_TenantID : uuid;
  pl_Status : string;
  pl_LastError : string;
  pl_FinishedAt : option Z;
  pl_ResultAvailable : bool;
  pl_CompletionHookURL : string;
}.

(** The Kubernetes objects the k8 backend creates: the parts of a StatefulSet
    that ensure_cluster.go fills in. *)
Record StatefulSet := mkSts {
  sts_Name : string;
  sts_Namespace : string;
  sts_Labels : list (string * string);
  sts_Replicas : Z;
  sts_MatchLabels : list (string * string);
  sts_ServiceName : string;
  sts_PodLabels : list (string * string);
  sts_ImagePullSecrets : list string;
  sts_ContainerName : string;
  sts_Image : string;
  sts_ImagePullPolicy : string;
  sts_Env : list (string * string);
  sts_ReadinessPort : Z;        (* the TCP readiness probe *)
  sts_InitialDelaySeconds : Z;
  sts_PeriodSeconds : Z;
  sts_RestartPolicy : string;
}.

Record K8s := mkK8s {
  namespaces : gset string;
  statefulsets : gmap (string * string) StatefulSet; (* by namespace and name *)
}.

Record World := mkWorld {
  w_db : DB;
  w_db_open : bool;                              (* orm.default_db is set *)
  w_reg : Registry;
  w_streams : gmap string nat;                   (* Server.streams *)
  w_nstreams : nat;                              (* streams opened so far *)
  w_sent : list (nat * ServerMessage);           (* messages sent, latest first *)
  w_notify : bool;                               (* notifyCancelShard is set *)
  w_hooks : list CompletionHookPayload;          (* hook goroutines started *)
  w_oss : gmap string string;                    (* objects uploaded *)
  w_k8s : K8s;
  w_uuids : nat;                                 (* UUIDs generated so far *)
  w_clock : Z;
  w_locked : list uuid;                          (* tasks locked by SELECT ... FOR UPDATE *)
}.

Definition set_db (x : DB) (w : World) : World :=
  mkWorld x (w_db_open w) (w_reg w) (w_streams w) (w_nstreams w) (w_sent w) (w_notify w)
    (w_hooks w) (w_oss w) (w_k8s w) (w_uuids w) (w_clock w) (w_locked w).
Definition set_db_open (x : bool) (w : World) : World :=
  mkWorld (w_db w) x (w_reg w) (w_streams w) (w_nstreams w) (w_sent w) (w_notify w)
    (w_hooks w) (w_oss w) (w_k8s w) (w_uuids w) (w_clock w) (w_locked w).
Definition set_reg (x : Registry) (w : World) : World :=
  mkWorld (w_db w) (w_db_open w) x (w_streams w) (w_nstreams w) (w_sent w) (w_notify w)
    (w_hooks w) (w_oss w) (w_k8s w) (w_uuids w) (w_clock w) (w_locked w).
Definition set_streams (x : gmap string nat) (w : World) : World :=
  mkWorld (w_db w) (w_db_open w) (w_reg w) x (w_nstreams w) (w_sent w) (w_notify w)
    (w_hooks w) (w_oss w) (w_k8s w) (w_uuids w) (w_clock w) (w_locked w).
Definition set_nstreams (x : nat) (w : World) : World :=
  mkWorld (w_db w) (w_db_open w) (w_reg w) (w_streams w) x (w_sent w) (w_notify w)
    (w_hooks w) (w_oss w) (w_k8s w) (w_uuids w) (w_clock w) (w_locked w).
Definition set_sent (x : list (nat * ServerMessage)) (w : World) : World :=
  mkWorld (w_db w) (w_db_open w) (w_reg w) (w_streams w) (w_nstreams w) x (w_notify w)
    (w_hooks w) (w_oss w) (w_k8s w) (w_uuids w) (w_clock w) (w_locked w).
Definition set_notify (x : bool) (w : World) : World :=
  mkWorld (w_db w) (w_db_open w) (w_reg w) (w_streams w) (w_nstreams w) (w_sent w) x
    (w_hooks w) (w_oss w) (w_k8s w) (w_uuids w) (w_clock w) (w_locked w).
Definition set_hooks (x : list CompletionHookPayload) (w : World) : World :=
  mkWorld (w_db w) (w_db_open w) (w_reg w) (w_streams w) (w_nstreams w) (w_sent w)
    (w_notify w) x (w_oss w) (w_k8s w) (w_uuids w) (w_clock w) (w_locked w).
Definition set_oss (x : gmap string string) (w : World) : World :=
  mkWorld (w_db w) (w_db_open w) (w_reg w) (w_streams w) (w_nstreams w) (w_sent w)
    (w_notify w) (w_hooks w) x (w_k8s w) (w_uuids w) (w_clock w) (w_locked w).
Definition set_k8s (x : K8s) (w : World) : World :=
  mkWorld (w_db w) (w_db_open w) (w_reg w) (w_streams w) (w_nstreams w) (w_sent w)
    (w_notify w) (w_hooks w) (w_oss w) x (w_uuids w) (w_clock w) (w_locked w).
Definition set_uuids (x : nat) (w : World) : World :=
  mkWorld (w_db w) (w_db_open w) (w_reg w) (w_streams w) (w_nstreams w) (w_sent w)
    (w_notify w) (w_hooks w) (w_oss w) (w_k8s w) x (w_clock w) (w_locked w).
Definition set_clock (x : Z) (w : World) : World :=
  mkWorld (w_db w) (w_db_open w) (w_reg w) (w_streams w) (w_nstreams w) (w_sent w)
    (w_notify w) (w_hooks w) (w_oss w) (w_k8s w) (w_uuids w) x (w_locked w).
Definition set_locked (x : list uuid) (w : World) : World :=
  mkWorld (w_db w) (w_db_open w) (w_reg w) (w_streams w) (w_nstreams w) (w_sent w)
    (w_notify w) (w_hooks w) (w_oss w) (w_k8s w) (w_uuids w) (w_clock w) x.

Definition set_tasks (x : gmap uuid Task) (d : DB) : DB :=
  mkDB x (task_shards d) (tenants d) (clusters d).
Definition set_task_shards (x : gmap uuid TaskShard) (d : DB) : DB :=
  mkDB (tasks d) x (tenants d) (clusters d).
Definition set_tenants (x : gmap uuid Tenant) (d : DB) : DB :=
  mkDB (tasks d) (task_shards d) x (clusters d).
Definition set_clusters (x : gmap uuid Cluster) (d : DB) : DB :=
  mkDB (tasks d) (task_shards d) (tenants d) x.

Definition set_agents (x : gmap string Agent) (r : Registry) : Registry :=
  mkRegistry x (timers r) (theap r) (heartbeatTimeout r) (gracePeriod r) (onTimeout r).
Definition set_timers (x : gmap string nat) (r : Registry) : Registry :=
  mkRegistry (agents r) x (theap r) (heartbeatTimeout r) (gracePeriod r) (onTimeout r).
Definition set_theap (x : list Timer) (r : Registry) : Registry :=
  mkRegistry (agents r) (timers r) x (heartbeatTimeout r) (gracePeriod r) (onTimeout r).
