(* ===== verification/Effects.v ===== *)
(** * Effectful programs

    A Go function that touches the database, the registry, a stream or the
    clock is a [prog]: a tree of atomic actions.  [Act] is one critical section
    (a SQL statement, a block under one mutex, one call on an external object);
    [Ext] asks the environment whether an external call fails; [Now] is
    [time.Now()]; [Tx] is gorm's [db.Transaction(func(tx) error)].

    The same tree has three readings: [run], an executable interpreter driven
    by an oracle of failures and clock increments; [wp], the weakest
    precondition over every oracle ([wp true]) or over oracles without failures
    ([wp false]); and [pstep], the small-step relation whose interleavings are
    the concurrent executions of the server, with [guarded] as its proof rule. *)
From S2P Require Import Prelude Errors World.

Inductive prog (A : Type) : Type :=
| Ret (a : A)
| Act {B : Type} (f : World -> B * World) (k : B -> prog A)
| Ext (k : option string -> prog A)
| Now (k : Z -> prog A)
| Tx {B : Type} (body : prog (res B)) (k : res B -> prog A).
Arguments Ret {_} _.
Arguments Act {_ _} _ _.
Arguments Ext {_} _.
Arguments Now {_} _.
Arguments Tx {_ _} _ _.

Fixpoint bind {A B} (p : prog A) (k : A -> prog B) : prog B :=
  match p with
  | Ret a => k a
  | Act f h => Act f (fun b => bind (h b) k)
  | Ext h => Ext (fun x => bind (h x) k)
  | Now h => Now (fun t => bind (h t) k)
  | Tx body h => Tx body (fun r => bind (h r) k)
  end.

(** [x, err := p; if err != nil { return wrap(err) }; k x]. *)
Definition bindR {A B} (p : prog (res A)) (wrap : error -> error)
    (k : A -> prog (res B)) : prog (res B) :=
  bind p (fun r => match r with Ok a => k a | Err e => Ret (Err (wrap e)) end).

Notation "x <- p ;; k" := (bind p (fun x => k))
  (at level 100, p at next level, right associativity) : go_scope.
Notation "p ;; k" := (bind p (fun _ => k)) (at level 100, right associativity) : go_scope.
Notation "x <-? p # f ;; k" := (bindR p f (fun x => k))
  (at level 100, p at next level, f at next level, right associativity) : go_scope.
Notation "x <-? p ;; k" := (bindR p (fun e => e) (fun x => k))
  (at level 100, p at next level, right associativity) : go_scope.

(** Primitive programs. *)
Definition now : prog Z := Now Ret.
Definition act {B} (f : World -> B * World) : prog B := Act f Ret.
Definition modify (f : World -> World) : prog unit := act (fun w => (tt, f w)).
Definition gets {B} (f : World -> B) : prog B := act (fun w => (f w, w)).
(** An external call that either fails with a message of its own or has the
    given effect. *)
Definition call {B} (f : World -> res B * World) : prog (res B) :=
  Ext (fun x => match x with
                | Some m => Ret (Err (EExternal m))
                | None => act f
                end).
(** One SQL statement. *)
Definition stmt {B} (f : DB -> res B * DB) : prog (res B) :=
  call (fun w => let rd := f (w_db w) in (fst rd, set_db (snd rd) w)).
Definition transaction {B} (body : prog (res B)) : prog (res B) := Tx body Ret.

(** [for _, x := range l { s = f(x, s) }]. *)
Fixpoint foldP {X S} (l : list X) (s : S) (f : X -> S -> prog S) : prog S :=
  match l with
  | [] => Ret s
  | x :: l' => s' <- f x s ;; foldP l' s' f
  end.

(** [for _, x := range l { if err := f(x); err != nil { return err } }]. *)
Fixpoint forR {X} (l : list X) (f : X -> prog (res unit)) : prog (res unit) :=
  match l with
  | [] => Ret (Ok tt)
  | x :: l' => _ <-? f x ;; forR l' f
  end.

(** ** Executions *)
Record Oracle := mkOracle {
  o_faults : list (option string); (* outcome of each external call *)
  o_ticks : list N;                (* clock increment before each time.Now() *)
}.

Definition pop_fault (o : Oracle) : option string * Oracle :=
  match o_faults o with
  | [] => (None, o)
  | x :: l => (x, mkOracle l (o_ticks o))
  end.
Definition pop_tick (o : Oracle) : Z * Oracle :=
  match o_ticks o with
  | [] => (0%Z, o)
  | x :: l => (Z.of_N x, mkOracle (o_faults o) l)
  end.

Fixpoint run {A} (p : prog A) (w : World) (o : Oracle) : A * World * Oracle :=
  match p with
  | Ret a => (a, w, o)
  | Act f k => let '(b, w') := f w in run (k b) w' o
  | Ext k => let '(x, o') := pop_fault o in run (k x) w o'
  | Now k =>
      let '(d, o') := pop_tick o in
      let t := (w_clock w + d)%Z in run (k t) (set_clock t w) o'
  | Tx body k =>
      let '(x, o1) := pop_fault o in                         (* BEGIN *)
      match x with
      | Some m => run (k (Err (EExternal m))) w o1
      | None =>
          let '(r, w2, o2) := run body w o1 in
          match r with
          | Err e => run (k (Err e)) (set_db (w_db w) w2) o2   (* ROLLBACK *)
          | Ok v =>
              let '(y, o3) := pop_fault o2 in                  (* COMMIT *)
              match y with
              | Some m => run (k (Err (EExternal m))) (set_db (w_db w) w2) o3
              | None => run (k (Ok v)) w2 o3
              end
          end
      end
  end.

Definition result {A} (x : A * World * Oracle) : A := x.1.1.
Definition final {A} (x : A * World * Oracle) : World := x.1.2.

(** No external call fails. *)
Definition calm (o : Oracle) : Prop := Forall (fun x => x = None) (o_faults o).
Definition quiet : Oracle := mkOracle [] [].

(** ** Weakest preconditions *)
Fixpoint wp (faulty : bool) {A} (p : prog A) (Q : A -> World -> Prop) (w : World) : Prop :=
  match p with
  | Ret a => Q a w
  | Act f k => wp faulty (k (f w).1) Q (f w).2
  | Ext k => wp faulty (k None) Q w /\
             (faulty = true -> forall m, wp faulty (k (Some m)) Q w)
  | Now k => forall t, (w_clock w <= t)%Z -> wp faulty (k t) Q (set_clock t w)
  | Tx body k =>
      (faulty = true -> forall m, wp faulty (k (Err (EExternal m))) Q w) /\
      wp faulty body (fun r w' =>
        match r with
        | Err e => wp faulty (k (Err e)) Q (set_db (w_db w) w')
        | Ok v =>
            wp faulty (k (Ok v)) Q w' /\
            (faulty = true -> forall m,
               wp faulty (k (Err (EExternal m))) Q (set_db (w_db w) w'))
        end) w
  end.

(** ** Interleavings *)
Definition pstep {A} (p : prog A) (w : World) (p' : prog A) (w' : World) : Prop :=
  match p with
  | Ret _ => False
  | Act f k => p' = k (f w).1 /\ w' = (f w).2
  | Ext k => exists x, p' = k x /\ w' = w
  | Now k => exists t, (w_clock w <= t)%Z /\ p' = k t /\ w' = set_clock t w
  | Tx body k => exists o r, p' = k r /\ result (run (transaction body) w o) = r
                             /\ w' = final (run (transaction body) w o)
  end.

(** Some steps of one goroutine. *)
Definition psteps {A} : prog A * World -> prog A * World -> Prop :=
  rtc (fun c c' => pstep c.1 c.2 c'.1 c'.2).

(** [guarded I T g p Q]: a goroutine that runs [p] keeps an account [g] of what it
    may still do and what it knows.  Each of its atomic actions, from any state in
    which the account is right ([I]), leads to a state in which some new account
    is, by a permitted transition ([T]); the last account and the value [p]
    returns satisfy [Q]. *)
Fixpoint guarded {X : Type} (I : X -> World -> Prop) (T : X -> World -> X -> World -> Prop) (g : X)
    {A} (p : prog A) (Q : X -> A -> Prop) : Prop :=
  match p with
  | Ret a => Q g a
  | Act f k => forall w, I g w -> exists g', I g' (f w).2 /\ T g w g' (f w).2 /\
                 guarded I T g' (k (f w).1) Q
  | Ext k => forall x, guarded I T g (k x) Q
  | Now k => forall t, (forall w, I g w -> (w_clock w <= t)%Z ->
                          I g (set_clock t w) /\ T g w g (set_clock t w)) /\
                       guarded I T g (k t) Q
  | Tx body k => forall w, I g w ->
      wp true (Tx body Ret) (fun r w' => exists g', I g' w' /\ T g w g' w' /\
                                                    guarded I T g' (k r) Q) w
  end.

(** Without an account: every atomic action keeps [I] and makes a step in [G]. *)
Definition safe (I : World -> Prop) (G : World -> World -> Prop) {A}
    (p : prog A) (Q : A -> Prop) : Prop :=
  guarded (fun _ : unit => I) (fun _ w _ w' => G w w') tt p (fun _ => Q).

(** ** Theory *)
Lemma run_bind {A B} (p : prog A) (k : A -> prog B) w o :
  run (bind p k) w o =
  let x := run p w o in run (k (result x)) (final x) x.2.
Proof.
  revert w o.
  induction p as [A a|A C f h IH|A h IH|A h IH|A C body _ h IH]; intros w o; cbn.
  - reflexivity.
  - destruct (f w) as [b w']. apply IH.
  - destruct (pop_fault o) as [x o']. apply IH.
  - destruct (pop_tick o) as [d o']. apply IH.
  - destruct (pop_fault o) as [[m|] o1]; [apply IH|].
    destruct (run body w o1) as [[[v|e] w2] o2]; [|apply IH].
    destruct (pop_fault o2) as [[m|] o3]; apply IH.
Qed.

Definition oracle_ok (b : bool) (o : Oracle) : Prop := if b then True else calm o.

Lemma pop_fault_ok b o :
  oracle_ok b o -> (b = true \/ (pop_fault o).1 = None) /\ oracle_ok b (pop_fault o).2.
Proof.
  destruct b; [auto|]. unfold oracle_ok, calm, pop_fault. intros H.
  destruct (o_faults o) as [|x l] eqn:E; cbn; [rewrite E; auto|].
  apply Forall_cons in H as [-> H]. auto.
Qed.

Lemma pop_tick_ok b o :
  oracle_ok b o -> (0 <= (pop_tick o).1)%Z /\ oracle_ok b (pop_tick o).2.
Proof.
  unfold pop_tick. destruct (o_ticks o) as [|x l]; cbn; [by split|].
  intros H. split; [lia|]. by destruct b.
Qed.

(** A program run alone is one of its interleavings. *)
Lemma run_pstep {A} (p : prog A) w o :
  psteps (p, w) (Ret (result (run p w o)), final (run p w o)).
Proof.
  unfold psteps. revert w o.
  induction p as [A a|A C f h IH|A h IH|A h IH|A C body _ h IH]; intros w o; cbn.
  - apply rtc_refl.
  - destruct (f w) as [b w'] eqn:Hf. eapply rtc_l; [|apply IH]. by cbn; rewrite Hf.
  - destruct (pop_fault o) as [x o']. eapply rtc_l; [|apply IH]. by exists x.
  - pose proof (proj1 (pop_tick_ok true o Logic.I)) as Hd.
    destruct (pop_tick o) as [d o']. cbn in Hd. eapply rtc_l; [|apply IH].
    exists (w_clock w + d)%Z. cbn. split; [lia|done].
  - pose proof (run_bind (transaction body) h w o
      : run (Tx body h) w o = let x := run (transaction body) w o in
                              run (h (result x)) (final x) x.2) as Hr.
    change (rtc (fun c c' : prog A * World => pstep c.1 c.2 c'.1 c'.2) (Tx body h, w)
      (Ret (result (run (Tx body h) w o)), final (run (Tx body h) w o))).
    rewrite Hr. eapply rtc_l; [|apply IH]. by exists o, (result (run (transaction body) w o)).
Qed.

(** A goroutine can be interrupted after its first part [p]. *)
Lemma pstep_bind {A B} (p p' : prog A) (k : A -> prog B) w w' :
  pstep p w p' w' -> pstep (bind p k) w (bind p' k) w'.
Proof.
  destruct p; cbn; [done|..].
  - by intros [-> ->].
  - intros (x & -> & ->). by exists x.
  - intros (t & ? & -> & ->). by exists t.
  - intros (o & r & -> & ? & ->). by exists o, r.
Qed.
Lemma psteps_bind {A B} (p : prog A) (k : A -> prog B) w o :
  psteps (bind p k, w) (k (result (run p w o)), final (run p w o)).
Proof.
  pose proof (run_pstep p w o) as H.
  apply (rtc_congruence (fun c : prog A * World => (bind c.1 k, c.2))
           (fun c c' => pstep c.1 c.2 c'.1 c'.2)) in H; [exact H|].
  intros c c'. apply pstep_bind.
Qed.

Lemma wp_mono b {A} (p : prog A) (Q Q' : A -> World -> Prop) w :
  (forall a w', Q a w' -> Q' a w') -> wp b p Q w -> wp b p Q' w.
Proof.
  revert Q Q' w.
  induction p as [A a|A C f h IH|A h IH|A h IH|A C body IHb h IH];
    intros Q Q' w HQ; cbn.
  - apply HQ.
  - by apply IH.
  - intros [H1 H2]. split; [by eapply IH|]. intros Hb m. eapply IH; eauto.
  - intros H t Ht. eapply IH; eauto.
  - intros [H1 H2]. split; [intros Hb m; eapply IH; eauto|].
    eapply IHb; [|exact H2]. intros [v|e] w'; cbn.
    + intros [Ha Hb]. split; [by eapply IH|]. intros Hf m. eapply IH; eauto.
    + by apply IH.
Qed.

Lemma wp_bind b {A B} (p : prog A) (k : A -> prog B) Q w :
  wp b p (fun a => wp b (k a) Q) w -> wp b (bind p k) Q w.
Proof.
  revert Q w.
  induction p as [A a|A C f h IH|A h IH|A h IH|A C body _ h IH]; intros Q w; cbn.
  - done.
  - apply IH.
  - intros [H1 H2]. split; [by apply IH|]. intros Hb m. by apply IH, H2.
  - intros H t Ht. by apply IH, H.
  - intros [H1 H2]. split; [intros Hb m; by apply IH, H1|].
    eapply wp_mono; [|exact H2]. intros [v|e] w'; cbn.
    + intros [Ha Hb]. split; [by apply IH|]. intros Hf m. by apply IH, Hb.
    + apply IH.
Qed.

Lemma wp_bindR b {A B} (p : prog (res A)) wrap (k : A -> prog (res B)) Q w :
  wp b p (fun r w' => match r with
                      | Ok a => wp b (k a) Q w'
                      | Err e => Q (Err (wrap e)) w'
                      end) w ->
  wp b (bindR p wrap k) Q w.
Proof.
  intros H. apply wp_bind. eapply wp_mono; [|exact H]. by intros [a|e] w'.
Qed.

Lemma wp_and b {A} (p : prog A) Q R w :
  wp b p Q w -> wp b p R w -> wp b p (fun a w' => Q a w' /\ R a w') w.
Proof.
  revert Q R w.
  induction p as [A a|A C f h IH|A h IH|A h IH|A C body IHb h IH];
    intros Q R w; cbn.
  - done.
  - apply IH.
  - intros [H1 H2] [H3 H4]. split; [by apply IH|]. intros Hb m. apply IH; auto.
  - intros H1 H2 t Ht. apply IH; auto.
  - intros [H1 H2] [H3 H4]. split; [intros Hb m; apply IH; auto|].
    eapply wp_mono; [|exact (IHb _ _ w H2 H4)]. intros [v|e] w'; cbn.
    + intros [[Ha Hb] [Hc Hd]]. split; [by apply IH|]. intros Hf m. apply IH; auto.
    + intros [? ?]. by apply IH.
Qed.

Lemma wp_any_fault b {A} (p : prog A) Q w : wp true p Q w -> wp b p Q w.
Proof.
  destruct b; [done|]. revert Q w.
  induction p as [A a|A C f h IH|A h IH|A h IH|A C body IHb h IH]; intros Q w; cbn.
  - done.
  - apply IH.
  - intros [H1 _]. split; [by apply IH|done].
  - intros H t Ht. by apply IH, H.
  - intros [_ H2]. split; [done|]. apply IHb. eapply wp_mono; [|exact H2].
    intros [v|e] w'; cbn; [|apply IH]. intros [H _]. split; [by apply IH|done].
Qed.

(** [wp] describes every execution. *)
Lemma wp_sound b {A} (p : prog A) Q w o :
  oracle_ok b o -> wp b p Q w ->
  Q (result (run p w o)) (final (run p w o)) /\ oracle_ok b (run p w o).2.
Proof.
  revert Q w o.
  induction p as [A a|A C f h IH|A h IH|A h IH|A C body IHb h IH];
    intros Q w o Ho; cbn.
  - done.
  - intros H. destruct (f w) as [x w']. by apply IH.
  - intros [H1 H2]. destruct (pop_fault_ok b o Ho) as [Hx Ho'].
    destruct (pop_fault o) as [[m|] o']; cbn in *; [|by apply IH].
    destruct Hx as [Hb|]; [|done]. apply IH; auto.
  - intros H. destruct (pop_tick_ok b o Ho) as [Hd Ho'].
    destruct (pop_tick o) as [d o']; cbn in *. apply IH; [done|]. apply H. lia.
  - intros [H1 H2]. destruct (pop_fault_ok b o Ho) as [Hx Ho1].
    destruct (pop_fault o) as [[m|] o1]; cbn in *.
    { destruct Hx as [Hb|]; [|done]. apply IH; auto. }
    destruct (IHb _ w o1 Ho1 H2) as [Hr Ho2].
    destruct (run body w o1) as [[[v|e] w2] o2]; cbn in *; [|by apply IH].
    destruct Hr as [Hc Hf]. destruct (pop_fault_ok b o2 Ho2) as [Hy Ho3].
    destruct (pop_fault o2) as [[m|] o3]; cbn in *; [|by apply IH].
    destruct Hy as [Hb|]; [|done]. apply IH; auto.
Qed.

Lemma wp_run {A} (p : prog A) Q w o :
  wp true p Q w -> Q (result (run p w o)) (final (run p w o)).
Proof. intros H. by destruct (wp_sound true p Q w o I H). Qed.

Lemma wp_run_calm {A} (p : prog A) Q w o :
  calm o -> wp false p Q w -> Q (result (run p w o)) (final (run p w o)).
Proof. intros Ho H. by destruct (wp_sound false p Q w o Ho H). Qed.

(** What holds with failures and without, of one execution. *)
Lemma wp_run_both {A} (p : prog A) (Q : bool -> A -> World -> Prop) w o :
  (forall b, wp b p (Q b) w) ->
  exists b, (calm o -> b = false) /\ Q b (result (run p w o)) (final (run p w o)).
Proof.
  intros H. destruct (Forall_dec (fun x : option string => x = None) (o_faults o)) as [Hc|Hc].
  - exists false. split; [done|]. by apply wp_run_calm.
  - exists true. split; [by intros ?|]. by apply wp_run.
Qed.

Section Guarded.
Context {X : Type} (I : X -> World -> Prop) (T : X -> World -> X -> World -> Prop).

Lemma guarded_mono {A} g (p : prog A) (Q Q' : X -> A -> Prop) :
  (forall g a, Q g a -> Q' g a) -> guarded I T g p Q -> guarded I T g p Q'.
Proof.
  intros HQ. revert g.
  induction p as [A a|A C f h IH|A h IH|A h IH|A C body _ h IH]; intros g; cbn.
  - apply HQ.
  - intros H w Hw. destruct (H w Hw) as (g' & ? & ? & ?). eauto 6.
  - intros H x. eauto.
  - intros H t. destruct (H t). eauto.
  - intros H w Hw. refine (wp_mono true (Tx body Ret)
      (fun r w' => exists g', I g' w' /\ T g w g' w' /\ guarded I T g' (h r) Q)
      (fun r w' => exists g', I g' w' /\ T g w g' w' /\ guarded I T g' (h r) Q') w _ (H w Hw)).
    intros r w' (g' & ? & ? & ?). eauto 6.
Qed.

Lemma guarded_bind {A B} g (p : prog A) (k : A -> prog B) (Q : X -> A -> Prop) (R : X -> B -> Prop) :
  guarded I T g p Q -> (forall g a, Q g a -> guarded I T g (k a) R) ->
  guarded I T g (bind p k) R.
Proof.
  intros Hp Hk. revert g Hp.
  induction p as [A a|A C f h IH|A h IH|A h IH|A C body _ h IH]; intros g; cbn.
  - auto.
  - intros H w Hw. destruct (H w Hw) as (g' & ? & ? & ?). eauto 6.
  - intros H x. eauto.
  - intros H t. destruct (H t). eauto.
  - intros H w Hw. refine (wp_mono true (Tx body Ret)
      (fun r w' => exists g', I g' w' /\ T g w g' w' /\ guarded I T g' (h r) Q)
      (fun r w' => exists g', I g' w' /\ T g w g' w' /\ guarded I T g' (bind (h r) k) R)
      w _ (H w Hw)).
    intros r w' (g' & ? & ? & ?). eauto 6.
Qed.

Context (G : World -> World -> Prop) (TG : forall g w g' w', T g w g' w' -> G w w').

(** A guarded program run alone. *)
Lemma guarded_wp `{!Reflexive G, !Transitive G} {A} g (p : prog A) Q w :
  guarded I T g p Q -> I g w ->
  wp true p (fun a w' => (exists g', Q g' a /\ I g' w') /\ G w w') w.
Proof.
  assert (forall (B : Type) (q : prog B) (P P' : B -> World -> Prop) w1,
    (forall b w2, P b w2 -> P' b w2) -> wp true q P w1 -> wp true q P' w1) as Hmono
    by (intros; by eapply wp_mono).
  revert g w.
  induction p as [A a|A C f h IH|A h IH|A h IH|A C body _ h IH];
    intros g w; cbn; intros H Hw.
  - split; [eauto|reflexivity].
  - destruct (H w Hw) as (g' & H1 & H2%TG & H3). eapply Hmono; [|by eapply IH].
    intros a w' [? ?]. split; [done|]. by etrans.
  - split; [by eapply IH|]. intros _ m. by eapply IH.
  - intros t Ht. destruct (H t) as [H1 H2]. destruct (H1 w Hw Ht) as [H3 H4%TG].
    eapply Hmono; [|by eapply IH]. intros a w' [? ?]. split; [done|]. by etrans.
  - assert (forall r w1, (exists g', I g' w1 /\ T g w g' w1 /\ guarded I T g' (h r) Q) ->
      wp true (h r) (fun a w' => (exists g', Q g' a /\ I g' w') /\ G w w') w1) as Hk.
    { intros r w1 (g' & H1 & H2%TG & H3). eapply Hmono; [|by eapply IH].
      intros a w' [? ?]. split; [done|]. by etrans. }
    destruct (H w Hw) as [H1 H2]. split; [intros Hb m; by apply Hk, H1|].
    eapply Hmono; [|exact H2]. cbn. intros [v|e] w1; [|apply Hk].
    intros [Hv Hf]. split; [by apply Hk|]. intros Hb m. by apply Hk, Hf.
Qed.

(** One atomic step of a guarded program. *)
Lemma guarded_step {A} g (p p' : prog A) Q w w' :
  (forall w, T g w g w) -> guarded I T g p Q -> I g w -> pstep p w p' w' ->
  exists g', guarded I T g' p' Q /\ I g' w' /\ T g w g' w'.
Proof.
  intros HT. destruct p as [a|C f k|k|k|C body k]; cbn.
  - done.
  - intros H Hw [-> ->]. destruct (H w Hw) as (g' & ? & ? & ?). eauto.
  - intros H Hw (x & -> & ->). eauto.
  - intros H Hw (t & Ht & -> & ->). destruct (H t) as [H1 H2].
    destruct (H1 w Hw Ht). eauto.
  - intros H Hw (o & r & -> & <- & ->).
    destruct (wp_run (Tx body Ret)
      (fun r w' => exists g', I g' w' /\ T g w g' w' /\ guarded I T g' (k r) Q) w o (H w Hw)) as (g' & ? & ? & ?). eauto.
Qed.
End Guarded.

Section Safety.
Context (I : World -> Prop) (G : World -> World -> Prop).

Lemma safe_bind {A B} (p : prog A) (k : A -> prog B) (Q : A -> Prop) (R : B -> Prop) :
  safe I G p Q -> (forall a, Q a -> safe I G (k a) R) -> safe I G (bind p k) R.
Proof. intros Hp Hk. eapply guarded_bind; [exact Hp|]. intros []. apply Hk. Qed.

(** An action, and a transaction, of a safe program. *)
Lemma safe_act {B} (f : World -> B * World) :
  (forall w, I w -> I (f w).2 /\ G w (f w).2) -> safe I G (act f) (fun _ => True).
Proof. intros Hf w Hw. exists tt. by destruct (Hf w Hw). Qed.
Lemma safe_call `{!Reflexive G} {B} (f : World -> res B * World) :
  (forall w, I w -> I (f w).2 /\ G w (f w).2) -> safe I G (call f) (fun _ => True).
Proof. intros Hf [m|]; [done|]. by apply safe_act. Qed.

(** A safe program run alone. *)
Lemma safe_wp `{!Reflexive G, !Transitive G} {A} (p : prog A) Q w :
  safe I G p Q -> I w -> wp true p (fun a w' => Q a /\ I w' /\ G w w') w.
Proof.
  intros Hp Hw. eapply wp_mono; [|exact (guarded_wp _ _ G (fun _ _ _ _ H => H) tt p _ w Hp Hw)].
  cbn. intros a w' [([] & ? & ?) ?]. auto.
Qed.
End Safety.
