(* ===== verification/Store.v ===== *)
(** * Queries

    The gorm calls of the repository, over tables kept as finite maps by primary
    key.  A call made through a model adds [deleted_at IS NULL] ([live]) and an
    update through a model sets [updated_at]; [First] orders by the given
    columns and then by primary key, [Take] leaves ties to the engine;
    [RowsAffected] is the number of rows the condition selected; a query with no
    row is [gorm.ErrRecordNotFound].  The order in which the engine delivers rows
    is [scan], of which only [scan_perm] is known. *)
From S2P Require Import Prelude Errors Model Env Proto World Effects.

(** A table of the database and how to write it back. *)
Class Table (R : Type) := {
  rows : DB -> gmap uuid R;
  set_rows : gmap uuid R -> DB -> DB;
}.
#[export] Instance tasks_Table : Table Task := {| rows := tasks; set_rows := set_tasks |}.
#[export] Instance shards_Table : Table TaskShard :=
  {| rows := task_shards; set_rows := set_task_shards |}.
#[export] Instance tenants_Table : Table Tenant :=
  {| rows := tenants; set_rows := set_tenants |}.
#[export] Instance clusters_Table : Table Cluster :=
  {| rows := clusters; set_rows := set_clusters |}.

(** Reading a table back after writing it. *)
Class LawfulTable (R : Type) `{Table R} : Prop := {
  rows_set_rows : forall m d, rows (set_rows m d) = m;
  set_rows_rows : forall d, set_rows (rows d) d = d;
}.
#[export] Instance tasks_lawful : LawfulTable Task.
Proof. split; [done|]. by intros []. Qed.
#[export] Instance shards_lawful : LawfulTable TaskShard.
Proof. split; [done|]. by intros []. Qed.
#[export] Instance tenants_lawful : LawfulTable Tenant.
Proof. split; [done|]. by intros []. Qed.
#[export] Instance clusters_lawful : LawfulTable Cluster.
Proof. split; [done|]. by intros []. Qed.

(** ** Ordering *)
Definition asc_Z {R} (f : R -> Z) (a b : R) : comparison := (f a ?= f b)%Z.
Definition desc_Z {R} (f : R -> Z) (a b : R) : comparison := (f b ?= f a)%Z.
(** PostgreSQL sorts NULLs first in descending order. *)
Definition desc_null {R} (f : R -> option Z) (a b : R) : comparison :=
  match f a, f b with
  | None, None => Eq
  | None, Some _ => Lt
  | Some _, None => Gt
  | Some x, Some y => (y ?= x)%Z
  end.
Definition asc_id {R} `{Row R} (a b : R) : comparison := (rid a ?= rid b)%N.
Definition asc_text `{Env} {R} (f : R -> string) (a b : R) : comparison :=
  if collate (f a) (f b) then (if collate (f b) (f a) then Eq else Lt) else Gt.

Fixpoint lex {R} (cs : list (R -> R -> comparison)) (a b : R) : comparison :=
  match cs with
  | [] => Eq
  | c :: cs' => match c a b with Eq => lex cs' a b | o => o end
  end.

Definition not_after {R} (cs : list (R -> R -> comparison)) (a b : R) : Prop :=
  lex cs a b <> Gt.
#[export] Instance not_after_dec {R} (cs : list (R -> R -> comparison)) :
  RelDecision (not_after cs).
Proof. intros a b. unfold not_after. destruct (lex cs a b); solve_decision. Defined.

(** [ORDER BY cs]. *)
Definition order_by {R} (cs : list (R -> R -> comparison)) (l : list R) : list R :=
  merge_sort (not_after cs) l.

Section Store.
Context `{Env}.
Section Model.
Context {R : Type} `{Row R, Table R}.

(** The rows a model query with condition [p] sees. *)
Definition matching (p : R -> bool) (d : DB) : list R :=
  List.filter (fun r => live r && p r) (scan (rows d)).

Definition update_rows (p : R -> bool) (f : R -> R) (m : gmap uuid R) : gmap uuid R :=
  (fun r => if live r && p r then f r else r) <$> m.

#[global] Arguments matching : simpl never.
#[global] Arguments update_rows : simpl never.

(** [db.Where(p).Order(cs).Find(&rows)] *)
Definition Find (p : R -> bool) (cs : list (R -> R -> comparison)) : prog (res (list R)) :=
  stmt (fun d => (Ok (order_by cs (matching p d)), d)).

(** [db.Where(p).Order(cs).First(&row)] *)
Definition First (p : R -> bool) (cs : list (R -> R -> comparison)) : prog (res R) :=
  stmt (fun d =>
    (match order_by (cs ++ [asc_id]) (matching p d) with
     | [] => Err (ESentinel ErrRecordNotFound)
     | r :: _ => Ok r
     end, d)).

(** [db.Model(&R{}).Where(p).Count(&n)] *)
Definition Count (p : R -> bool) : prog (res Z) :=
  stmt (fun d => (Ok (Z.of_nat (length (matching p d))), d)).

(** [result := db.Model(&R{}).Where(p).Updates(f)]: the rows affected. *)
Definition Updates (p : R -> bool) (f : R -> R) : prog (res Z) :=
  t <- now ;;
  stmt (fun d => (Ok (Z.of_nat (length (matching p d))),
                  set_rows (update_rows p (fun r => touch t (f r)) (rows d)) d)).

(** PostgreSQL's error on a unique key. *)
Definition duplicate_key : error :=
  EExternal "ERROR: duplicate key value violates unique constraint".

(** [db.Create(&row)] with the unique keys [uniq] besides the primary key.
    [BeforeCreate] has set the identifier; gorm fills the timestamps. *)
Definition Insert (uniq : R -> R -> bool) (r : R) : prog (res R) :=
  t <- now ;;
  let b := base r in
  let r' := with_base (mkBase (ID b) (if (CreatedAt b =? 0)%Z then t else CreatedAt b)
                              (if (UpdatedAt b =? 0)%Z then t else UpdatedAt b)
                              (DeletedAt b)) r in
  stmt (fun d =>
    if bool_decide (is_Some (rows d !! rid r')) || existsb (uniq r') (scan (rows d))
    then (Err duplicate_key, d)
    else (Ok r', set_rows (<[rid r' := r']> (rows d)) d)).
End Model.

(** [tx.Clauses(clause.Locking{Strength: "UPDATE"}).Where(p).First(&task)]: the
    task found is locked until the transaction ends. *)
Definition FirstForUpdate (p : Task -> bool) : prog (res Task) :=
  call (fun w =>
    match order_by [asc_id] (matching p (w_db w)) with
    | [] => (Err (ESentinel ErrRecordNotFound), w)
    | t :: _ => (Ok t, set_locked (rid t :: w_locked w) w)
    end).

(** base_uuid_model.go, [BeforeCreate]: a row without an identifier gets a
    fresh version-7 UUID; [uuid.NewV7] can fail. *)
Definition NewV7 : prog (res uuid) :=
  call (fun w => (Ok (uuid_NewV7 (w_uuids w)), set_uuids (S (w_uuids w)) w)).

Definition BeforeCreate {R} `{Row R} (r : R) : prog (res R) :=
  let b := base r in
  if bool_decide (ID b = uuid_Nil) then
    id <-? NewV7 ;;
    Ret (Ok (with_base (mkBase id (CreatedAt b) (UpdatedAt b) (DeletedAt b)) r))
  else Ret (Ok r).

Definition Create {R} `{Row R, Table R} (uniq : R -> R -> bool) (r : R) : prog (res R) :=
  r' <-? BeforeCreate r ;; Insert uniq r'.

(** internal/orm/pool.go *)
Definition GetDB : prog (res unit) :=
  ok <- gets w_db_open ;;
  if ok then Ret (Ok tt) else Ret (Err (ENew "orm db is not initialized")).
Definition Open (url : string) : prog (res unit) :=
  r <- call (fun w => (Ok tt, w)) ;;
  match r with
  | Err e => Ret (Err (wrapf "open gorm postgres connection" e))
  | Ok _ => modify (set_db_open true) ;; Ret (Ok tt)
  end.
End Store.
