(* ===== verification/StoreFacts.v ===== *)
(** * Facts about queries and proof rules for them

    What a query returns and what an update leaves behind, row by row; the [wp]
    rules of the database calls; and [wpo], the precondition for transaction
    bodies that only speaks of successful runs (a failed body is rolled back). *)
From S2P Require Import Prelude Errors Model Env Proto World Effects Store.

Lemma set_db_same w : set_db (w_db w) w = w.
Proof. by destruct w. Qed.

(** ** Sorting *)
(** Comparisons that are their own converse. *)
Definition fair {R} (c : R -> R -> comparison) : Prop := forall a b, c b a = CompOpp (c a b).

Lemma fair_asc_Z {R} (f : R -> Z) : fair (asc_Z f).
Proof. intros a b. apply Z.compare_antisym. Qed.
Lemma fair_desc_Z {R} (f : R -> Z) : fair (desc_Z f).
Proof. intros a b. apply Z.compare_antisym. Qed.
Lemma fair_asc_id {R} `{Row R} : fair (R:=R) asc_id.
Proof. intros a b. apply N.compare_antisym. Qed.
Lemma fair_asc_text `{E : Env, L : !EnvLaws E} {R} (f : R -> string) : fair (asc_text f).
Proof.
  intros a b. unfold asc_text.
  destruct (collate_total (f a) (f b)) as [Hab|Hba].
  - rewrite Hab. by destruct (collate (f b) (f a)).
  - rewrite Hba. by destruct (collate (f a) (f b)).
Qed.
Lemma fair_lex {R} (cs : list (R -> R -> comparison)) : Forall fair cs -> fair (lex cs).
Proof.
  induction 1 as [|c cs Hc _ IH]; intros a b; cbn; [done|].
  rewrite Hc. destruct (c a b); cbn; [apply IH|done..].
Qed.
Lemma not_after_total {R} (cs : list (R -> R -> comparison)) :
  Forall fair cs -> Total (not_after cs).
Proof.
  intros Hf a b. unfold not_after. rewrite (fair_lex cs Hf a b).
  destruct (lex cs a b); cbn; [by left|by left|by right].
Qed.

Lemma Sorted_impl {A} (R S : A -> A -> Prop) l :
  (forall a b, R a b -> S a b) -> Sorted R l -> Sorted S l.
Proof.
  intros HRS. induction 1 as [|a l Hl IH Hd]; constructor; [done|].
  destruct Hd; constructor; auto.
Qed.

(** The first row of a query ordered by an instant, and by a text among the rows of
    one instant. *)
Definition older_or_first `{E : Env} {R} (f : R -> Z) (g : R -> string) (x y : R) : Prop :=
  (f x < f y)%Z \/ f x = f y /\ collate (g x) (g y) = true.

Lemma not_after_spec `{E : Env, L : !EnvLaws E} {R} (f : R -> Z) (g : R -> string) x y :
  not_after [asc_Z f; asc_text g] x y <-> older_or_first f g x y.
Proof.
  unfold not_after, older_or_first. cbn. unfold asc_Z, asc_text.
  destruct (Z.compare_spec (f x) (f y)) as [Heq|Hlt|Hgt].
  - destruct (collate (g x) (g y)).
    + destruct (collate (g y) (g x)); split; intros; (done || (by right)).
    + split; [done|]. intros [?|[_ ?]]; [lia|done].
  - split; [by left|done].
  - split; [done|]. intros [?|[? _]]; lia.
Qed.

Lemma order_by_first `{E : Env, L : !EnvLaws E} {R} (f : R -> Z) (g : R -> string) (l l' : list R) x y :
  order_by [asc_Z f; asc_text g] l = x :: l' -> y ∈ l -> older_or_first f g x y.
Proof.
  intros Ho Hy. set (cs := [asc_Z f; asc_text g]) in *.
  assert (Sorted (not_after cs) (x :: l')) as Hs.
  { rewrite <-Ho. apply Sorted_merge_sort, not_after_total.
    repeat constructor; [apply fair_asc_Z|apply fair_asc_text]. }
  apply (Sorted_impl _ (older_or_first f g)) in Hs; [|by intros a b; apply not_after_spec].
  apply Sorted_StronglySorted in Hs.
  2:{ intros a b c [?|[? H1]] [?|[? H2]]; [left; lia..|]. right. split; [lia|].
      by eapply collate_trans. }
  inversion Hs as [|? ? _ Hall]; subst.
  rewrite <-(merge_sort_Permutation (not_after cs) l) in Hy.
  unfold order_by in Ho. rewrite Ho in Hy. apply elem_of_cons in Hy as [->|Hy].
  - right. split; [done|]. by destruct (collate_total (g x) (g x)).
  - rewrite Forall_forall in Hall. auto.
Qed.

Section Rows.
Context `{E : Env, L : !EnvLaws E}.
Context {R : Type} `{Row R, Table R}.
Implicit Types (p : R -> bool) (f : R -> R) (m : gmap uuid R).

Lemma elem_scan m r : r ∈ scan m <-> exists k, m !! k = Some r.
Proof.
  rewrite scan_perm. rewrite list_elem_of_fmap. split.
  - intros ([k x] & -> & Hin). exists k. by apply elem_of_map_to_list.
  - intros [k Hk]. exists (k, r). split; [done|]. by apply elem_of_map_to_list.
Qed.

Lemma elem_matching p d r :
  r ∈ matching p d <-> (exists k, rows d !! k = Some r) /\ live r = true /\ p r = true.
Proof.
  unfold matching. rewrite list_elem_of_In, filter_In, andb_true_iff.
  rewrite <-list_elem_of_In, elem_scan. tauto.
Qed.

Lemma matching_nil p d :
  matching p d = [] <-> forall k r, rows d !! k = Some r -> live r = true -> p r = false.
Proof.
  split.
  - intros Hn k r Hk Hl. destruct (p r) eqn:Hp; [|done].
    assert (r ∈ matching p d) as Hin by (apply elem_matching; eauto).
    rewrite Hn in Hin. by apply not_elem_of_nil in Hin.
  - intros Hall. destruct (matching p d) as [|r l] eqn:Em; [done|].
    assert (r ∈ matching p d) as Hin by (rewrite Em; left).
    apply elem_matching in Hin as ([k Hk] & Hl & Hp). by rewrite (Hall k r Hk Hl) in Hp.
Qed.

Lemma affected_pos p d :
  Z.of_nat (length (matching p d)) <> 0%Z ->
  exists k r, rows d !! k = Some r /\ live r = true /\ p r = true.
Proof.
  intros Hn. destruct (matching p d) as [|r l] eqn:Em; [done|].
  assert (r ∈ matching p d) as Hin by (rewrite Em; left).
  apply elem_matching in Hin as ([k Hk] & Hl & Hp). eauto.
Qed.

Lemma affected_zero p d :
  Z.of_nat (length (matching p d)) = 0%Z ->
  forall k r, rows d !! k = Some r -> live r = true -> p r = false.
Proof. intros Hn. apply matching_nil. destruct (matching p d); [done|]. cbn in Hn. lia. Qed.

Lemma order_by_perm cs (l : list R) : order_by cs l ≡ₚ l.
Proof. apply merge_sort_Permutation. Qed.

Lemma lookup_update_rows p f m k :
  update_rows p f m !! k = (fun r => if live r && p r then f r else r) <$> m !! k.
Proof. apply lookup_fmap. Qed.

(** An update whose condition no live row satisfies changes nothing. *)
Lemma update_rows_none p f m :
  (forall k r, m !! k = Some r -> live r = true -> p r = false) -> update_rows p f m = m.
Proof.
  intros Hn. apply map_eq. intros k. rewrite lookup_update_rows.
  destruct (m !! k) as [r|] eqn:Hk; [|done]. cbn.
  destruct (live r) eqn:Hl; cbn; [|done]. by rewrite (Hn k r Hk Hl).
Qed.

(** An update whose condition selects one row. *)
Lemma update_rows_single p f m k r :
  m !! k = Some r -> live r = true -> p r = true ->
  (forall k' r', m !! k' = Some r' -> p r' = true -> k' = k) ->
  update_rows p f m = <[k := f r]> m.
Proof.
  intros Hk Hl Hp Hu. apply map_eq. intros k'. rewrite lookup_update_rows.
  destruct (decide (k' = k)) as [->|Hne].
  - rewrite lookup_insert_eq, Hk. cbn. by rewrite Hl, Hp.
  - rewrite lookup_insert_ne by done. destruct (m !! k') as [r'|] eqn:Hk'; [|done]. cbn.
    destruct (p r') eqn:Hp'; [by destruct Hne; eapply Hu|]. by rewrite andb_false_r.
Qed.

(** ** [wp] rules *)
Section Rules.
Context (b : bool).

Lemma wp_call {B} (g : World -> res B * World) Q w :
  Q (g w).1 (g w).2 ->
  (b = true -> forall msg, Q (Err (EExternal msg)) w) ->
  wp b (call g) Q w.
Proof. intros H1 H2. cbn. split; [exact H1|exact H2]. Qed.

Lemma wp_stmt {B} (g : DB -> res B * DB) Q w :
  Q (g (w_db w)).1 (set_db (g (w_db w)).2 w) ->
  (b = true -> forall msg, Q (Err (EExternal msg)) w) ->
  wp b (stmt g) Q w.
Proof. intros H1 H2. by apply wp_call. Qed.

Lemma wp_Find p cs Q w :
  (forall l, l ≡ₚ matching p (w_db w) -> Q (Ok l) w) ->
  (b = true -> forall msg, Q (Err (EExternal msg)) w) ->
  wp b (Find p cs) Q w.
Proof.
  intros H1 H2. apply wp_stmt; [|done]. cbn [fst snd]. rewrite set_db_same.
  apply H1. apply order_by_perm.
Qed.

Lemma wp_Find_exact p cs Q w :
  Q (Ok (order_by cs (matching p (w_db w)))) w ->
  (b = true -> forall msg, Q (Err (EExternal msg)) w) ->
  wp b (Find p cs) Q w.
Proof. intros H1 H2. apply wp_stmt; [|done]. cbn [fst snd]. by rewrite set_db_same. Qed.

Lemma wp_First p cs Q w :
  (forall r, r ∈ matching p (w_db w) -> Q (Ok r) w) ->
  (matching p (w_db w) = [] -> Q (Err (ESentinel ErrRecordNotFound)) w) ->
  (b = true -> forall msg, Q (Err (EExternal msg)) w) ->
  wp b (First p cs) Q w.
Proof.
  intros H1 H2 H3. apply wp_stmt; [|done]. cbn [fst snd]. rewrite set_db_same.
  pose proof (order_by_perm (cs ++ [asc_id]) (matching p (w_db w))) as Hperm.
  destruct (order_by _ _) as [|r l].
  - apply H2. by apply Permutation_nil in Hperm.
  - apply H1. rewrite <-Hperm. left.
Qed.

Lemma wp_Count p Q w :
  Q (Ok (Z.of_nat (length (matching p (w_db w))))) w ->
  (b = true -> forall msg, Q (Err (EExternal msg)) w) ->
  wp b (Count p) Q w.
Proof.
  intros H1 H2. apply wp_stmt; [|done]. cbn [fst snd]. by rewrite set_db_same.
Qed.

Definition updated p f (t : Z) (w : World) : World :=
  set_db (set_rows (update_rows p (fun r => touch t (f r)) (rows (w_db w))) (w_db w))
         (set_clock t w).

Lemma wp_Updates p f Q w :
  (forall t, (w_clock w <= t)%Z ->
     Q (Ok (Z.of_nat (length (matching p (w_db w))))) (updated p f t w)) ->
  (b = true -> forall t msg, (w_clock w <= t)%Z -> Q (Err (EExternal msg)) (set_clock t w)) ->
  wp b (Updates p f) Q w.
Proof.
  intros H1 H2. unfold Updates, now. cbn. intros t Ht. split; [by apply H1|].
  intros Hb m. by apply H2.
Qed.
End Rules.
End Rows.

(** Distinct rows have distinct primary keys. *)
Lemma matching_nodup `{E : Env, L : !EnvLaws E} {R} `{Row R, Table R} (p : R -> bool) d :
  (forall k r, rows d !! k = Some r -> rid r = k) -> NoDup (rid <$> matching p d).
Proof.
  intros Hs. unfold matching.
  assert (NoDup (rid <$> scan (rows d))) as Hnd.
  { rewrite scan_perm.
    assert (rid <$> (map_to_list (rows d)).*2 = (map_to_list (rows d)).*1) as ->;
      [|apply NoDup_fst_map_to_list].
    rewrite <-list_fmap_compose. apply list_fmap_ext. intros i [k r] Hi. cbn.
    apply Hs. apply elem_of_map_to_list. by eapply list_elem_of_lookup_2. }
  induction (scan (rows d)) as [|r l IH]; cbn; [constructor|].
  cbn in Hnd. apply NoDup_cons in Hnd as [Hn Hl].
  destruct (live r && p r); cbn; [|by apply IH]. constructor; [|by apply IH].
  intros Hin. apply Hn. apply list_elem_of_fmap in Hin as (x & -> & Hx).
  apply list_elem_of_fmap_2. apply list_elem_of_In. apply list_elem_of_In, filter_In in Hx. tauto.
Qed.

(** A transaction: a failed body, or a failed commit, restores the database. *)
Lemma wp_transaction b {B} (body : prog (res B)) Q w :
  (b = true -> forall m, Q (Err (EExternal m)) w) ->
  wp b body (fun r w' =>
    match r with
    | Ok a => Q (Ok a) w' /\ (b = true -> forall m, Q (Err (EExternal m)) (set_db (w_db w) w'))
    | Err e => Q (Err e) (set_db (w_db w) w')
    end) w ->
  wp b (transaction body) Q w.
Proof. intros H1 H2. split; [exact H1|]. eapply wp_mono; [|exact H2]. by intros [a|e] w'. Qed.

Lemma wp_GetDB b Q w : w_db_open w = true -> Q (Ok tt) w -> wp b GetDB Q w.
Proof. intros Ho HQ. cbn. by rewrite Ho. Qed.

(** ** Programs that only touch the database *)
Record outside_same (w w' : World) : Prop := mkOutside {
  same_open : w_db_open w' = w_db_open w;
  same_reg : w_reg w' = w_reg w;
  same_streams : w_streams w' = w_streams w;
  same_sent : w_sent w' = w_sent w;
  same_notify : w_notify w' = w_notify w;
  same_hooks : w_hooks w' = w_hooks w;
  same_oss : w_oss w' = w_oss w;
  same_k8s : w_k8s w' = w_k8s w;
}.
#[export] Instance outside_refl : Reflexive outside_same.
Proof. by split. Qed.
#[export] Instance outside_trans : Transitive outside_same.
Proof. intros w1 w2 w3 [] []. split; congruence. Qed.

Definition framed {A} (p : prog A) : Prop :=
  safe (fun _ => True) outside_same p (fun _ => True).

Lemma framed_wp {A} (p : prog A) b w :
  framed p -> wp b p (fun _ w' => outside_same w w') w.
Proof.
  intros Hp. apply wp_any_fault.
  eapply wp_mono; [|exact (safe_wp _ _ p _ w Hp Logic.I)]. by intros a w' (_ & _ & ?).
Qed.
Lemma wp_framed {A} (p : prog A) b Q w :
  framed p -> wp b p Q w -> wp b p (fun a w' => Q a w' /\ outside_same w w') w.
Proof. intros Hp HQ. apply wp_and; [done|by apply framed_wp]. Qed.

Lemma framed_ret {A} (a : A) : framed (Ret a).
Proof. done. Qed.
Lemma framed_bind {A B} (p : prog A) (k : A -> prog B) :
  framed p -> (forall a, framed (k a)) -> framed (bind p k).
Proof. intros Hp Hk. eapply safe_bind; [exact Hp|]. intros a _. apply Hk. Qed.
Lemma framed_bindR {A B} (p : prog (res A)) f (k : A -> prog (res B)) :
  framed p -> (forall a, framed (k a)) -> framed (bindR p f k).
Proof. intros Hp Hk. apply framed_bind; [done|]. by intros [a|e]. Qed.
Lemma framed_now : framed now.
Proof. intros t. by split. Qed.
Lemma framed_stmt {B} (g : DB -> res B * DB) : framed (stmt g).
Proof. by apply safe_call. Qed.
Lemma framed_tx {B} (body : prog (res B)) : framed body -> framed (transaction body).
Proof.
  intros Hb w _. split; [intros; by exists tt|].
  eapply wp_mono; [|exact (framed_wp body true w Hb)].
  intros [v|e] w' []; [split; [|intros _ m]|]; exists tt; repeat split; done.
Qed.
Lemma framed_Updates `{E : Env} {R} `{Row R, Table R} (p : R -> bool) f : framed (Updates p f).
Proof. apply framed_bind; [apply framed_now|]. intros t. apply framed_stmt. Qed.
Lemma framed_First `{E : Env} {R} `{Row R, Table R} (p : R -> bool) cs : framed (First p cs).
Proof. apply framed_stmt. Qed.
Lemma framed_FirstForUpdate `{E : Env} p : framed (FirstForUpdate p).
Proof. apply safe_call; [apply _|]. intros w _. cbn. by destruct (order_by _ _). Qed.
Lemma framed_Find `{E : Env} {R} `{Row R, Table R} (p : R -> bool) cs : framed (Find p cs).
Proof. apply framed_stmt. Qed.
Lemma framed_Count `{E : Env} {R} `{Row R, Table R} (p : R -> bool) : framed (Count p).
Proof. apply framed_stmt. Qed.
Lemma framed_BeforeCreate `{E : Env} {R} `{Row R} (r : R) : framed (BeforeCreate r).
Proof.
  unfold BeforeCreate. case_bool_decide; [|done]. apply framed_bindR; [|done].
  by apply safe_call.
Qed.
Lemma framed_Create `{E : Env} {R} `{Row R, Table R} uniq (r : R) : framed (Create uniq r).
Proof.
  apply framed_bindR; [apply framed_BeforeCreate|]. intros r'.
  apply framed_bind; [apply framed_now|]. intros t. apply framed_stmt.
Qed.
Lemma framed_GetDB : framed GetDB.
Proof. apply framed_bind; [by apply safe_act|]. by intros []. Qed.
Lemma framed_forR {X} (l : list X) f : (forall x, framed (f x)) -> framed (forR l f).
Proof. intros Hf. induction l as [|x l IH]; [done|]. by apply framed_bindR. Qed.
#[export] Hint Resolve framed_ret framed_now framed_stmt framed_tx framed_Updates framed_First framed_FirstForUpdate
  framed_Find framed_Count framed_Create framed_GetDB : prog.

Ltac framed_step :=
  match goal with
  | |- framed (bind _ _) => apply framed_bind; [|intros ?]
  | |- framed (bindR _ _ _) => apply framed_bindR; [|intros ?]
  | |- framed (transaction _) => apply framed_tx
  | |- framed (forR _ _) => apply framed_forR; intros ?
  | |- framed (let '_ := ?x in _) => destruct x
  | |- framed (match ?x with _ => _ end) => destruct x
  | |- framed _ => solve [eauto with prog]
  end.
Ltac framed_all := intros; cbv zeta; repeat framed_step.

(** ** Queries by primary key *)
Definition sane {R} `{Row R} (m : gmap uuid R) : Prop :=
  forall k r, m !! k = Some r -> rid r = k /\ live r = true.

Lemma sane_insert {R} `{Row R} (m : gmap uuid R) k r :
  sane m -> rid r = k -> live r = true -> sane (<[k := r]> m).
Proof.
  intros Hs Hr Hl j x. destruct (decide (j = k)) as [->|Hne].
  - rewrite lookup_insert_eq. intros [= <-]. by split.
  - rewrite lookup_insert_ne by done. apply Hs.
Qed.

Section ById.
Context `{E : Env, L : !EnvLaws E}.
Context {R : Type} `{Row R, TR : Table R, !LawfulTable R}.
Context (b : bool).

(** The row [id] replaced, at the instant [now]. *)
Definition put (id : uuid) (r : R) (now : Z) (w : World) : World :=
  set_db (set_rows (<[id := r]> (rows (w_db w))) (w_db w)) (set_clock now w).

Lemma wp_First_id (c : R -> bool) id Q w :
  sane (rows (w_db w)) ->
  (forall r, rows (w_db w) !! id = Some r -> c r = true -> Q (Ok r) w) ->
  ((forall r, rows (w_db w) !! id = Some r -> c r = false) ->
     Q (Err (ESentinel ErrRecordNotFound)) w) ->
  (b = true -> forall msg, Q (Err (EExternal msg)) w) ->
  wp b (First (fun r => c r && bool_decide (rid r = id)) []) Q w.
Proof.
  intros Hs H1 H2 H3. apply wp_First; [| |done].
  - intros r Hr. apply elem_matching in Hr as ([k Hk] & _ & Hp). clean.
    destruct (Hs k r Hk) as [? _]. apply H1; [congruence|done].
  - intros Hn. rewrite matching_nil in Hn. apply H2. intros r Hr.
    destruct (Hs id r Hr) as [Hid Hl]. specialize (Hn id r Hr Hl).
    rewrite bool_decide_true in Hn by done. by rewrite andb_true_r in Hn.
Qed.

Lemma wp_First_key id Q w :
  sane (rows (w_db w)) ->
  (forall r : R, rows (w_db w) !! id = Some r -> Q (Ok r) w) ->
  (rows (w_db w) !! id = None -> Q (Err (ESentinel ErrRecordNotFound)) w) ->
  (b = true -> forall msg, Q (Err (EExternal msg)) w) ->
  wp b (First (fun r : R => bool_decide (rid r = id)) []) Q w.
Proof.
  intros Hs H1 H2 H3. apply (wp_First_id (fun _ => true)); [done|auto| |done].
  intros Hn. apply H2. destruct (rows (w_db w) !! id) as [r|]; [|done]. by specialize (Hn r eq_refl).
Qed.

(** An update whose condition fixes the primary key. *)
Lemma wp_Updates_at (p : R -> bool) id f Q w :
  sane (rows (w_db w)) -> (forall r, p r = true -> rid r = id) ->
  (forall r n now, rows (w_db w) !! id = Some r -> p r = true -> n <> 0%Z ->
     (w_clock w <= now)%Z -> Q (Ok n) (put id (touch now (f r)) now w)) ->
  (forall now, (forall r, rows (w_db w) !! id = Some r -> p r = false) ->
     (w_clock w <= now)%Z -> Q (Ok 0%Z) (set_clock now w)) ->
  (b = true -> forall now msg, Q (Err (EExternal msg)) (set_clock now w)) ->
  wp b (Updates p f) Q w.
Proof.
  intros Hs Hp H1 H2 H3. apply wp_Updates; [|auto]. intros now Hnow. unfold updated.
  assert (forall k r, rows (w_db w) !! k = Some r -> p r = true -> k = id) as Hu.
  { intros k r Hk Hr. destruct (Hs k r Hk) as [<- _]. auto. }
  destruct (Z.eq_dec (Z.of_nat (length (matching p (w_db w)))) 0) as [Hz|Hz].
  - pose proof (affected_zero p _ Hz) as Hn. rewrite Hz, (update_rows_none p) by done.
    rewrite set_rows_rows. replace (set_db (w_db w) (set_clock now w)) with (set_clock now w)
      by by destruct w. apply H2; [|done]. intros r Hr. apply (Hn id); [done|].
    by destruct (Hs id r Hr).
  - destruct (affected_pos p _ Hz) as (k & r & Hk & Hl & Hr).
    pose proof (Hu k r Hk Hr) as ->.
    rewrite (update_rows_single p _ _ id r) by done. by apply H1.
Qed.

Lemma wp_Updates_id (c : R -> bool) id f Q w :
  sane (rows (w_db w)) ->
  (forall r n now, rows (w_db w) !! id = Some r -> c r = true -> n <> 0%Z ->
     (w_clock w <= now)%Z -> Q (Ok n) (put id (touch now (f r)) now w)) ->
  (forall now, (forall r, rows (w_db w) !! id = Some r -> c r = false) ->
     (w_clock w <= now)%Z -> Q (Ok 0%Z) (set_clock now w)) ->
  (b = true -> forall now msg, Q (Err (EExternal msg)) (set_clock now w)) ->
  wp b (Updates (fun r => bool_decide (rid r = id) && c r) f) Q w.
Proof.
  intros Hs H1 H2 H3. apply wp_Updates_at with id; [done| | | |done].
  - intros r Hr. by clean.
  - intros r n now Hr Hp. clean. by apply H1.
  - intros now Hn. apply H2. intros r Hr. specialize (Hn r Hr).
    destruct (Hs id r Hr). by rewrite bool_decide_true in Hn.
Qed.

(** ** Insertion *)
Definition stamped (id : uuid) (t : Z) (r : R) : R :=
  with_base (mkBase id (if (CreatedAt (base r) =? 0)%Z then t else CreatedAt (base r))
                    (if (UpdatedAt (base r) =? 0)%Z then t else UpdatedAt (base r))
                    (DeletedAt (base r))) r.

(** What gorm needs of the embedded base. *)
Context `{!LawfulRow R}.

Lemma wp_Insert uniq (r : R) Q w :
  (forall t, (w_clock w <= t)%Z -> rows (w_db w) !! rid r = None ->
     existsb (uniq (stamped (rid r) t r)) (scan (rows (w_db w))) = false ->
     Q (Ok (stamped (rid r) t r)) (put (rid r) (stamped (rid r) t r) t w)) ->
  (forall t, (exists x, rows (w_db w) !! rid r = Some x) \/
             existsb (uniq (stamped (rid r) t r)) (scan (rows (w_db w))) = true ->
     Q (Err duplicate_key) (set_clock t w)) ->
  (b = true -> forall t msg, Q (Err (EExternal msg)) (set_clock t w)) ->
  wp b (Insert uniq r) Q w.
Proof.
  intros H1 H2 H3. unfold Insert. apply wp_bind. cbn [wp now]. intros t Ht.
  assert (rid (stamped (rid r) t r) = rid r) as Hid.
  { unfold rid, stamped. by rewrite base_with_base. }
  apply wp_stmt; [|by auto]. cbn [w_db set_clock].
  change (with_base _ r) with (stamped (rid r) t r). rewrite Hid.
  destruct (_ || _) eqn:Hdup; cbn [fst snd].
  - replace (set_db (w_db w) (set_clock t w)) with (set_clock t w) by by destruct w.
    apply H2. apply orb_true_iff in Hdup as [Hd|Hd]; [left|by right].
    by apply bool_decide_eq_true in Hd.
  - apply orb_false_iff in Hdup as [Hd Hu]. apply bool_decide_eq_false in Hd.
    apply H1; [done| |done]. by apply eq_None_not_Some.
Qed.

Lemma wp_Create_given uniq (r : R) Q w :
  rid r <> uuid_Nil ->
  (forall t, (w_clock w <= t)%Z -> rows (w_db w) !! rid r = None ->
     existsb (uniq (stamped (rid r) t r)) (scan (rows (w_db w))) = false ->
     Q (Ok (stamped (rid r) t r)) (put (rid r) (stamped (rid r) t r) t w)) ->
  (forall t, (exists x, rows (w_db w) !! rid r = Some x) \/
               existsb (uniq (stamped (rid r) t r)) (scan (rows (w_db w))) = true ->
     Q (Err duplicate_key) (set_clock t w)) ->
  (b = true -> forall t msg, Q (Err (EExternal msg)) (set_clock t w)) ->
  wp b (Create uniq r) Q w.
Proof.
  intros Hn H1 H2 H3. apply wp_bindR. unfold BeforeCreate.
  rewrite bool_decide_false by done. cbn [wp]. by apply wp_Insert.
Qed.

(** A row without an identifier gets the next version-7 UUID. *)
Lemma wp_Create_fresh uniq (r : R) Q w :
  rid r = uuid_Nil ->
  let id := uuid_NewV7 (w_uuids w) in
  let w1 := set_uuids (S (w_uuids w)) w in
  (forall t, (w_clock w <= t)%Z -> rows (w_db w) !! id = None ->
     existsb (uniq (stamped id t r)) (scan (rows (w_db w))) = false ->
     Q (Ok (stamped id t r)) (put id (stamped id t r) t w1)) ->
  (forall t, (exists x, rows (w_db w) !! id = Some x) \/
               existsb (uniq (stamped id t r)) (scan (rows (w_db w))) = true ->
     Q (Err duplicate_key) (set_clock t w1)) ->
  (b = true -> forall e w', w_db w' = w_db w -> w_uuids w <= w_uuids w' -> Q (Err e) w') ->
  wp b (Create uniq r) Q w.
Proof.
  intros Hn id w1 H1 H2 H3. apply wp_bindR. unfold BeforeCreate.
  rewrite bool_decide_true by done. apply wp_bindR. unfold NewV7.
  apply wp_call; [|by intros Hb m; apply H3]. cbn [fst snd wp].
  fold id. fold w1. set (r1 := with_base _ r).
  assert (rid r1 = id) as Hid by (unfold rid, r1; by rewrite base_with_base).
  assert (forall t, stamped (rid r1) t r1 = stamped id t r) as Hst.
  { intros t. rewrite Hid. unfold stamped, r1. by rewrite with_with_base, base_with_base. }
  apply wp_Insert.
  - intros t Ht Hnone. rewrite Hst. rewrite Hid in *. by apply H1.
  - intros t. rewrite Hst, Hid. apply H2.
  - intros Hb t m. apply H3; [done|done|]. cbn. lia.
Qed.
End ById.

Lemma scan_insert `{E : Env, L : !EnvLaws E} {R} (m : gmap uuid R) k r :
  m !! k = None -> scan (<[k := r]> m) ≡ₚ r :: scan m.
Proof. intros Hk. rewrite !scan_perm, map_to_list_insert by done. done. Qed.

Lemma filter_perm {R} (f : R -> bool) l1 l2 :
  l1 ≡ₚ l2 -> List.filter f l1 ≡ₚ List.filter f l2.
Proof.
  intros Hp. induction Hp as [|x l1 l2 _ IH|x y l|l1 l2 l3 _ IH1 _ IH2]; cbn.
  - done.
  - destruct (f x); [by constructor|done].
  - destruct (f x), (f y); try done. constructor.
  - by etrans.
Qed.

Lemma matching_ext `{E : Env} {R} `{Row R, Table R} (p p' : R -> bool) d :
  (forall r, p r = p' r) -> matching p d = matching p' d.
Proof. intros Hp. unfold matching. apply List.filter_ext. intros r. by rewrite Hp. Qed.

Lemma matching_insert `{E : Env, L : !EnvLaws E} {R} `{Row R, Table R} (p : R -> bool) d d' k r :
  rows d !! k = None -> rows d' = <[k := r]> (rows d) -> live r = true ->
  matching p d' ≡ₚ if p r then r :: matching p d else matching p d.
Proof.
  intros Hk Hd Hl. unfold matching. rewrite Hd.
  rewrite (filter_perm _ _ _ (scan_insert (rows d) k r Hk)). cbn. rewrite Hl. by destruct (p r).
Qed.

(** ** Transaction bodies *)
Definition wpo {A} (p : prog (res A)) (Q : A -> World -> Prop) (w : World) : Prop :=
  wp true p (fun r w' => match r with Ok a => Q a w' | Err _ => True end) w.

Lemma wpo_ret {A} (a : A) Q w : Q a w -> wpo (Ret (Ok a)) Q w.
Proof. done. Qed.

Lemma wpo_err {A} e (Q : A -> World -> Prop) w : wpo (Ret (Err e)) Q w.
Proof. done. Qed.

Lemma wpo_bindR {A B} (p : prog (res A)) wrap (k : A -> prog (res B)) Q w :
  wpo p (fun a => wpo (k a) Q) w -> wpo (bindR p wrap k) Q w.
Proof.
  intros Hp. apply wp_bindR. eapply wp_mono; [|exact Hp]. by intros [a|e] w'.
Qed.

Lemma wpo_mono {A} (p : prog (res A)) (Q Q' : A -> World -> Prop) w :
  (forall a w', Q a w' -> Q' a w') -> wpo p Q w -> wpo p Q' w.
Proof. intros HQ. apply wp_mono. intros [a|e] w'; auto. Qed.

Lemma wpo_now {B} (k : Z -> prog (res B)) Q w :
  (forall t, (w_clock w <= t)%Z -> wpo (k t) Q (set_clock t w)) -> wpo (bind now k) Q w.
Proof. intros Hk. exact Hk. Qed.

Section RowsO.
Context `{E : Env, L : !EnvLaws E}.
Context {R : Type} `{Row R, Table R}.
Implicit Types (p : R -> bool) (f : R -> R).

Lemma wpo_Find p cs Q w :
  (forall l, l ≡ₚ matching p (w_db w) -> Q l w) -> wpo (Find p cs) Q w.
Proof. intros HQ. apply wp_Find; [done|]. by intros. Qed.

Lemma wpo_First p cs Q w :
  (forall k r, rows (w_db w) !! k = Some r -> live r = true -> p r = true -> Q r w) ->
  wpo (First p cs) Q w.
Proof.
  intros HQ. apply wp_First; [|by intros..].
  intros r Hr. apply elem_matching in Hr as ([k Hk] & Hl & Hp). eauto.
Qed.

Lemma wpo_Count p Q w :
  Q (Z.of_nat (length (matching p (w_db w)))) w -> wpo (Count p) Q w.
Proof. intros HQ. apply wp_Count; [done|]. by intros. Qed.

Lemma wpo_Updates p f Q w :
  (forall t, (w_clock w <= t)%Z ->
     Q (Z.of_nat (length (matching p (w_db w)))) (updated p f t w)) ->
  wpo (Updates p f) Q w.
Proof. intros HQ. apply wp_Updates; [done|]. by intros. Qed.
End RowsO.

(** The UUIDs still to be generated are not in use. *)
Definition fresh_from `{E : Env} {R} (n : nat) (m : gmap uuid R) : Prop :=
  forall j, (n <= j)%nat -> m !! uuid_NewV7 j = None.

(** [sane] as a test on a concrete table. *)
Definition sane_check {R} `{Row R} (m : gmap uuid R) : bool :=
  forallb (fun kr : uuid * R => bool_decide (rid kr.2 = kr.1) && live kr.2) (map_to_list m).
Lemma sane_check_sound {R} `{Row R} (m : gmap uuid R) : sane_check m = true -> sane m.
Proof.
  intros Hc k r Hk. unfold sane_check in Hc. rewrite forallb_forall in Hc.
  specialize (Hc (k, r)). cbn in Hc.
  assert ((bool_decide (rid r = k) && live r)%bool = true) as Hx.
  { apply Hc, list_elem_of_In. by apply elem_of_map_to_list. }
  by clean.
Qed.

(** The locking read of a task. *)
Lemma wp_FirstForUpdate_key `{E : Env, L : !EnvLaws E} b id Q w :
  sane (tasks (w_db w)) ->
  (forall t, tasks (w_db w) !! id = Some t -> Q (Ok t) (set_locked (id :: w_locked w) w)) ->
  (tasks (w_db w) !! id = None -> Q (Err (ESentinel ErrRecordNotFound)) w) ->
  (b = true -> forall msg, Q (Err (EExternal msg)) w) ->
  wp b (FirstForUpdate (fun t => bool_decide (rid t = id))) Q w.
Proof.
  intros Hs H1 H2 H3. apply wp_call; [|done].
  pose proof (order_by_perm [asc_id] (matching (fun t : Task => bool_decide (rid t = id)) (w_db w))) as Hp.
  destruct (order_by _ _) as [|t l]; cbn [fst snd].
  - apply Permutation_nil in Hp. rewrite matching_nil in Hp. apply H2.
    destruct (tasks (w_db w) !! id) as [t|] eqn:Hk; [|done]. destruct (Hs id t Hk) as [Hr Hl].
    specialize (Hp id t Hk Hl). by rewrite bool_decide_true in Hp.
  - assert (t ∈ matching (fun t : Task => bool_decide (rid t = id)) (w_db w)) as Hin
      by (rewrite <-Hp; left).
    apply elem_matching in Hin as ([k Hk] & _ & Hid). clean. destruct (Hs k t Hk) as [Hr _].
    subst k. rewrite Hid in *. exact (H1 t Hk).
Qed.
