(* ===== verification/Lifecycle.v ===== *)
(** * The life cycle of tasks and shards

    The status graphs the server promises (the README's task and shard life
    cycles, with the transitions the code adds: roll-backs and the failure of
    pending tasks), the invariant that ties a task's status to the statuses of
    its shards, and the relation [life] between two states of the database that
    says every row moved along the graph.  The last section is how the components
    prove them: a change of the two tables row by row ([remap]). *)
From S2P Require Import Prelude Errors Model Env Proto World Effects Store StoreFacts.

(** ** Status graphs *)
Inductive task_step : string -> string -> Prop :=
| task_provisioned : task_step TaskStatusPending TaskStatusWaitingForAgents
| task_refused : task_step TaskStatusPending TaskStatusFailed
| task_promoted : task_step TaskStatusWaitingForAgents TaskStatusQueued
| task_demoted : task_step TaskStatusQueued TaskStatusWaitingForAgents
| task_started s :
    s ∈ [TaskStatusWaitingForAgents; TaskStatusQueued] -> task_step s TaskStatusRunning
| task_succeeded : task_step TaskStatusRunning TaskStatusSucceeded
| task_failed : task_step TaskStatusRunning TaskStatusFailed
| task_cancelled s :
    s ∈ [TaskStatusPending; TaskStatusWaitingForAgents; TaskStatusQueued; TaskStatusRunning] ->
    task_step s TaskStatusCancelled.

Inductive shard_step : string -> string -> Prop :=
| shard_leased : shard_step ShardStatusQueued ShardStatusLeased
| shard_started : shard_step ShardStatusLeased ShardStatusRunning
| shard_rolled_back s :
    s ∈ [ShardStatusLeased; ShardStatusRunning] -> shard_step s ShardStatusQueued
| shard_succeeded : shard_step ShardStatusRunning ShardStatusSucceeded
| shard_failed : shard_step ShardStatusRunning ShardStatusFailed
| shard_cancelled s :
    s ∈ [ShardStatusQueued; ShardStatusLeased; ShardStatusRunning] ->
    shard_step s ShardStatusCancelled.

Definition task_statuses : list string :=
  [TaskStatusPending; TaskStatusWaitingForAgents; TaskStatusQueued; TaskStatusRunning;
   TaskStatusSucceeded; TaskStatusFailed; TaskStatusCancelled].

(** The statuses the shards of a task can have, by the task's status. *)
Definition shard_statuses_in (task_status : string) : list string :=
  if task_status =s TaskStatusPending then [ShardStatusQueued]
  else if task_status =s TaskStatusWaitingForAgents then [ShardStatusQueued; ShardStatusLeased]
  else if task_status =s TaskStatusQueued then [ShardStatusQueued; ShardStatusLeased]
  else if task_status =s TaskStatusRunning then
    [ShardStatusQueued; ShardStatusLeased; ShardStatusRunning; ShardStatusSucceeded;
     ShardStatusFailed]
  else if task_status =s TaskStatusSucceeded then [ShardStatusSucceeded]
  else if task_status =s TaskStatusFailed then
    [ShardStatusQueued; ShardStatusSucceeded; ShardStatusFailed]
  else if task_status =s TaskStatusCancelled then
    [ShardStatusSucceeded; ShardStatusFailed; ShardStatusCancelled]
  else [].

Definition compat (task_status shard_status : string) : bool :=
  ins shard_status (shard_statuses_in task_status).

(** ** The invariant *)
Record Inv (d : DB) : Prop := mkInv {
  inv_task : forall k t, tasks d !! k = Some t ->
    rid t = k /\ live t = true /\ Status t ∈ task_statuses;
  inv_shard : forall k s, task_shards d !! k = Some s ->
    rid s = k /\ live s = true;
  inv_parent : forall k s, task_shards d !! k = Some s ->
    exists t, tasks d !! sh_TaskID s = Some t /\ compat (Status t) (sh_Status s) = true;
}.

Lemma inv_sane_tasks d : Inv d -> sane (tasks d).
Proof. intros HI k t Hk. by destruct (inv_task _ HI k t Hk) as (? & ? & _). Qed.
Lemma inv_sane_shards d : Inv d -> sane (task_shards d).
Proof. intros HI k s Hk. by apply (inv_shard _ HI). Qed.

(** The invariant as a test on a concrete database. *)
Definition inv_check (d : DB) : bool :=
  forallb (fun kt : uuid * Task => bool_decide (rid kt.2 = kt.1) && live kt.2 &&
             ins (Status kt.2) task_statuses) (map_to_list (tasks d)) &&
  forallb (fun ks : uuid * TaskShard => bool_decide (rid ks.2 = ks.1) && live ks.2 &&
             match tasks d !! sh_TaskID ks.2 with
             | Some t => compat (Status t) (sh_Status ks.2)
             | None => false
             end) (map_to_list (task_shards d)).

Lemma inv_check_sound d : inv_check d = true -> Inv d.
Proof.
  intros Hc. apply andb_true_iff in Hc as [Ht Hs]. rewrite forallb_forall in Ht, Hs.
  assert (forall k s, task_shards d !! k = Some s -> rid s = k /\ live s = true /\
            exists t, tasks d !! sh_TaskID s = Some t /\ compat (Status t) (sh_Status s) = true)
    as Hsh.
  { intros k s Hk. apply elem_of_map_to_list, list_elem_of_In in Hk.
    specialize (Hs _ Hk). cbn in Hs. clean. destruct (tasks d !! sh_TaskID s); [|done]. eauto. }
  split.
  - intros k t Hk. apply elem_of_map_to_list, list_elem_of_In in Hk.
    specialize (Ht _ Hk). cbn in Ht. by clean.
  - intros k s Hk. by destruct (Hsh k s Hk) as (? & ? & _).
  - intros k s Hk. by destruct (Hsh k s Hk) as (_ & _ & ?).
Qed.

(** ** Movement along the graphs *)
Definition task_moves (t t' : Task) : Prop :=
  rid t' = rid t /\ live t' = live t /\ TenantID t' = TenantID t /\
  ShardCount t' = ShardCount t /\ CompletionHookURL t' = CompletionHookURL t /\
  rtc task_step (Status t) (Status t').
Definition shard_moves (s s' : TaskShard) : Prop :=
  rid s' = rid s /\ live s' = live s /\ sh_TaskID s' = sh_TaskID s /\
  ScriptName s' = ScriptName s /\ rtc shard_step (sh_Status s) (sh_Status s').

Record life (d d' : DB) : Prop := mkLife {
  life_task : forall k t, tasks d !! k = Some t ->
    exists t', tasks d' !! k = Some t' /\ task_moves t t';
  life_shard : forall k s, task_shards d !! k = Some s ->
    exists s', task_shards d' !! k = Some s' /\ shard_moves s s';
}.

#[export] Instance task_moves_refl : Reflexive task_moves.
Proof. intros t. repeat split. reflexivity. Qed.
#[export] Instance task_moves_trans : Transitive task_moves.
Proof.
  intros t1 t2 t3 (? & ? & ? & ? & ? & ?) (? & ? & ? & ? & ? & ?).
  repeat split; try congruence. by etrans.
Qed.
#[export] Instance shard_moves_refl : Reflexive shard_moves.
Proof. intros s. repeat split. reflexivity. Qed.
#[export] Instance shard_moves_trans : Transitive shard_moves.
Proof.
  intros s1 s2 s3 (? & ? & ? & ? & ?) (? & ? & ? & ? & ?).
  repeat split; try congruence. by etrans.
Qed.
#[export] Instance life_refl : Reflexive life.
Proof. intros d. split; intros k r Hk; exists r; by split. Qed.
#[export] Instance life_trans : Transitive life.
Proof.
  intros d1 d2 d3 [T1 S1] [T2 S2]. split.
  - intros k t Hk. destruct (T1 k t Hk) as (t2 & H2 & M2).
    destruct (T2 k t2 H2) as (t3 & H3 & M3). exists t3. split; [done|by etrans].
  - intros k s Hk. destruct (S1 k s Hk) as (s2 & H2 & M2).
    destruct (S2 k s2 H2) as (s3 & H3 & M3). exists s3. split; [done|by etrans].
Qed.

(** ** Consequences of the graphs *)
(** Membership in a list of status constants, case by case. *)
Ltac statuses :=
  repeat match goal with
  | H : _ ∈ _ :: _ |- _ => apply elem_of_cons in H as [H|H]
  | H : _ ∈ [] |- _ => by apply not_elem_of_nil in H
  end; subst; try done.

Lemma terminal_task_step s s' : s ∈ terminal_statuses -> task_step s s' -> False.
Proof. intros Hs Hstep. unfold terminal_statuses in Hs. statuses; inversion Hstep; statuses. Qed.
Lemma terminal_shard_step s s' : s ∈ terminal_statuses -> shard_step s s' -> False.
Proof. intros Hs Hstep. unfold terminal_statuses in Hs. statuses; inversion Hstep; statuses. Qed.

Lemma terminal_task_stays s s' : s ∈ terminal_statuses -> rtc task_step s s' -> s' = s.
Proof. intros Hs Hr. destruct Hr as [|? ? ? Hstep _]; [done|].
  by destruct (terminal_task_step _ _ Hs Hstep). Qed.
Lemma terminal_shard_stays s s' : s ∈ terminal_statuses -> rtc shard_step s s' -> s' = s.
Proof. intros Hs Hr. destruct Hr as [|? ? ? Hstep _]; [done|].
  by destruct (terminal_shard_step _ _ Hs Hstep). Qed.

(** What [compat] says of each task status. *)
Lemma compat_parent d k s : Inv d -> task_shards d !! k = Some s ->
  exists t, tasks d !! sh_TaskID s = Some t /\ rid t = sh_TaskID s /\ live t = true /\
            Status t ∈ task_statuses /\ compat (Status t) (sh_Status s) = true.
Proof.
  intros HI Hs. destruct (inv_parent _ HI k s Hs) as (t & Ht & Hc).
  destruct (inv_task _ HI _ t Ht) as (? & ? & ?). eauto 10.
Qed.

(** The task of a leased or running shard is under way; that of a running shard
    is running. *)
Lemma leased_parent ts : ts ∈ task_statuses -> compat ts ShardStatusLeased = true ->
  ts ∈ [TaskStatusWaitingForAgents; TaskStatusQueued; TaskStatusRunning].
Proof. unfold task_statuses. intros Hs Hc. statuses; by apply ins_spec. Qed.
Lemma running_parent ts : ts ∈ task_statuses -> compat ts ShardStatusRunning = true ->
  ts = TaskStatusRunning.
Proof. unfold task_statuses. intros Hs Hc. statuses. Qed.

Lemma nonterminal_shard ts s : ts ∈ task_statuses -> compat ts s = true ->
  s ∉ terminal_statuses -> s ∈ [ShardStatusQueued; ShardStatusLeased; ShardStatusRunning].
Proof.
  unfold task_statuses, compat. intros Hs Hc Hn. apply ins_spec in Hc. apply ins_spec.
  apply ins_false in Hn. statuses; cbn in Hc; statuses.
Qed.

Lemma nonterminal_task ts : ts ∈ task_statuses -> ts ∉ terminal_statuses ->
  ts ∈ [TaskStatusPending; TaskStatusWaitingForAgents; TaskStatusQueued; TaskStatusRunning].
Proof.
  unfold task_statuses. intros Hs Hn. apply ins_spec. apply ins_false in Hn. statuses.
Qed.

Lemma succeeded_all d k t ks s :
  Inv d -> tasks d !! k = Some t -> Status t = TaskStatusSucceeded ->
  task_shards d !! ks = Some s -> sh_TaskID s = k -> sh_Status s = ShardStatusSucceeded.
Proof.
  intros HI Ht Hst Hs <-. destruct (inv_parent _ HI ks s Hs) as (t' & Ht' & Hc).
  assert (t' = t) as -> by congruence. rewrite Hst in Hc.
  unfold compat in Hc. apply ins_spec in Hc. cbn in Hc. statuses.
Qed.

Lemma cancelled_all d k t ks s :
  Inv d -> tasks d !! k = Some t -> Status t = TaskStatusCancelled ->
  task_shards d !! ks = Some s -> sh_TaskID s = k -> sh_Status s ∈ terminal_statuses.
Proof.
  intros HI Ht Hst Hs <-. destruct (inv_parent _ HI ks s Hs) as (t' & Ht' & Hc).
  assert (t' = t) as -> by congruence. rewrite Hst in Hc. unfold compat in Hc.
  apply ins_spec in Hc. cbn in Hc. apply ins_spec. statuses; by rewrite Hc.
Qed.

(** ** Changing the two tables row by row *)
Record remap (ft : Task -> Task) (fs : TaskShard -> TaskShard) (d d' : DB) : Prop := mkRemap {
  remap_tasks : tasks d' = ft <$> tasks d;
  remap_shards : task_shards d' = fs <$> task_shards d;
}.

(** Every row moves along the graph and stays compatible with its parent. *)
Record good (ft : Task -> Task) (fs : TaskShard -> TaskShard) (d : DB) : Prop := mkGood {
  good_task : forall k t, tasks d !! k = Some t ->
    task_moves t (ft t) /\ Status (ft t) ∈ task_statuses;
  good_shard : forall k s, task_shards d !! k = Some s -> shard_moves s (fs s);
  good_compat : forall k s t, task_shards d !! k = Some s -> tasks d !! sh_TaskID s = Some t ->
    compat (Status t) (sh_Status s) = true -> compat (Status (ft t)) (sh_Status (fs s)) = true;
}.

Lemma remap_inv ft fs d d' : Inv d -> remap ft fs d d' -> good ft fs d -> Inv d'.
Proof.
  intros HI [Ht Hs] [Gt Gs Gc]. split.
  - intros k t. rewrite Ht, lookup_fmap, fmap_Some. intros (t0 & H0 & ->).
    destruct (inv_task _ HI k t0 H0) as (? & ? & ?).
    destruct (Gt k t0 H0) as [(? & ? & _) ?]. split_and!; congruence.
  - intros k s. rewrite Hs, lookup_fmap, fmap_Some. intros (s0 & H0 & ->).
    destruct (inv_shard _ HI k s0 H0) as [? ?].
    destruct (Gs k s0 H0) as (? & ? & _). split; congruence.
  - intros k s. rewrite Hs, lookup_fmap, fmap_Some. intros (s0 & H0 & ->).
    destruct (inv_parent _ HI k s0 H0) as (t & Hk & Hc).
    destruct (Gs k s0 H0) as (_ & _ & -> & _).
    exists (ft t). rewrite Ht, lookup_fmap, Hk. split; [done|]. eauto.
Qed.

Lemma remap_life ft fs d d' : remap ft fs d d' -> good ft fs d -> life d d'.
Proof.
  intros [Ht Hs] [Gt Gs _]. split.
  - intros k t H0. exists (ft t). rewrite Ht, lookup_fmap, H0. split; [done|]. by apply (Gt k).
  - intros k s H0. exists (fs s). rewrite Hs, lookup_fmap, H0. split; [done|]. by apply (Gs k).
Qed.

(** Changes that leave the two tables alone. *)
Lemma same_tables_inv d d' :
  tasks d' = tasks d -> task_shards d' = task_shards d -> Inv d -> Inv d'.
Proof. intros Ht Hs [I1 I2 I3]. split; try rewrite Ht; try rewrite Hs; done. Qed.
Lemma same_tables_life d d' :
  tasks d' = tasks d -> task_shards d' = task_shards d -> life d d'.
Proof.
  intros Ht Hs. split; intros k r Hk; exists r; split; by rewrite ?Ht, ?Hs.
Qed.

(** Changing one row. *)
Lemma put_shard d d' k s s' :
  Inv d -> task_shards d !! k = Some s -> shard_moves s s' ->
  (forall t, tasks d !! sh_TaskID s = Some t -> compat (Status t) (sh_Status s') = true) ->
  tasks d' = tasks d -> task_shards d' = <[k := s']> (task_shards d) -> Inv d' /\ life d d'.
Proof.
  intros HI Hk Hm Hc Ht Hs.
  pose (fs := fun x : TaskShard => if decide (rid x = k) then s' else x).
  assert (remap id fs d d') as Hr.
  { split; [by rewrite map_fmap_id|]. rewrite Hs. apply map_eq. intros j.
    rewrite lookup_fmap. destruct (decide (j = k)) as [->|Hne].
    - rewrite lookup_insert_eq, Hk. cbn. unfold fs. destruct (inv_shard _ HI k s Hk).
      by rewrite decide_True.
    - rewrite lookup_insert_ne by done. destruct (task_shards d !! j) as [x|] eqn:Hj; [|done].
      cbn. unfold fs. destruct (inv_shard _ HI j x Hj). by rewrite decide_False by congruence. }
  assert (forall j x, task_shards d !! j = Some x -> rid x = k -> x = s) as Hu.
  { intros j x Hj Hx. destruct (inv_shard _ HI j x Hj). congruence. }
  assert (good id fs d) as Hg.
  { split; unfold fs.
    - intros j t Hj. destruct (inv_task _ HI j t Hj) as (_ & _ & ?). by split.
    - intros j x Hj. destruct (decide _) as [Hx|]; [|done]. by rewrite (Hu j x Hj Hx).
    - intros j x t Hj Hx Hcx. cbn. destruct (decide _) as [He|]; [|done].
      rewrite (Hu j x Hj He) in Hx. by apply Hc. }
  split; [by eapply remap_inv|by eapply remap_life].
Qed.

Lemma put_task d d' k t t' :
  Inv d -> tasks d !! k = Some t -> task_moves t t' -> Status t' ∈ task_statuses ->
  (forall ks s, task_shards d !! ks = Some s -> sh_TaskID s = k ->
                compat (Status t') (sh_Status s) = true) ->
  task_shards d' = task_shards d -> tasks d' = <[k := t']> (tasks d) -> Inv d' /\ life d d'.
Proof.
  intros HI Hk Hm Hst Hc Hs Ht.
  pose (ft := fun x : Task => if decide (rid x = k) then t' else x).
  assert (remap ft id d d') as Hr.
  { split; [|by rewrite map_fmap_id]. rewrite Ht. apply map_eq. intros j.
    rewrite lookup_fmap. destruct (decide (j = k)) as [->|Hne].
    - rewrite lookup_insert_eq, Hk. cbn. unfold ft. destruct (inv_task _ HI k t Hk).
      by rewrite decide_True.
    - rewrite lookup_insert_ne by done. destruct (tasks d !! j) as [x|] eqn:Hj; [|done].
      cbn. unfold ft. destruct (inv_task _ HI j x Hj). by rewrite decide_False by congruence. }
  assert (good ft id d) as Hg.
  { split; unfold ft.
    - intros j x Hj. destruct (inv_task _ HI j x Hj) as (Hx & _ & ?).
      destruct (decide _) as [He|]; [|by split]. assert (x = t) as -> by congruence. by split.
    - done.
    - intros j x y Hj Hy Hcx. cbn. destruct (inv_task _ HI _ y Hy) as (Hx & _ & _).
      destruct (decide _) as [He|]; [|done]. apply (Hc j); congruence. }
  split; [by eapply remap_inv|by eapply remap_life].
Qed.

(** Adding a row. *)
Lemma add_task d d' k t :
  Inv d -> tasks d !! k = None -> rid t = k -> live t = true -> Status t ∈ task_statuses ->
  tasks d' = <[k := t]> (tasks d) -> task_shards d' = task_shards d -> Inv d' /\ life d d'.
Proof.
  intros HI Hk Hr Hl Hst Ht Hs.
  assert (forall j x, tasks d !! j = Some x -> tasks d' !! j = Some x) as Hold.
  { intros j x Hj. rewrite Ht, lookup_insert_ne; [done|]. congruence. }
  split; split.
  - intros j x. rewrite Ht. destruct (decide (j = k)) as [->|Hne].
    + rewrite lookup_insert_eq. intros [= <-]. by repeat split.
    + rewrite lookup_insert_ne by done. apply (inv_task _ HI).
  - rewrite Hs. apply (inv_shard _ HI).
  - intros j s. rewrite Hs. intros Hj. destruct (inv_parent _ HI j s Hj) as (x & Hx & Hc).
    exists x. eauto.
  - intros j x Hj. exists x. split; [auto|reflexivity].
  - intros j x Hj. exists x. rewrite Hs. split; [auto|reflexivity].
Qed.
Lemma add_shard d d' k s t :
  Inv d -> task_shards d !! k = None -> rid s = k -> live s = true ->
  tasks d !! sh_TaskID s = Some t -> compat (Status t) (sh_Status s) = true ->
  task_shards d' = <[k := s]> (task_shards d) -> tasks d' = tasks d -> Inv d' /\ life d d'.
Proof.
  intros HI Hk Hr Hl Hp Hc Hs Ht.
  split; split.
  - rewrite Ht. apply (inv_task _ HI).
  - intros j x. rewrite Hs. destruct (decide (j = k)) as [->|Hne].
    + rewrite lookup_insert_eq. intros [= <-]. by repeat split.
    + rewrite lookup_insert_ne by done. apply (inv_shard _ HI).
  - intros j x. rewrite Hs, Ht. destruct (decide (j = k)) as [->|Hne].
    + rewrite lookup_insert_eq. intros [= <-]. eauto.
    + rewrite lookup_insert_ne by done. apply (inv_parent _ HI).
  - intros j x Hj. exists x. rewrite Ht. split; [auto|reflexivity].
  - intros j x Hj. exists x. rewrite Hs, lookup_insert_ne by congruence.
    split; [auto|reflexivity].
Qed.

#[export] Hint Resolve inv_sane_tasks inv_sane_shards : store.
