(* ===== verification/Lawful.v ===== *)
(** * Lawful programs

    What every goroutine of the server respects, action by action: the invariant
    [Inv] and the life cycle [life] of the tables, the identity of the agents in
    the registry, the assignment of shards to agents of their own tenant, and the
    discipline of completion hooks.  A goroutine keeps an [Account] of what its
    past actions entitle it to: the task rows it has read, the agents it has
    registered, for which alone it may lease shards, and a permit for each task it
    has itself brought to a terminal status and not yet announced, against which
    alone it may start a hook.  [lawful] programs end with at least what they
    started with.  System.v adds the accounts of all goroutines up. *)
From S2P Require Import Prelude Errors Model Env Proto World Effects Store StoreFacts.
From S2P Require Import Lifecycle.

(** ** What a goroutine knows and may announce *)
Record Account := mkAccount {
  known : list Task;                         (* rows it has read *)
  sessions : list (string * uuid * string);  (* agents it has registered *)
  permits : list Task;                       (* rows it has finished, to be announced *)
}.

(** The row [t0] was in the database at some moment, and has moved on lawfully. *)
Definition seen (d : DB) (t0 : Task) : Prop :=
  exists t, tasks d !! rid t0 = Some t /\ task_moves t0 t.
Definition finished (d : DB) (t : Task) : Prop := seen d t /\ Status t ∈ terminal_statuses.

(** The registry has the agent under that tenant and backend. *)
Definition registered (r : Registry) (x : string * uuid * string) : Prop :=
  exists a, agents r !! x.1.1 = Some a /\ ag_TenantID a = x.1.2 /\ ag_BackendName a = x.2.

Definition extends (g g' : Account) : Prop :=
  known g ⊆ known g' /\ sessions g ⊆ sessions g' /\ permits g ⊆+ permits g'.
Definition learn (t : Task) (g : Account) : Account :=
  mkAccount (t :: known g) (sessions g) (permits g).
Definition enlist (x : string * uuid * string) (g : Account) : Account :=
  mkAccount (known g) (x :: sessions g) (permits g).
Definition grant (new : list Task) (g : Account) : Account :=
  mkAccount (known g) (sessions g) (new ++ permits g).

(** The rows [new] have become terminal. *)
Definition finishes (d d' : DB) (new : list Task) : Prop :=
  NoDup (rid <$> new) /\
  forall t', t' ∈ new -> tasks d' !! rid t' = Some t' /\ Status t' ∈ terminal_statuses /\
    exists t, tasks d !! rid t' = Some t /\ Status t ∉ terminal_statuses.

(** A payload that tells the truth about a finished row. *)
Definition announces (p : CompletionHookPayload) (t : Task) : Prop :=
  pl_TaskID p = rid t /\ pl_TenantID p = TenantID t /\ pl_Status p = Status t /\
  pl_ResultAvailable p = (Status t =s TaskStatusSucceeded) /\
  pl_CompletionHookURL p = CompletionHookURL t /\ CompletionHookURL t <> "".

(** The hooks started by an action are paid for with permits, and permits come
    only from tasks the action has finished. *)
Definition hooks_accounted (g : Account) (w : World) (g' : Account) (w' : World) : Prop :=
  exists ps ts new,
    w_hooks w' = (ps ++ w_hooks w)%list /\ Forall2 announces ps ts /\
    finishes (w_db w) (w_db w') new /\ (ts ++ permits g')%list ⊆+ (new ++ permits g)%list.

(** The registry forgets no agent and keeps its tenant and backend. *)
Definition remembers (r r' : Registry) : Prop :=
  forall id a, agents r !! id = Some a ->
    exists a', agents r' !! id = Some a' /\
               ag_TenantID a' = ag_TenantID a /\ ag_BackendName a' = ag_BackendName a.

(** The agent a shard is assigned to, in any status. *)
Definition holder (s : TaskShard) : option string :=
  match sh_assigned_agent_id s with
  | Some A => if A =s "" then None else Some A
  | None => None
  end.
(** The shard's task is of the tenant and backend of the registered agent [A]. *)
Definition own_shard (r : Registry) (d : DB) (A : string) (s : TaskShard) : Prop :=
  exists a t n, agents r !! A = Some a /\ tasks d !! sh_TaskID s = Some t /\
    TenantID t = ag_TenantID a /\ tenants d !! TenantID t = Some n /\
    PrimaryBackendName n = ag_BackendName a.
Definition was_holder (d : DB) (k : uuid) (A : string) : Prop :=
  exists s, task_shards d !! k = Some s /\ holder s = Some A.
(** Shards are assigned to agents of their own tenant only. *)
Definition assigns_own (r : Registry) (d d' : DB) : Prop :=
  forall k s' A, task_shards d' !! k = Some s' -> holder s' = Some A ->
    was_holder d k A \/ own_shard r d' A s'.
Definition tenants_kept (d d' : DB) : Prop :=
  forall k n, tenants d !! k = Some n -> tenants d' !! k = Some n.

Definition IW (g : Account) (w : World) : Prop :=
  Inv (w_db w) /\ (forall t, t ∈ known g -> seen (w_db w) t) /\
  (forall x, x ∈ sessions g -> registered (w_reg w) x).

(** What all actions do together, whoever does them. *)
Record moves (w w' : World) : Prop := mkMoves {
  mv_life : life (w_db w) (w_db w');
  mv_tenants : tenants_kept (w_db w) (w_db w');
  mv_registry : remembers (w_reg w) (w_reg w');
  mv_assigned : assigns_own (w_reg w') (w_db w) (w_db w');
}.
Definition GW (g : Account) (w : World) (g' : Account) (w' : World) : Prop :=
  moves w w' /\ hooks_accounted g w g' w'.

#[export] Instance extends_refl : Reflexive extends.
Proof. by intros g. Qed.
#[export] Instance extends_trans : Transitive extends.
Proof. intros g1 g2 g3 (? & ? & ?) (? & ? & ?). split_and!; by etrans. Qed.
Lemma extends_learn t g g' : t ∈ known g' -> extends g g' -> extends (learn t g) g'.
Proof.
  intros Ht (Hk & Hs & Hp). split; [|by split]. intros x [->|Hx]%elem_of_cons; [done|by apply Hk].
Qed.
Lemma learn_extends t g : extends g (learn t g).
Proof. split; [|by split]. intros x Hx. by right. Qed.
Lemma enlist_extends x g : extends g (enlist x g).
Proof. split; [done|]. split; [|done]. intros y Hy. by right. Qed.
Lemma grant_extends new g : extends g (grant new g).
Proof. split; [done|]. split; [done|]. by apply submseteq_inserts_l. Qed.
#[export] Instance remembers_refl : Reflexive remembers.
Proof. intros r id a Ha. by exists a. Qed.
#[export] Instance remembers_trans : Transitive remembers.
Proof.
  intros r1 r2 r3 H1 H2 id a Ha. destruct (H1 id a Ha) as (a1 & Ha1 & ? & ?).
  destruct (H2 id a1 Ha1) as (a2 & Ha2 & ? & ?). exists a2. split_and!; congruence.
Qed.
Lemma registered_remembers r r' x : remembers r r' -> registered r x -> registered r' x.
Proof.
  intros Hr (a & Ha & HT & HB). destruct (Hr _ a Ha) as (a' & Ha' & ? & ?).
  exists a'. split_and!; congruence.
Qed.
Lemma own_shard_moves w w' A s s' :
  moves w w' -> shard_moves s s' -> own_shard (w_reg w) (w_db w) A s ->
  own_shard (w_reg w') (w_db w') A s'.
Proof.
  intros [[HL _] HT HR _] (_ & _ & Hs & _) (a & t & n & Ha & Ht & Hat & Hn & Hb).
  destruct (HR _ a Ha) as (a' & Ha' & Hat' & Hb'). destruct (HL _ t Ht) as (t' & Ht' & Hm).
  destruct Hm as (_ & _ & Htt & _). exists a', t', n. rewrite Hs, Htt, Hat', Hb'.
  split_and!; try done. by apply HT.
Qed.

(** Changes of the tables that assign nothing. *)
Record releases (d d' : DB) : Prop := mkReleases {
  releases_life : life d d';
  releases_tenants : tenants_kept d d';
  releases_holders : forall k s' A, task_shards d' !! k = Some s' -> holder s' = Some A ->
    was_holder d k A;
}.
#[export] Instance releases_refl : Reflexive releases.
Proof. intros d. split; [reflexivity|by intros k|]. intros k s A Hk Hh. by exists s. Qed.
Lemma releases_tables d d' :
  life d d' -> task_shards d' = task_shards d -> tenants d' = tenants d -> releases d d'.
Proof.
  intros HL Hs Hn. split; [done|intros k n; by rewrite Hn|].
  intros k s A. rewrite Hs. intros Hk Hh. by exists s.
Qed.
(** A shard that changes keeps its holder or loses it. *)
Definition released (s s' : TaskShard) : Prop :=
  forall A, holder s' = Some A -> holder s = Some A.
Lemma releases_fmap d d' f :
  life d d' -> tenants d' = tenants d -> task_shards d' = f <$> task_shards d ->
  (forall s, released s (f s)) -> releases d d'.
Proof.
  intros HL Hn Hs Hf. split; [done|intros k n; by rewrite Hn|].
  intros k s' A. rewrite Hs, lookup_fmap, fmap_Some. intros (s & Hk & ->) Hh.
  exists s. split; [done|by apply Hf].
Qed.
Lemma releases_put d d' k s s' :
  life d d' -> tenants d' = tenants d -> task_shards d !! k = Some s ->
  task_shards d' = <[k := s']> (task_shards d) -> released s s' -> releases d d'.
Proof.
  intros HL Hn Hk Hs Hr. split; [done|intros j n; by rewrite Hn|].
  intros j x A. rewrite Hs. intros [(<- & <-)|[_ Hj]]%lookup_insert_Some Hh.
  - exists s. split; [done|by apply Hr].
  - by exists x.
Qed.
#[export] Instance moves_refl : Reflexive moves.
Proof.
  intros w. split; [reflexivity|by intros k|reflexivity|]. intros k s A Hk Hh. left. by exists s.
Qed.
#[export] Instance moves_trans : Transitive moves.
Proof.
  intros w1 w2 w3 [L1 T1 R1 A1] M23. pose proof M23 as [L2 T2 R2 A2].
  split; [by etrans|intros k n Hn; auto|by etrans|].
  intros k s3 A Hk Hh. destruct (A2 k s3 A Hk Hh) as [(s2 & Hk2 & Hh2)|Hown]; [|by right].
  destruct (A1 k s2 A Hk2 Hh2) as [?|Hown]; [by left|right].
  destruct L2 as [_ Ls]. destruct (Ls k s2 Hk2) as (s3' & Hk3 & Hm).
  assert (s3' = s3) as -> by congruence. by eapply own_shard_moves.
Qed.
Lemma releases_moves w w' :
  releases (w_db w) (w_db w') -> remembers (w_reg w) (w_reg w') -> moves w w'.
Proof. intros [] ?. split; [done..|]. intros k s A Hk Hh. left. eauto. Qed.

Lemma seen_life d d' t : life d d' -> seen d t -> seen d' t.
Proof.
  intros [Lt _] (t1 & H1 & M1). destruct (Lt _ t1 H1) as (t2 & H2 & M2).
  exists t2. split; [done|by etrans].
Qed.
Lemma finished_life d d' t : life d d' -> finished d t -> finished d' t.
Proof. intros HL [Hs Ht]. split; [by eapply seen_life|done]. Qed.
Lemma finishes_nil d d' : finishes d d' [].
Proof. split; [constructor|]. by intros t ?%not_elem_of_nil. Qed.
Lemma finishes_finished d d' new t : finishes d d' new -> t ∈ new -> finished d' t.
Proof. intros [_ Hn] Ht. destruct (Hn t Ht) as (? & ? & _). split; [by exists t|done]. Qed.
(** A task finishes once. *)
Lemma finishes_fresh d d' new t t' : finishes d d' new -> finished d t -> t' ∈ new -> rid t <> rid t'.
Proof.
  intros [_ Hn] [(t1 & H1 & M1) Ht] Hin Heq. destruct (Hn t' Hin) as (_ & _ & t2 & H2 & Hnt).
  assert (t2 = t1) as -> by congruence. destruct M1 as (_ & _ & _ & _ & _ & Hm).
  apply Hnt. by rewrite (terminal_task_stays _ _ Ht Hm).
Qed.
Lemma IW_moves g w w' : Inv (w_db w') -> moves w w' -> IW g w -> IW g w'.
Proof.
  intros HI HM (_ & Hk & Hs). split; [done|]. split.
  - intros t Ht. eapply seen_life; [apply HM|auto].
  - intros x Hx. eapply registered_remembers; [apply HM|auto].
Qed.
(** An action that starts no hook. *)
Lemma GW_moves g w w' : moves w w' -> w_hooks w' = w_hooks w -> GW g w g w'.
Proof.
  intros HM HH. split; [done|]. exists [], [], [].
  split_and!; [done|constructor|apply finishes_nil|done].
Qed.
Lemma GW_refl g w : GW g w g w.
Proof. by apply GW_moves. Qed.

(** ** Lawful programs *)
Definition accounted (g : Account) {A} (p : prog A) (Q : Account -> A -> Prop) : Prop :=
  guarded IW GW g p Q.
Definition lawful_to {A} (p : prog A) (Q : A -> Prop) : Prop :=
  forall g, accounted g p (fun g' a => extends g g' /\ Q a).
Definition lawful {A} (p : prog A) : Prop := lawful_to p (fun _ => True).

Lemma lawful_to_mono {A} (p : prog A) (Q Q' : A -> Prop) :
  (forall a, Q a -> Q' a) -> lawful_to p Q -> lawful_to p Q'.
Proof. intros HQ Hp g. eapply guarded_mono; [|apply Hp]. intros g' a []. auto. Qed.
Lemma lawful_to_any {A} (p : prog A) Q : lawful_to p Q -> lawful p.
Proof. by apply lawful_to_mono. Qed.
Lemma lawful_bind_to {A B} (p : prog A) (k : A -> prog B) Q R :
  lawful_to p Q -> (forall a, Q a -> lawful_to (k a) R) -> lawful_to (bind p k) R.
Proof.
  intros Hp Hk g. eapply guarded_bind; [apply Hp|]. intros g1 a [Hg Ha].
  eapply guarded_mono; [|by apply Hk]. intros g2 b [Hg2 Hb]. split; [by etrans|done].
Qed.
Lemma lawful_bind {A B} (p : prog A) (k : A -> prog B) :
  lawful p -> (forall a, lawful (k a)) -> lawful (bind p k).
Proof. intros Hp Hk. eapply lawful_bind_to; [exact Hp|]. intros a _. apply Hk. Qed.
Lemma lawful_bindR {A B} (p : prog (res A)) f (k : A -> prog (res B)) :
  lawful p -> (forall a, lawful (k a)) -> lawful (bindR p f k).
Proof. intros Hp Hk. apply lawful_bind; [done|]. by intros [a|e]. Qed.
(** A program whose value comes with something known or permitted. *)
Lemma lawful_bind_acct {A B} (p : prog A) (k : A -> prog B) (Q : Account -> Account -> A -> Prop) :
  (forall g, accounted g p (Q g)) ->
  (forall g g' a, Q g g' a -> accounted g' (k a) (fun g2 _ => extends g g2)) -> lawful (bind p k).
Proof.
  intros Hp Hk g. eapply guarded_bind; [apply Hp|]. intros g' a HQ.
  eapply guarded_mono; [|by eapply Hk]. by cbn.
Qed.
(** Programs under an account. *)
Lemma accounted_lawful {A} (p : prog A) g g0 :
  lawful p -> extends g0 g -> accounted g p (fun g' _ => extends g0 g').
Proof. intros Hp Hg. eapply guarded_mono; [|apply Hp]. intros g' a [? _]. cbn. by etrans. Qed.
Lemma accounted_bind {A B} (p : prog A) (k : A -> prog B) g g0 R :
  lawful p -> extends g0 g -> (forall g' a, extends g0 g' -> accounted g' (k a) R) ->
  accounted g (bind p k) R.
Proof.
  intros Hp Hg Hk. eapply guarded_bind; [by eapply accounted_lawful|]. cbn. intros g' a. apply Hk.
Qed.

Lemma lawful_ret {A} (a : A) : lawful (Ret a).
Proof. done. Qed.
Lemma lawful_ext {A} (k : option string -> prog A) : (forall x, lawful (k x)) -> lawful (Ext k).
Proof. intros Hk g x. apply Hk. Qed.
Lemma lawful_now : lawful now.
Proof.
  intros g t. split; [|done]. intros w Hw _. split; [exact Hw|].
  apply GW_moves; [|done]. apply releases_moves; cbn; reflexivity.
Qed.
Lemma lawful_foldP {X S} (l : list X) (s : S) f :
  (forall x s, lawful (f x s)) -> lawful (foldP l s f).
Proof.
  intros Hf. revert s. induction l as [|x l IH]; intros s; [done|]. by apply lawful_bind.
Qed.
Lemma lawful_forR {X} (l : list X) f : (forall x, lawful (f x)) -> lawful (forR l f).
Proof. intros Hf. induction l as [|x l IH]; [done|]. by apply lawful_bindR. Qed.

(** Actions that start no hook and assign nothing. *)
Lemma lawful_act_releases {B} (f : World -> B * World) (Q : B -> Prop) :
  (forall w, Inv (w_db w) -> Inv (w_db (f w).2) /\ releases (w_db w) (w_db (f w).2) /\ Q (f w).1) ->
  (forall w, w_hooks (f w).2 = w_hooks w) ->
  (forall w, remembers (w_reg w) (w_reg (f w).2)) -> lawful_to (act f) Q.
Proof.
  intros Hf Hh Hr g w Hw. destruct (Hf w (proj1 Hw)) as (HI & Hq & HQ).
  pose proof (releases_moves _ _ Hq (Hr w)) as HM. exists g.
  split_and!; [by eapply IW_moves|by apply GW_moves|by split].
Qed.
(** Actions that leave the tables alone. *)
Lemma lawful_act_to {B} (f : World -> B * World) (Q : B -> Prop) :
  (forall w, tasks (w_db (f w).2) = tasks (w_db w)) ->
  (forall w, task_shards (w_db (f w).2) = task_shards (w_db w)) ->
  (forall w, tenants (w_db (f w).2) = tenants (w_db w)) ->
  (forall w, w_hooks (f w).2 = w_hooks w) ->
  (forall w, remembers (w_reg w) (w_reg (f w).2)) ->
  (forall w, Q (f w).1) -> lawful_to (act f) Q.
Proof.
  intros Ht Hs Hn Hh Hr HQ. apply lawful_act_releases; [|done..]. intros w HI.
  split; [exact (same_tables_inv _ _ (Ht w) (Hs w) HI)|]. split; [|apply HQ].
  exact (releases_tables _ _ (same_tables_life _ _ (Ht w) (Hs w)) (Hs w) (Hn w)).
Qed.
Lemma lawful_act {B} (f : World -> B * World) :
  (forall w, tasks (w_db (f w).2) = tasks (w_db w)) ->
  (forall w, task_shards (w_db (f w).2) = task_shards (w_db w)) ->
  (forall w, tenants (w_db (f w).2) = tenants (w_db w)) ->
  (forall w, w_hooks (f w).2 = w_hooks w) ->
  (forall w, remembers (w_reg w) (w_reg (f w).2)) -> lawful (act f).
Proof. intros. by apply lawful_act_to. Qed.
Lemma lawful_call {B} (f : World -> res B * World) :
  (forall w, tasks (w_db (f w).2) = tasks (w_db w)) ->
  (forall w, task_shards (w_db (f w).2) = task_shards (w_db w)) ->
  (forall w, tenants (w_db (f w).2) = tenants (w_db w)) ->
  (forall w, w_hooks (f w).2 = w_hooks w) ->
  (forall w, remembers (w_reg w) (w_reg (f w).2)) -> lawful (call f).
Proof. intros Ht Hs Hn Hh Hr g [m|]; [done|]. by apply lawful_act. Qed.

(** A statement is lawful when its effect is. *)
Lemma lawful_stmt {B} (g : DB -> res B * DB) (Q : res B -> Prop) :
  (forall m, Q (Err (EExternal m))) ->
  (forall d, Inv d -> Inv (g d).2 /\ releases d (g d).2 /\ Q (g d).1) -> lawful_to (stmt g) Q.
Proof.
  intros He Hg a [m|]; [split; [done|apply He]|]. apply lawful_act_releases; [|done..].
  intros w. apply Hg.
Qed.

(** A transaction is lawful when its successful runs are, the others being rolled
    back; it gives a permit for each row it has finished. *)
Definition commits (w w' : World) : Prop :=
  Inv (w_db w') /\ life (w_db w) (w_db w') /\ tenants_kept (w_db w) (w_db w') /\
  assigns_own (w_reg w) (w_db w) (w_db w').
Lemma releases_commits w w' : Inv (w_db w') -> releases (w_db w) (w_db w') -> commits w w'.
Proof. intros HI []. split_and!; [done..|]. intros k s A Hk Hh. left. eauto. Qed.

Lemma accounted_tx {B} g (body : prog (res B)) (F : B -> list Task -> Prop) :
  framed body ->
  (forall w, IW g w -> wpo body (fun v w' => commits w w' /\
     exists new, F v new /\ finishes (w_db w) (w_db w') new) w) ->
  accounted g (transaction body) (fun g' r =>
    match r with
    | Ok v => exists new, F v new /\ g' = grant new g
    | Err _ => g' = g
    end).
Proof.
  intros Hf Hb w Hw.
  assert (forall w' m, w_db w' = w_db w -> outside_same w w' ->
    exists g', IW g' w' /\ GW g w g' w' /\ accounted g' (Ret (Err m)) (fun g' r =>
      match r : res B with
      | Ok v => exists new, F v new /\ g' = grant new g
      | Err _ => g' = g
      end)) as Hback.
  { intros w' m Hd [_ Hr _ _ _ Hh]. assert (moves w w') as HM
      by (apply releases_moves; [by rewrite Hd|by rewrite Hr]).
    exists g. split; [|split; [by apply GW_moves|done]].
    apply (IW_moves g w w'); [rewrite Hd; apply Hw|done..]. }
  split; [intros _ m; by apply (Hback w (EExternal m))|].
  eapply wp_mono; [|exact (wp_framed body true _ w Hf (Hb w Hw))]. cbn.
  intros [v|e] w' [Hv Ho]; [|apply (Hback _ e); by destruct Ho].
  split; [|intros _ m; apply (Hback _ (EExternal m)); by destruct Ho].
  destruct Hv as [(HI & HL & HT & HA) (new & HF & Hn)]. destruct Ho as [_ Hr _ _ _ Hh].
  assert (moves w w') as HM by (split; [done..| |]; by rewrite Hr).
  exists (grant new g). split; [exact (IW_moves g w w' HI HM Hw)|]. split; [|by exists new].
  split; [done|]. exists [], [], new. by split_and!.
Qed.
Lemma accounted_tx_plain {B} g (body : prog (res B)) :
  framed body -> (forall w, IW g w -> wpo body (fun _ => commits w) w) ->
  accounted g (transaction body) (fun g' _ => extends g g' /\ True).
Proof.
  intros Hf Hb. eapply guarded_mono; [|apply (accounted_tx g body (fun _ new => new = []) Hf)].
  - intros g' [v|e]; [intros (new & Hn & ->); subst new|intros ->]; by split.
  - intros w Hw. eapply wpo_mono; [|by apply Hb]. intros v w' Hk. split; [done|].
    exists []. by split; [|apply finishes_nil].
Qed.
Lemma lawful_tx {B} (body : prog (res B)) :
  framed body -> (forall w, Inv (w_db w) -> wpo body (fun _ => commits w) w) ->
  lawful (transaction body).
Proof. intros Hf Hb g. apply accounted_tx_plain; [done|]. intros w [HI _]. by apply Hb. Qed.

(** A lawful program run alone. *)
Lemma lawful_wp {A} (p : prog A) Q w :
  lawful_to p Q -> Inv (w_db w) ->
  wp true p (fun a w' => Q a /\ Inv (w_db w') /\ moves w w') w.
Proof.
  intros Hp Hw. pose (g := mkAccount [] [] []). assert (IW g w) as HI.
  { split; [done|]. by split; intros ? ?%not_elem_of_nil. }
  eapply wp_mono; [|exact (guarded_wp IW GW moves (fun _ _ _ _ => @proj1 _ _) g p _ w (Hp g) HI)].
  intros a w' [(g' & [_ ?] & [? _]) ?]. by split_and!.
Qed.
(** In particular a transaction is lawful when each of its statements is. *)
Lemma lawful_tx_stmts {B} (body : prog (res B)) :
  framed body -> lawful body -> lawful (transaction body).
Proof.
  intros Hf Hb. apply lawful_tx; [done|]. intros w Hw.
  eapply wp_mono; [|exact (wp_framed _ true _ w Hf (lawful_wp _ _ w Hb Hw))].
  intros [v|e] w'; [|done]. intros [(_ & HI & [HL HT _ HA]) Ho].
  split_and!; try done. destruct Ho as [_ Hr _ _ _ _]. by rewrite <-Hr.
Qed.

Section LawfulStore.
Context `{E : Env, L : !EnvLaws E}.

Lemma lawful_read {B} (g : DB -> res B) : lawful (stmt (fun d => (g d, d))).
Proof. apply lawful_stmt; [done|]. intros d Hd. split; [done|]. split; [cbn; reflexivity|done]. Qed.

Lemma lawful_Find {R} `{Row R, Table R} (p : R -> bool) cs : lawful (Find p cs).
Proof. apply lawful_read. Qed.
Lemma lawful_First {R} `{Row R, Table R} (p : R -> bool) cs : lawful (First p cs).
Proof. apply lawful_read. Qed.
Lemma lawful_FirstForUpdate p : lawful (FirstForUpdate p).
Proof. apply lawful_call; intros w; try by destruct (order_by _ _). Qed.
Lemma lawful_Count {R} `{Row R, Table R} (p : R -> bool) : lawful (Count p).
Proof. apply lawful_read. Qed.

(** A goroutine that reads a task knows the row. *)
Lemma accounted_First (p : Task -> bool) cs g :
  accounted g (First p cs) (fun g' r => extends g g' /\
    match r with Ok t => t ∈ known g' /\ p t = true | Err _ => True end).
Proof.
  intros [m|]; [by split|]. intros w Hw. cbn [fst snd]. set (w' := set_db (w_db w) w).
  assert (moves w w') as HM by (apply releases_moves; cbn; reflexivity).
  assert (IW g w') as Hw' by (apply (IW_moves g w); [apply Hw|done..]).
  destruct (order_by _ _) as [|t l] eqn:Ho.
  { exists g. split_and!; [done|by apply GW_moves|by split]. }
  assert (t ∈ matching p (w_db w)) as Hin by (rewrite <-order_by_perm, Ho; left).
  apply elem_matching in Hin as ([k Ht] & _ & Hp).
  destruct (inv_task _ (proj1 Hw) k t Ht) as (Hid & _ & _). exists (learn t g). split_and!.
  - destruct Hw' as (HI & Hk & Hs). split; [done|]. split; [|done].
    intros t0 [->|Ht0]%elem_of_cons; [|by apply Hk]. exists t. by rewrite Hid.
  - split; [done|]. exists [], [], [].
    split_and!; [done|constructor|apply finishes_nil|done].
  - split; [apply learn_extends|]. split; [left|done].
Qed.

(** A query only returns rows that satisfy its condition. *)
Lemma lawful_Find_to {R} `{Row R, Table R} (p : R -> bool) cs :
  lawful_to (Find p cs) (fun r => match r with
                                  | Ok l => Forall (fun x => p x = true) l
                                  | Err _ => True
                                  end).
Proof.
  apply lawful_stmt; [done|]. intros d Hd. split; [done|]. split; [cbn; reflexivity|]. cbn.
  apply Forall_forall. intros x. rewrite order_by_perm. by intros (_ & _ & ?)%elem_matching.
Qed.

(** Updates of the tasks table: what the new row has to satisfy. *)
Definition task_ok (f : Task -> Task) (t : Task) : Prop :=
  Status t ∈ task_statuses ->
  task_moves t (f t) /\ Status (f t) ∈ task_statuses /\
  (forall s, compat (Status t) s = true -> compat (Status (f t)) s = true).

Lemma lawful_Updates_tasks (p : Task -> bool) f :
  (forall t, p t = true -> task_ok f t) -> lawful (Updates p f).
Proof.
  intros Hok. unfold Updates. apply lawful_bind; [apply lawful_now|]. intros now.
  apply lawful_stmt; [done|]. intros d Hd.
  pose (ft := fun t : Task => if live t && p t then touch now (f t) else t).
  assert (remap ft id d (set_rows (update_rows p (fun r => touch now (f r)) (rows d)) d)) as Hm.
  { split; [done|]. cbn. by rewrite map_fmap_id. }
  assert (good ft id d) as Hg.
  { split.
    - intros k t Ht. destruct (inv_task _ Hd k t Ht) as (_ & _ & Hst). unfold ft.
      destruct (live t && p t) eqn:Hp; [|by split]. clean.
      destruct (Hok t ltac:(done) Hst) as ((? & ? & ?) & ? & _). by split.
    - intros k s _. cbn. reflexivity.
    - intros k s t _ Ht Hc. destruct (inv_task _ Hd _ t Ht) as (_ & _ & Hst). unfold ft.
      destruct (live t && p t) eqn:Hp; [|done]. clean.
      destruct (Hok t ltac:(done) Hst) as (_ & _ & Hcc). by apply Hcc. }
  split; [by eapply remap_inv|]. split; [|done].
  apply releases_tables; [by eapply remap_life|done..].
Qed.

(** Updates of the shards table. *)
Definition shard_ok (f : TaskShard -> TaskShard) (s : TaskShard) : Prop :=
  shard_moves s (f s) /\ released s (f s) /\
  (forall ts, ts ∈ task_statuses -> compat ts (sh_Status s) = true ->
              compat ts (sh_Status (f s)) = true).

Lemma lawful_Updates_shards (p : TaskShard -> bool) f :
  (forall s, p s = true -> shard_ok f s) -> lawful (Updates p f).
Proof.
  intros Hok. unfold Updates. apply lawful_bind; [apply lawful_now|]. intros now.
  apply lawful_stmt; [done|]. intros d Hd.
  pose (fs := fun s : TaskShard => if live s && p s then touch now (f s) else s).
  assert (remap id fs d (set_rows (update_rows p (fun r => touch now (f r)) (rows d)) d)) as Hm.
  { split; [|done]. cbn. by rewrite map_fmap_id. }
  assert (good id fs d) as Hg.
  { split.
    - intros k t Ht. destruct (inv_task _ Hd k t Ht) as (_ & _ & Hst). by split.
    - intros k s Hs. unfold fs. destruct (live s && p s) eqn:Hp; [|done]. clean.
      destruct (Hok s ltac:(done)) as [Hmv _]. exact Hmv.
    - intros k s t Hs Ht Hc. destruct (inv_task _ Hd _ t Ht) as (_ & _ & Hst). unfold fs.
      destruct (live s && p s) eqn:Hp; [|done]. clean.
      destruct (Hok s ltac:(done)) as (_ & _ & Hcc). by apply Hcc. }
  split; [by eapply remap_inv|]. split; [|done].
  apply releases_fmap with fs; [by eapply remap_life|done..|]. intros s. unfold fs.
  destruct (live s && p s) eqn:Hp; [|by intros A]. clean. apply Hok. done.
Qed.

(** The other two tables. *)
Lemma lawful_Updates_clusters (p : Cluster -> bool) f : lawful (Updates p f).
Proof.
  unfold Updates. apply lawful_bind; [apply lawful_now|]. intros now.
  apply lawful_call; by intros w.
Qed.
Lemma lawful_BeforeCreate {R} `{Row R} (r : R) : lawful (BeforeCreate r).
Proof.
  unfold BeforeCreate. case_bool_decide; [|done].
  apply lawful_bindR; [|done]. apply lawful_call; by intros w.
Qed.
Lemma lawful_Create_cluster uniq (c : Cluster) : lawful (Create uniq c).
Proof.
  apply lawful_bindR; [apply lawful_BeforeCreate|]. intros c'.
  apply lawful_bind; [apply lawful_now|]. intros now.
  apply lawful_call; intros w; cbn; try done; by destruct (_ || _).
Qed.
Lemma lawful_Create_tenant uniq (n : Tenant) : lawful (Create uniq n).
Proof.
  apply lawful_bindR; [apply lawful_BeforeCreate|]. intros c'.
  apply lawful_bind; [apply lawful_now|]. intros now. apply lawful_stmt; [done|]. intros d Hd.
  destruct (bool_decide _ || _) eqn:Hc; [by split_and!|]. apply orb_false_iff in Hc as [Hc _].
  apply bool_decide_eq_false in Hc. rewrite <-eq_None_not_Some in Hc. split; [by destruct Hd|].
  split; [|done]. split; [by apply same_tables_life| |].
  - intros k x Hk. cbn. rewrite lookup_insert_ne; [done|]. intros <-. cbn in Hc. congruence.
  - intros k s A Hk Hh. by exists s.
Qed.
Lemma lawful_GetDB : lawful GetDB.
Proof. apply lawful_bind; [by apply lawful_act|]. by intros []. Qed.
End LawfulStore.

#[export] Hint Resolve lawful_ret lawful_now lawful_Find lawful_First lawful_FirstForUpdate lawful_Count
  lawful_read lawful_Updates_clusters lawful_Create_cluster lawful_Create_tenant
  lawful_GetDB : prog.

(** Walks down a program: binds, tests and lawful leaves. *)
Ltac lawful_step :=
  match goal with
  | |- lawful_to ?p (fun _ => True) => change (lawful p)
  | |- lawful (bind _ _) => apply lawful_bind; [|intros ?]
  | |- lawful (bindR _ _ _) => apply lawful_bindR; [|intros ?]
  | |- lawful (Ext _) => apply lawful_ext; intros ?
  | |- lawful (foldP _ _ _) => apply lawful_foldP; intros ? ?
  | |- lawful (forR _ _) => apply lawful_forR; intros ?
  | |- lawful (let '_ := ?x in _) => destruct x
  | |- lawful (match ?x with _ => _ end) => destruct x eqn:?
  | |- lawful (act _) => apply lawful_act; by intros
  | |- lawful (gets _) => apply lawful_act; by intros
  | |- lawful (modify _) => apply lawful_act; by intros
  | |- lawful (call _) => apply lawful_call; by intros
  | |- lawful _ => solve [eauto with prog]
  end.
Ltac lawful_all := intros; cbv zeta; repeat lawful_step.
Tactic Notation "lawful" reference(f) := intros; unfold f; cbv zeta; repeat lawful_step.

(** ** Programs that speak for an agent *)
Definition lawful_for (x : string * uuid * string) {A} (p : prog A) : Prop :=
  forall g, x ∈ sessions g -> accounted g p (fun g' _ => extends g g').

Section Sessions.
Context (x : string * uuid * string).

Lemma lawful_for_any {A} (p : prog A) : lawful p -> lawful_for x p.
Proof. intros Hp g _. eapply guarded_mono; [|apply Hp]. by intros g' a [? _]. Qed.
Lemma lawful_for_bind {A B} (p : prog A) (k : A -> prog B) :
  lawful_for x p -> (forall a, lawful_for x (k a)) -> lawful_for x (bind p k).
Proof.
  intros Hp Hk g Hx. eapply guarded_bind; [by apply Hp|]. cbn. intros g1 a Hg.
  eapply guarded_mono; [|apply Hk, Hg, Hx]. cbn. intros g2 _ ?. by etrans.
Qed.
Lemma lawful_for_bindR {A B} (p : prog (res A)) f (k : A -> prog (res B)) :
  lawful_for x p -> (forall a, lawful_for x (k a)) -> lawful_for x (bindR p f k).
Proof. intros Hp Hk. apply lawful_for_bind; [done|]. by intros [a|e]. Qed.
(** Registering the agent gives the right to speak for it. *)
Lemma lawful_enlist {A} (p : prog (res unit)) f (k : unit -> prog (res A)) :
  (forall g, accounted g p (fun g' r => extends g g' /\
     match r with Ok _ => x ∈ sessions g' | Err _ => True end)) ->
  lawful_for x (k tt) -> lawful (bindR p f k).
Proof.
  intros Hp Hk g. eapply guarded_bind; [apply Hp|]. intros g1 [[]|e] [Hg Hx]; [|done].
  eapply guarded_mono; [|by apply Hk]. cbn. intros g2 a ?. split; [by etrans|done].
Qed.
End Sessions.

Ltac lawful_for_step :=
  match goal with
  | |- lawful_for _ (bind _ _) => apply lawful_for_bind; [|intros ?]
  | |- lawful_for _ (bindR _ _ _) => apply lawful_for_bindR; [|intros ?]
  | |- lawful_for _ (let '_ := ?x in _) => destruct x
  | |- lawful_for _ (match ?x with _ => _ end) => destruct x eqn:?
  | |- lawful_for _ _ => solve [eauto with prog]
  | |- lawful_for _ _ => apply lawful_for_any; solve [lawful_all]
  end.
Tactic Notation "lawful_for" reference(f) := intros; unfold f; cbv zeta; repeat lawful_for_step.
