(* ===== verification/Demo.v ===== *)
(** * A small concrete deployment

    Two tenants, three tasks and two agents, in the environment [toy_env]: the
    input on which the theorems are evaluated. *)
From S2P Require Import Prelude Errors Model Env Proto World Effects Lifecycle Lawful.

Definition at_ (id created : Z) : BaseUUIDModel := mkBase (Z.to_N id) created created None.

Definition demo_tenants : gmap uuid Tenant :=
  list_to_map [(1%N, mkTenant (at_ 1 1) "acme" "kubernetes" 2);
               (2%N, mkTenant (at_ 2 2) "globex" "kubernetes" 0)].
Definition demo_tasks : gmap uuid Task :=
  list_to_map
    [(10%N, mkTask (at_ 10 5) 1 TaskStatusWaitingForAgents "" 2 None None None "" "");
     (11%N, mkTask (at_ 11 7) 1 TaskStatusRunning "http://hook" 2 (Some 8%Z) None None "" "");
     (12%N, mkTask (at_ 12 9) 2 TaskStatusPending "" 1 None None None "" "")].
Definition demo_shard (id task : Z) (script status : string) (agent : option string)
    (key : string) (started : option Z) : TaskShard :=
  mkShard (at_ id 5) (Z.to_N task) script status agent key "" started None "".
Definition demo_shards : gmap uuid TaskShard :=
  list_to_map
    [(13%N, demo_shard 13 10 "a.sh" ShardStatusQueued (Some "") "" None);
     (14%N, demo_shard 14 10 "b.sh" ShardStatusLeased (Some "idle") "" None);
     (15%N, demo_shard 15 11 "a.sh" ShardStatusRunning (Some "busy") "" (Some 8%Z));
     (16%N, demo_shard 16 11 "b.sh" ShardStatusSucceeded (Some "busy") "out" (Some 8%Z));
     (18%N, demo_shard 18 10 "c.sh" ShardStatusQueued (Some "") "" None);
     (17%N, demo_shard 17 12 "a.sh" ShardStatusQueued (Some "") "" None)].
Definition demo_clusters : gmap uuid Cluster :=
  list_to_map
    [(3%N, mkCluster (at_ 3 1) 1 ClusterStatusActive "kubernetes" 3600 (100 * Second) None);
     (4%N, mkCluster (at_ 4 1) 2 ClusterStatusActive "kubernetes" 3600 (100 * Second)
             (Some (- 1000 * Second)%Z))].
Definition demo_db : DB := mkDB demo_tasks demo_shards demo_tenants demo_clusters.

Definition demo_agent (id status : string) (shard : option string) : Agent :=
  mkAgent id 1 "kubernetes" status "" shard (Some 0%Z).
Definition demo_agents (sid : uuid -> string) : gmap string Agent :=
  list_to_map [("busy", demo_agent "busy" AgentStatusRunning (Some (sid 15%N)));
               ("idle", demo_agent "idle" AgentStatusIdle None)].
Definition demo_registry (sid : uuid -> string) : Registry :=
  mkRegistry (demo_agents sid) (list_to_map [("busy", 0)])
    [mkTimer "busy" HeartbeatTimer (90 * Second) true] (90 * Second) (5 * Minute) true.

Definition demo : World :=
  mkWorld demo_db true (demo_registry (@uuid_String toy_env)) (list_to_map [("busy", 0)]) 1 []
          true [] ∅ (mkK8s ∅ ∅) 0 10 [].

Lemma demo_inv : Inv (w_db demo).
Proof. apply inv_check_sound. vm_compute. reflexivity. Qed.
#[export] Hint Resolve demo_inv : store.
