(* ===== verification/TaskOrm.v ===== *)
(** * Queries on the tasks table (internal/orm/task_orm) *)
From S2P Require Import Prelude Errors Model Env Proto World Effects Store StoreFacts.
From S2P Require Import Lifecycle Lawful.

Section TaskOrm.
Context `{Env}.

(** create.go *)
Definition Create (task : Task) : prog (res unit) :=
  _ <-? Store.Create (fun _ _ => false) task # wrapf "create task" ;;
  Ret (Ok tt).

(** get_by_id.go: the task with its shards preloaded, by script name. *)
Definition GetByID (taskID : uuid) : prog (res (Task * list TaskShard)) :=
  task <-? First (fun t : Task => bool_decide (rid t = taskID)) [] # wrapf "get task by id" ;;
  shards <-? Find (fun s : TaskShard => bool_decide (sh_TaskID s = rid task))
                  [asc_text ScriptName] # wrapf "get task by id" ;;
  Ret (Ok (task, shards)).

(** get_pending_task_list.go *)
Definition GetPendingTaskList : prog (res (list Task)) :=
  Find (fun t => Status t =s TaskStatusPending) [asc_Z (fun t => CreatedAt (base t))].

(** get_task_list_by_tenant_id.go: the preload is one query for all tasks. *)
Definition ListTasksByTenant (tenant_id : uuid) (status : string)
    : prog (res (list (Task * list TaskShard))) :=
  let cond t := bool_decide (TenantID t = tenant_id) &&
                (if status <>s "" then Status t =s status else true) in
  found <-? Find cond [desc_Z (fun t => CreatedAt (base t))] # wrapf "list tasks by tenant" ;;
  match found with
  | [] => Ret (Ok [])
  | _ =>
    shards <-? Find (fun s : TaskShard => bool_decide (sh_TaskID s ∈ rid <$> found))
                    [asc_text ScriptName] # wrapf "list tasks by tenant" ;;
    Ret (Ok ((fun t => (t, List.filter (fun s => bool_decide (sh_TaskID s = rid t)) shards))
               <$> found))
  end.

(** mark_tasks_status.go *)
Definition MarkTasksStatus (taskIDs : list uuid) (status lastError : string)
    : prog (res unit) :=
  if bool_decide (taskIDs = []) then Ret (Ok tt) else
  _ <-? Updates (fun t => bool_decide (rid t ∈ taskIDs) && (Status t =s TaskStatusPending))
                (assign_task [SetTaskStatus status; SetTaskLastError lastError])
      # wrapf ("mark tasks " +:+ status) ;;
  Ret (Ok tt).

(** rollback_task_status.go *)
Definition RollbackTaskToWaiting (taskID : uuid) : prog (res unit) :=
  n <-? Updates (fun t => bool_decide (rid t = taskID) && (Status t =s TaskStatusQueued))
                (assign_task [SetTaskStatus TaskStatusWaitingForAgents])
      # wrapf "rollback task to waiting" ;;
  if (n >? 0)%Z then Ret (Ok tt) else Ret (Err (ESentinel ErrRecordNotFound)).

(** cancel_task_by_id.go *)
Definition CancelTaskById (tenant_id task_id : uuid) : prog (res unit) :=
  let owned t := bool_decide (TenantID t = tenant_id) && bool_decide (rid t = task_id) in
  t <- now ;;
  n <-? Updates (fun t => owned t && negb (ins (Status t) terminal_statuses))
                (assign_task [SetTaskStatus TaskStatusCancelled;
                              SetTaskFinishedAt (Some t); SetTaskLastError ""])
      # wrapf "cancel task" ;;
  if (n =? 0)%Z then
    task <-? First owned [] # wrapf "cancel task" ;;
    Ret (Err (ENew ("cancel task: task status " +:+ quoted (Status task) +:+ " is terminal")))
  else Ret (Ok tt).

(** count_active_tasks.go: [db.Table("tasks")] bypasses the soft-delete filter. *)
Definition activeStatuses : list string :=
  [TaskStatusPending; TaskStatusWaitingForAgents; TaskStatusQueued; TaskStatusRunning].
Definition CountActiveTasks (tenantID : uuid) : prog (res Z) :=
  stmt (fun d =>
    (Ok (Z.of_nat (length (List.filter
           (fun t => bool_decide (TenantID t = tenantID) && ins (Status t) activeStatuses)
           (scan (tasks d))))), d)).
End TaskOrm.

(** ** The queries keep the life cycle *)
Section TaskOrmLaws.
Context `{E : Env, L : !EnvLaws E}.

Lemma lawful_TaskOrm_GetByID taskID : lawful (GetByID taskID).
Proof. lawful GetByID. Qed.
Lemma accounted_GetByID taskID g :
  accounted g (GetByID taskID) (fun g' r => extends g g' /\
    match r with Ok (t, _) => t ∈ known g' /\ rid t = taskID | Err _ => True end).
Proof.
  eapply guarded_bind; [apply accounted_First|]. intros g1 [t|e] [Hg Ht]; [|done].
  destruct Ht as [Ht Hid]. clean.
  eapply guarded_bind; [exact (lawful_Find _ _ g1)|]. intros g2 [l|e] [Hg2 _]; cbn.
  - split; [by etrans|]. split; [by apply Hg2|done].
  - split; [by etrans|done].
Qed.
Lemma lawful_GetPendingTaskList : lawful GetPendingTaskList.
Proof. apply lawful_Find. Qed.
Lemma lawful_ListTasksByTenant tenant status : lawful (ListTasksByTenant tenant status).
Proof. lawful ListTasksByTenant. Qed.
Lemma lawful_CountActiveTasks tenant : lawful (CountActiveTasks tenant).
Proof. apply lawful_read. Qed.

Lemma task_ok_set_status status us t :
  rtc task_step (Status t) status -> status ∈ task_statuses ->
  (forall s, compat (Status t) s = true -> compat status s = true) ->
  (forall t, Status (assign_task us t) = status /\ rid (assign_task us t) = rid t /\
             live (assign_task us t) = live t /\ TenantID (assign_task us t) = TenantID t /\
             ShardCount (assign_task us t) = ShardCount t /\
             CompletionHookURL (assign_task us t) = CompletionHookURL t) ->
  task_ok (assign_task us) t.
Proof.
  intros Hr Hs Hc Hu _. destruct (Hu t) as (-> & ? & ? & ? & ? & ?).
  split; [|by split]. repeat split; try done. by destruct (Hu t) as (-> & _).
Qed.

Lemma lawful_MarkTasksStatus ids status err :
  status ∈ [TaskStatusPending; TaskStatusWaitingForAgents; TaskStatusFailed] ->
  lawful (MarkTasksStatus ids status err).
Proof.
  intros Hs. unfold MarkTasksStatus. case_bool_decide; [done|].
  apply lawful_bindR; [|done]. apply lawful_Updates_tasks. intros t Ht. clean.
  apply task_ok_set_status with status; [..|done]; rewrite ?H1.
  - statuses; apply rtc_once; constructor.
  - statuses; by apply ins_spec.
  - intros s Hc. apply ins_spec in Hc. unfold compat. cbn in Hc. statuses.
Qed.

Lemma lawful_RollbackTaskToWaiting id : lawful (RollbackTaskToWaiting id).
Proof.
  apply lawful_bindR; [|lawful_all]. apply lawful_Updates_tasks. intros t Ht. clean.
  apply task_ok_set_status with TaskStatusWaitingForAgents; [..|done]; rewrite ?H0.
  - apply rtc_once. constructor.
  - by apply ins_spec.
  - done.
Qed.
End TaskOrmLaws.
#[export] Hint Resolve lawful_TaskOrm_GetByID lawful_GetPendingTaskList
  lawful_ListTasksByTenant lawful_CountActiveTasks lawful_MarkTasksStatus
  lawful_RollbackTaskToWaiting : prog.
