(* ===== verification/TaskShardOrm.v ===== *)
(** * Queries on the task_shards table (internal/orm/task_shard_orm) *)
From S2P Require Import Prelude Errors Model Env Proto World Effects Store StoreFacts.
From S2P Require Import Lifecycle Lawful TaskOrm.

Section TaskShardOrm.
Context `{Env}.

(** create.go *)
Definition Create (shard : TaskShard) : prog (res unit) :=
  _ <-? Store.Create (fun _ _ => false) shard # wrapf "create shard" ;;
  Ret (Ok tt).

(** get_by_id.go *)
Definition GetByID (shardID : uuid) : prog (res TaskShard) :=
  shard <-? First (fun s : TaskShard => bool_decide (rid s = shardID)) [] # wrapf "get shard" ;;
  Ret (Ok shard).

(** get_active_task_shard_by_agent.go *)
Definition GetActiveTaskShardByAgent (agentID : string) : prog (res (list TaskShard)) :=
  Find (fun s => bool_decide (sh_assigned_agent_id s = Some agentID) &&
                 ins (sh_Status s) [ShardStatusLeased; ShardStatusRunning]) [].

(** update_shard_status.go *)
Definition transitionStatus (shardID : uuid) (targetStatus : string)
    (currentStatuses : list string) (updates : list shard_set) : prog (res unit) :=
  let msg := "transition shard to " +:+ targetStatus in
  n <-? Updates (fun s => bool_decide (rid s = shardID) && ins (sh_Status s) currentStatuses)
                (assign_shard (updates ++ [SetShardStatus targetStatus]))
      # wrapf msg ;;
  if (n =? 0)%Z then
    shard <-? First (fun s : TaskShard => bool_decide (rid s = shardID)) [] # wrapf msg ;;
    Ret (Err (ENew (msg +:+ ": shard " +:+ uuid_String shardID +:+ " is " +:+ sh_Status shard
                    +:+ ", expected one of " +:+ show_slice currentStatuses)))
  else Ret (Ok tt).

Definition MarkRunning (shardID : uuid) : prog (res unit) :=
  t <- now ;;
  transitionStatus shardID ShardStatusRunning [ShardStatusLeased]
    [SetShardStartedAt (Some t)].

Definition MarkSucceeded (shardID : uuid) : prog (res unit) :=
  t <- now ;;
  transitionStatus shardID ShardStatusSucceeded [ShardStatusRunning]
    [SetShardFinishedAt (Some t)].

Definition MarkFailed (shardID : uuid) (lastError : string) : prog (res unit) :=
  t <- now ;;
  transitionStatus shardID ShardStatusFailed [ShardStatusRunning]
    [SetShardFinishedAt (Some t); SetShardLastError lastError].

Definition RollbackToQueued (shardID : uuid) (currentStatuses : list string)
    : prog (res unit) :=
  transitionStatus shardID ShardStatusQueued currentStatuses [SetAssignedAgentID None].

(** rollback_shard_with_task.go *)
Definition RollbackShardWithTask (shardID : uuid) (currentStatuses : list string)
    (task : Task) : prog (res unit) :=
  _ <-? RollbackToQueued shardID currentStatuses ;;
  if Status task =s TaskStatusWaitingForAgents then
    r <- RollbackTaskToWaiting (rid task) ;;
    match r with
    | Err e => if errors_Is e ErrRecordNotFound then Ret (Ok tt) else Ret (Err e)
    | Ok _ => Ret (Ok tt)
    end
  else Ret (Ok tt).

(** rollback_shard_lease.go *)
Definition RollbackShardLease (shardID : uuid) (agentID : string) : prog (res unit) :=
  n <-? Updates (fun s => bool_decide (rid s = shardID) && (sh_Status s =s ShardStatusLeased) &&
                          bool_decide (sh_assigned_agent_id s = Some agentID))
                (assign_shard [SetShardStatus ShardStatusQueued; SetAssignedAgentID (Some "")])
      # wrapf "rollback shard lease" ;;
  if (n =? 0)%Z then Ret (Err (ESentinel ErrRecordNotFound)) else Ret (Ok tt).

(** cancel_task_shards_by_task_id.go *)
Definition CancelTaskShardsByTaskId (task_id : uuid) : prog (res unit) :=
  t <- now ;;
  _ <-? Updates (fun s => bool_decide (sh_TaskID s = task_id) &&
                          negb (ins (sh_Status s)
                                    [ShardStatusSucceeded; ShardStatusFailed;
                                     ShardStatusCancelled]))
                (assign_shard [SetShardStatus ShardStatusCancelled;
                               SetShardFinishedAt (Some t); SetAssignedAgentID None;
                               SetShardStartedAt None; SetShardLastError ""])
      # wrapf "cancel shards" ;;
  Ret (Ok tt).

(** find_orphan_shards.go *)
Definition FindOrphanShards (registeredAgentIDs : list string) : prog (res (list TaskShard)) :=
  Find (fun s =>
    ins (sh_Status s) [ShardStatusLeased; ShardStatusRunning] &&
    match sh_assigned_agent_id s with
    | None => false
    | Some a => (a <>s "") &&
                (if bool_decide (registeredAgentIDs = []) then true
                 else negb (ins a registeredAgentIDs))
    end) [].

(** cleanup_orphans.go: the loop over the orphans found. *)
Definition cleanupOrphan (cutoff : Z) (shard : TaskShard) (rolledBack : Z) : prog Z :=
  match sh_StartedAt shard with
  | Some started =>
    if (started <? cutoff)%Z then
      r <- First (fun t : Task => bool_decide (rid t = sh_TaskID shard)) [] ;;
      match r with
      | Err _ => Ret rolledBack
      | Ok task =>
        r' <- transaction (RollbackShardWithTask (rid shard)
                             [ShardStatusLeased; ShardStatusRunning] task) ;;
        match r' with
        | Err _ => Ret rolledBack
        | Ok _ => Ret (rolledBack + 1)%Z
        end
      end
    else Ret rolledBack
  | None => Ret rolledBack
  end.

Definition CleanupOrphanShards (registeredAgentIDs : list string) (threshold : Z)
    : prog (res Z) :=
  shards <-? FindOrphanShards registeredAgentIDs ;;
  t <- now ;;
  n <- foldP shards 0%Z (cleanupOrphan (t - threshold)%Z) ;;
  Ret (Ok n).

(** get_shard_task_owner.go: a raw query into a struct.  [Scan] leaves the
    struct zero and reports no error when no row matches. *)
Record ShardTaskOwner := mkOwner {
  own_TaskID : uuid;
  own_TenantID : uuid;
  own_PrimaryBackendName : string;
}.

Definition GetShardTaskOwner (shardTaskID : uuid) : prog (res ShardTaskOwner) :=
  owner <-? stmt (fun d =>
    (Ok (match List.filter (fun t => bool_decide (rid t = shardTaskID)) (scan (tasks d)) with
         | t :: _ =>
           match tenants d !! TenantID t with
           | Some n => mkOwner (rid t) (TenantID t) (PrimaryBackendName n)
           | None => mkOwner uuid_Nil uuid_Nil ""
           end
         | [] => mkOwner uuid_Nil uuid_Nil ""
         end), d)) # wrapf "get shard task owner" ;;
  Ret (Ok owner).
End TaskShardOrm.

(** ** The queries keep the life cycle *)
Section TaskShardOrmLaws.
Context `{E : Env, L : !EnvLaws E}.

Lemma lawful_TaskShardOrm_GetByID id : lawful (GetByID id).
Proof. lawful GetByID. Qed.
Lemma lawful_GetShardTaskOwner id : lawful (GetShardTaskOwner id).
Proof. lawful GetShardTaskOwner. Qed.
Lemma lawful_GetActiveTaskShardByAgent agent :
  lawful_to (GetActiveTaskShardByAgent agent)
    (fun r => match r with
              | Ok l => Forall (fun s => sh_Status s ∈ [ShardStatusLeased; ShardStatusRunning]) l
              | Err _ => True
              end).
Proof.
  eapply lawful_to_mono; [|apply lawful_Find_to]. intros [l|e]; [|done]. cbn.
  intros Hl. eapply Forall_impl; [exact Hl|]. cbn. intros s Hs. by clean.
Qed.

(** A transition either changes the one row, from an expected status, or fails
    and changes nothing. *)
Lemma wp_transitionStatus b id target current us Q w :
  sane (task_shards (w_db w)) ->
  (forall s now, task_shards (w_db w) !! id = Some s -> sh_Status s ∈ current ->
     Q (Ok tt) (put id (touch now (assign_shard (us ++ [SetShardStatus target]) s)) now w)) ->
  (forall e now, (forall s, task_shards (w_db w) !! id = Some s -> sh_Status s ∉ current) ->
     Q (Err e) (set_clock now w)) ->
  (b = true -> forall e now, Q (Err e) (set_clock now w)) ->
  wp b (transitionStatus id target current us) Q w.
Proof.
  intros Hs H1 H2 H3. apply wp_bindR, wp_Updates_id; [done| | |by auto].
  - intros s n now Hk Hc Hn _. clean. rewrite (proj2 (Z.eqb_neq n 0) Hn). by apply H1.
  - intros now Hn _. rewrite Z.eqb_refl.
    assert (forall s, task_shards (w_db w) !! id = Some s -> sh_Status s ∉ current) as Hn'.
    { intros s Hk. specialize (Hn s Hk). by clean. }
    apply wp_bindR, wp_First_key; cbn; auto.
Qed.

(** A rolled-back shard. *)
Definition requeued (s : TaskShard) : TaskShard :=
  assign_shard [SetAssignedAgentID None; SetShardStatus ShardStatusQueued] s.
#[local] Arguments requeued : simpl never.

(** Only the shard changes: the task's own roll-back needs a task that the caller
    saw WAITING_FOR_AGENTS and that is QUEUED in the database. *)
Lemma wp_RollbackShardWithTask b id current task Q w :
  sane (task_shards (w_db w)) -> sane (tasks (w_db w)) ->
  (Status task <> TaskStatusWaitingForAgents \/ tasks (w_db w) !! rid task = Some task) ->
  (forall s now w', task_shards (w_db w) !! id = Some s -> sh_Status s ∈ current ->
     w_db w' = set_task_shards (<[id := touch now (requeued s)]> (task_shards (w_db w))) (w_db w) ->
     outside_same w w' -> Q (Ok tt) w') ->
  (forall e w', b = true \/ (forall s, task_shards (w_db w) !! id = Some s ->
                                 sh_Status s ∉ current) -> outside_same w w' -> Q (Err e) w') ->
  wp b (RollbackShardWithTask id current task) Q w.
Proof.
  intros Hs Hst Ht H1 H2. unfold RollbackShardWithTask, RollbackToQueued.
  apply wp_bindR, wp_transitionStatus; [done| |by intros; apply H2; auto..].
  intros s now Hk Hc. destruct (Status task =s TaskStatusWaitingForAgents) eqn:Hw.
  2:{ cbn. by apply (H1 s now). }
  clean. destruct Ht as [?|Ht]; [done|]. unfold RollbackTaskToWaiting.
  apply wp_bind, wp_bindR, wp_Updates_id.
  - exact Hst.
  - intros t n now' Hrow Hq. cbn in Hrow. assert (t = task) as -> by congruence. clean.
    by rewrite Hw in Hq.
  - intros now' _ _. cbn. by apply (H1 s now).
  - intros Hb now' m. cbn. apply H2; auto. by split.
Qed.

(** A loop that requeues some of the rows it is given; [K] is what else it keeps. *)
Lemma wp_fold_requeue (P : TaskShard -> Prop) (pick : TaskShard -> bool) f (K : World -> Prop) l (n : Z) w :
  (forall s n w, P s -> sane (task_shards (w_db w)) -> K w ->
     task_shards (w_db w) !! rid s = Some s ->
     wp false (f s n) (fun _ w' => K w' /\
       if pick s then exists now, task_shards (w_db w') =
                        <[rid s := touch now (requeued s)]> (task_shards (w_db w))
       else task_shards (w_db w') = task_shards (w_db w)) w) ->
  sane (task_shards (w_db w)) -> K w -> NoDup (rid <$> l) ->
  (forall s, s ∈ l -> task_shards (w_db w) !! rid s = Some s /\ P s) ->
  wp false (foldP l n f) (fun _ w' => K w' /\
    forall k, ((forall s, s ∈ l -> rid s = k -> pick s = false) ->
                 task_shards (w_db w') !! k = task_shards (w_db w) !! k) /\
              (forall s, s ∈ l -> rid s = k -> pick s = true -> exists now,
                 task_shards (w_db w') !! k = Some (touch now (requeued s)))) w.
Proof.
  intros Hf. revert n w. induction l as [|s l IH]; intros n w Hsane HT Hnd Hl; cbn [foldP].
  { cbn. split; [done|]. intros k. split; [done|]. intros s Hs. by apply not_elem_of_nil in Hs. }
  cbn in Hnd. apply NoDup_cons in Hnd as [Hn Hnd].
  destruct (Hl s ltac:(left)) as [Hs HP]. destruct (Hsane _ s Hs) as [_ Hlive].
  apply wp_bind. eapply wp_mono; [|by apply Hf]. intros n1 w1 [HT1 Hw1].
  assert (sane (task_shards (w_db w1)) /\
          (forall k, k <> rid s -> task_shards (w_db w1) !! k = task_shards (w_db w) !! k) /\
          (pick s = true -> exists now, task_shards (w_db w1) !! rid s = Some (touch now (requeued s))) /\
          (pick s = false -> task_shards (w_db w1) !! rid s = Some s)) as (Hs1 & Hne & Hp & Hnp).
  { destruct (pick s).
    - destruct Hw1 as [now ->]. split; [by apply sane_insert|].
      split; [intros k Hk; by rewrite lookup_insert_ne|]. split; [|done]. intros _. exists now.
      apply lookup_insert_eq.
    - rewrite Hw1. by split_and!. }
  eapply wp_mono; [|apply IH; [done|done|done|]].
  2:{ intros s' Hs'. destruct (Hl s') as [Hrow' HP']; [by right|].
      rewrite Hne; [done|]. intros Heq. apply Hn. rewrite <-Heq.
      by apply list_elem_of_fmap_2. }
  intros _ w' [HT' Hk]. split; [done|]. intros k. destruct (Hk k) as [Hout Hin]. split.
  - intros Hno. rewrite Hout by (intros; apply Hno; [by right|done]).
    destruct (decide (k = rid s)) as [->|Hkn]; [|by apply Hne].
    rewrite Hs. apply Hnp. by apply Hno; [left|].
  - intros s' Hs' Hr Hps. apply elem_of_cons in Hs' as [->|Hs']; [|by apply (Hin s')].
    subst k. destruct (Hp Hps) as [now Hnow]. exists now. rewrite Hout; [done|].
    intros s' Hs' Hr. exfalso. apply Hn. rewrite <-Hr. by apply list_elem_of_fmap_2.
Qed.

Lemma shard_ok_queued us s :
  sh_Status s ∈ [ShardStatusLeased; ShardStatusRunning] ->
  (forall s, sh_Status (assign_shard us s) = ShardStatusQueued /\
             rid (assign_shard us s) = rid s /\ live (assign_shard us s) = live s /\
             sh_TaskID (assign_shard us s) = sh_TaskID s /\
             ScriptName (assign_shard us s) = ScriptName s /\
             holder (assign_shard us s) = None) ->
  shard_ok (assign_shard us) s.
Proof.
  intros Hs Hu. destruct (Hu s) as (Hst & ? & ? & ? & ? & Hh). split; [|split].
  - repeat split; try done. rewrite Hst. apply rtc_once. by constructor.
  - intros A. by rewrite Hh.
  - intros ts Hts. rewrite Hst. unfold task_statuses in Hts.
    statuses; rewrite Hs; vm_compute; congruence.
Qed.

Lemma lawful_RollbackToQueued id current :
  Forall (fun s => s ∈ [ShardStatusLeased; ShardStatusRunning]) current ->
  lawful (RollbackToQueued id current).
Proof.
  intros Hc. unfold RollbackToQueued, transitionStatus.
  apply lawful_bindR; [|lawful_all]. apply lawful_Updates_shards. intros s Hs. clean.
  apply shard_ok_queued; [|done]. rewrite Forall_forall in Hc. auto.
Qed.

Lemma framed_RollbackShardWithTask id current task : framed (RollbackShardWithTask id current task).
Proof.
  unfold RollbackShardWithTask, RollbackToQueued, transitionStatus, RollbackTaskToWaiting. framed_all.
Qed.
Lemma lawful_RollbackShardWithTask id current task :
  Forall (fun s => s ∈ [ShardStatusLeased; ShardStatusRunning]) current ->
  lawful (RollbackShardWithTask id current task).
Proof.
  intros Hc. unfold RollbackShardWithTask.
  apply lawful_bindR; [by apply lawful_RollbackToQueued|]. lawful_all.
Qed.

Lemma lawful_RollbackShardLease id agent : lawful (RollbackShardLease id agent).
Proof.
  apply lawful_bindR; [|lawful_all]. apply lawful_Updates_shards. intros s Hs. clean.
  apply shard_ok_queued; [|done]. rewrite H1. by apply ins_spec.
Qed.

Lemma leased_running_ok :
  Forall (fun s => s ∈ [ShardStatusLeased; ShardStatusRunning])
         [ShardStatusLeased; ShardStatusRunning].
Proof. repeat constructor. Qed.

Lemma lawful_CleanupOrphanShards_orm agents threshold :
  lawful (CleanupOrphanShards agents threshold).
Proof.
  unfold CleanupOrphanShards, FindOrphanShards, cleanupOrphan. lawful_all.
  apply lawful_tx_stmts, lawful_RollbackShardWithTask, leased_running_ok.
  apply framed_RollbackShardWithTask.
Qed.
End TaskShardOrmLaws.
#[export] Hint Resolve lawful_TaskShardOrm_GetByID lawful_GetShardTaskOwner
  lawful_RollbackToQueued lawful_RollbackShardWithTask lawful_RollbackShardLease
  framed_RollbackShardWithTask leased_running_ok lawful_CleanupOrphanShards_orm
  lawful_tx_stmts : prog.
