(* ===== verification/TenantOrm.v ===== *)
(** * Queries on the tenants table (internal/orm/tenant_orm) *)
From S2P Require Import Prelude Errors Model Env Proto World Effects Store StoreFacts.
From S2P Require Import Lifecycle Lawful.

Section TenantOrm.
Context `{Env}.

(** create.go; [name] has a unique index. *)
Definition Create (tenant : Tenant) : prog (res Tenant) :=
  if Name tenant =s "" then Ret (Err (ENew "tenant name is required")) else
  Store.Create (fun a b => Name a =s Name b) tenant.

(** get_by_id.go *)
Definition GetById (tenantID : uuid) : prog (res Tenant) :=
  First (fun t : Tenant => bool_decide (rid t = tenantID)) [].

(** get_by_name.go *)
Definition GetByName (name : string) : prog (res Tenant) :=
  if name =s "" then Ret (Err (ENew "tenant name is required")) else
  First (fun t => Name t =s name) [].
End TenantOrm.

Section TenantOrmLaws.
Context `{E : Env, L : !EnvLaws E}.
Lemma lawful_TenantOrm_Create t : lawful (Create t).
Proof. lawful Create. Qed.
Lemma lawful_GetById id : lawful (GetById id).
Proof. lawful GetById. Qed.
Lemma lawful_GetByName name : lawful (GetByName name).
Proof. lawful GetByName. Qed.
End TenantOrmLaws.
#[export] Hint Resolve lawful_TenantOrm_Create lawful_GetById lawful_GetByName : prog.
