(* ===== verification/ClusterOrm.v ===== *)
(** * Queries on the clusters table (internal/orm/cluster_orm) *)
From S2P Require Import Prelude Errors Model Env Proto World Effects Store StoreFacts.
From S2P Require Import Lifecycle Lawful.

Section ClusterOrm.
Context `{Env}.

(** create.go; [tenant_id] has a unique index, and [billing_cycle_seconds] a
    column default that gorm leaves to the database for the zero value. *)
Definition default_cycle (cluster : Cluster) : Cluster :=
  if (BillingCycleSeconds cluster =? 0)%Z
  then set_cluster (SetBillingCycleSeconds 3600) cluster else cluster.
Definition same_tenant (a b : Cluster) : bool := bool_decide (cl_TenantID a = cl_TenantID b).
Definition Create (cluster : Cluster) : prog (res Cluster) :=
  Store.Create same_tenant (default_cycle cluster).

(** get_active_cluster_list.go *)
Definition GetActiveClusterList : prog (res (list Cluster)) :=
  Find (fun c => ins (cl_Status c) [ClusterStatusActive; ClusterStatusProvisioning]) [].

(** get_by_tenant.go *)
Definition GetByTenant (tenantID : uuid) : prog (res Cluster) :=
  First (fun c => bool_decide (cl_TenantID c = tenantID) &&
                  (cl_Status c <>s ClusterStatusTerminated))
        [desc_Z (fun c => CreatedAt (base c))].

(** update_status.go, update_idle_since.go *)
Definition UpdateStatus (id : uuid) (status : string) : prog (res unit) :=
  _ <-? Updates (fun c : Cluster => bool_decide (rid c = id))
                (assign_cluster [SetClusterStatus status]) ;;
  Ret (Ok tt).
Definition UpdateIdleSince (clusterID : uuid) (idleSince : option Z) : prog (res unit) :=
  _ <-? Updates (fun c : Cluster => bool_decide (rid c = clusterID))
                (assign_cluster [SetIdleSince idleSince]) ;;
  Ret (Ok tt).

(** get_or_create_active_cluster.go *)
Definition reactivate (cluster : Cluster) : list cluster_set :=
  [SetClusterStatus (cl_Status cluster); SetBackendName (BackendName cluster);
   SetBillingCycleSeconds (BillingCycleSeconds cluster);
   SetNextBillingBoundaryAt (NextBillingBoundaryAt cluster)].

(** After a failed [Create]. *)
Definition reuse_cluster (cluster : Cluster) (createErr : error) : prog (res Cluster) :=
  if contains "duplicate key" (Error createErr) then
    fetched <- First (fun c => bool_decide (cl_TenantID c = cl_TenantID cluster))
                     [desc_Z (fun c => CreatedAt (base c))] ;;
    match fetched with
    | Err _ => Ret (Err createErr)
    | Ok found =>
      if cl_Status found =s ClusterStatusTerminated then
        _ <-? Updates (fun c => bool_decide (rid c = rid found))
                      (assign_cluster (reactivate cluster)) ;;
        Ret (Ok (assign_cluster (reactivate cluster) found))
      else Ret (Ok found)
    end
  else Ret (Err createErr).

Definition GetOrCreateActiveCluster (cluster : Cluster) : prog (res Cluster) :=
  existing <- GetByTenant (cl_TenantID cluster) ;;
  match existing with
  | Ok c => Ret (Ok c)
  | Err _ =>
    created <- Create cluster ;;
    match created with
    | Ok c => Ret (Ok c)
    | Err createErr => reuse_cluster cluster createErr
    end
  end.
End ClusterOrm.

(** ** The queries leave tasks and shards alone *)
Section ClusterOrmLaws.
Context `{E : Env, L : !EnvLaws E}.
Lemma lawful_ClusterOrm_Create c : lawful (Create c).
Proof. lawful Create. Qed.
Lemma lawful_GetActiveClusterList : lawful GetActiveClusterList.
Proof. lawful GetActiveClusterList. Qed.
Lemma lawful_ClusterOrm_GetByTenant id : lawful (GetByTenant id).
Proof. lawful GetByTenant. Qed.
Lemma lawful_UpdateStatus id status : lawful (UpdateStatus id status).
Proof. lawful UpdateStatus. Qed.
Lemma lawful_UpdateIdleSince id since : lawful (UpdateIdleSince id since).
Proof. lawful UpdateIdleSince. Qed.
#[local] Hint Resolve lawful_ClusterOrm_Create lawful_ClusterOrm_GetByTenant : prog.
Lemma lawful_GetOrCreateActiveCluster c : lawful (GetOrCreateActiveCluster c).
Proof. unfold GetOrCreateActiveCluster, reuse_cluster. lawful_all. Qed.
End ClusterOrmLaws.
#[export] Hint Resolve lawful_GetActiveClusterList lawful_ClusterOrm_GetByTenant
  lawful_UpdateStatus lawful_UpdateIdleSince lawful_GetOrCreateActiveCluster : prog.
