(* ===== verification/AgentService.v ===== *)
(** * The in-memory agent registry (internal/service/agent_service)

    Every function that runs under [mu] or [timerMu] is one atomic action on
    [w_reg].  The timeout callback is injected by cmd/server/grpc_server.go; the
    functions that invoke it take it as the argument [cb]. *)
From S2P Require Import Prelude Errors Model Env Proto World Effects Lifecycle Lawful Demo.

Definition on_reg (f : Registry -> Registry) : prog unit :=
  modify (fun w => set_reg (f (w_reg w)) w).

(** ** agent.go *)
Definition SetTimeoutCallback : prog unit :=
  on_reg (fun r => mkRegistry (agents r) (timers r) (theap r) (heartbeatTimeout r)
                              (gracePeriod r) true).
Definition SetTimeouts (hb gp : Z) : prog unit :=
  on_reg (fun r => mkRegistry (agents r) (timers r) (theap r) hb gp (onTimeout r)).

Definition counts_active (a : Agent) : bool :=
  (ag_Status a =s AgentStatusIdle) || (ag_Status a =s AgentStatusRunning) ||
  (ag_Status a =s AgentStatusUnresponsive).
Definition active_tenants (m : gmap string Agent) : gset uuid :=
  list_to_set (ag_TenantID <$> List.filter counts_active (map_to_list m).*2).
Definition GetActiveTenantIDs : prog (gset uuid) :=
  gets (fun w => active_tenants (agents (w_reg w))).

Definition GetAllAgentIDs : prog (list string) :=
  gets (fun w => (map_to_list (agents (w_reg w))).*1).

Definition recovers_idle (status : string) : bool :=
  (status =s "") || (status =s AgentStatusDisconnected) || (status =s AgentStatusIdle) ||
  (status =s AgentStatusUnresponsive) || (status =s AgentStatusTimedOut).

Definition disconnected (a : Agent) : Agent :=
  mkAgent (ag_ID a) (ag_TenantID a) (ag_BackendName a) AgentStatusDisconnected
    (if recovers_idle (ag_Status a) then AgentStatusIdle else ag_Status a)
    (CurrentShardID a) (LastHeartbeatAt a).
Definition DisconnectAgent (agentID : string) : prog unit :=
  on_reg (fun r => match agents r !! agentID with
                   | Some a => set_agents (<[agentID := disconnected a]> (agents r)) r
                   | None => r
                   end).

(** Timers: [Stop] clears the pending flag, [time.AfterFunc] adds a timer. *)
Definition stop_timer (t : Timer) : Timer :=
  mkTimer (tm_agent t) (tm_kind t) (tm_deadline t) false.
Definition stop_current (agentID : string) (r : Registry) : Registry :=
  match timers r !! agentID with
  | Some i => set_theap (alter stop_timer i (theap r)) r
  | None => r
  end.
Definition arm (agentID : string) (kind : timer_kind) (deadline : Z) (r : Registry) : Registry :=
  let r1 := stop_current agentID r in
  set_timers (<[agentID := length (theap r1)]> (timers r1))
    (set_theap (theap r1 ++ [mkTimer agentID kind deadline true]) r1).

Definition ResetHeartbeat (agentID : string) : prog unit :=
  _ <- now ;;
  modify (fun w => set_reg (arm agentID HeartbeatTimer
                              (w_clock w + heartbeatTimeout (w_reg w))%Z (w_reg w)) w).

Definition BeginGrace (agentID : string) : prog unit :=
  _ <- now ;;
  modify (fun w => set_reg (arm agentID GraceTimer
                              (w_clock w + gracePeriod (w_reg w))%Z (w_reg w)) w).

Definition CancelTimer (agentID : string) : prog unit :=
  on_reg (fun r => match timers r !! agentID with
                   | Some _ => set_timers (delete agentID (timers r)) (stop_current agentID r)
                   | None => r
                   end).

Definition RemoveAgent (agentID : string) : prog unit :=
  CancelTimer agentID ;;
  on_reg (fun r => set_agents (delete agentID (agents r)) r).

Definition cancelAllTimers : prog unit :=
  on_reg (fun r => set_timers ∅ (map_fold (fun _ i r => set_theap (alter stop_timer i (theap r)) r)
                                          r (timers r))).

Definition forget_timer (agentID : string) (r : Registry) : Registry :=
  set_timers (delete agentID (timers r)) r.

Definition with_agent_status (status : string) (a : Agent) : Agent :=
  mkAgent (ag_ID a) (ag_TenantID a) (ag_BackendName a) status (PreDisconnectStatus a)
          (CurrentShardID a) (LastHeartbeatAt a).
Definition timed_out (a : Agent) : Agent :=
  mkAgent (ag_ID a) (ag_TenantID a) (ag_BackendName a) AgentStatusTimedOut
          (PreDisconnectStatus a) None (LastHeartbeatAt a).

(** What [onHeartbeatTimeout] decides under [mu]. *)
Inductive timeout_decision := TimeoutIgnore | TimeoutRearm | TimeoutCallback.

(** [time.Since(time.Unix(last, 0)) < heartbeatTimeout] *)
Definition recent_heartbeat (clock timeout : Z) (a : Agent) : bool :=
  match LastHeartbeatAt a with
  | Some last => (clock - last * Second <? timeout)%Z
  | None => false
  end.

Definition heartbeat_timeout_section (agentID : string) (clock : Z) (r : Registry)
    : timeout_decision * Registry :=
  match agents r !! agentID with
  | None => (TimeoutIgnore, r)
  | Some a =>
    if recent_heartbeat clock (heartbeatTimeout r) a then (TimeoutRearm, r)
    else if (ag_Status a =s AgentStatusDisconnected) || (ag_Status a =s AgentStatusTimedOut)
    then (TimeoutIgnore, r)
    else if ag_Status a =s AgentStatusUnresponsive
    then (if onTimeout r then TimeoutCallback else TimeoutIgnore,
          set_agents (<[agentID := timed_out a]> (agents r)) r)
    else (TimeoutRearm,
          set_agents (<[agentID := with_agent_status AgentStatusUnresponsive a]> (agents r)) r)
  end.

Definition onHeartbeatTimeout (cb : string -> string -> prog unit) (agentID : string)
    : prog unit :=
  on_reg (forget_timer agentID) ;;
  _ <- now ;;
  d <- act (fun w => let dr := heartbeat_timeout_section agentID (w_clock w) (w_reg w) in
                     (fst dr, set_reg (snd dr) w)) ;;
  match d with
  | TimeoutIgnore => Ret tt
  | TimeoutRearm => ResetHeartbeat agentID
  | TimeoutCallback => cb agentID "heartbeat_timed_out"
  end.

Definition onGraceExpired (cb : string -> string -> prog unit) (agentID : string) : prog unit :=
  on_reg (forget_timer agentID) ;;
  expired <- gets (fun w => match agents (w_reg w) !! agentID with
                            | Some a => ag_Status a =s AgentStatusDisconnected
                            | None => false
                            end) ;;
  if expired then
    set <- gets (fun w => onTimeout (w_reg w)) ;;
    (if set : bool then cb agentID "grace_expired" else Ret tt)
  else Ret tt.

(** ** get_agent.go, heartbeat_agent.go *)
Definition agent_not_found (agentID : string) : error :=
  EWrap "" (ESentinel ErrAgentNotFound) (": " +:+ agentID).

Definition GetAgent (agent_id : string) : prog (res Agent) :=
  gets (fun w => match agents (w_reg w) !! agent_id with
                 | Some a => Ok a
                 | None => Err (agent_not_found agent_id)
                 end).

Definition unix (ns : Z) : Z := (ns / Second)%Z.

Definition heartbeat (status : string) (shard : option string) (at_unix : Z) (a : Agent) : Agent :=
  mkAgent (ag_ID a) (ag_TenantID a) (ag_BackendName a) status (PreDisconnectStatus a)
          shard (Some at_unix).

Definition HeartbeatAgent (agentID status : string) (currentShardID : option string)
    : prog (res unit) :=
  _ <- now ;;
  act (fun w =>
    let r := w_reg w in
    match agents r !! agentID with
    | None => (Err (agent_not_found agentID), w)
    | Some a =>
      (Ok tt, set_reg (set_agents (<[agentID := heartbeat status currentShardID
                                                  (unix (w_clock w)) a]> (agents r)) r) w)
    end).

(** ** register_agent.go *)
Section RegisterAgent.
Context `{Env}.

Definition identity_conflict (agentID : string) (a : Agent) (tenantID : uuid) (backend : string)
    : error :=
  EWrap "" (ESentinel ErrAgentIdentityConflict)
    (": agent=" +:+ agentID +:+ " existing=" +:+ uuid_String (ag_TenantID a) +:+ "/"
     +:+ ag_BackendName a +:+ " requested=" +:+ uuid_String tenantID +:+ "/" +:+ backend).

Definition register_section (agentID : string) (tenantID : uuid) (backendName : string)
    (now_unix : Z) (m : gmap string Agent) : res unit * gmap string Agent :=
  let fresh st shard := mkAgent agentID tenantID backendName st "" shard (Some now_unix) in
  match m !! agentID with
  | None => (Ok tt, <[agentID := fresh AgentStatusIdle None]> m)
  | Some a =>
    if negb (bool_decide (ag_TenantID a = tenantID)) || (ag_BackendName a <>s backendName)
    then (Err (identity_conflict agentID a tenantID backendName), m)
    else if ins (ag_Status a) [AgentStatusDisconnected; AgentStatusTimedOut;
                               AgentStatusUnresponsive]
    then let recoveryStatus := if recovers_idle (PreDisconnectStatus a) then AgentStatusIdle
                               else PreDisconnectStatus a in
         (Ok tt, <[agentID := fresh recoveryStatus (CurrentShardID a)]> m)
    else if ag_Status a =s AgentStatusRunning
    then (Err (EWrap "" (ESentinel ErrAgentIdentityConflict)
                 (": " +:+ agentID +:+ " already has an active control stream")), m)
    else if ag_Status a =s AgentStatusIdle
    then (Err (EWrap "" (ESentinel ErrAgentIdentityConflict)
                 (": " +:+ agentID +:+ " is already registered")), m)
    else (Ok tt, <[agentID := fresh AgentStatusIdle None]> m)
  end.

Definition RegisterAgent (agentID : string) (tenantID : uuid) (backendName : string)
    : prog (res unit) :=
  _ <- now ;;
  act (fun w =>
    let rm := register_section agentID tenantID backendName (unix (w_clock w))
                (agents (w_reg w)) in
    (fst rm, set_reg (set_agents (snd rm) (w_reg w)) w)).
End RegisterAgent.

(** ** The registry leaves the database alone and forgets nobody *)
Lemma remembers_same r r' : agents r' = agents r -> remembers r r'.
Proof. intros Hr id a. rewrite Hr. intros Ha. by exists a. Qed.
Lemma remembers_put id a a' r r' :
  agents r !! id = Some a -> agents r' = <[id := a']> (agents r) ->
  ag_TenantID a' = ag_TenantID a -> ag_BackendName a' = ag_BackendName a ->
  remembers r r'.
Proof.
  intros Ha Hr ? ? j x Hj. rewrite Hr. destruct (decide (j = id)) as [->|Hne].
  - assert (x = a) as -> by congruence. exists a'. by rewrite lookup_insert_eq.
  - exists x. by rewrite lookup_insert_ne.
Qed.
Lemma remembers_add id a' r r' :
  agents r !! id = None -> agents r' = <[id := a']> (agents r) -> remembers r r'.
Proof.
  intros Ha Hr j x Hj. rewrite Hr, lookup_insert_ne by congruence. by exists x.
Qed.

Lemma remembers_heartbeat_timeout id clock r : remembers r (heartbeat_timeout_section id clock r).2.
Proof.
  unfold heartbeat_timeout_section. destruct (agents r !! id) as [a|] eqn:Ha; [|done].
  destruct (recent_heartbeat _ _ _); [done|]. destruct (_ || _); [done|].
  destruct (_ =s _); by eapply remembers_put.
Qed.
(** A registration gives an agent its identity, or finds it. *)
Lemma remembers_register `{E : Env} id T B now_unix r :
  remembers r (set_agents (register_section id T B now_unix (agents r)).2 r).
Proof.
  unfold register_section. destruct (agents r !! id) as [a|] eqn:Ha.
  2:{ by eapply remembers_add. }
  destruct (negb _ || _) eqn:Hc; [by apply remembers_same|]. clean.
  repeat case_match; (by apply remembers_same) || (by eapply remembers_put; [exact Ha|..]; eauto).
Qed.

Section AgentServiceLaws.
Context `{E : Env}.

Lemma lawful_on_reg f : (forall r, remembers r (f r)) -> lawful (on_reg f).
Proof. intros Hf. by apply lawful_act. Qed.
Lemma lawful_on_timers f : (forall r, agents (f r) = agents r) -> lawful (on_reg f).
Proof. intros Hf. apply lawful_on_reg. intros r. by apply remembers_same. Qed.
Lemma lawful_SetTimeoutCallback : lawful SetTimeoutCallback.
Proof. by apply lawful_on_timers. Qed.
Lemma lawful_SetTimeouts hb gp : lawful (SetTimeouts hb gp).
Proof. by apply lawful_on_timers. Qed.
Lemma lawful_GetAllAgentIDs : lawful GetAllAgentIDs.
Proof. lawful GetAllAgentIDs. Qed.
Lemma lawful_DisconnectAgent a : lawful (DisconnectAgent a).
Proof.
  apply lawful_on_reg. intros r. destruct (agents r !! a) eqn:Ha; [|done].
  by eapply remembers_put.
Qed.
Lemma arm_agents id kind deadline r : agents (arm id kind deadline r) = agents r.
Proof. unfold arm, stop_current. by destruct (timers r !! id). Qed.
Lemma lawful_arm id kind delay : lawful (_ <- now ;; modify (fun w =>
  set_reg (arm id kind (w_clock w + delay (w_reg w))%Z (w_reg w)) w)).
Proof.
  apply lawful_bind; [apply lawful_now|]. intros _. apply lawful_act; intros w; try done.
  apply remembers_same, arm_agents.
Qed.
Lemma lawful_ResetHeartbeat a : lawful (ResetHeartbeat a).
Proof. exact (lawful_arm a HeartbeatTimer heartbeatTimeout). Qed.
Lemma lawful_BeginGrace a : lawful (BeginGrace a).
Proof. exact (lawful_arm a GraceTimer gracePeriod). Qed.
Lemma lawful_CancelTimer a : lawful (CancelTimer a).
Proof.
  apply lawful_on_timers. intros r. unfold stop_current. by destruct (timers r !! a).
Qed.
Lemma lawful_GetAgent a : lawful (GetAgent a).
Proof. lawful GetAgent. Qed.
Lemma lawful_HeartbeatAgent a st sh : lawful (HeartbeatAgent a st sh).
Proof.
  unfold HeartbeatAgent. apply lawful_bind; [apply lawful_now|]. intros _.
  apply lawful_act; intros w; destruct (_ !! _) eqn:Ha; try done. by eapply remembers_put.
Qed.
Lemma lawful_RegisterAgent a t b : lawful (RegisterAgent a t b).
Proof.
  unfold RegisterAgent. apply lawful_bind; [apply lawful_now|]. intros _.
  apply lawful_act; intros w; try done. apply remembers_register.
Qed.
(** A registration entitles the goroutine to speak for the agent. *)
Lemma register_registered id T B now_unix m m' :
  register_section id T B now_unix m = (Ok tt, m') ->
  exists a, m' !! id = Some a /\ ag_TenantID a = T /\ ag_BackendName a = B.
Proof.
  unfold register_section. intros H. repeat case_match; simplify_eq; rewrite lookup_insert_eq; eauto.
Qed.
Lemma accounted_RegisterAgent id T B g :
  accounted g (RegisterAgent id T B) (fun g' r => extends g g' /\
    match r with Ok _ => (id, T, B) ∈ sessions g' | Err _ => True end).
Proof.
  eapply (accounted_bind now _ g g); [apply lawful_now|done|]. intros g1 t Hg w Hw. cbn [fst snd].
  destruct (register_section _ _ _ _ _) as [r m] eqn:Hr. cbn [fst snd].
  set (w' := set_reg _ w).
  assert (moves w w') as HM.
  { apply releases_moves; [cbn; reflexivity|].
    pose proof (remembers_register id T B (unix (w_clock w)) (w_reg w)) as Hm. by rewrite Hr in Hm. }
  assert (IW g1 w') as Hw' by (apply (IW_moves g1 w); [apply Hw|done..]).
  destruct r as [[]|e].
  - exists (enlist (id, T, B) g1). split.
    + destruct Hw' as (HI & Hk & Hs). split; [done|]. split; [done|].
      intros x [->|Hx]%elem_of_cons; [|by apply Hs]. by apply register_registered in Hr.
    + split; [|split; [etrans; [exact Hg|apply enlist_extends]|left]].
      split; [done|]. exists [], [], [].
      split_and!; [done|constructor|apply finishes_nil|done].
  - exists g1. split; [done|]. split; [by apply GW_moves|by split].
Qed.
#[local] Hint Resolve lawful_ResetHeartbeat : prog.
Lemma lawful_forget_timer a : lawful (on_reg (forget_timer a)).
Proof. by apply lawful_on_timers. Qed.
#[local] Hint Resolve lawful_forget_timer : prog.
Lemma lawful_onHeartbeatTimeout cb a :
  (forall a r, lawful (cb a r)) -> lawful (onHeartbeatTimeout cb a).
Proof.
  intros Hcb. unfold onHeartbeatTimeout. do 2 (apply lawful_bind; [eauto with prog|intros ?]).
  apply lawful_bind; [|lawful_all]. apply lawful_act; intros w; try done.
  apply remembers_heartbeat_timeout.
Qed.
Lemma lawful_onGraceExpired cb a :
  (forall a r, lawful (cb a r)) -> lawful (onGraceExpired cb a).
Proof. intros Hcb. lawful onGraceExpired. Qed.
End AgentServiceLaws.
#[export] Hint Resolve lawful_GetAllAgentIDs lawful_DisconnectAgent lawful_ResetHeartbeat
  lawful_BeginGrace lawful_CancelTimer lawful_GetAgent lawful_HeartbeatAgent
  lawful_RegisterAgent lawful_onHeartbeatTimeout lawful_onGraceExpired
  lawful_SetTimeoutCallback lawful_SetTimeouts : prog.

(** ** Identity and reconnection *)
Section Identity.
Context `{E : Env}.

(** An agent that may take a new stream: it is not holding one. *)
Definition away (a : Agent) : bool :=
  ins (ag_Status a) [AgentStatusDisconnected; AgentStatusTimedOut; AgentStatusUnresponsive].

(** C17: The identity of an agent is fixed at its first registration.  A
    registration succeeds for an unknown agent, which starts IDLE, and for a known
    one only under the tenant and backend it already has and only when it is not
    IDLE or RUNNING on another stream; a known agent that was away keeps its shard
    and gets back the status it had.  A refused registration, always an identity
    conflict, changes nothing; other agents are never affected. *)
Theorem RegisterAgent_identity id T B w o :
  let x := run (RegisterAgent id T B) w o in
  let m := agents (w_reg w) in let m' := agents (w_reg (final x)) in
  (forall j, j <> id -> m' !! j = m !! j) /\
  match result x with
  | Ok _ => exists a', m' !! id = Some a' /\ ag_ID a' = id /\ ag_TenantID a' = T /\
      ag_BackendName a' = B /\
      match m !! id with
      | None => ag_Status a' = AgentStatusIdle /\ CurrentShardID a' = None
      | Some a => ag_TenantID a = T /\ ag_BackendName a = B /\
          ag_Status a <> AgentStatusRunning /\ ag_Status a <> AgentStatusIdle /\
          (away a = true -> CurrentShardID a' = CurrentShardID a /\
             ag_Status a' = (if recovers_idle (PreDisconnectStatus a) then AgentStatusIdle
                             else PreDisconnectStatus a))
      end
  | Err e => m' = m /\ errors_Is e ErrAgentIdentityConflict = true /\
      exists a, m !! id = Some a /\
        (ag_TenantID a <> T \/ ag_BackendName a <> B \/
         ag_Status a = AgentStatusRunning \/ ag_Status a = AgentStatusIdle)
  end.
Proof.
  cbn [RegisterAgent bind run now act]. destruct (pop_tick o) as [tk o'].
  unfold result, final. cbn. unfold register_section.
  destruct (agents (w_reg w) !! id) as [a|] eqn:Ha.
  2:{ cbn. split; [intros j Hj; by rewrite lookup_insert_ne|].
      eexists. rewrite lookup_insert_eq. by split. }
  destruct (negb _ || _) eqn:Hid.
  { cbn. split; [done|]. split; [done|]. split; [done|]. exists a. split; [done|].
    apply orb_true_iff in Hid as [Hid|Hid]; clean; auto. }
  clean. destruct (ins _ _) eqn:Haw; cbn.
  { split; [intros j Hj; by rewrite lookup_insert_ne|]. eexists. rewrite lookup_insert_eq.
    repeat split; try done; clean; intros Hst; rewrite Hst in Haw; statuses. }
  destruct (ag_Status a =s AgentStatusRunning) eqn:Hrun; cbn;
    [|destruct (ag_Status a =s AgentStatusIdle) eqn:Hidle; cbn].
  - clean. split; [done|]. split; [done|]. split; [done|]. eauto 10.
  - clean. split; [done|]. split; [done|]. split; [done|]. eauto 10.
  - split; [intros j Hj; by rewrite lookup_insert_ne|]. eexists. rewrite lookup_insert_eq.
    clean. repeat split; try done;
      match goal with Hw : away _ = true |- _ => by apply ins_spec in Hw end.
Qed.

(** C18: A dropped connection loses nothing: disconnecting an IDLE or RUNNING agent
    and registering it again under the same identity gives back its status and
    its current shard. *)
Theorem reconnect_roundtrip id a w o :
  agents (w_reg w) !! id = Some a -> ag_Status a ∈ [AgentStatusIdle; AgentStatusRunning] ->
  let x := run (DisconnectAgent id ;; RegisterAgent id (ag_TenantID a) (ag_BackendName a)) w o in
  result x = Ok tt /\
  exists a', agents (w_reg (final x)) !! id = Some a' /\
    ag_Status a' = ag_Status a /\ CurrentShardID a' = CurrentShardID a /\
    ag_TenantID a' = ag_TenantID a /\ ag_BackendName a' = ag_BackendName a.
Proof.
  intros Ha Hst. cbn [RegisterAgent DisconnectAgent on_reg modify bind run now act].
  rewrite Ha. cbn. destruct (pop_tick o) as [tk o']. unfold result, final. cbn.
  unfold register_section. rewrite lookup_insert_eq. cbn.
  rewrite bool_decide_true, eqs_refl by done. cbn.
  change (ins AgentStatusDisconnected _) with true. cbn.
  statuses; rewrite Hst; cbn; (split; [done|]); eexists; rewrite lookup_insert_eq; by split.
Qed.

(** ** Heartbeat timeouts *)
(** A missed heartbeat gets a second chance.  When a heartbeat timer expires,
    an agent heard of within the timeout only has its timer armed again; a silent
    IDLE or RUNNING agent becomes UNRESPONSIVE, keeps its shard and its timer is
    armed again; only an agent already UNRESPONSIVE is TIMED_OUT; and an agent that
    is DISCONNECTED or TIMED_OUT is left alone. *)
Theorem heartbeat_two_strikes id a clock r :
  agents r !! id = Some a ->
  let '(decision, r') := heartbeat_timeout_section id clock r in
  if recent_heartbeat clock (heartbeatTimeout r) a then decision = TimeoutRearm /\ r' = r
  else if ag_Status a =s AgentStatusUnresponsive then
    decision = (if onTimeout r then TimeoutCallback else TimeoutIgnore) /\
    agents r' = <[id := timed_out a]> (agents r)
  else if ins (ag_Status a) [AgentStatusDisconnected; AgentStatusTimedOut] then
    decision = TimeoutIgnore /\ r' = r
  else decision = TimeoutRearm /\
       agents r' = <[id := with_agent_status AgentStatusUnresponsive a]> (agents r) /\
       CurrentShardID (with_agent_status AgentStatusUnresponsive a) = CurrentShardID a.
Proof.
  intros Ha. unfold heartbeat_timeout_section. rewrite Ha.
  destruct (recent_heartbeat _ _ a); [done|].
  destruct (ag_Status a =s AgentStatusUnresponsive) eqn:Hu; clean.
  - rewrite Hu. cbn. done.
  - unfold ins. cbn. rewrite orb_false_r. by destruct (_ || _).
Qed.
End Identity.

(** ** Timers *)
(** Every pending timer is the one the map names for its agent. *)
Definition tidy (r : Registry) : Prop :=
  forall i t, theap r !! i = Some t -> tm_active t = true -> timers r !! tm_agent t = Some i.

Lemma tidy_stop_current id r :
  tidy r -> forall i t, theap (stop_current id r) !! i = Some t -> tm_active t = true ->
  tm_agent t <> id /\ timers r !! tm_agent t = Some i.
Proof.
  intros Hr i t. unfold stop_current. destruct (timers r !! id) as [j|] eqn:Hj.
  - cbn. rewrite list_lookup_alter. destruct (decide (j = i)) as [->|Hne].
    + intros Hi Hact. destruct (theap r !! i) as [t0|]; [|done]. cbn in Hi. simplify_eq.
    + intros Hi Hact. specialize (Hr i t Hi Hact). split; [|done].
      intros Heq. rewrite Heq in Hr. congruence.
  - intros Hi Hact. specialize (Hr i t Hi Hact). split; [|done].
      intros Heq. rewrite Heq in Hr. congruence.
Qed.

Definition pending (id : string) (r : Registry) (t : Timer) : Prop :=
  t ∈ theap r /\ tm_agent t = id /\ tm_active t = true.

Lemma tidy_arm id kind deadline r :
  tidy r -> let r' := arm id kind deadline r in
  tidy r' /\ forall t, pending id r' t <-> t = mkTimer id kind deadline true.
Proof.
  intros Hr r'. pose proof (tidy_stop_current id r Hr) as Hs.
  assert (forall i t, theap r' !! i = Some t -> tm_active t = true ->
    (tm_agent t <> id /\ timers r !! tm_agent t = Some i) \/
    (i = length (theap (stop_current id r)) /\ t = mkTimer id kind deadline true)) as Harm.
  { intros i t Hi Hact. cbn in Hi. apply lookup_app_Some in Hi as [Hi|[Hlen Hi]].
    - left. by apply Hs.
    - right. apply list_lookup_singleton_Some in Hi as [? <-]. split; [lia|done]. }
  assert (timers (stop_current id r) = timers r) as Htm.
  { unfold stop_current. by destruct (timers r !! id). }
  split.
  - intros i t Hi Hact. cbn. rewrite Htm.
    destruct (Harm i t Hi Hact) as [[Hne Hl]|[-> ->]]; cbn.
    + by rewrite lookup_insert_ne.
    + by rewrite lookup_insert_eq.
  - intros t. split.
    + intros (Ht & Hid & Hact). apply list_elem_of_lookup in Ht as [i Hi].
      by destruct (Harm i t Hi Hact) as [[Hne _]|[_ ->]].
    + intros ->. split; [|done]. cbn. apply elem_of_app. right. left.
Qed.

Lemma tidy_cancel id r :
  tidy r -> is_Some (timers r !! id) ->
  let r' := set_timers (delete id (timers r)) (stop_current id r) in
  tidy r' /\ forall t, ~ pending id r' t.
Proof.
  intros Hr [j Hj] r'. pose proof (tidy_stop_current id r Hr) as Hs. split.
  - intros i t Hi Hact. cbn in *. destruct (Hs i t Hi Hact) as [Hne Hl].
    by rewrite lookup_delete_ne.
  - intros t (Ht & Hid & Hact). apply list_elem_of_lookup in Ht as [i Hi].
    by destruct (Hs i t Hi Hact).
Qed.

(** After [ResetHeartbeat] or [BeginGrace] the agent's only pending timer is a new one
    of that kind, due after the configured delay; after [CancelTimer] it has none. *)
Lemma timer_calls id w o :
  tidy (w_reg w) ->
  (let w' := final (run (ResetHeartbeat id) w o) in
   tidy (w_reg w') /\ forall t, pending id (w_reg w') t <->
     t = mkTimer id HeartbeatTimer (w_clock w' + heartbeatTimeout (w_reg w)) true) /\
  (let w' := final (run (BeginGrace id) w o) in
   tidy (w_reg w') /\ forall t, pending id (w_reg w') t <->
     t = mkTimer id GraceTimer (w_clock w' + gracePeriod (w_reg w)) true) /\
  (let w' := final (run (CancelTimer id) w o) in
   tidy (w_reg w') /\ forall t, ~ pending id (w_reg w') t).
Proof.
  intros Hr. split; [|split].
  - cbn [ResetHeartbeat bind run now act modify]. destruct (pop_tick o) as [tk o'].
    by apply tidy_arm.
  - cbn [BeginGrace bind run now act modify]. destruct (pop_tick o) as [tk o'].
    by apply tidy_arm.
  - unfold final. cbn. destruct (timers (w_reg w) !! id) as [j|] eqn:Hj.
    + apply tidy_cancel; [done|]. by exists j.
    + split; [done|]. intros t (Ht & Hid & Hact). apply list_elem_of_lookup in Ht as [i Hi].
      specialize (Hr i t Hi Hact). congruence.
Qed.

(** A timer that is armed is found, and is not stopped by arming another once the
    registry has forgotten it. *)
Lemma arm_twice id k1 k2 d1 d2 r :
  let r1 := arm id k1 d1 r in
  let r2 := forget_timer id r1 in
  forall r3, theap r3 = theap r2 -> timers r3 = timers r2 ->
  exists i, let r' := arm id k2 d2 r3 in
    theap r' !! i = Some (mkTimer id k1 d1 true) /\
    theap r' !! S i = Some (mkTimer id k2 d2 true).
Proof.
  intros r1 r2 r3 Hh Ht. exists (length (theap (stop_current id r))). cbv zeta.
  assert (stop_current id r3 = r3) as Hstop.
  { unfold stop_current. rewrite Ht. cbn. by rewrite lookup_delete_eq. }
  unfold arm at 1 2. rewrite Hstop. cbn [theap set_timers set_theap]. rewrite Hh. cbn.
  rewrite <-app_assoc. split; [by rewrite lookup_app_r, Nat.sub_diag by lia|].
  rewrite lookup_app_r by lia. by replace (S _ - _) with 1 by lia.
Qed.

(** A stale callback leaves two timers.  When a heartbeat arrives after the agent's
    timer has expired but before its callback runs, the callback forgets the timer
    the heartbeat has just armed and arms another: both are pending, and both will
    run [onHeartbeatTimeout] for the agent. *)
Theorem stale_callback_duplicates cb id status shard a w o :
  agents (w_reg w) !! id = Some a -> status ∈ [AgentStatusIdle; AgentStatusRunning] ->
  let w' := final (run (HeartbeatAgent id status shard ;; ResetHeartbeat id ;;
                        onHeartbeatTimeout cb id) w o) in
  exists i d1 d2, theap (w_reg w') !! i = Some (mkTimer id HeartbeatTimer d1 true) /\
                  theap (w_reg w') !! S i = Some (mkTimer id HeartbeatTimer d2 true).
Proof.
  intros Ha Hst w'.
  refine (wp_run _ (fun _ w' => exists i d1 d2,
    theap (w_reg w') !! i = Some (mkTimer id HeartbeatTimer d1 true) /\
    theap (w_reg w') !! S i = Some (mkTimer id HeartbeatTimer d2 true)) w o _).
  unfold HeartbeatAgent, ResetHeartbeat, onHeartbeatTimeout.
  cbn [wp bind now act modify on_reg fst snd w_reg set_clock]. intros c1 _. rewrite Ha.
  cbn [wp bind now act modify on_reg fst snd w_reg set_clock set_reg]. intros c2 _ c3 _.
  set (r0 := set_agents _ (w_reg w)). set (r1 := arm id HeartbeatTimer _ r0).
  assert (agents (forget_timer id r1) !! id = Some (heartbeat status shard (unix c1) a)) as Hag.
  { cbn. unfold stop_current. destruct (timers r0 !! id); apply lookup_insert_eq. }
  assert (exists r3, heartbeat_timeout_section id c3 (forget_timer id r1) = (TimeoutRearm, r3) /\
            theap r3 = theap (forget_timer id r1) /\ timers r3 = timers (forget_timer id r1))
    as (r3 & Hsec & Hh & Ht).
  { unfold heartbeat_timeout_section. rewrite Hag. destruct (recent_heartbeat _ _ _); [by eexists|].
    cbn [ag_Status heartbeat]. statuses; by eexists. }
  cbn [w_clock set_clock w_reg set_reg]. rewrite Hsec.
  cbn [wp bind now act modify fst snd w_reg set_reg w_clock set_clock]. intros c4 _.
  destruct (arm_twice id HeartbeatTimer HeartbeatTimer (c2 + heartbeatTimeout r0)
              (c4 + heartbeatTimeout r3) r0 r3 Hh Ht) as (i & H1 & H2). exists i. do 2 eexists. split; [exact H1|exact H2].
Qed.

(** The theorems on [demo]. *)
Lemma reconnect_roundtrip_witness :
  let E := toy_env in
  let x := run (DisconnectAgent "busy" ;; RegisterAgent "busy" 1 "kubernetes") demo quiet in
  result x = Ok tt /\
  exists a', agents (w_reg (final x)) !! "busy" = Some a' /\ ag_Status a' = AgentStatusRunning.
Proof.
  cbn zeta.
  destruct (reconnect_roundtrip (E := toy_env) "busy"
              (demo_agent "busy" AgentStatusRunning (Some (@uuid_String toy_env 15))) demo quiet)
    as (H1 & a' & H2 & H3 & _); [vm_compute; reflexivity|by apply ins_spec|].
  split; [exact H1|]. exists a'. split; [exact H2|exact H3].
Defined.

Lemma heartbeat_two_strikes_witness :
  let r := demo_registry (@uuid_String toy_env) in
  (heartbeat_timeout_section "busy" (95 * Second) r).1 = TimeoutRearm /\
  let a := demo_agent "busy" AgentStatusRunning (Some (@uuid_String toy_env 15)) in
  agents (heartbeat_timeout_section "busy" (95 * Second) r).2
    = <["busy" := with_agent_status AgentStatusUnresponsive a]> (agents r).
Proof.
  cbn zeta.
  pose proof (heartbeat_two_strikes "busy"
    (demo_agent "busy" AgentStatusRunning (Some (@uuid_String toy_env 15))) (95 * Second)
    (demo_registry (@uuid_String toy_env))) as H.
  destruct (heartbeat_timeout_section _ _ _) as [d r']. cbn [fst snd].
  specialize (H ltac:(vm_compute; reflexivity)).
  replace (recent_heartbeat _ _ _) with false in H by (vm_compute; reflexivity).
  cbn in H. replace (ins _ _) with false in H by (vm_compute; reflexivity).
  destruct H as (H1 & H2 & _). split; [exact H1|exact H2].
Defined.
