(* ===== verification/TaskHooks.v ===== *)
(** * Completion hooks (internal/service/task_service/dispatch_completion_hook.go)

    The HTTP client is a parameter: [client_Do url body] is [client.Do] of a POST
    request, with the response's status code and status text. *)
From S2P Require Import Prelude Errors Model Env Proto World Effects Store StoreFacts.
From S2P Require Import Lifecycle Lawful.

Section TaskHooks.
Context `{Env}.

Definition newCompletionHookPayload (task : Task) (status lastError : string)
    (finishedAt : option Z) (resultAvailable : bool) : option CompletionHookPayload :=
  if CompletionHookURL task =s "" then None
  else Some (mkPayload (rid task) (TenantID task) status lastError finishedAt
                       resultAvailable (CompletionHookURL task)).

(** [runHookDispatchAsync] starts a goroutine: the payload joins the goroutines
    started; [hook_goroutine] below is what each of them runs. *)
Definition dispatchCompletionHookAsync (payload : CompletionHookPayload) : prog unit :=
  if pl_CompletionHookURL payload =s "" then Ret tt
  else modify (fun w => set_hooks (payload :: w_hooks w) w).

Definition recordCompletionHookResult (taskID : uuid) (dispatchErr : option error)
    : prog (res unit) :=
  _ <-? GetDB ;;
  let undelivered t := bool_decide (rid t = taskID) && bool_decide (HookDeliveredAt t = None) in
  match dispatchErr with
  | Some e =>
    _ <-? Updates undelivered (assign_task [SetHookDeliveredAt None; SetHookLastError (Error e)])
        # wrapf "update completion hook bookkeeping" ;;
    Ret (Ok tt)
  | None =>
    deliveredAt <- now ;;
    _ <-? Updates undelivered (assign_task [SetHookDeliveredAt (Some deliveredAt);
                                            SetHookLastError ""])
        # wrapf "update completion hook bookkeeping" ;;
    Ret (Ok tt)
  end.

Section Client.
Context (client_Do : string -> CompletionHookPayload -> prog (res (Z * string))).

Definition dispatchCompletionHook (payload : CompletionHookPayload) : prog (res unit) :=
  _ <-? call (fun w => (Ok tt, w)) # wrapf "marshal completion hook payload" ;;
  _ <-? call (fun w => (Ok tt, w)) # wrapf "build completion hook request" ;;
  resp <-? client_Do (pl_CompletionHookURL payload) payload
      # wrapf "send completion hook request" ;;
  if negb (Z.quot (fst resp) 100 =? 2)%Z
  then Ret (Err (ENew ("completion hook returned status " +:+ snd resp)))
  else Ret (Ok tt).

(** The body of the goroutine. *)
Definition hook_goroutine (payload : CompletionHookPayload) : prog unit :=
  r <- dispatchCompletionHook payload ;;
  _ <- recordCompletionHookResult (pl_TaskID payload)
         (match r with Ok _ => None | Err e => Some e end) ;;
  Ret tt.
End Client.
End TaskHooks.

(** ** Hook bookkeeping does not touch statuses *)
Section TaskHooksLaws.
Context `{E : Env, L : !EnvLaws E}.

(** A payload built from an earlier version of a finished row tells the truth. *)
Lemma newCompletionHookPayload_announces task status err fin ok p t :
  newCompletionHookPayload task status err fin ok = Some p ->
  rid t = rid task -> TenantID t = TenantID task -> CompletionHookURL t = CompletionHookURL task ->
  Status t = status -> ok = (status =s TaskStatusSucceeded) -> announces p t.
Proof.
  unfold newCompletionHookPayload. destruct (_ =s _) eqn:Hu; [done|]. clean.
  intros [= <-] Hr HT Hc Hs ->. rewrite <-Hs. repeat split; cbn; congruence.
Qed.

(** A hook is started against a permit. *)
Lemma accounted_dispatch g g0 t payload :
  announces payload t -> extends (grant [t] g0) g ->
  accounted g (dispatchCompletionHookAsync payload) (fun g' _ => extends g0 g').
Proof.
  intros Ha (Hk & Hs & Hp). unfold dispatchCompletionHookAsync.
  destruct (_ =s _) eqn:Hu.
  { destruct Ha as (_ & _ & _ & _ & Hc & Hn). clean. congruence. }
  apply submseteq_cons_l in Hp as (P & HP & Hp). intros w Hw.
  exists (mkAccount (known g) (sessions g) P). split; [exact Hw|]. split; [|by split].
  split; [apply releases_moves; cbn; reflexivity|]. exists [payload], [t], [].
  split_and!; [done|by apply Forall2_cons|apply finishes_nil|]. cbn. by rewrite HP.
Qed.

Lemma lawful_recordCompletionHookResult id err : lawful (recordCompletionHookResult id err).
Proof.
  unfold recordCompletionHookResult. cbv zeta. repeat lawful_step;
  apply lawful_Updates_tasks; intros t _ Hst; (split; [|by split]); by repeat split.
Qed.

Lemma lawful_hook_goroutine client_Do payload :
  (forall url p, lawful (client_Do url p)) -> lawful (hook_goroutine client_Do payload).
Proof.
  intros Hdo. unfold hook_goroutine, dispatchCompletionHook.
  pose proof lawful_recordCompletionHookResult. lawful_all.
Qed.
End TaskHooksLaws.
#[export] Hint Resolve lawful_recordCompletionHookResult
  lawful_hook_goroutine : prog.
