(* ===== verification/TaskStatus.v ===== *)
(** * Shard reports and the status of a task
    (internal/service/task_service: recompute_task_status.go,
    report_shard_status.go) *)
From S2P Require Import Prelude Errors Model Env Proto World Effects Store StoreFacts.
From S2P Require Import Lifecycle Lawful Demo TaskOrm TaskShardOrm TaskHooks.

Section TaskStatus.
Context `{Env}.

(** ** recompute_task_status.go *)
Definition resolveTaskFailureLastError (taskID : uuid) (fallback : string)
    : prog (res string) :=
  r <- First (fun s => bool_decide (sh_TaskID s = taskID) &&
                       (sh_Status s =s ShardStatusFailed) && (sh_LastError s <>s ""))
             [desc_null sh_FinishedAt; desc_Z (fun s => UpdatedAt (base s))] ;;
  match r with
  | Ok failedShard => Ret (Ok (sh_LastError failedShard))
  | Err e =>
    if negb (errors_Is e ErrRecordNotFound)
    then Ret (Err (wrapf "load failed shard last error" e))
    else if fallback <>s "" then Ret (Ok fallback)
    else Ret (Ok "task failed because one or more shards failed")
  end.

Definition task_cancelled (what : string) (taskID : uuid) : error :=
  ENew (what +:+ ": task " +:+ quoted (uuid_String taskID) +:+ " is cancelled").

Definition updateTaskTerminalStatus (taskID : uuid) (updates : list task_set)
    (terminalStatuses : list string) : prog (res bool) :=
  n <-? Updates (fun t => bool_decide (rid t = taskID) &&
                          negb (ins (Status t) terminalStatuses))
                (assign_task updates)
      # wrapf "refresh task status" ;;
  if (n =? 0)%Z then
    current <-? First (fun t : Task => bool_decide (rid t = taskID)) []
        # wrapf "refresh task status" ;;
    if Status current =s TaskStatusCancelled
    then Ret (Err (task_cancelled "refresh task status" taskID))
    else if (Status current =s TaskStatusSucceeded) || (Status current =s TaskStatusFailed)
    then Ret (Ok false)
    else Ret (Err (ENew ("refresh task status: task " +:+ quoted (uuid_String taskID)
                         +:+ " update conflicted; current status "
                         +:+ quoted (Status current))))
  else Ret (Ok true).

Definition RecomputeTaskStatus (taskID : uuid) (lastError : string)
    : prog (res (option CompletionHookPayload)) :=
  task <-? FirstForUpdate (fun t => bool_decide (rid t = taskID)) # wrapf "load task" ;;
  if Status task =s TaskStatusCancelled
  then Ret (Err (task_cancelled "refresh task status" taskID))
  else if (Status task =s TaskStatusSucceeded) || (Status task =s TaskStatusFailed)
  then Ret (Ok None)
  else
  activeCount <-? Count (fun s => bool_decide (sh_TaskID s = taskID) &&
                                  negb (ins (sh_Status s)
                                            [ShardStatusSucceeded; ShardStatusFailed;
                                             ShardStatusCancelled]))
      # wrapf "count active shards" ;;
  if (activeCount >? 0)%Z then Ret (Ok None) else
  failedCount <-? Count (fun s => bool_decide (sh_TaskID s = taskID) &&
                                  (sh_Status s =s ShardStatusFailed))
      # wrapf "count failed shards" ;;
  finishedAt <- now ;;
  if (failedCount >? 0)%Z then
    resolved <-? resolveTaskFailureLastError taskID lastError ;;
    updated <-? updateTaskTerminalStatus taskID
                  [SetTaskFinishedAt (Some finishedAt); SetTaskStatus TaskStatusFailed;
                   SetTaskLastError resolved] terminal_statuses ;;
    if updated : bool
    then Ret (Ok (newCompletionHookPayload task TaskStatusFailed resolved (Some finishedAt) false))
    else Ret (Ok None)
  else
    updated <-? updateTaskTerminalStatus taskID
                  [SetTaskFinishedAt (Some finishedAt); SetTaskStatus TaskStatusSucceeded;
                   SetTaskLastError ""] terminal_statuses ;;
    if updated : bool
    then Ret (Ok (newCompletionHookPayload task TaskStatusSucceeded "" (Some finishedAt) true))
    else Ret (Ok None).

(** ** report_shard_status.go *)
Record ReportShardStatusParams := mkReport {
  rp_ShardID : uuid;
  rp_ShardStatus : string;
  rp_ErrorMessage : option string;
  rp_OutputOSSKey : string;
  rp_OutputSHA256 : string;
}.

(** [switch params.ShardStatus] *)
Definition report_transition (params : ReportShardStatusParams) : prog (res unit) :=
  if rp_ShardStatus params =s ShardStatusRunning then
    _ <-? MarkRunning (rp_ShardID params) # wrapf "report shard running" ;; Ret (Ok tt)
  else if rp_ShardStatus params =s ShardStatusSucceeded then
    _ <-? MarkSucceeded (rp_ShardID params) # wrapf "report shard succeeded" ;; Ret (Ok tt)
  else if rp_ShardStatus params =s ShardStatusFailed then
    _ <-? MarkFailed (rp_ShardID params) (default "" (rp_ErrorMessage params))
        # wrapf "report shard failed" ;; Ret (Ok tt)
  else Ret (Ok tt).

Definition report_output (params : ReportShardStatusParams) : prog (res unit) :=
  if rp_ShardStatus params =s ShardStatusSucceeded then
    _ <-? Updates (fun s : TaskShard => bool_decide (rid s = rp_ShardID params))
                  (assign_shard [SetOutputOSSKey (rp_OutputOSSKey params);
                                 SetOutputSHA256 (rp_OutputSHA256 params)])
        # wrapf "update shard oss output" ;; Ret (Ok tt)
  else Ret (Ok tt).

Definition report_task (params : ReportShardStatusParams) (t : Z) (task : Task)
    (shard : TaskShard) : prog (res (option CompletionHookPayload)) :=
  if rp_ShardStatus params =s ShardStatusRunning then
    n <-? Updates (fun t => bool_decide (rid t = sh_TaskID shard) &&
                            (Status t <>s TaskStatusCancelled))
                  (assign_task (SetTaskStatus TaskStatusRunning ::
                                match StartedAt task with
                                | None => [SetTaskStartedAt (Some t)]
                                | Some _ => []
                                end))
        # wrapf "mark task running" ;;
    if (n =? 0)%Z then Ret (Err (task_cancelled "mark task running" (sh_TaskID shard)))
    else Ret (Ok None)
  else if (rp_ShardStatus params =s ShardStatusSucceeded) ||
          (rp_ShardStatus params =s ShardStatusFailed) then
    payload <-? RecomputeTaskStatus (sh_TaskID shard) (default "" (rp_ErrorMessage params))
        # wrapf ("recompute task status after shard " +:+ rp_ShardStatus params) ;;
    Ret (Ok payload)
  else Ret (Ok None).

(** The transaction's body; its value is the captured [hookPayload]. *)
Definition report_body (params : ReportShardStatusParams) (t : Z)
    : prog (res (option CompletionHookPayload)) :=
  shard <-? TaskShardOrm.GetByID (rp_ShardID params) # wrapf "load shard" ;;
  task <-? FirstForUpdate (fun t => bool_decide (rid t = sh_TaskID shard))
      # wrapf "load task" ;;
  if (rp_ShardStatus params =s ShardStatusSucceeded) &&
     (sh_Status shard =s ShardStatusSucceeded) && (OutputOSSKey shard <>s "")
  then Ret (Ok None)
  else if Status task =s TaskStatusCancelled
  then Ret (Err (task_cancelled ("report shard " +:+ rp_ShardStatus params) (sh_TaskID shard)))
  else
  _ <-? report_transition params ;;
  _ <-? report_output params ;;
  report_task params t task shard.

Definition ReportShardStatus (params : ReportShardStatusParams) : prog (res unit) :=
  _ <-? GetDB ;;
  t <- now ;;
  hookPayload <-? transaction (report_body params t) ;;
  match hookPayload with
  | Some payload => dispatchCompletionHookAsync payload ;; Ret (Ok tt)
  | None => Ret (Ok tt)
  end.
End TaskStatus.

(** ** Recomputing a task's status: the reference function *)

(** The status the shards of a task give it: none while a shard is active,
    FAILED when one failed, SUCCEEDED otherwise. *)
Definition aggregate (statuses : list string) : option string :=
  if existsb (fun s => negb (ins s terminal_statuses)) statuses then None
  else if existsb (fun s => s =s ShardStatusFailed) statuses then Some TaskStatusFailed
  else Some TaskStatusSucceeded.

Section Recompute.
Context `{E : Env, L : !EnvLaws E}.
Implicit Types (d : DB) (w : World).

Definition shards_of (taskID : uuid) d : list TaskShard :=
  matching (fun s => bool_decide (sh_TaskID s = taskID)) d.

Lemma matching_and {R} `{Row R, Table R} (q p : R -> bool) d :
  matching (fun r => q r && p r) d = List.filter p (matching q d).
Proof.
  unfold matching. induction (scan (rows d)) as [|r l IH]; cbn; [done|].
  destruct (live r), (q r); cbn; rewrite ?IH; by destruct (p r).
Qed.
Lemma count_existsb {R} (p : R -> bool) l :
  (Z.of_nat (length (List.filter p l)) >? 0)%Z = existsb p l.
Proof. induction l as [|r l IH]; cbn; [done|]. by destruct (p r). Qed.
Lemma existsb_fmap {R S} (f : R -> S) p l : existsb p (f <$> l) = existsb (fun r => p (f r)) l.
Proof. induction l as [|r l IH]; cbn; [done|]. by rewrite IH. Qed.

(** The text recorded for a failed task: that of a failed shard, or the
    report's own, or a generic one. *)
Definition failure_text (taskID : uuid) (fallback : string) d (err : string) : Prop :=
  (exists s, s ∈ shards_of taskID d /\ sh_Status s = ShardStatusFailed /\
             sh_LastError s = err /\ err <> "") \/
  err = (if fallback <>s "" then fallback
         else "task failed because one or more shards failed").

Lemma wp_resolve b id fallback Q w :
  (forall err, failure_text id fallback (w_db w) err -> Q (Ok err) w) ->
  (b = true -> forall e, Q (Err e) w) ->
  wp b (resolveTaskFailureLastError id fallback) Q w.
Proof.
  intros H1 H2. apply wp_bind, wp_First.
  - intros s Hs. apply H1. left. apply elem_matching in Hs as (Hk & Hl & Hp). clean.
    exists s. split; [|by split]. apply elem_matching. split; [done|]. split; [done|].
    by apply bool_decide_eq_true.
  - intros _. cbn. assert (failure_text id fallback (w_db w)
      (if fallback <>s "" then fallback else "task failed because one or more shards failed"))
      as Hf by by right. by destruct (fallback <>s "") eqn:Hb; apply H1.
  - intros Hb msg. by apply H2.
Qed.

(** A terminal update of a task that is not terminal happens. *)
Lemma wp_terminal_update b id t us Q w :
  sane (tasks (w_db w)) -> tasks (w_db w) !! id = Some t ->
  Status t ∉ terminal_statuses ->
  (forall now, Q (Ok true) (put id (touch now (assign_task us t)) now w)) ->
  (b = true -> forall e now, Q (Err e) (set_clock now w)) ->
  wp b (updateTaskTerminalStatus id us terminal_statuses) Q w.
Proof.
  intros Hs Hk Hnt H1 H2. apply wp_bindR, wp_Updates_id; [done| | |by auto].
  - intros r n now Hr Hc Hn _. rewrite (proj2 (Z.eqb_neq n 0) Hn).
    cbn in Hr. assert (r = t) as -> by congruence. apply H1.
  - intros now Hn _. specialize (Hn t Hk). by clean.
Qed.

(** What [RecomputeTaskStatus] leaves behind, for a task that is not terminal. *)
Definition recomputed (id : uuid) (fallback : string) (t : Task) d
    (payload : option CompletionHookPayload) d' : Prop :=
  match aggregate (sh_Status <$> shards_of id d) with
  | None => payload = None /\ d' = d
  | Some st =>
    exists finished now err,
      (if st =s TaskStatusFailed then failure_text id fallback d err else err = "") /\
      payload = newCompletionHookPayload t st err (Some finished) (st =s TaskStatusSucceeded) /\
      d' = set_tasks (<[id := touch now (assign_task [SetTaskFinishedAt (Some finished);
                                 SetTaskStatus st; SetTaskLastError err] t)]> (tasks d)) d
  end.

Lemma wp_Recompute b id fallback t w :
  sane (tasks (w_db w)) -> tasks (w_db w) !! id = Some t -> Status t ∉ terminal_statuses ->
  wp b (RecomputeTaskStatus id fallback) (fun r w' =>
    match r with
    | Ok payload => recomputed id fallback t (w_db w) payload (w_db w')
    | Err _ => b = true
    end) w.
Proof.
  intros Hs Hk Hnt. unfold RecomputeTaskStatus.
  change [ShardStatusSucceeded; ShardStatusFailed; ShardStatusCancelled] with terminal_statuses.
  apply wp_bindR, wp_FirstForUpdate_key; [done| |by intros Hn; congruence|done].
  intros t' Ht'. assert (t' = t) as -> by congruence.
  change (w_db w) with (w_db (set_locked (id :: w_locked w) w)) in *. revert Hs Hk Ht'.
  generalize (set_locked (id :: w_locked w) w). clear w. intros w Hs Hk _.
  assert ((Status t =s TaskStatusCancelled) = false /\
          (Status t =s TaskStatusSucceeded) || (Status t =s TaskStatusFailed) = false) as [-> ->].
  { rewrite orb_false_iff, !eqs_neq. unfold terminal_statuses in Hnt. set_solver. }
  apply wp_bindR, wp_Count; [|done]. rewrite matching_and, count_existsb.
  unfold recomputed, aggregate. fold (shards_of id (w_db w)).
  rewrite (existsb_fmap sh_Status (fun s => negb (ins s terminal_statuses))).
  cbv beta. destruct (existsb (fun s => negb _) _) eqn:Hact; [by split|].
  apply wp_bindR, wp_Count; [|done]. rewrite matching_and, count_existsb.
  fold (shards_of id (w_db w)). rewrite (existsb_fmap sh_Status).
  cbv beta. apply wp_bind. cbn [wp now]. intros finished _.
  destruct (existsb (fun s : TaskShard => sh_Status s =s ShardStatusFailed) _) eqn:Hf.
  - apply wp_bindR, wp_resolve; [|done]. intros err Herr.
    apply wp_bindR. apply (wp_terminal_update b id t); [done..| |done].
    intros nw. exists finished, nw, err. by split.
  - apply wp_bindR. apply (wp_terminal_update b id t); [done..| |done].
    intros nw. exists finished, nw, "". by split.
Qed.
End Recompute.

(** ** Reports *)
Section Report.
Context `{E : Env, L : !EnvLaws E}.
Implicit Types (d : DB) (w : World).

(** The status a shard must have for a report to apply. *)
Definition required_status (status : string) : option string :=
  if status =s ShardStatusRunning then Some ShardStatusLeased
  else if (status =s ShardStatusSucceeded) || (status =s ShardStatusFailed)
  then Some ShardStatusRunning else None.

(** A report is refused when the shard does not exist, when its task is
    cancelled, or when the shard does not have the required status. *)
Definition refused (params : ReportShardStatusParams) d : Prop :=
  forall s t, task_shards d !! rp_ShardID params = Some s -> tasks d !! sh_TaskID s = Some t ->
    Status t = TaskStatusCancelled \/
    exists q, required_status (rp_ShardStatus params) = Some q /\ sh_Status s <> q.

Definition started_shard (at_ : Z) (s : TaskShard) : TaskShard :=
  assign_shard [SetShardStartedAt (Some at_); SetShardStatus ShardStatusRunning] s.
Definition started_task (at_ : Z) (t : Task) : Task :=
  assign_task (SetTaskStatus TaskStatusRunning ::
               match StartedAt t with None => [SetTaskStartedAt (Some at_)] | Some _ => [] end) t.
Definition finished_shard (params : ReportShardStatusParams) (at_ now : Z) (s : TaskShard)
    : TaskShard :=
  if rp_ShardStatus params =s ShardStatusSucceeded
  then assign_shard [SetOutputOSSKey (rp_OutputOSSKey params);
                     SetOutputSHA256 (rp_OutputSHA256 params)]
         (touch now (assign_shard [SetShardFinishedAt (Some at_);
                                   SetShardStatus ShardStatusSucceeded] s))
  else assign_shard [SetShardFinishedAt (Some at_);
                     SetShardLastError (default "" (rp_ErrorMessage params));
                     SetShardStatus ShardStatusFailed] s.

#[local] Arguments started_task : simpl never.
#[local] Arguments started_shard : simpl never.

(** What an accepted report does. *)
Inductive report_done (params : ReportShardStatusParams) (at_ : Z) d :
    option CompletionHookPayload -> DB -> Prop :=
| report_duplicate s :
    rp_ShardStatus params = ShardStatusSucceeded ->
    task_shards d !! rp_ShardID params = Some s -> sh_Status s = ShardStatusSucceeded ->
    report_done params at_ d None d
| report_ignored :
    required_status (rp_ShardStatus params) = None -> report_done params at_ d None d
| report_started s t a n1 n2 :
    rp_ShardStatus params = ShardStatusRunning ->
    task_shards d !! rp_ShardID params = Some s -> tasks d !! sh_TaskID s = Some t ->
    sh_Status s = ShardStatusLeased -> Status t <> TaskStatusCancelled ->
    report_done params at_ d None
      (set_tasks (<[sh_TaskID s := touch n2 (started_task at_ t)]> (tasks d))
        (set_task_shards (<[rp_ShardID params := touch n1 (started_shard a s)]>
                            (task_shards d)) d))
| report_finished s t a n1 n2 payload d1 d' :
    rp_ShardStatus params ∈ [ShardStatusSucceeded; ShardStatusFailed] ->
    task_shards d !! rp_ShardID params = Some s -> tasks d !! sh_TaskID s = Some t ->
    sh_Status s = ShardStatusRunning -> Status t = TaskStatusRunning ->
    d1 = set_task_shards (<[rp_ShardID params := touch n2 (finished_shard params a n1 s)]>
                            (task_shards d)) d ->
    recomputed (sh_TaskID s) (default "" (rp_ErrorMessage params)) t d1 payload d' ->
    report_done params at_ d payload d'.

Lemma wp_report_running b params at_ s t w :
  Inv (w_db w) -> rp_ShardStatus params = ShardStatusRunning ->
  task_shards (w_db w) !! rp_ShardID params = Some s -> tasks (w_db w) !! sh_TaskID s = Some t ->
  Status t <> TaskStatusCancelled ->
  wp b (_ <-? report_transition params ;; _ <-? report_output params ;;
        report_task params at_ t s) (fun r w' =>
    match r with
    | Ok payload => report_done params at_ (w_db w) payload (w_db w')
    | Err _ => b = true \/ sh_Status s <> ShardStatusLeased
    end) w.
Proof.
  intros HI Hp Hs Ht Hc. unfold report_transition, report_output, report_task. rewrite Hp.
  rewrite eqs_refl. change (ShardStatusRunning =s ShardStatusSucceeded) with false. cbn iota.
  unfold MarkRunning. apply wp_bindR, wp_bindR, wp_bind. cbn [wp now]. intros a _.
  apply wp_transitionStatus; cbn [w_db set_clock].
  - by apply inv_sane_shards.
  - intros s' n1 Hs' Hq. assert (s' = s) as -> by congruence.
    apply elem_of_cons in Hq as [Hq|Hq]; [|by apply not_elem_of_nil in Hq].
    cbn [wp]. apply wp_bindR. cbn [wp]. apply wp_bindR.
    apply (wp_Updates_id b (fun t => Status t <>s TaskStatusCancelled)).
    + exact (inv_sane_tasks _ HI).
    + intros t' n n2 Ht' _ Hn _. rewrite (proj2 (Z.eqb_neq n 0) Hn).
      cbn in Ht'. assert (t' = t) as -> by congruence.
      exact (report_started params at_ (w_db w) s t a n1 n2 Hp Hs Ht Hq Hc).
    + intros n2 Hn _. specialize (Hn t Ht). by clean.
    + by left.
  - intros e n1 Hn. right. specialize (Hn s Hs). set_solver.
  - by left.
Qed.

(** The tail of a final report, once the shard has its final status. *)
Lemma wp_report_recompute b params at_ s t a n1 n2 w wn :
  Inv (w_db w) -> rp_ShardStatus params ∈ [ShardStatusSucceeded; ShardStatusFailed] ->
  task_shards (w_db w) !! rp_ShardID params = Some s -> tasks (w_db w) !! sh_TaskID s = Some t ->
  sh_Status s = ShardStatusRunning ->
  w_db wn = set_task_shards (<[rp_ShardID params := touch n2 (finished_shard params a n1 s)]>
                               (task_shards (w_db w))) (w_db w) ->
  wp b (report_task params at_ t s) (fun r w' =>
    match r with
    | Ok payload => report_done params at_ (w_db w) payload (w_db w')
    | Err _ => b = true \/ sh_Status s <> ShardStatusRunning
    end) wn.
Proof.
  intros HI Hp Hs Ht Hq Hd. unfold report_task.
  assert ((rp_ShardStatus params =s ShardStatusRunning) = false /\
          (rp_ShardStatus params =s ShardStatusSucceeded) ||
          (rp_ShardStatus params =s ShardStatusFailed) = true) as [-> ->].
  { statuses; by rewrite Hp. }
  destruct (compat_parent _ _ _ HI Hs) as (t' & Ht' & _ & _ & Hst & Hc).
  assert (t' = t) as -> by congruence. rewrite Hq in Hc.
  pose proof (running_parent _ Hst Hc) as Hrun.
  apply wp_bindR. eapply wp_mono; [|apply (wp_Recompute b _ _ t)].
  - intros [payload|e] w'; [|by left]. cbn. rewrite Hd. intros Hr.
    exact (report_finished params at_ (w_db w) s t a n1 n2 payload _ _ Hp Hs Ht Hq Hrun
             eq_refl Hr).
  - rewrite Hd. exact (inv_sane_tasks _ HI).
  - by rewrite Hd.
  - rewrite Hrun. by apply ins_false.
Qed.

Lemma wp_report_succeeded b params at_ s t w :
  Inv (w_db w) -> rp_ShardStatus params = ShardStatusSucceeded ->
  task_shards (w_db w) !! rp_ShardID params = Some s -> tasks (w_db w) !! sh_TaskID s = Some t ->
  wp b (_ <-? report_transition params ;; _ <-? report_output params ;;
        report_task params at_ t s) (fun r w' =>
    match r with
    | Ok payload => report_done params at_ (w_db w) payload (w_db w')
    | Err _ => b = true \/ sh_Status s <> ShardStatusRunning
    end) w.
Proof.
  intros HI Hp Hs Ht. unfold report_transition, report_output.
  rewrite Hp. change (ShardStatusSucceeded =s ShardStatusRunning) with false.
  rewrite eqs_refl. cbn iota.
  unfold MarkSucceeded. apply wp_bindR, wp_bindR, wp_bind. cbn [wp now]. intros a _.
  apply wp_transitionStatus; cbn [w_db set_clock].
  - by apply inv_sane_shards.
  - intros s' n1 Hs' Hq. assert (s' = s) as -> by congruence.
    apply elem_of_cons in Hq as [Hq|Hq]; [|by apply not_elem_of_nil in Hq].
    cbn [wp]. apply wp_bindR, wp_bindR.
    destruct (inv_shard _ HI _ s Hs) as [Hrs Hls].
    apply wp_Updates; [|by left]. intros n2 _. cbn [wp].
    apply wp_report_recompute with a n1 n2; try done; [rewrite Hp; by apply ins_spec|].
    unfold updated, put, finished_shard. rewrite Hp, eqs_refl.
    unfold set_task_shards. cbn. f_equal.
    erewrite update_rows_single with (k := rp_ShardID params);
      [by rewrite insert_insert_eq|apply lookup_insert_eq|done|by apply bool_decide_true|].
    intros k' r' Hk' Hr. clean. rewrite <-Hr. symmetry.
    eapply sane_insert; [by apply inv_sane_shards|..|exact Hk']; done.
  - intros e n1 Hn. right. specialize (Hn s Hs). set_solver.
  - by left.
Qed.

Lemma wp_report_failed b params at_ s t w :
  Inv (w_db w) -> rp_ShardStatus params = ShardStatusFailed ->
  task_shards (w_db w) !! rp_ShardID params = Some s -> tasks (w_db w) !! sh_TaskID s = Some t ->
  wp b (_ <-? report_transition params ;; _ <-? report_output params ;;
        report_task params at_ t s) (fun r w' =>
    match r with
    | Ok payload => report_done params at_ (w_db w) payload (w_db w')
    | Err _ => b = true \/ sh_Status s <> ShardStatusRunning
    end) w.
Proof.
  intros HI Hp Hs Ht. unfold report_transition, report_output.
  rewrite Hp. change (ShardStatusFailed =s ShardStatusRunning) with false.
  change (ShardStatusFailed =s ShardStatusSucceeded) with false.
  rewrite eqs_refl. cbn iota.
  unfold MarkFailed. apply wp_bindR, wp_bindR, wp_bind. cbn [wp now]. intros a _.
  apply wp_transitionStatus; cbn [w_db set_clock].
  - by apply inv_sane_shards.
  - intros s' n1 Hs' Hq. assert (s' = s) as -> by congruence.
    apply elem_of_cons in Hq as [Hq|Hq]; [|by apply not_elem_of_nil in Hq].
    cbn [wp]. apply wp_bindR. cbn [wp].
    apply wp_report_recompute with a 0%Z n1; try done; [rewrite Hp; by apply ins_spec|].
    unfold put, finished_shard. by rewrite Hp.
  - intros e n1 Hn. right. specialize (Hn s Hs). set_solver.
  - by left.
Qed.

Lemma wp_report_body b params at_ w :
  Inv (w_db w) ->
  wp b (report_body params at_) (fun r w' =>
    match r with
    | Ok payload => report_done params at_ (w_db w) payload (w_db w')
    | Err _ => b = true \/ refused params (w_db w)
    end) w.
Proof.
  intros HI. unfold report_body, TaskShardOrm.GetByID.
  apply wp_bindR, wp_bindR, wp_First_key; [by apply inv_sane_shards| | |by left].
  2:{ intros Hn. right. intros s t Hs. cbn in Hn. congruence. }
  intros s Hs. cbn in Hs. cbn [wp].
  destruct (compat_parent _ _ _ HI Hs) as (t & Ht & _ & _ & Hst & Hc).
  apply wp_bindR, wp_FirstForUpdate_key; [by apply inv_sane_tasks| | |by left].
  2:{ intros Hn. congruence. }
  intros t' Ht'. assert (t' = t) as -> by congruence.
  set (w1 := set_locked _ w). change (w_db w) with (w_db w1) in *. clearbody w1. clear w.
  rename w1 into w.
  destruct (_ && _ && _) eqn:Hdup; [clean; by eapply report_duplicate|].
  assert (forall q, required_status (rp_ShardStatus params) = Some q -> sh_Status s <> q ->
            refused params (w_db w)) as Href.
  { intros q Hq Hne s' t' Hs1 Ht1. right. exists q. split; [done|congruence]. }
  destruct (Status t =s TaskStatusCancelled) eqn:Hcan; clean.
  { right. intros s' t' Hs1 Ht1. left. congruence. }
  destruct (rp_ShardStatus params =s ShardStatusRunning) eqn:H1;
    [|destruct (rp_ShardStatus params =s ShardStatusSucceeded) eqn:H2;
      [|destruct (rp_ShardStatus params =s ShardStatusFailed) eqn:H3]].
  - clean. eapply wp_mono; [|by eapply wp_report_running]. intros [x|e] w'; [done|].
    intros [?|Hne]; [by left|right]. eapply Href; [|exact Hne]. by rewrite H1.
  - clean. eapply wp_mono; [|by eapply wp_report_succeeded]. intros [x|e] w'; [done|].
    intros [?|Hne]; [by left|right]. eapply Href; [|exact Hne]. by rewrite H2.
  - clean. eapply wp_mono; [|by eapply wp_report_failed]. intros [x|e] w'; [done|].
    intros [?|Hne]; [by left|right]. eapply Href; [|exact Hne]. by rewrite H3.
  - unfold report_transition, report_output, report_task. rewrite H1, H2, H3. cbn.
    apply report_ignored. unfold required_status. by rewrite H1, H2, H3.
Qed.

(** *** Reports keep the life cycle *)
Lemma aggregate_sound st l :
  aggregate l = Some st ->
  (st = TaskStatusFailed \/ st = TaskStatusSucceeded /\ ShardStatusFailed ∉ l) /\
  forall x, x ∈ l -> x ∈ terminal_statuses.
Proof.
  unfold aggregate. destruct (existsb (fun s => negb _) l) eqn:Ha; [done|]. intros Hst.
  split.
  - destruct (existsb (fun s => s =s _) l) eqn:Hf; simplify_eq; [by left|right]. split; [done|].
    intros Hin. apply list_elem_of_In in Hin.
    assert (existsb (fun s => s =s ShardStatusFailed) l = true); [|congruence].
    apply existsb_exists. by exists ShardStatusFailed.
  - intros x Hx. apply list_elem_of_In in Hx. destruct (ins x terminal_statuses) eqn:Hi; [by clean|].
    assert (existsb (fun s => negb (ins s terminal_statuses)) l = true); [|congruence].
    apply existsb_exists. exists x. by rewrite Hi.
Qed.

Lemma aggregate_compat st l x :
  aggregate l = Some st -> x ∈ l -> compat TaskStatusRunning x = true -> compat st x = true.
Proof.
  intros Ha Hx Hc. destruct (aggregate_sound st l Ha) as [Hst Ht]. specialize (Ht x Hx).
  unfold terminal_statuses in Ht. destruct Hst as [->|[-> Hn]]; statuses.
Qed.

Lemma recomputed_lawful id fallback t d payload d' :
  Inv d -> tasks d !! id = Some t -> Status t = TaskStatusRunning ->
  recomputed id fallback t d payload d' -> Inv d' /\ life d d'.
Proof.
  intros HI Ht Hst. unfold recomputed.
  destruct (aggregate _) as [st|] eqn:Ha; [|by intros [_ ->]; split].
  intros (fin & now & err & _ & _ & ->). destruct (aggregate_sound _ _ Ha) as [Hs _].
  assert (st ∈ [TaskStatusFailed; TaskStatusSucceeded]) as Hin
    by (destruct Hs as [->|[-> _]]; by apply ins_spec).
  eapply put_task; [done|exact Ht| | | |done|done].
  - repeat split. destruct (touch_task now (assign_task [SetTaskFinishedAt (Some fin);
      SetTaskStatus st; SetTaskLastError err] t)) as [-> _].
    cbn. rewrite Hst. apply rtc_once. statuses; constructor.
  - change (st ∈ task_statuses). statuses; by apply ins_spec.
  - intros ks s Hk Hid. change (compat st (sh_Status s) = true).
    destruct (inv_parent _ HI ks s Hk) as (t' & Ht' & Hc).
    assert (t' = t) as -> by congruence. rewrite Hst in Hc.
    eapply aggregate_compat; [exact Ha| |done]. apply list_elem_of_fmap_2.
    apply elem_matching. split; [by exists ks|]. destruct (inv_shard _ HI ks s Hk).
    by rewrite bool_decide_true.
Qed.

Lemma started_lawful d k s t at_ a n1 n2 :
  Inv d -> task_shards d !! k = Some s -> tasks d !! sh_TaskID s = Some t ->
  sh_Status s = ShardStatusLeased ->
  let d' := set_tasks (<[sh_TaskID s := touch n2 (started_task at_ t)]> (tasks d))
              (set_task_shards (<[k := touch n1 (started_shard a s)]> (task_shards d)) d) in
  Inv d' /\ life d d'.
Proof.
  intros HI Hs Ht Hq d'. destruct (compat_parent _ _ _ HI Hs) as (t' & Ht' & _ & _ & Hst & Hc).
  assert (t' = t) as -> by congruence. rewrite Hq in Hc.
  pose proof (leased_parent _ Hst Hc) as Hin.
  assert (Status (started_task at_ t) = TaskStatusRunning) as Hrun.
  { unfold started_task. by destruct (StartedAt t). }
  destruct (put_task d (set_tasks (tasks d') d) (sh_TaskID s) t (touch n2 (started_task at_ t)))
    as [HI1 HL1]; try done.
  - destruct (touch_task n2 (started_task at_ t)) as (Hs1 & _).
    unfold task_moves. rewrite Hs1, Hrun.
    split_and!; try by unfold started_task; destruct (StartedAt t).
    statuses; rewrite Hin; try reflexivity; apply rtc_once; constructor; by apply ins_spec.
  - destruct (touch_task n2 (started_task at_ t)) as (-> & _). rewrite Hrun. by apply ins_spec.
  - intros ks s0 Hk0 Hid. destruct (touch_task n2 (started_task at_ t)) as (-> & _).
    rewrite Hrun. destruct (inv_parent _ HI ks s0 Hk0) as (t0 & Ht0 & Hc0).
    assert (t0 = t) as -> by congruence. unfold compat in *. clean.
    apply ins_spec. statuses; rewrite Hin in Hc0; cbn in Hc0; statuses; rewrite Hc0; by apply ins_spec.
  - destruct (put_shard (set_tasks (tasks d') d) d' k s (touch n1 (started_shard a s)))
      as [? HL2]; try done.
    + repeat split. cbn. rewrite Hq. apply rtc_once. constructor.
    + cbn. intros t0 Ht0. rewrite lookup_insert_eq in Ht0.
      assert (t0 = touch n2 (started_task at_ t)) as -> by congruence.
      destruct (touch_task n2 (started_task at_ t)) as (-> & _). by rewrite Hrun.
    + split; [done|]. by etrans.
Qed.

Lemma report_done_lawful params at_ d payload d' :
  Inv d -> report_done params at_ d payload d' -> Inv d' /\ life d d'.
Proof.
  intros HI Hr. destruct Hr as [s|?|s t a n1 n2 ? Hs Ht Hq _|s t a n1 n2 payload d1 d' Hp Hs Ht Hq Hrun -> Hrec];
    [by split..|by apply (started_lawful d _ s t)|].
  destruct (put_shard d (set_task_shards (<[rp_ShardID params := touch n2
      (finished_shard params a n1 s)]> (task_shards d)) d) (rp_ShardID params) s
      (touch n2 (finished_shard params a n1 s))) as [HI1 HL1]; try done.
  - unfold finished_shard. statuses; rewrite Hp; repeat split; cbn; rewrite Hq;
      apply rtc_once; constructor.
  - intros t0 Ht0. assert (t0 = t) as -> by congruence. rewrite Hrun.
    unfold finished_shard. statuses; by rewrite Hp.
  - destruct (recomputed_lawful _ _ _ _ _ _ HI1 Ht Hrun Hrec). split; [done|]. by etrans.
Qed.

(** Reports assign nothing. *)
Lemma recomputed_rest id fallback t d payload d' :
  recomputed id fallback t d payload d' ->
  task_shards d' = task_shards d /\ tenants d' = tenants d.
Proof.
  unfold recomputed. destruct (aggregate _); [|by intros [_ ->]]. by intros (? & ? & ? & _ & _ & ->).
Qed.
Lemma report_done_releases params at_ d payload d' :
  life d d' -> report_done params at_ d payload d' -> releases d d'.
Proof.
  intros HL Hr.
  destruct Hr as [s|?|s t a n1 n2 ? Hs Ht Hq _|s t a n1 n2 payload d1 d' Hp Hs Ht Hq Hrun -> Hrec];
    [done|done| |].
  - eapply releases_put with (s' := touch n1 (started_shard a s)); [done..|]. by intros A.
  - destruct (recomputed_rest _ _ _ _ _ _ Hrec) as [Hs' Hn].
    eapply releases_put; [done|exact Hn|exact Hs|exact Hs'|]. intros A.
    unfold finished_shard. by destruct (_ =s _).
Qed.

(** A report that finishes a task returns the payload that announces it. *)
Definition announced (payload : option CompletionHookPayload) (new : list Task) : Prop :=
  forall p, payload = Some p -> exists t, new = [t] /\ announces p t.

Lemma recomputed_finishes id fallback t d payload d' :
  tasks d !! id = Some t -> rid t = id -> Status t = TaskStatusRunning ->
  recomputed id fallback t d payload d' -> exists new, announced payload new /\ finishes d d' new.
Proof.
  intros Ht Hid Hst. unfold recomputed. destruct (aggregate _) as [st|] eqn:Ha.
  2:{ intros [-> ->]. exists []. split; [done|apply finishes_nil]. }
  intros (fin & now & err & _ & -> & ->). destruct (aggregate_sound _ _ Ha) as [Hs _].
  set (t' := touch now _). exists [t'].
  assert (rid t' = id /\ Status t' = st) as [Hid' Hst'] by by rewrite <-Hid.
  split.
  - intros p Hp. exists t'. split; [done|]. by eapply newCompletionHookPayload_announces.
  - split; [apply NoDup_singleton|]. intros t0 ->%list_elem_of_singleton. rewrite Hid', Hst'.
    split; [apply lookup_insert_eq|]. split.
    + apply ins_spec. destruct Hs as [->|[-> _]]; done.
    + exists t. split; [done|]. rewrite Hst. by apply ins_false.
Qed.

Lemma report_done_finishes params at_ d payload d' :
  Inv d -> report_done params at_ d payload d' ->
  exists new, announced payload new /\ finishes d d' new.
Proof.
  intros HI Hr.
  destruct Hr as [s|?|s t a n1 n2 ? Hs Ht Hq _|s t a n1 n2 payload d1 d' Hp Hs Ht Hq Hrun -> Hrec];
    [by exists []; split; [|apply finishes_nil]..|].
  destruct (inv_task _ HI _ t Ht) as (Hid & _ & _). by eapply recomputed_finishes in Hrec.
Qed.

(** *** The whole call *)
Lemma framed_report_body params at_ : framed (report_body params at_).
Proof.
  unfold report_body, report_transition, report_output, report_task, MarkRunning, MarkSucceeded,
    MarkFailed, transitionStatus, RecomputeTaskStatus, resolveTaskFailureLastError,
    updateTaskTerminalStatus, TaskShardOrm.GetByID. framed_all.
Qed.

Lemma lawful_ReportShardStatus params : lawful (ReportShardStatus params).
Proof.
  unfold ReportShardStatus. apply lawful_bindR; [apply lawful_GetDB|intros _].
  apply lawful_bind; [apply lawful_now|intros at_].
  eapply lawful_bind_acct.
  - intros g. apply (accounted_tx g _ announced (framed_report_body params at_)).
    intros w [HI _]. eapply wp_mono; [|by apply wp_report_body]. intros [x|e] w'; [|done].
    intros Hd. split; [|by eapply report_done_finishes].
    destruct (report_done_lawful _ _ _ _ _ HI Hd) as [HI' HL].
    apply releases_commits; [done|by eapply report_done_releases].
  - cbn. intros g g' [[p|]|e] Hg; [| |by subst].
    2:{ destruct Hg as (new & _ & ->). apply grant_extends. }
    destruct Hg as (new & Hn & ->). destruct (Hn p eq_refl) as (t & -> & Ha).
    eapply guarded_bind; [by apply (accounted_dispatch _ g t)|]. by cbn.
Qed.

Lemma recomputed_url id fallback t d p d' :
  recomputed id fallback t d (Some p) d' -> pl_CompletionHookURL p <> "".
Proof.
  unfold recomputed. destruct (aggregate _) as [st|]; [|by intros []].
  intros (fin & now & err & _ & Hp & _). unfold newCompletionHookPayload in Hp.
  destruct (_ =s _) eqn:Hu; [done|]. clean. by injection Hp as ->.
Qed.

Lemma wp_dispatch b p Q w :
  pl_CompletionHookURL p <> "" -> Q tt (set_hooks (p :: w_hooks w) w) ->
  wp b (dispatchCompletionHookAsync p) Q w.
Proof.
  intros Hu HQ. unfold dispatchCompletionHookAsync. apply eqs_neq in Hu. by rewrite Hu.
Qed.

Lemma wp_ReportShardStatus b params w :
  Inv (w_db w) -> w_db_open w = true ->
  wp b (ReportShardStatus params) (fun r w' =>
    match r with
    | Ok _ => exists at_ payload, report_done params at_ (w_db w) payload (w_db w') /\
                w_hooks w' = (option_list payload ++ w_hooks w)%list /\ w_reg w' = w_reg w /\
                w_db_open w' = true /\ w_sent w' = w_sent w
    | Err _ => w_db w' = w_db w /\ outside_same w w' /\ (b = true \/ refused params (w_db w))
    end) w.
Proof.
  intros HI Ho. unfold ReportShardStatus. apply wp_bindR, wp_GetDB; [done|].
  apply wp_bind. cbn [wp now]. intros at_ _. set (w1 := set_clock at_ w).
  assert (outside_same w w1) as Hf1 by done.
  apply wp_bindR, wp_transaction; [by intros; repeat split; auto|].
  eapply wp_mono; [|apply wp_framed; [apply framed_report_body|exact (wp_report_body b params at_ w1 HI)]].
  intros [payload|e] w' [Hr Hf2].
  - assert (outside_same w w') as Hf by by etrans.
    split; [|intros Hb m; split; [done|]; split; [by destruct Hf|by left]].
    destruct payload as [p|].
    + apply wp_bind, wp_dispatch.
      * inversion Hr as [| | |? ? ? ? ? ? ? ? _ _ _ _ _ _ Hrec]; subst. by eapply recomputed_url.
      * cbn. exists at_, (Some p). cbn. destruct Hf as [Hop Hrg ? ? ? Hhk ? ?].
        by rewrite Hhk, Hop.
    + cbn. exists at_, None. destruct Hf. cbn. split_and!; congruence || done.
  - split; [done|]. split; [by etrans; [|destruct Hf2; by split]|done].
Qed.

(** C8: Whatever fails on the way, a shard report is all or nothing.  An accepted
    report is one of: the redelivery of a success already recorded (nothing
    changes); RUNNING for a leased shard, which starts the shard and its task; or
    the final SUCCEEDED or FAILED of a running shard, which records it and
    recomputes the task; and at most the one completion hook of that
    recomputation is started.  A rejected report changes neither the database nor
    anything else, and is only rejected without an external failure when the shard
    is unknown, its task cancelled, or its status not the one required. *)
Theorem ReportShardStatus_spec params w o :
  Inv (w_db w) -> w_db_open w = true ->
  let x := run (ReportShardStatus params) w o in
  match result x with
  | Ok _ => exists at_ payload, report_done params at_ (w_db w) payload (w_db (final x)) /\
              w_hooks (final x) = (option_list payload ++ w_hooks w)%list
  | Err _ => w_db (final x) = w_db w /\ outside_same w (final x) /\
             (calm o -> refused params (w_db w))
  end.
Proof.
  intros HI Ho x.
  destruct (wp_run_both _ _ w o (fun b => wp_ReportShardStatus b params w HI Ho)) as (b & Hb & Hr).
  fold x in Hr. destruct (result x) as [[]|e].
  - destruct Hr as (at_ & payload & ? & ? & _). eauto.
  - destruct Hr as (? & ? & Hr). split; [done|]. split; [done|]. intros Hc.
    destruct Hr as [->|?]; [by discriminate (Hb Hc)|done].
Qed.

(** The final report of a running shard, without external failures. *)
Lemma wp_final_report params s w :
  Inv (w_db w) -> w_db_open w = true ->
  rp_ShardStatus params ∈ [ShardStatusSucceeded; ShardStatusFailed] ->
  task_shards (w_db w) !! rp_ShardID params = Some s -> sh_Status s = ShardStatusRunning ->
  wp false (ReportShardStatus params) (fun r w' =>
    r = Ok tt /\ exists t a n1 n2 payload d1,
      tasks (w_db w) !! sh_TaskID s = Some t /\ Status t = TaskStatusRunning /\
      d1 = set_task_shards (<[rp_ShardID params := touch n2 (finished_shard params a n1 s)]>
                              (task_shards (w_db w))) (w_db w) /\
      recomputed (sh_TaskID s) (default "" (rp_ErrorMessage params)) t d1 payload (w_db w') /\
      task_shards (w_db w') = task_shards d1) w.
Proof.
  intros HI Ho Hp Hs Hst.
  eapply wp_mono; [|apply (wp_ReportShardStatus false params w HI Ho)]. cbn.
  destruct (compat_parent _ _ _ HI Hs) as (t & Ht & _ & _ & Hts & Hcp).
  rewrite Hst in Hcp. apply (running_parent _ Hts) in Hcp.
  intros [[]|e] w' Hr.
  2:{ exfalso. destruct Hr as (_ & _ & [?|Href]); [done|].
      destruct (Href s t Hs Ht) as [Hcan|(q & Hq & Hne)]; [by rewrite Hcp in Hcan|].
      apply Hne. rewrite Hst. statuses; rewrite Hp in Hq; by injection Hq. }
  split; [done|]. destruct Hr as (at_ & payload & Hd & _).
  remember (w_db w') as d' eqn:Hd'. clear Hd' w'.
  destruct Hd as [s0 ? Hs0 Hst0|Hreq|s0 ? ? ? ? Hp0|s0 t0 a n1 n2 payload d1 d2 _ Hs0 Ht0 _ Hrun Hd1 Hrec].
  - assert (s0 = s) as -> by congruence. by rewrite Hst in Hst0.
  - statuses; by rewrite Hp in Hreq.
  - statuses; by rewrite Hp in Hp0.
  - assert (s0 = s) as -> by congruence. exists t0, a, n1, n2, payload, d1.
    split_and!; [done..|]. unfold recomputed in Hrec.
    destruct (aggregate _); [|by destruct Hrec as [_ ->]].
    by destruct Hrec as (? & ? & ? & _ & _ & ->).
Qed.

(** C9: Without external failures the final report of a running shard is always
    accepted, and afterwards the task's status is the one its shards determine:
    RUNNING while one is active, FAILED when all are done and one failed,
    SUCCEEDED when all succeeded. *)
Theorem final_report_settles_task params s w o :
  Inv (w_db w) -> w_db_open w = true -> calm o ->
  rp_ShardStatus params ∈ [ShardStatusSucceeded; ShardStatusFailed] ->
  task_shards (w_db w) !! rp_ShardID params = Some s -> sh_Status s = ShardStatusRunning ->
  let x := run (ReportShardStatus params) w o in
  let d' := w_db (final x) in
  result x = Ok tt /\
  (exists s', task_shards d' !! rp_ShardID params = Some s' /\
              sh_Status s' = rp_ShardStatus params) /\
  (exists t', tasks d' !! sh_TaskID s = Some t' /\
     Status t' = default TaskStatusRunning
                   (aggregate (sh_Status <$> shards_of (sh_TaskID s) d'))).
Proof.
  intros HI Ho Hc Hp Hs Hst x d'.
  destruct (wp_run_calm _ _ w o Hc (wp_final_report params s w HI Ho Hp Hs Hst))
    as (Hx & t & a & n1 & n2 & payload & d1 & Ht & Hrun & Hd1 & Hrec & Hs2).
  split; [exact Hx|]. fold x in Hrec, Hs2. fold d' in Hrec, Hs2. clearbody d'. split.
  - eexists. rewrite Hs2, Hd1. cbn. rewrite lookup_insert_eq. split; [reflexivity|].
    destruct (touch_shard n2 (finished_shard params a n1 s)) as [-> _].
    unfold finished_shard. statuses; by rewrite Hp.
  - unfold recomputed in Hrec.
    assert (shards_of (sh_TaskID s) d' = shards_of (sh_TaskID s) d1) as ->
      by (unfold shards_of, matching; cbn; by rewrite Hs2).
    destruct (aggregate _) as [st|].
    + destruct Hrec as (fin & nw & err & _ & _ & ->). cbn. rewrite lookup_insert_eq. by eexists.
    + destruct Hrec as [_ ->]. exists t. by rewrite Hd1.
Qed.

(** C10: [RecomputeTaskStatus] of a task that is not terminal computes the
    reference function [aggregate] of its shards' statuses and, when that is a
    final status, records it with the finishing time and, for a failure, the text
    of a failed shard, and builds the hook payload; otherwise it changes nothing. *)
Theorem RecomputeTaskStatus_refines id fallback t w o :
  Inv (w_db w) -> tasks (w_db w) !! id = Some t -> Status t ∉ terminal_statuses ->
  let x := run (RecomputeTaskStatus id fallback) w o in
  match result x with
  | Ok payload => recomputed id fallback t (w_db w) payload (w_db (final x))
  | Err _ => ~ calm o
  end.
Proof.
  intros HI Ht Hn x.
  destruct (wp_run_both _ _ w o
    (fun b => wp_Recompute b id fallback t w (inv_sane_tasks _ HI) Ht Hn)) as (b & Hb & Hr).
  fold x in Hr. destruct (result x); [done|]. intros Hc%Hb. by subst b.
Qed.
End Report.
#[export] Hint Resolve lawful_ReportShardStatus : prog.

(** The theorems on [demo]: shard 15 is the last active shard of task 11. *)
Definition demo_report : ReportShardStatusParams :=
  mkReport 15 ShardStatusSucceeded None "key" "sha".

Lemma ReportShardStatus_spec_witness :
  let E := toy_env in
  let x := run (ReportShardStatus demo_report) demo quiet in
  result x = Ok tt /\ length (w_hooks (final x)) = 1 /\
  exists at_ payload, report_done demo_report at_ demo_db payload (w_db (final x)).
Proof.
  cbn zeta. split; [vm_compute; reflexivity|]. split; [vm_compute; reflexivity|].
  pose proof (ReportShardStatus_spec (E := toy_env) (L := toy_laws) demo_report demo quiet
                demo_inv eq_refl) as H. cbv zeta in H.
  replace (result _) with (@Ok unit tt) in H by (vm_compute; reflexivity).
  destruct H as (at_ & payload & H & _). exists at_, payload. exact H.
Defined.

Lemma final_report_settles_task_witness :
  let E := toy_env in
  let x := run (ReportShardStatus demo_report) demo quiet in
  result x = Ok tt /\
  (exists t', tasks (w_db (final x)) !! 11%N = Some t' /\ Status t' = TaskStatusSucceeded).
Proof.
  cbn zeta.
  destruct (final_report_settles_task (E := toy_env) (L := toy_laws) demo_report
              (demo_shard 15 11 "a.sh" ShardStatusRunning (Some "busy") "" (Some 8%Z)) demo quiet
              demo_inv eq_refl (Forall_nil_2 _) ltac:(by apply ins_spec) eq_refl eq_refl)
    as (H1 & _ & t' & H2 & H3).
  split; [exact H1|]. exists t'. split; [exact H2|]. rewrite H3. vm_compute. reflexivity.
Defined.

Lemma RecomputeTaskStatus_refines_witness :
  let E := toy_env in
  let t := mkTask (at_ 11 7) 1 TaskStatusRunning "http://hook" 2 (Some 8%Z) None None "" "" in
  let x := run (RecomputeTaskStatus 11 "") demo quiet in
  result x = Ok None /\ recomputed 11 "" t demo_db None (w_db (final x)).
Proof.
  cbn zeta. split; [vm_compute; reflexivity|].
  pose proof (RecomputeTaskStatus_refines (E := toy_env) (L := toy_laws) 11 ""
    (mkTask (at_ 11 7) 1 TaskStatusRunning "http://hook" 2 (Some 8%Z) None None "" "") demo quiet
    demo_inv eq_refl ltac:(by apply ins_false)) as H. cbv zeta in H.
  replace (result _) with (@Ok (option CompletionHookPayload) None) in H
    by (vm_compute; reflexivity). exact H.
Defined.
