(* ===== verification/TaskLease.v ===== *)
(** * Leasing, validating and rolling back shards
    (internal/service/task_service: lease_next_shard.go, validate_shard.go,
    rollback_shard.go, cleanup_orphan_shards.go) *)
From S2P Require Import Prelude Errors Model Env Proto World Effects Store StoreFacts.
From S2P Require Import Lifecycle Lawful Demo TaskOrm TaskShardOrm AgentService.

Section TaskLease.
Context `{Env}.

(** ** lease_next_shard.go *)
Definition shardQueryStatuses : list string :=
  [TaskStatusWaitingForAgents; TaskStatusQueued; TaskStatusRunning].

(** task_shards JOIN tasks JOIN tenants: each shard with its task and tenant.
    The soft-delete filter applies to the model's table only. *)
Definition joined (d : DB) (s : TaskShard) : option (TaskShard * Task) :=
  t ← tasks d !! sh_TaskID s;
  n ← tenants d !! TenantID t;
  Some (s, t).

Definition lease_condition (d : DB) (tenantID : uuid) (backendName : string) (st : TaskShard * Task)
    : bool :=
  let '(s, t) := st in
  live s && bool_decide (TenantID t = tenantID) && ins (Status t) shardQueryStatuses &&
  match tenants d !! TenantID t with
  | Some n => PrimaryBackendName n =s backendName
  | None => false
  end && (sh_Status s =s ShardStatusQueued).

Definition lease_candidates (tenantID : uuid) (backendName : string) (d : DB)
    : list (TaskShard * Task) :=
  order_by [asc_Z (fun st => CreatedAt (base st.2)); asc_text (fun st => ScriptName st.1)]
    (List.filter (lease_condition d tenantID backendName)
                 (omap (joined d) (scan (task_shards d)))).

Definition take_candidate (tenantID : uuid) (backendName : string) : prog (res TaskShard) :=
  stmt (fun d =>
    (match lease_candidates tenantID backendName d with
     | [] => Err (ESentinel ErrRecordNotFound)
     | (s, _) :: _ => Ok s
     end, d)).

(** Promote a task that was waiting for agents; the task as the code goes on
    to see it. *)
Definition promote_task (task : Task) : prog (res Task) :=
  if Status task =s TaskStatusWaitingForAgents then
    _ <-? Updates (fun t => bool_decide (rid t = rid task) &&
                            (Status t =s TaskStatusWaitingForAgents))
                  (assign_task [SetTaskStatus TaskStatusQueued])
        # wrapf "promote task to queued" ;;
    Ret (Ok (set_task (SetTaskStatus TaskStatusQueued) task))
  else Ret (Ok task).

Definition maxRetries : nat := 100.

Definition leased (agentID : string) (s : TaskShard) : TaskShard :=
  assign_shard [SetShardStatus ShardStatusLeased; SetAssignedAgentID (Some agentID)] s.

Fixpoint lease_loop (tenantID : uuid) (backendName agentID : string) (retries : nat)
    : prog (res (Task * TaskShard)) :=
  match retries with
  | O => Ret (Err (ENew "lease next shard: exhausted 100 retry attempts"))
  | S retries' =>
    shard <-? take_candidate tenantID backendName ;;
    loaded <-? First (fun t => bool_decide (TenantID t = tenantID) &&
                               bool_decide (rid t = sh_TaskID shard)) []
        # wrapf "load shard task" ;;
    task <-? promote_task loaded ;;
    if negb (ins (Status task) shardQueryStatuses)
    then lease_loop tenantID backendName agentID retries'
    else
    n <-? Updates (fun s => bool_decide (rid s = rid shard) &&
                            (sh_Status s =s ShardStatusQueued)) (leased agentID)
        # wrapf "lease shard" ;;
    if (n =? 0)%Z then lease_loop tenantID backendName agentID retries'
    else Ret (Ok (task, leased agentID shard))
  end.

Definition LeaseNextShard (tenantID : uuid) (backendName agentID : string)
    : prog (res (Task * TaskShard)) :=
  _ <-? GetDB ;;
  r <-? transaction (lease_loop tenantID backendName agentID maxRetries)
      # wrapf "lease next shard" ;;
  Ret (Ok r).

(** ** validate_shard.go *)
Definition LoadValidatedShard (shardID : uuid) (agentID : string) (tenantID : uuid)
    (backendName : string) : prog (res TaskShard) :=
  let sid := uuid_String shardID in
  _ <-? GetDB # (fun e => EStatus FailedPrecondition (Error e)) ;;
  if bool_decide (shardID = uuid_Nil)
  then Ret (Err (EStatus InvalidArgument "shard_id is required"))
  else
  shard <-? TaskShardOrm.GetByID shardID
      # (fun e => if errors_Is e ErrRecordNotFound
                  then EStatus NotFound ("shard " +:+ sid +:+ " not found")
                  else EStatus Internal ("load shard " +:+ sid +:+ ": " +:+ Error e)) ;;
  if (AssignedAgentID shard <>s agentID) &&
     negb (ins (sh_Status shard) [ShardStatusCancelled; ShardStatusFailed; ShardStatusSucceeded])
  then Ret (Err (EStatus PermissionDenied
         ("shard " +:+ sid +:+ " is assigned to agent " +:+ AssignedAgentID shard
          +:+ ", not " +:+ agentID)))
  else
  let tid := uuid_String (sh_TaskID shard) in
  owner <-? GetShardTaskOwner (sh_TaskID shard)
      # (fun e => if errors_Is e ErrRecordNotFound
                  then EStatus NotFound ("task " +:+ tid +:+ " not found")
                  else EStatus Internal ("load shard task " +:+ tid +:+ ": " +:+ Error e)) ;;
  if negb (bool_decide (own_TenantID owner = tenantID))
  then Ret (Err (EStatus PermissionDenied
         ("shard " +:+ sid +:+ " belongs to tenant " +:+ uuid_String (own_TenantID owner)
          +:+ ", not " +:+ uuid_String tenantID)))
  else if own_PrimaryBackendName owner <>s backendName
  then Ret (Err (EStatus PermissionDenied
         ("shard " +:+ sid +:+ " belongs to backend " +:+ own_PrimaryBackendName owner
          +:+ ", not " +:+ backendName)))
  else Ret (Ok shard).

Definition ValidateShardReport (shardID : uuid) (agentID : string) (tenantID : uuid)
    (backendName requiredStatus action : string) : prog (res unit) :=
  shard <-? LoadValidatedShard shardID agentID tenantID backendName ;;
  if sh_Status shard <>s requiredStatus
  then Ret (Err (EStatus FailedPrecondition
         (action +:+ " requires shard " +:+ uuid_String shardID +:+ " to be "
          +:+ requiredStatus +:+ ", got " +:+ sh_Status shard)))
  else Ret (Ok tt).

(** ** rollback_shard.go *)
Definition RollbackAssignedShard (shardID : uuid) (task : Task) : prog (res unit) :=
  _ <-? GetDB ;;
  transaction (RollbackShardWithTask shardID [ShardStatusLeased] task).

Definition rollback_one (shard : TaskShard) (rolledBack : Z) : prog Z :=
  r <- RollbackToQueued (rid shard) [sh_Status shard] ;;
  match r with
  | Err _ => Ret rolledBack
  | Ok _ => Ret (rolledBack + 1)%Z
  end.

Definition RollbackOrphanShardsForAgent (agentID : string) : prog (res Z) :=
  _ <-? GetDB ;;
  activeShards <-? GetActiveTaskShardByAgent agentID
      # wrapf ("load active shards for agent " +:+ agentID) ;;
  n <- foldP activeShards 0%Z rollback_one ;;
  Ret (Ok n).

Definition RollbackTimedOutShard (shardID : uuid) (agentID : string) (tenantID : uuid)
    (backendName : string) : prog (res unit) :=
  shard <-? LoadValidatedShard shardID agentID tenantID backendName ;;
  _ <-? GetDB ;;
  task <-? First (fun t : Task => bool_decide (rid t = sh_TaskID shard)) []
      # wrapf "load task for timed-out shard rollback" ;;
  transaction (RollbackShardWithTask shardID [ShardStatusLeased; ShardStatusRunning] task).

(** ** cleanup_orphan_shards.go, cleanup_orphan_loop.go *)
Definition CleanupOrphanShards (threshold : Z) : prog (res unit) :=
  _ <-? GetDB ;;
  registeredAgents <- GetAllAgentIDs ;;
  _ <-? TaskShardOrm.CleanupOrphanShards registeredAgents threshold ;;
  Ret (Ok tt).

(** One wake-up of the ticker; errors are logged.  The loop is as many
    wake-ups as the ticker delivers before the context is done. *)
Definition cleanup_tick : prog unit :=
  _ <- CleanupOrphanShards (10 * Minute) ;; Ret tt.
Fixpoint CleanupOrphanShardsLoop (ticks : nat) : prog unit :=
  match ticks with
  | O => Ret tt
  | S n => cleanup_tick ;; CleanupOrphanShardsLoop n
  end.
End TaskLease.

(** ** Leasing *)
Section LeaseFacts.
Context `{E : Env, L : !EnvLaws E}.
Implicit Types (d : DB) (w : World).

(** A shard an agent of tenant [T] and backend [B] may take: queued, of a task of
    that tenant that is under way. *)
Definition eligible (T : uuid) (B : string) d (s : TaskShard) (t : Task) : Prop :=
  (exists k, task_shards d !! k = Some s) /\ live s = true /\
  sh_Status s = ShardStatusQueued /\ tasks d !! sh_TaskID s = Some t /\
  TenantID t = T /\ (Status t ∈ shardQueryStatuses) /\
  exists n, tenants d !! T = Some n /\ PrimaryBackendName n = B.

Lemma candidate_eligible T B d s t : eligible T B d s t -> (s, t) ∈ lease_candidates T B d.
Proof.
  intros ([k Hk] & Hl & Hs & Ht & HT & Hq & n & Hn & Hb).
  unfold lease_candidates. rewrite order_by_perm.
  rewrite list_elem_of_In, filter_In, <-list_elem_of_In, list_elem_of_omap. split.
  - exists s. split; [apply elem_scan; eauto|]. unfold joined. rewrite Ht. cbn.
    by rewrite HT, Hn.
  - cbn. rewrite Hl, Hs, HT, Hn, Hb, bool_decide_true, eqs_refl by done.
    rewrite (proj2 (ins_spec _ _) Hq). done.
Qed.

Lemma candidate_spec T B d s t : (s, t) ∈ lease_candidates T B d -> eligible T B d s t.
Proof.
  unfold eligible, lease_candidates. rewrite order_by_perm.
  rewrite list_elem_of_In, filter_In, <-list_elem_of_In, list_elem_of_omap.
  intros [(x & Hx & Hj) Hc]. apply elem_scan in Hx as [k Hk].
  unfold joined in Hj. destruct (tasks d !! sh_TaskID x) as [y|] eqn:Hy; [|done].
  cbn in Hj. destruct (tenants d !! TenantID y) as [n|] eqn:Hn; [|done]. cbn in Hj.
  simplify_eq. cbn in Hc. rewrite Hn in Hc. clean. subst. eauto 10.
Qed.

(** The task as [LeaseNextShard] leaves it. *)
Definition promoted (t : Task) : Task :=
  if Status t =s TaskStatusWaitingForAgents then set_task (SetTaskStatus TaskStatusQueued) t
  else t.

(** What a successful lease does: the first candidate becomes leased to the
    agent, its task is promoted if it was waiting for agents, and no other row
    changes ([t1], [t2] are the update times). *)
Definition lease_done T B A d (r : Task * TaskShard) d' : Prop :=
  exists s t rest t1 t2,
    lease_candidates T B d = (s, t) :: rest /\ r = (promoted t, leased A s) /\
    tasks d' = (if Status t =s TaskStatusWaitingForAgents
                then <[sh_TaskID s := touch t1 (promoted t)]> (tasks d) else tasks d) /\
    task_shards d' = <[rid s := touch t2 (leased A s)]> (task_shards d) /\
    tenants d' = tenants d /\ clusters d' = clusters d.

Lemma wp_promote b t w Q :
  tasks (w_db w) !! rid t = Some t -> live t = true -> Inv (w_db w) ->
  (forall w', Inv (w_db w) -> (exists t1, tasks (w_db w') =
       (if Status t =s TaskStatusWaitingForAgents
        then <[rid t := touch t1 (promoted t)]> (tasks (w_db w)) else tasks (w_db w))) ->
     task_shards (w_db w') = task_shards (w_db w) -> tenants (w_db w') = tenants (w_db w) ->
     clusters (w_db w') = clusters (w_db w) -> Q (Ok (promoted t)) w') ->
  (b = true -> forall e w', errors_Is e ErrRecordNotFound = false -> Q (Err e) w') ->
  wp b (promote_task t) Q w.
Proof.
  intros Hk Hl HI HQ He. unfold promote_task, promoted in *.
  destruct (Status t =s TaskStatusWaitingForAgents) eqn:Hst.
  - apply wp_bindR, wp_Updates; [|by intros; apply He].
    intros now _. cbn. apply HQ; [done| |done..]. exists now. cbn.
    etrans; [apply update_rows_single with (r := t)|reflexivity]; [done|done| |].
    + by rewrite bool_decide_true, Hst.
    + intros k' r' Hk' Hr. clean. destruct (inv_task _ HI k' r' Hk'). congruence.
  - cbn. apply HQ; [done| |done..]. exists 0%Z. done.
Qed.

Lemma promoted_moves t :
  Status t ∈ shardQueryStatuses -> task_moves t (promoted t).
Proof.
  intros _. unfold promoted. destruct (_ =s _) eqn:Hst; [|reflexivity]. clean.
  repeat split. cbn. rewrite Hst. apply rtc_once. constructor.
Qed.

Lemma promoted_status t :
  Status t ∈ shardQueryStatuses ->
  Status (promoted t) ∈ [TaskStatusQueued; TaskStatusRunning].
Proof.
  intros Hq. unfold promoted. destruct (_ =s _) eqn:Hst; [by apply ins_spec|]. clean.
  unfold shardQueryStatuses in Hq. statuses; rewrite Hq; by apply ins_spec.
Qed.

(** The update that takes the shard finds it. *)
Lemma wp_take_lease b A s w Q :
  task_shards (w_db w) !! rid s = Some s -> live s = true ->
  sh_Status s = ShardStatusQueued ->
  (forall k r, task_shards (w_db w) !! k = Some r -> rid r = k) ->
  (forall n w', n <> 0%Z -> (exists t2, task_shards (w_db w') =
       <[rid s := touch t2 (leased A s)]> (task_shards (w_db w))) ->
     tasks (w_db w') = tasks (w_db w) -> tenants (w_db w') = tenants (w_db w) ->
     clusters (w_db w') = clusters (w_db w) -> Q (Ok n) w') ->
  (b = true -> forall e w', errors_Is e ErrRecordNotFound = false -> Q (Err e) w') ->
  wp b (Updates (fun x => bool_decide (rid x = rid s) && (sh_Status x =s ShardStatusQueued))
                (leased A)) Q w.
Proof.
  intros Hk Hl Hst HI HQ He.
  assert (bool_decide (rid s = rid s) && (sh_Status s =s ShardStatusQueued) = true) as Hp.
  { by rewrite bool_decide_true, Hst. }
  apply wp_Updates; [|by intros; apply He]. intros now _. apply HQ; [| |done..].
  - intros Hz. by rewrite (affected_zero _ _ Hz (rid s) s Hk Hl) in Hp.
  - exists now. etrans; [apply update_rows_single with (r := s)|reflexivity]; [done..|].
    intros k' r' Hk' Hr. clean. rewrite <-(HI k' r' Hk'). congruence.
Qed.

Lemma lease_shard_row d k s : Inv d -> task_shards d !! k = Some s ->
  task_shards d !! rid s = Some s.
Proof. intros HI Hk. destruct (inv_shard _ HI k s Hk) as [-> _]. done. Qed.

(** One iteration is enough: the row the query returned is still there. *)
Lemma wp_lease_loop b T B A n w :
  Inv (w_db w) ->
  wp b (lease_loop T B A (S n)) (fun r w' =>
    match r with
    | Ok x => lease_done T B A (w_db w) x (w_db w')
    | Err e => (b = true /\ errors_Is e ErrRecordNotFound = false) \/
               (lease_candidates T B (w_db w) = [] /\ e = ESentinel ErrRecordNotFound)
    end) w.
Proof.
  intros HI. cbn [lease_loop]. apply wp_bindR, wp_stmt; [|by left; split]. cbn [fst snd].
  rewrite set_db_same.
  destruct (lease_candidates T B (w_db w)) as [|[s t] rest] eqn:Hc; [by right|].
  destruct (candidate_spec T B (w_db w) s t ltac:(rewrite Hc; left))
    as ([k Hk] & Hl & Hst & Ht & HT & Hq & _).
  pose proof (lease_shard_row _ _ _ HI Hk) as Hks.
  destruct (inv_task _ HI _ t Ht) as (Hrt & Hlt & _).
  apply wp_bindR, wp_First; [|intros Hn|by left; split].
  2:{ exfalso. rewrite matching_nil in Hn. specialize (Hn _ t Ht Hlt).
      by rewrite !bool_decide_true in Hn. }
  intros t' Ht'. apply elem_matching in Ht' as ([k' Hk'] & _ & Hp). clean. cbn in Hk'.
  destruct (inv_task _ HI _ t' Hk') as (Hr' & _ & _).
  assert (t' = t) as -> by congruence. rewrite <-Hrt in Ht.
  apply wp_bindR, wp_promote; [done..| |by left; split].
  intros w1 _ [t1 Ht1] Hs1 Hn1 Hc1.
  assert (negb (ins (Status (promoted t)) shardQueryStatuses) = false) as ->.
  { apply negb_false_iff, ins_spec. pose proof (promoted_status t Hq) as Hin.
    statuses; rewrite Hin; by apply ins_spec. }
  apply wp_bindR. apply wp_take_lease; rewrite ?Hs1; [done..| | |by left; split].
  { intros j r Hj. by destruct (inv_shard _ HI j r Hj). }
  intros m w2 Hm [t2 Hs2] Ht2 Hn2 Hc2. rewrite (proj2 (Z.eqb_neq m 0) Hm). cbn.
  exists s, t, rest, t1, t2. rewrite Ht2, Ht1, Hs2, Hn2, Hc2, Hrt. by repeat split.
Qed.

(** Promoting a task keeps the life cycle. *)
Lemma promote_lawful d d1 k t now :
  Inv d -> tasks d !! k = Some t -> Status t ∈ shardQueryStatuses ->
  task_shards d1 = task_shards d ->
  tasks d1 = (if Status t =s TaskStatusWaitingForAgents
              then <[k := touch now (promoted t)]> (tasks d) else tasks d) ->
  Inv d1 /\ life d d1 /\
  exists t', tasks d1 !! k = Some t' /\ Status t' ∈ [TaskStatusQueued; TaskStatusRunning].
Proof.
  intros HI Ht Hq Hs1 Ht1. pose proof (promoted_status t Hq) as Hps.
  destruct (Status t =s TaskStatusWaitingForAgents) eqn:Hw.
  - clean. destruct (put_task d d1 k t (touch now (promoted t))) as [? ?]; try done.
    + by apply promoted_moves.
    + destruct (touch_task now (promoted t)) as [-> _].
      statuses; rewrite Hps; by apply ins_spec.
    + intros ks s0 Hk0 <-. destruct (inv_parent _ HI ks s0 Hk0) as (t0 & H0 & Hc0).
      rewrite H0 in Ht. simplify_eq. rewrite Hw in Hc0.
      destruct (touch_task now (promoted t)) as [-> _]. unfold promoted. by rewrite Hw.
    + rewrite Ht1, lookup_insert_eq. eauto.
  - rewrite Ht1. split; [by eapply same_tables_inv|]. split; [by apply same_tables_life|].
    exists t. split; [done|]. unfold promoted in Hps. by rewrite Hw in Hps.
Qed.

(** A lease keeps the life cycle. *)
Lemma lease_done_lawful T B A d x d' : Inv d -> lease_done T B A d x d' -> Inv d' /\ life d d'.
Proof.
  intros HI (s & t & rest & t1 & t2 & Hc & _ & Ht' & Hs' & _ & _).
  destruct (candidate_spec T B d s t ltac:(rewrite Hc; left))
    as ([k Hk] & Hl & Hst & Ht & HT & Hq & _).
  pose proof (lease_shard_row _ _ _ HI Hk) as Hks.
  destruct (promote_lawful d (set_tasks (tasks d') d) (sh_TaskID s) t t1)
    as (HI1 & HL1 & t' & Hk1 & Hst1); try done.
  destruct (put_shard (set_tasks (tasks d') d) d' (rid s) s (touch t2 (leased A s)))
    as [? HL2]; try done.
  - repeat split. cbn. rewrite Hst. apply rtc_once. constructor.
  - intros t0 H0. rewrite Hk1 in H0. simplify_eq. statuses; by rewrite Hst1.
  - split; [done|]. by etrans.
Qed.

Lemma framed_lease_loop T B A n : framed (lease_loop T B A n).
Proof. induction n as [|n IH]; cbn [lease_loop]; unfold take_candidate, promote_task; framed_all. Qed.
(** A lease gives the agent a shard of its own tenant. *)
Lemma lease_commits T B A w r w' :
  Inv (w_db w) -> registered (w_reg w) (A, T, B) -> lease_done T B A (w_db w) r (w_db w') ->
  commits w w'.
Proof.
  intros HI (a & Ha & HT & HB) Hl. destruct (lease_done_lawful _ _ _ _ _ _ HI Hl) as [HI' HL].
  destruct Hl as (s & t & rest & t1 & t2 & Hc & _ & _ & Hs' & Hn & _).
  destruct (candidate_spec T B (w_db w) s t ltac:(rewrite Hc; left))
    as (_ & _ & _ & Ht & HTt & _ & n & Hn1 & Hb).
  split; [done|]. split; [done|]. split; [intros j x; by rewrite Hn|].
  intros k s' A' Hk Hh. rewrite Hs' in Hk. apply lookup_insert_Some in Hk as [[_ <-]|[_ Hk]].
  - right. assert (A' = A) as ->.
    { change ((if A =s "" then None else Some A) = Some A') in Hh.
      destruct (A =s ""); congruence. }
    destruct HL as [Lt _]. destruct (Lt _ t Ht) as (t' & Ht' & _ & _ & HTt' & _).
    exists a, t', n. rewrite Hn, HTt', HTt. cbn in HT, HB.
    by rewrite HT, HB.
  - left. by exists s'.
Qed.

Lemma lawful_for_lease_tx T B A n :
  lawful_for (A, T, B) (transaction (lease_loop T B A (S n))).
Proof.
  intros g Hx. eapply guarded_mono; [|apply (accounted_tx_plain g _ (framed_lease_loop T B A (S n)))].
  - by intros g' r [? _].
  - intros w (HI & _ & Hs). eapply wp_mono; [|by apply wp_lease_loop].
    intros [r|e] w'; [|done]. apply lease_commits; [done|by apply Hs].
Qed.
#[local] Hint Resolve lawful_for_lease_tx : prog.
Lemma lawful_for_LeaseNextShard T B A : lawful_for (A, T, B) (LeaseNextShard T B A).
Proof. unfold maxRetries. lawful_for LeaseNextShard. Qed.

Lemma lawful_LoadValidatedShard s a t b : lawful (LoadValidatedShard s a t b).
Proof. lawful LoadValidatedShard. Qed.
#[local] Hint Resolve lawful_LoadValidatedShard : prog.
Lemma lawful_ValidateShardReport s a t b st what : lawful (ValidateShardReport s a t b st what).
Proof. lawful ValidateShardReport. Qed.
Lemma lawful_RollbackAssignedShard s task : lawful (RollbackAssignedShard s task).
Proof.
  lawful RollbackAssignedShard.
  apply lawful_tx_stmts, lawful_RollbackShardWithTask; [eauto with prog|repeat constructor].
Qed.
Lemma lawful_RollbackTimedOutShard s a t b : lawful (RollbackTimedOutShard s a t b).
Proof. lawful RollbackTimedOutShard. Qed.

Lemma lawful_rollback_all l n :
  Forall (fun s => sh_Status s ∈ [ShardStatusLeased; ShardStatusRunning]) l ->
  lawful (foldP l n rollback_one).
Proof.
  intros Hl. revert n. induction Hl as [|s l Hs _ IH]; intros n; [done|].
  apply lawful_bind; [|intros; apply IH]. unfold rollback_one.
  apply lawful_bind; [|lawful_all]. apply lawful_RollbackToQueued. by apply Forall_singleton.
Qed.
Lemma lawful_RollbackOrphanShardsForAgent a : lawful (RollbackOrphanShardsForAgent a).
Proof.
  apply lawful_bindR; [apply lawful_GetDB|]. intros _.
  eapply lawful_bind_to; [apply lawful_GetActiveTaskShardByAgent|].
  intros [l|e] Hl; [|done]. apply lawful_bind; [by apply lawful_rollback_all|]. lawful_all.
Qed.
Lemma lawful_CleanupOrphanShards threshold : lawful (CleanupOrphanShards threshold).
Proof. lawful CleanupOrphanShards. Qed.
#[local] Hint Resolve lawful_CleanupOrphanShards : prog.
Lemma lawful_cleanup_tick : lawful cleanup_tick.
Proof. lawful cleanup_tick. Qed.

(** The first candidate belongs to one of the oldest tasks, and has the first script
    name among the shards of the tasks of that age. *)
Lemma candidates_first T B d s t rest s' t' :
  lease_candidates T B d = (s, t) :: rest -> eligible T B d s' t' ->
  (CreatedAt (base t) < CreatedAt (base t'))%Z \/
  CreatedAt (base t) = CreatedAt (base t') /\ collate (ScriptName s) (ScriptName s') = true.
Proof.
  intros Hc He. apply candidate_eligible in He.
  refine (order_by_first (fun st : TaskShard * Task => CreatedAt (base st.2))
            (fun st => ScriptName st.1) _ rest (s, t) (s', t') Hc _).
  unfold lease_candidates in He. by rewrite order_by_perm in He.
Qed.

Lemma wp_LeaseNextShard b T B A w :
  Inv (w_db w) -> w_db_open w = true ->
  wp b (LeaseNextShard T B A) (fun r w' =>
    match r with
    | Ok x => lease_done T B A (w_db w) x (w_db w')
    | Err e => w_db w' = w_db w /\
               ((b = true /\ errors_Is e ErrRecordNotFound = false) \/
                (lease_candidates T B (w_db w) = [] /\ errors_Is e ErrRecordNotFound = true))
    end) w.
Proof.
  intros HI Ho. unfold LeaseNextShard. apply wp_bindR, wp_GetDB; [done|].
  apply wp_bindR, wp_transaction; [by intros; split; [|left]|].
  eapply wp_mono; [|by apply (wp_lease_loop b T B A 99)].
  intros [x|e] w'; cbn.
  - intros Hd. split; [done|]. intros Hb m. by split; [|left].
  - intros [[? ?]|[? ->]]; split; auto.
Qed.

(** ** Validation *)
Lemma filter_scan_key {R} `{Row R} (m : gmap uuid R) k r :
  sane m -> m !! k = Some r ->
  exists l, List.filter (fun x => bool_decide (rid x = k)) (scan m) = r :: l.
Proof.
  intros Hs Hk. destruct (List.filter _ _) as [|x l] eqn:Hf.
  - exfalso. assert (r ∈ scan m) as Hin by (apply elem_scan; eauto).
    apply list_elem_of_In in Hin. destruct (Hs k r Hk) as [Hr _].
    assert (In r (List.filter (fun x => bool_decide (rid x = k)) (scan m))) as Hin'.
    { apply filter_In. split; [done|]. by apply bool_decide_eq_true. }
    by rewrite Hf in Hin'.
  - exists l. assert (In x (List.filter (fun x => bool_decide (rid x = k)) (scan m))) as Hx
      by (rewrite Hf; by left).
    apply filter_In in Hx as [Hx Hb]. clean. apply list_elem_of_In, elem_scan in Hx as [j Hj].
    destruct (Hs j x Hj) as [? _]. by assert (x = r) as -> by congruence.
Qed.

(** Who may report on a shard: the agent it is assigned to (anyone of the
    tenant and backend once it is terminal). *)
Definition may_report (id : uuid) (a : string) (T : uuid) (B : string) d (s : TaskShard) : Prop :=
  task_shards d !! id = Some s /\
  (AssignedAgentID s = a \/ sh_Status s ∈ terminal_statuses) /\
  exists t n, tasks d !! sh_TaskID s = Some t /\ TenantID t = T /\
              tenants d !! T = Some n /\ PrimaryBackendName n = B.

(** The gRPC code of a refusal. *)
Definition refusal_code (id : uuid) d : code :=
  if bool_decide (id = uuid_Nil) then InvalidArgument
  else match task_shards d !! id with None => NotFound | Some _ => PermissionDenied end.

Lemma wp_LoadValidatedShard b id a T B Q w :
  Inv (w_db w) -> w_db_open w = true -> T <> uuid_Nil ->
  (forall s, may_report id a T B (w_db w) s -> id <> uuid_Nil -> Q (Ok s) w) ->
  (forall e, b = true \/ (status_Code e = refusal_code id (w_db w) /\
               (id = uuid_Nil \/ forall s, ~ may_report id a T B (w_db w) s)) -> Q (Err e) w) ->
  wp b (LoadValidatedShard id a T B) Q w.
Proof.
  intros HI Ho HT H1 H2. unfold LoadValidatedShard, TaskShardOrm.GetByID, GetShardTaskOwner.
  unfold refusal_code in H2.
  apply wp_bindR, wp_GetDB; [done|]. case_bool_decide as Hnil; [cbn; apply H2; auto|].
  apply wp_bindR, wp_bindR, wp_First_key; [by apply inv_sane_shards| | |].
  3:{ intros Hb m. apply H2. by left. }
  2:{ intros Hnone. cbn in Hnone. apply H2. right. rewrite Hnone. split; [done|]. right.
      intros s (Hs & _). congruence. }
  intros s Hs. cbn in Hs. cbn [wp]. rewrite Hs in H2.
  assert (forall e, status_Code e = PermissionDenied ->
            (may_report id a T B (w_db w) s -> False) -> Q (Err e) w) as Hdeny.
  { intros e He Hm. apply H2. right. split; [done|]. right. intros s' Hs'. apply Hm.
    replace s with s'; [done|]. destruct Hs' as [Hs' _]. congruence. }
  assert ((AssignedAgentID s <>s a) &&
          negb (ins (sh_Status s) [ShardStatusCancelled; ShardStatusFailed; ShardStatusSucceeded])
          = false <-> (AssignedAgentID s = a \/ sh_Status s ∈ terminal_statuses)) as Hass.
  { rewrite andb_false_iff, !negb_false_iff, eqs_spec, ins_spec.
    unfold terminal_statuses. rewrite !elem_of_cons. intuition. }
  destruct (_ && negb _) eqn:Hdec.
  { apply Hdeny; [done|]. intros (_ & Hm & _). by apply Hass in Hm. }
  destruct (compat_parent _ _ _ HI Hs) as (t & Ht & Hrt & _).
  apply wp_bindR, wp_bindR, wp_stmt; [|intros Hb m; apply H2; by left]. cbn [fst snd].
  rewrite set_db_same.
  destruct (filter_scan_key (tasks (w_db w)) (sh_TaskID s) t (inv_sane_tasks _ HI) Ht) as [l ->].
  cbn [wp].
  assert (forall t', tasks (w_db w) !! sh_TaskID s = Some t' -> t' = t) as Hu by congruence.
  destruct (tenants (w_db w) !! TenantID t) as [n|] eqn:Hn; cbn [own_TenantID own_PrimaryBackendName].
  2:{ rewrite bool_decide_false by done. cbn. apply Hdeny; [done|].
      intros (_ & _ & t' & n & Ht' & <- & Hn' & _). rewrite (Hu t' Ht') in Hn'. congruence. }
  case_bool_decide as HTt; cbn [negb].
  2:{ apply Hdeny; [done|]. intros (_ & _ & t' & n' & Ht' & ? & _).
      rewrite (Hu t' Ht') in *. congruence. }
  destruct (PrimaryBackendName n =s B) eqn:Hb; clean; cbn [negb].
  - cbn [wp]. apply H1; [|done]. split; [done|]. split; [by apply Hass|]. exists t, n.
    split; [done|]. split; [done|]. split; [congruence|done].
  - apply Hdeny; [done|]. intros (_ & _ & t' & n' & Ht' & <- & Hn' & HB).
    rewrite (Hu t' Ht') in Hn'. congruence.
Qed.

(** C15: Whose reports are accepted.  For an agent with a tenant and without external
    failures [LoadValidatedShard] returns the shard exactly when it exists, its
    task belongs to the agent's tenant and the tenant to the agent's backend, and
    it is assigned to the agent or already terminal: a terminal shard is returned to
    any agent of its tenant and backend.  Otherwise the code is
    InvalidArgument for the nil identifier, NotFound for an unknown shard and
    PermissionDenied for the rest.  Nothing is changed. *)
Theorem LoadValidatedShard_spec id a T B w o :
  Inv (w_db w) -> w_db_open w = true -> T <> uuid_Nil -> calm o ->
  let x := run (LoadValidatedShard id a T B) w o in
  final x = w /\
  match result x with
  | Ok s => may_report id a T B (w_db w) s
  | Err e => status_Code e = refusal_code id (w_db w) /\
             (id = uuid_Nil \/ forall s, ~ may_report id a T B (w_db w) s)
  end.
Proof.
  intros HI Ho HT Hc x.
  refine (wp_run_calm _ (fun r w' => w' = w /\ match r with
    | Ok s => may_report id a T B (w_db w) s
    | Err e => status_Code e = refusal_code id (w_db w) /\
               (id = uuid_Nil \/ forall s, ~ may_report id a T B (w_db w) s)
    end) w o Hc _).
  apply wp_LoadValidatedShard; [done..| |].
  - intros s Hs _. by split.
  - intros e [?|?]; [done|]. by split.
Qed.

(** ** Rolling back an agent's shards *)
Definition holds (a : string) (s : TaskShard) : Prop :=
  sh_assigned_agent_id s = Some a /\ (sh_Status s ∈ [ShardStatusLeased; ShardStatusRunning]).

(** The state apart from the shards and the clock. *)
Definition but_shards w w' : Prop :=
  outside_same w w' /\ set_task_shards ∅ (w_db w') = set_task_shards ∅ (w_db w).

Lemma but_shards_tables w w' : but_shards w w' ->
  tasks (w_db w') = tasks (w_db w) /\ tenants (w_db w') = tenants (w_db w).
Proof. by intros [_ [= -> -> _]]. Qed.

Lemma wp_rollback_all w0 l n w :
  sane (task_shards (w_db w)) -> but_shards w0 w -> NoDup (rid <$> l) ->
  (forall s, s ∈ l -> task_shards (w_db w) !! rid s = Some s /\ True) ->
  wp false (foldP l n rollback_one) (fun _ w' =>
    but_shards w0 w' /\
    forall k, ((forall s, s ∈ l -> rid s = k -> true = false) ->
                 task_shards (w_db w') !! k = task_shards (w_db w) !! k) /\
              (forall s, s ∈ l -> rid s = k -> true = true -> exists now,
                 task_shards (w_db w') !! k = Some (touch now (requeued s)))) w.
Proof.
  apply (wp_fold_requeue (fun _ => True) (fun _ => true) _ (but_shards w0)). clear w n. intros s n w _ Hs HT Hrow.
  unfold rollback_one, RollbackToQueued. apply wp_bind.
  apply wp_transitionStatus; [done| |intros e now Hno|done].
  - intros s' now Hs' _. assert (s' = s) as -> by congruence. cbn. split; [|by exists now].
    destruct HT as [Ho Hd]. split; [by etrans; [exact Ho|]|done].
  - exfalso. apply (Hno s Hrow). left.
Qed.

(** Every shard the agent holds is put back, and only those. *)
Definition released (a : string) d d' : Prop :=
  (forall k s, task_shards d !! k = Some s ->
     (holds a s -> exists now, task_shards d' !! k = Some (touch now (requeued s))) /\
     (~ holds a s -> task_shards d' !! k = Some s)) /\
  (forall k, task_shards d !! k = None -> task_shards d' !! k = None).

Lemma holds_dec a s : holds a s \/ ~ holds a s.
Proof. unfold holds. destruct (decide (sh_assigned_agent_id s = Some a)),
  (decide (sh_Status s ∈ [ShardStatusLeased; ShardStatusRunning])); tauto. Qed.

Lemma released_nothing_held a d d' k s :
  released a d d' -> task_shards d' !! k = Some s -> ~ holds a s.
Proof.
  intros [Hrow Hno] Hs. destruct (task_shards d !! k) as [s0|] eqn:Hk;
    [|by rewrite (Hno k Hk) in Hs].
  destruct (Hrow k s0 Hk) as [Hh Hn]. destruct (holds_dec a s0) as [H0|H0].
  - destruct (Hh H0) as [now Hs']. assert (s = touch now (requeued s0)) as -> by congruence.
    by intros [? _].
  - specialize (Hn H0). by assert (s = s0) as -> by congruence.
Qed.

Lemma wp_RollbackOrphanShardsForAgent a w :
  Inv (w_db w) -> w_db_open w = true ->
  wp false (RollbackOrphanShardsForAgent a) (fun r w' => is_ok r = true /\ but_shards w w' /\
    released a (w_db w) (w_db w')) w.
Proof.
  intros HI Ho. pose proof (inv_sane_shards _ HI) as Hsane.
  unfold RollbackOrphanShardsForAgent. apply wp_bindR, wp_GetDB; [done|].
  apply wp_bindR. unfold GetActiveTaskShardByAgent. apply wp_Find; [|done]. intros l Hl.
  assert (forall s, s ∈ l <-> (exists k, task_shards (w_db w) !! k = Some s) /\ holds a s) as Hin.
  { intros s. rewrite Hl, elem_matching. unfold holds. split.
    - intros (Hk & _ & Hp). clean. done.
    - intros ([k Hk] & Ha & Hq). split; [by exists k|]. split; [by apply (Hsane k)|].
      rewrite bool_decide_true by done. by apply ins_spec. }
  apply wp_bind. eapply wp_mono; [|apply wp_rollback_all; [done|done| |]].
  - intros n w' [Ht Hk]. cbn [wp]. split; [done|]. split; [done|]. split.
    2:{ intros k Hk0. destruct (Hk k) as [-> _]; [done|]. intros s Hs <-. exfalso.
        apply Hin in Hs as [[j Hj] _]. pose proof (lease_shard_row _ _ _ HI Hj). congruence. }
    intros k s Hs. destruct (Hsane k s Hs) as [Hr _]. destruct (Hk k) as [Hout Hreq]. split.
    + intros Hh. apply (Hreq s); [|done..]. apply Hin. eauto.
    + intros Hh. rewrite Hout; [done|]. intros s' Hs' Hr'.
      apply Hin in Hs' as [[k' Hk'] Hh']. destruct (Hsane k' s' Hk') as [? _].
      exfalso. apply Hh. replace s with s' by congruence. done.
  - rewrite Hl. apply matching_nodup. intros k r Hk. by apply (Hsane k).
  - intros s Hs. apply Hin in Hs as [[k Hk] _]. split; [by apply (lease_shard_row _ k)|done].
Qed.

(** C21: An agent that reports IDLE, or reconnects, holds nothing afterwards.
    Without external failures [RollbackOrphanShardsForAgent] puts every shard
    leased to or running on the agent back to QUEUED and unassigned.  No shard
    appears, every other shard is as it was, and so is everything but the shards: the
    other tables, the registry, the streams, the messages sent and the hooks. *)
Theorem RollbackOrphanShardsForAgent_complete a w o :
  Inv (w_db w) -> w_db_open w = true -> calm o ->
  let x := run (RollbackOrphanShardsForAgent a) w o in
  let d' := w_db (final x) in
  is_ok (result x) = true /\ but_shards w (final x) /\
  (forall k s, task_shards (w_db w) !! k = Some s ->
     (holds a s -> exists now, task_shards d' !! k = Some (touch now (requeued s))) /\
     (~ holds a s -> task_shards d' !! k = Some s)) /\
  (forall k, task_shards (w_db w) !! k = None -> task_shards d' !! k = None) /\
  forall k s, task_shards d' !! k = Some s -> ~ holds a s.
Proof.
  intros HI Ho Hc x d'.
  destruct (wp_run_calm _ _ w o Hc (wp_RollbackOrphanShardsForAgent a w HI Ho)) as (H1 & H2 & H3).
  pose proof H3 as [Hrow Hnone]. split_and!; try done. intros k s. by apply (released_nothing_held a (w_db w)).
Qed.

(** ** Orphans *)
(** A shard whose agent the registry does not know and that was started before
    the cut-off. *)
Definition orphan (m : gmap string Agent) (cutoff : Z) (s : TaskShard) : Prop :=
  (sh_Status s ∈ [ShardStatusLeased; ShardStatusRunning]) /\
  exists a started, sh_assigned_agent_id s = Some a /\ a <> "" /\ m !! a = None /\
                    sh_StartedAt s = Some started /\ (started < cutoff)%Z.
Definition stale (cutoff : Z) (s : TaskShard) : bool :=
  match sh_StartedAt s with Some started => (started <? cutoff)%Z | None => false end.

Lemma wp_cleanupOrphan cutoff T0 l n w :
  sane (task_shards (w_db w)) -> tasks (w_db w) = T0 -> sane T0 -> NoDup (rid <$> l) ->
  (forall s, s ∈ l -> task_shards (w_db w) !! rid s = Some s /\
     (sh_Status s ∈ [ShardStatusLeased; ShardStatusRunning]) /\ is_Some (T0 !! sh_TaskID s)) ->
  wp false (foldP l n (cleanupOrphan cutoff)) (fun _ w' => tasks (w_db w') = T0 /\
    forall k, ((forall s, s ∈ l -> rid s = k -> stale cutoff s = false) ->
                 task_shards (w_db w') !! k = task_shards (w_db w) !! k) /\
              (forall s, s ∈ l -> rid s = k -> stale cutoff s = true -> exists now,
                 task_shards (w_db w') !! k = Some (touch now (requeued s)))) w.
Proof.
  intros Hsn HT HsT Hnd Hl.
  apply (wp_fold_requeue (fun s => (sh_Status s ∈ [ShardStatusLeased; ShardStatusRunning]) /\
                                   is_Some (T0 !! sh_TaskID s)) _ _
           (fun w => tasks (w_db w) = T0)); [|done..].
  clear w n Hsn HT Hl. intros s n w [Hq [t Ht]] Hs HT Hrow. unfold cleanupOrphan, stale.
  destruct (sh_StartedAt s) as [started|]; [|by cbn]. destruct (started <? cutoff)%Z; [|by cbn].
  apply wp_bind, wp_First_key; [cbn; by rewrite HT| |
    intros Hn; cbn in Hn; rewrite HT in Hn; congruence|done].
  intros t' Ht'. cbn in Ht'. rewrite HT in Ht'. assert (t' = t) as -> by congruence.
  destruct (HsT _ t Ht) as [Hr _].
  apply wp_bind, wp_transaction; [done|].
  apply wp_RollbackShardWithTask; [done|by rewrite HT|right; by rewrite HT, Hr| |].
  - intros s' now w' Hs' _ Hd _. assert (s' = s) as -> by congruence.
    split; [|done]. cbn. rewrite Hd. split; [done|]. by exists now.
  - intros e w' [?|Hno] _; [done|]. by destruct (Hno s Hrow).
Qed.

(** The rows of [FindOrphanShards] for the agents of the registry. *)
Lemma elem_orphans (m : gmap string Agent) d s :
  sane (task_shards d) ->
  s ∈ matching (fun s => ins (sh_Status s) [ShardStatusLeased; ShardStatusRunning] &&
        match sh_assigned_agent_id s with
        | None => false
        | Some a => (a <>s "") && (if bool_decide ((map_to_list m).*1 = []) then true
                                   else negb (ins a (map_to_list m).*1))
        end) d <->
  (exists k, task_shards d !! k = Some s) /\
  (sh_Status s ∈ [ShardStatusLeased; ShardStatusRunning]) /\
  exists a, sh_assigned_agent_id s = Some a /\ a <> "" /\ m !! a = None.
Proof.
  intros Hsane.
  assert (forall a, (if bool_decide ((map_to_list m).*1 = []) then true
                     else negb (ins a (map_to_list m).*1)) = true <-> m !! a = None) as Hids.
  { intros a. rewrite eq_None_not_Some.
    assert (is_Some (m !! a) <-> a ∈ (map_to_list m).*1) as ->.
    { rewrite list_elem_of_fmap. split.
      - intros [x Hx]. exists (a, x). split; [done|]. by apply elem_of_map_to_list.
      - intros ([a' x] & -> & Hin). apply elem_of_map_to_list in Hin. by exists x. }
    case_bool_decide as Hnil; [|by rewrite negb_true_iff, ins_false].
    rewrite Hnil. split; [intros _; apply not_elem_of_nil|done]. }
  rewrite elem_matching. split.
  - intros (Hk & _ & Hp). clean. split; [done|]. split; [done|].
    destruct (sh_assigned_agent_id s) as [a|]; [|done]. clean. exists a. by rewrite <-Hids.
  - intros ([k Hk] & Hq & a & -> & Ha & Hn). split; [by exists k|]. split; [by apply (Hsane k)|].
    apply ins_spec in Hq. apply eqs_neq in Ha. apply Hids in Hn. by rewrite Hq, Ha, Hn.
Qed.

(** C22: The orphan sweep takes back exactly the stale shards of unknown agents.
    Without external failures [CleanupOrphanShards] requeues a LEASED or RUNNING
    shard precisely when its agent is not registered and it was started longer ago
    than the threshold, and leaves every other shard and every task unchanged.  A
    shard that was leased but never started is therefore never taken back. *)
Theorem CleanupOrphanShards_spec threshold w o :
  Inv (w_db w) -> w_db_open w = true -> calm o ->
  let x := run (CleanupOrphanShards threshold) w o in
  let d' := w_db (final x) in
  result x = Ok tt /\ tasks d' = tasks (w_db w) /\
  exists now, (w_clock w <= now)%Z /\
  forall k s, task_shards (w_db w) !! k = Some s ->
    (orphan (agents (w_reg w)) (now - threshold) s ->
       exists t, task_shards d' !! k = Some (touch t (requeued s))) /\
    (~ orphan (agents (w_reg w)) (now - threshold) s -> task_shards d' !! k = Some s).
Proof.
  intros HI Ho Hc x d'.
  refine (wp_run_calm _ (fun r w' => r = Ok tt /\ tasks (w_db w') = tasks (w_db w) /\
    exists now, (w_clock w <= now)%Z /\
    forall k s, task_shards (w_db w) !! k = Some s ->
      (orphan (agents (w_reg w)) (now - threshold) s ->
         exists t, task_shards (w_db w') !! k = Some (touch t (requeued s))) /\
      (~ orphan (agents (w_reg w)) (now - threshold) s -> task_shards (w_db w') !! k = Some s))
    w o Hc _).
  pose proof (inv_sane_shards _ HI) as Hsane.
  unfold CleanupOrphanShards, GetAllAgentIDs, TaskShardOrm.CleanupOrphanShards, FindOrphanShards.
  apply wp_bindR, wp_GetDB; [done|]. apply wp_bind. cbn [wp gets act fst snd].
  apply wp_bindR, wp_bindR, wp_Find; [|done]. intros l Hl.
  pose proof (fun s => elem_orphans (agents (w_reg w)) (w_db w) s Hsane) as Hin.
  setoid_rewrite <-Hl in Hin.
  apply wp_bind. cbn [wp now]. intros now Hnow. apply wp_bind.
  eapply wp_mono; [|apply (wp_cleanupOrphan _ (tasks (w_db w))); [done|done|by apply inv_sane_tasks| |]].
  - intros n w' [Ht Hk]. cbn [wp]. split; [done|]. split; [done|]. exists now. split; [done|].
    intros k s Hs. destruct (Hsane k s Hs) as [Hr _]. destruct (Hk k) as [Hout Hreq]. split.
    + intros (Hq & a & started & Ha & Hne & Hnone & Hst & Hlt). apply (Hreq s); [|done|].
      * apply Hin. eauto 10.
      * unfold stale. rewrite Hst. by apply Z.ltb_lt.
    + intros Hno. rewrite Hout; [done|]. intros s' Hs' Hr'. apply Hin in Hs' as ([k' Hk'] & Hq & a & Ha & Hne & Hnone).
      destruct (Hsane k' s' Hk') as [? _]. assert (s' = s) as -> by congruence.
      destruct (stale _ s) eqn:Hst; [|done]. exfalso. apply Hno. split; [done|].
      unfold stale in Hst. destruct (sh_StartedAt s) as [started|] eqn:Hsa; [|done].
      apply Z.ltb_lt in Hst. exists a, started. by repeat split.
  - rewrite Hl. apply matching_nodup. intros k r Hk. by apply (Hsane k).
  - intros s Hs. apply Hin in Hs as ([k Hk] & Hq & _). split; [by apply (lease_shard_row _ k)|].
    split; [done|]. destruct (inv_parent _ HI k s Hk) as (t & Ht & _). by exists t.
Qed.

(** C5: Whatever fails on the way, a lease either hands out one shard or leaves
    the database as it was.  The shard handed out was queued, of the agent's
    tenant and backend and of a task under way: of an oldest such task, and the first
    by script name (in the database's collation) among the shards of the tasks created
    at that instant.  Exactly that shard becomes LEASED to the agent, its task is promoted
    from WAITING_FOR_AGENTS to QUEUED, and no other row changes.  "Record not
    found" is only reported when there is no such shard. *)
Theorem LeaseNextShard_spec T B A w o :
  Inv (w_db w) -> w_db_open w = true ->
  let x := run (LeaseNextShard T B A) w o in
  let d := w_db w in let d' := w_db (final x) in
  match result x with
  | Ok (task, shard) =>
    exists s t t1 t2, eligible T B d s t /\
      (forall s' t', eligible T B d s' t' ->
         (CreatedAt (base t) < CreatedAt (base t'))%Z \/
         CreatedAt (base t) = CreatedAt (base t') /\ collate (ScriptName s) (ScriptName s') = true) /\
      shard = leased A s /\ task = promoted t /\
      task_shards d' = <[rid s := touch t2 (leased A s)]> (task_shards d) /\
      tasks d' = (if Status t =s TaskStatusWaitingForAgents
                  then <[sh_TaskID s := touch t1 (promoted t)]> (tasks d) else tasks d) /\
      tenants d' = tenants d /\ clusters d' = clusters d
  | Err e => d' = d /\
             (errors_Is e ErrRecordNotFound = true -> forall s t, ~ eligible T B d s t)
  end.
Proof.
  intros HI Ho x d d'. pose proof (wp_run _ _ w o (wp_LeaseNextShard true T B A w HI Ho)) as Hr.
  fold x in Hr. subst d d'. destruct (result x) as [[task shard]|e].
  - destruct Hr as (s & t & rest & t1 & t2 & Hc & [= -> ->] & Ht & Hs & Hn & Hcl).
    exists s, t, t1, t2. split; [apply candidate_spec; rewrite Hc; left|].
    split; [intros s' t'; by eapply candidates_first|]. by repeat split.
  - destruct Hr as [Hd Hcase]. split; [done|]. intros Hnf s t He.
    destruct Hcase as [[_ ?]|[Hc _]]; [congruence|].
    apply candidate_eligible in He. rewrite Hc in He.
    by apply not_elem_of_nil in He.
Qed.

(** Without external failures a lease always returns: a shard when one is
    eligible, "record not found" otherwise; the retry loop never gives up. *)
Theorem LeaseNextShard_progress T B A w o :
  Inv (w_db w) -> w_db_open w = true -> calm o ->
  match result (run (LeaseNextShard T B A) w o) with
  | Ok _ => exists s t, eligible T B (w_db w) s t
  | Err e => errors_Is e ErrRecordNotFound = true /\ forall s t, ~ eligible T B (w_db w) s t
  end.
Proof.
  intros HI Ho Hcalm.
  pose proof (wp_run_calm _ _ w o Hcalm (wp_LeaseNextShard false T B A w HI Ho)) as Hr.
  destruct (result _) as [x|e].
  - destruct Hr as (s & t & rest & _ & _ & Hc & _). exists s, t. apply candidate_spec.
    rewrite Hc. left.
  - destruct Hr as [_ [[? _]|[Hc Hnf]]]; [done|]. split; [done|]. intros s t He.
    apply candidate_eligible in He. rewrite Hc in He. by apply not_elem_of_nil in He.
Qed.

(** A shard is leased to one agent: a second lease, by any agent, right
    after a first one never returns the same shard. *)
Theorem lease_exclusive T B A T' B' A' w o r1 r2 :
  Inv (w_db w) -> w_db_open w = true ->
  let x := run (LeaseNextShard T B A) w o in
  result x = Ok r1 -> w_db_open (final x) = true ->
  result (run (LeaseNextShard T' B' A') (final x) x.2) = Ok r2 -> rid r1.2 <> rid r2.2.
Proof.
  intros HI Ho x H1 Ho' H2.
  pose proof (wp_run _ _ w o (wp_LeaseNextShard true T B A w HI Ho)) as Hr1. fold x in Hr1.
  rewrite H1 in Hr1. destruct (lease_done_lawful _ _ _ _ _ _ HI Hr1) as [HI1 _].
  pose proof (wp_run _ _ (final x) x.2 (wp_LeaseNextShard true T' B' A' (final x) HI1 Ho')) as Hr2.
  rewrite H2 in Hr2.
  destruct Hr1 as (s & t & rest & t1 & t2 & Hc1 & -> & _ & Hs1 & _).
  destruct Hr2 as (s' & t' & rest' & t1' & t2' & Hc2 & -> & _). cbn [snd].
  destruct (candidate_spec T' B' (w_db (final x)) s' t' ltac:(rewrite Hc2; left))
    as ([k Hk] & _ & Hst & _).
  change (rid s <> rid s'). intros Heq. pose proof (lease_shard_row _ _ _ HI1 Hk) as Hk'.
  rewrite <-Heq, Hs1, lookup_insert_eq in Hk'. injection Hk' as <-. done.
Qed.
End LeaseFacts.
#[export] Hint Resolve lawful_for_LeaseNextShard lawful_LoadValidatedShard
  lawful_ValidateShardReport lawful_RollbackAssignedShard lawful_RollbackTimedOutShard
  lawful_RollbackOrphanShardsForAgent lawful_CleanupOrphanShards lawful_cleanup_tick : prog.

(** The theorems on [demo]: the agent "idle" leases shard 13, then 18. *)
Lemma LeaseNextShard_spec_witness :
  let E := toy_env in
  let x := run (LeaseNextShard 1 "kubernetes" "idle") demo quiet in
  (exists task shard, result x = Ok (task, shard) /\ rid shard = 13%N) /\
  exists s t, eligible 1 "kubernetes" demo_db s t /\ rid s = 13%N.
Proof.
  cbn zeta. split; [by do 2 eexists; split; [vm_compute; reflexivity|]|].
  pose proof (LeaseNextShard_spec (E := toy_env) (L := toy_laws) 1 "kubernetes" "idle" demo quiet
                demo_inv eq_refl) as H.
  assert (exists task shard, result (run (@LeaseNextShard toy_env 1 "kubernetes" "idle") demo quiet)
            = Ok (task, shard) /\ rid shard = 13%N) as (task & shard & Hr & Hid)
    by (do 2 eexists; split; [vm_compute; reflexivity|reflexivity]).
  cbv zeta in H. rewrite Hr in H. destruct H as (s & t & t1 & t2 & He & _ & Hs & _).
  exists s, t. split; [exact He|]. by rewrite Hs in Hid.
Defined.

Lemma LeaseNextShard_progress_witness :
  let E := toy_env in calm quiet /\
  match result (run (LeaseNextShard 1 "kubernetes" "idle") demo quiet) with
  | Ok _ => exists s t, eligible 1 "kubernetes" demo_db s t
  | Err e => errors_Is e ErrRecordNotFound = true /\
             forall s t, ~ eligible 1 "kubernetes" demo_db s t
  end.
Proof.
  split; [constructor|].
  exact (LeaseNextShard_progress (E := toy_env) (L := toy_laws) 1 "kubernetes" "idle" demo quiet
           demo_inv eq_refl (Forall_nil_2 _)).
Defined.

Lemma lease_exclusive_witness :
  let E := toy_env in
  let x := run (LeaseNextShard 1 "kubernetes" "idle") demo quiet in
  exists r1 r2, result x = Ok r1 /\
    result (run (LeaseNextShard 1 "kubernetes" "busy") (final x) x.2) = Ok r2 /\
    rid r1.2 <> rid r2.2.
Proof.
  cbn zeta. do 2 eexists. split; [vm_compute; reflexivity|].
  split; [vm_compute; reflexivity|].
  eapply (lease_exclusive (E := toy_env) (L := toy_laws) 1 "kubernetes" "idle" 1 "kubernetes" "busy"
            demo quiet _ _ demo_inv eq_refl);
    vm_compute; reflexivity.
Defined.

Lemma LoadValidatedShard_spec_witness :
  let E := toy_env in
  let good := run (LoadValidatedShard 15 "busy" 1 "kubernetes") demo quiet in
  let bad := run (LoadValidatedShard 15 "idle" 1 "kubernetes") demo quiet in
  (exists s, result good = Ok s /\ may_report 15 "busy" 1 "kubernetes" demo_db s) /\
  exists e, result bad = Err e /\ status_Code e = PermissionDenied.
Proof.
  cbn zeta. split.
  - destruct (LoadValidatedShard_spec (E := toy_env) (L := toy_laws) 15 "busy" 1 "kubernetes" demo
                quiet demo_inv eq_refl ltac:(done) (Forall_nil_2 _)) as [_ H].
    destruct (result _) as [s|e] eqn:Hr; [|by vm_compute in Hr]. exists s. split; [done|exact H].
  - destruct (LoadValidatedShard_spec (E := toy_env) (L := toy_laws) 15 "idle" 1 "kubernetes" demo
                quiet demo_inv eq_refl ltac:(done) (Forall_nil_2 _)) as [_ H].
    destruct (result _) as [s|e] eqn:Hr; [by vm_compute in Hr|]. exists e.
    split; [done|]. destruct H as [H _]. rewrite H. vm_compute. reflexivity.
Defined.

Lemma RollbackOrphanShardsForAgent_complete_witness :
  let E := toy_env in
  let x := run (RollbackOrphanShardsForAgent "busy") demo quiet in
  exists s', task_shards (w_db (final x)) !! 15%N = Some s' /\ sh_Status s' = ShardStatusQueued.
Proof.
  cbn zeta.
  destruct (RollbackOrphanShardsForAgent_complete (E := toy_env) (L := toy_laws) "busy" demo quiet
              demo_inv eq_refl (Forall_nil_2 _)) as (_ & _ & H & _ & _).
  destruct (H 15%N (demo_shard 15 11 "a.sh" ShardStatusRunning (Some "busy") "" (Some 8%Z)) eq_refl)
    as [[now Hq] _]; [split; [reflexivity|by apply ins_spec]|].
  eexists. split; [exact Hq|reflexivity].
Defined.

Lemma CleanupOrphanShards_spec_witness :
  let E := toy_env in
  let w := set_reg (set_agents ∅ (w_reg demo)) demo in
  let x := run (CleanupOrphanShards (- 100)) w quiet in
  (exists s', task_shards (w_db (final x)) !! 15%N = Some s' /\ sh_Status s' = ShardStatusQueued) /\
  (exists s', task_shards (w_db (final x)) !! 14%N = Some s' /\ sh_Status s' = ShardStatusLeased).
Proof.
  cbn zeta. set (w := set_reg _ demo).
  destruct (CleanupOrphanShards_spec (E := toy_env) (L := toy_laws) (- 100) w quiet
              demo_inv eq_refl (Forall_nil_2 _)) as (_ & _ & now & Hnow & H).
  change (w_clock w) with 10%Z in Hnow. split.
  - destruct (H 15%N (demo_shard 15 11 "a.sh" ShardStatusRunning (Some "busy") "" (Some 8%Z)) eq_refl)
      as [[t Ht] _]; [|eexists; split; [exact Ht|reflexivity]].
    split; [by apply ins_spec|]. exists "busy", 8%Z. repeat split; [done|]. lia.
  - destruct (H 14%N (demo_shard 14 10 "b.sh" ShardStatusLeased (Some "idle") "" None) eq_refl)
      as [_ Hn]. eexists. split; [apply Hn|reflexivity].
    intros (_ & a & started & _ & _ & _ & Hst & _). done.
Defined.
