(* ===== verification/GoText.v ===== *)
(** * The parts of Go's strings, path and sort packages the server uses

    Strings are Go strings: sequences of bytes. *)
From Stdlib Require Import Ascii.
From S2P Require Import Prelude.

(** ** strings.ReplaceAll (non-empty [old]), by fuel on the remaining length *)
Fixpoint replace_fuel (fuel : nat) (old new s : string) : string :=
  match fuel with
  | O => s
  | S f =>
    match cut_prefix old s with
    | Some rest => new +:+ replace_fuel f old new rest
    | None =>
      match s with
      | EmptyString => EmptyString
      | String c s' => String c (replace_fuel f old new s')
      end
    end
  end.
Definition ReplaceAll (s old new : string) : string :=
  replace_fuel (S (String.length s)) old new s.

(** ** strings.TrimSpace: the Unicode White_Space characters, in UTF-8 *)
Definition bytes (l : list nat) : string :=
  fold_right (fun n s => String (ascii_of_nat n) s) EmptyString l.
Definition white_space : list string :=
  bytes <$> [[9]; [10]; [11]; [12]; [13]; [32]; [194; 133]; [194; 160]; [225; 154; 128];
    [226; 128; 128]; [226; 128; 129]; [226; 128; 130]; [226; 128; 131]; [226; 128; 132];
    [226; 128; 133]; [226; 128; 134]; [226; 128; 135]; [226; 128; 136]; [226; 128; 137];
    [226; 128; 138]; [226; 128; 168]; [226; 128; 169]; [226; 128; 175]; [226; 129; 159];
    [227; 128; 128]].

Fixpoint first_cut (ws : list string) (s : string) : option string :=
  match ws with
  | [] => None
  | x :: ws' => match cut_prefix x s with Some r => Some r | None => first_cut ws' s end
  end.
Fixpoint trim_fuel (fuel : nat) (ws : list string) (s : string) : string :=
  match fuel with
  | O => s
  | S f => match first_cut ws s with Some r => trim_fuel f ws r | None => s end
  end.
Definition trim_left (s : string) : string := trim_fuel (String.length s) white_space s.
Definition trim_right (s : string) : string :=
  String.rev (trim_fuel (String.length s) (String.rev <$> white_space) (String.rev s)).
Definition TrimSpace (s : string) : string := trim_right (trim_left s).

(** ** path.Split, path.Clean *)
Definition slash : ascii := "/"%char.

(** [path.Split]: after the last slash. *)
Fixpoint path_Split (p : string) : string * string :=
  match p with
  | EmptyString => ("", "")
  | String c p' =>
    let '(dir, file) := path_Split p' in
    if (dir =s "") && negb (Ascii.eqb c slash) then ("", String c file)
    else (String c dir, file)
  end.

Fixpoint split_slash (p : string) : list string :=
  match p with
  | EmptyString => [""]
  | String c p' =>
    if Ascii.eqb c slash then "" :: split_slash p'
    else match split_slash p' with
         | [] => [String c ""]
         | x :: l => String c x :: l
         end
  end.

(** The elements kept, innermost first. *)
Definition clean_step (rooted : bool) (kept : list string) (elem : string) : list string :=
  if (elem =s "") || (elem =s ".") then kept
  else if elem =s ".." then
    match kept with
    | x :: kept' => if x =s ".." then ".." :: kept else kept'
    | [] => if rooted then [] else [".."]
    end
  else elem :: kept.

Definition rooted_path (p : string) : bool :=
  match p with String c _ => Ascii.eqb c slash | EmptyString => false end.

Definition path_Clean (p : string) : string :=
  let rooted := rooted_path p in
  let kept := fold_left (clean_step rooted) (split_slash p) [] in
  match kept with
  | [] => if rooted then "/" else "."
  | _ => (if rooted then "/" else "") +:+ joins "/" (rev kept)
  end.

(** ** sort.Strings: bytewise order *)
Definition bytewise (a b : string) : Prop := String.leb a b = true.
#[export] Instance bytewise_dec : RelDecision bytewise.
Proof. intros a b. unfold bytewise. solve_decision. Defined.
Definition sort_Strings (l : list string) : list string := merge_sort bytewise l.

Example clean_examples :
  path_Clean "./install.sh" = "install.sh" /\ path_Clean "cmd/" = "cmd" /\
  path_Clean "a/../cmd//" = "cmd" /\ path_Clean "" = "." /\ path_Clean "/../x" = "/x" /\
  path_Split "cmd/run.sh" = ("cmd/", "run.sh") /\ path_Split "install.sh" = ("", "install.sh") /\
  TrimSpace "  x y  " = "x y" /\ ReplaceAll "a%2Fb%2Fc" "%2F" "/" = "a/b/c" /\
  sort_Strings ["b.sh"; "a.sh"; "B.sh"] = ["B.sh"; "a.sh"; "b.sh"].
Proof. vm_compute. repeat split. Qed.
