(* ===== verification/TaskApi.v ===== *)
(** * Submitting, cancelling and reading tasks
    (internal/service/task_service: submit_task.go, cancel_task.go, get_task.go,
    list_tasks.go) *)
From S2P Require Import Prelude Errors Model Env Proto World Effects Store StoreFacts.
From S2P Require Import Lifecycle Lawful Demo TaskOrm TaskShardOrm TenantOrm TaskHooks TaskStatus.
From S2P Require Import GoText.

Section TaskApi.
Context `{Env}.

Definition tenant_not_found (name : string) : error :=
  EWrap "" (ESentinel ErrTenantNotFound) (": " +:+ name).
Definition task_not_found (taskID : uuid) : error :=
  EWrap "" (ESentinel ErrTaskNotFound) (": " +:+ uuid_String taskID).

(** ** submit_task.go *)
Definition scan_entry (entry : string * bool) (acc : bool * list string) : bool * list string :=
  let '(name, isDir) := entry in
  let '(hasInstall, scripts) := acc in
  if isDir : bool then acc else
  let hasInstall' := if path_Clean name =s "install.sh" then true else hasInstall in
  let '(dir, file) := path_Split name in
  if (path_Clean dir =s "cmd") && has_suffix ".sh" file
  then (hasInstall', (scripts ++ [file])%list) else (hasInstall', scripts).

Definition scan_entries (entries : list (string * bool)) : bool * list string :=
  fold_left (fun acc e => scan_entry e acc) entries (false, []).

Definition extractScriptsFromZip (zipBytes : string) : res (list string) :=
  match zip_NewReader zipBytes with
  | Err e => Err (wrapf "invalid zip" e)
  | Ok entries =>
    let '(hasInstall, scripts) := scan_entries entries in
    if negb hasInstall then Err (ENew "bundle must contain install.sh at root")
    else if bool_decide (scripts = [])
    then Err (ENew "bundle must contain at least one .sh script in cmd/ directory")
    else Ok (sort_Strings scripts)
  end.

Record SubmitTaskParams := mkSubmit {
  sp_TenantName : string;
  sp_ZipBytes : string;
  sp_CompletionHookURL : string;
}.

(** The validated completion hook URL. *)
Definition check_hook (raw : string) : res string :=
  let hook := TrimSpace raw in
  if hook <>s "" then
    match url_Parse hook with
    | Err e => Err (wrapf "invalid completion hook url" e)
    | Ok parsed =>
      if (u_Scheme parsed =s "") || (u_Host parsed =s "")
      then Err (ENew "invalid completion hook url: must be an absolute http(s) url")
      else if (u_Scheme parsed <>s "http") && (u_Scheme parsed <>s "https")
      then Err (ENew ("invalid completion hook url: unsupported scheme "
                      +:+ quoted (u_Scheme parsed)))
      else Ok (url_String parsed)
    end
  else Ok "".

Definition bundle_key (taskID : uuid) : string :=
  "r-orchestrator/tasks/" +:+ uuid_String taskID +:+ "/bundle.zip".

Definition UploadBytes (key content : string) : prog (res unit) :=
  call (fun w => (Ok tt, set_oss (<[key := content]> (w_oss w)) w)).

Definition new_task (taskID tenantID : uuid) (hook : string) (shardCount : Z) : Task :=
  mkTask (mkBase taskID 0 0 None) tenantID TaskStatusPending hook shardCount
         None None None "" "".
Definition new_shard (taskID : uuid) (script : string) : TaskShard :=
  mkShard (mkBase uuid_Nil 0 0 None) taskID script ShardStatusQueued (Some "") "" ""
          None None "".

Definition submit_body (task : Task) (scripts : list string) : prog (res unit) :=
  _ <-? TaskOrm.Create task ;;
  forR scripts (fun script => TaskShardOrm.Create (new_shard (rid task) script)).

Definition SubmitTask (params : SubmitTaskParams) : prog (res uuid) :=
  _ <-? GetDB ;;
  hook <-? Ret (check_hook (sp_CompletionHookURL params)) ;;
  tenant <-? TenantOrm.GetByName (sp_TenantName params)
      # (fun _ => tenant_not_found (sp_TenantName params)) ;;
  scripts <-? Ret (extractScriptsFromZip (sp_ZipBytes params)) ;;
  taskID <-? NewV7 # wrapf "generate task id" ;;
  _ <-? call (fun w => (Ok tt, w)) # wrapf "init oss" ;;
  _ <-? UploadBytes (bundle_key taskID) (sp_ZipBytes params) # wrapf "upload bundle to oss" ;;
  let task := new_task taskID (rid tenant) hook (Z.of_nat (length scripts)) in
  _ <-? transaction (submit_body task scripts) ;;
  Ret (Ok taskID).

(** ** get_task.go, list_tasks.go *)
Definition GetTask (tenantName : string) (taskID : uuid) : prog (res (Task * list TaskShard)) :=
  _ <-? GetDB ;;
  tenant <-? TenantOrm.GetByName tenantName # (fun _ => tenant_not_found tenantName) ;;
  task <-? TaskOrm.GetByID taskID
      # (fun e => if errors_Is e ErrRecordNotFound then task_not_found taskID else e) ;;
  if negb (bool_decide (TenantID (fst task) = rid tenant))
  then Ret (Err (task_not_found taskID))
  else Ret (Ok task).

Definition ListTasks (tenantName status : string) : prog (res (list (Task * list TaskShard))) :=
  _ <-? GetDB ;;
  tenant <-? TenantOrm.GetByName tenantName # (fun _ => tenant_not_found tenantName) ;;
  ListTasksByTenant (rid tenant) status.

(** ** cancel_task.go *)
Definition cancel_body (tenantID taskID : uuid) : prog (res unit) :=
  _ <-? CancelTaskById tenantID taskID ;;
  CancelTaskShardsByTaskId taskID.

Definition with_finished_at (t : option Z) (p : CompletionHookPayload) : CompletionHookPayload :=
  mkPayload (pl_TaskID p) (pl_TenantID p) (pl_Status p) (pl_LastError p) t
            (pl_ResultAvailable p) (pl_CompletionHookURL p).

Definition cancel_hook (task : Task) (taskID : uuid) : prog unit :=
  match newCompletionHookPayload task TaskStatusCancelled "" (FinishedAt task) false with
  | None => Ret tt
  | Some payload =>
    refreshed <- TaskOrm.GetByID taskID ;;
    dispatchCompletionHookAsync
      (match refreshed with
       | Err _ => payload
       | Ok (t, _) => with_finished_at (FinishedAt t) payload
       end)
  end.

(** [notify] is the injected control-plane callback
    ([control.Server.NotifyCancelShard]). *)
Section CancelTask.
Context (notify : string -> uuid -> prog (res unit)).

Definition notify_all (runningShards : list TaskShard) : prog unit :=
  set <- gets w_notify ;;
  if set : bool
  then foldP runningShards tt (fun s _ => _ <- notify (AssignedAgentID s) (rid s) ;; Ret tt)
  else Ret tt.

Definition CancelTask (tenantName : string) (taskID : uuid) : prog (res unit) :=
  _ <-? GetDB ;;
  tenant <-? TenantOrm.GetByName tenantName # (fun _ => tenant_not_found tenantName) ;;
  task <-? TaskOrm.GetByID taskID ;;
  runningShards <-? Find (fun s =>
      bool_decide (sh_TaskID s = taskID) &&
      ins (sh_Status s) [ShardStatusLeased; ShardStatusRunning] &&
      negb (bool_decide (sh_assigned_agent_id s = None))) [] ;;
  _ <-? transaction (cancel_body (rid tenant) taskID) ;;
  cancel_hook (fst task) taskID ;;
  notify_all runningShards ;;
  Ret (Ok tt).
End CancelTask.
End TaskApi.

(** ** Submission *)
Section SubmitFacts.
Context `{E : Env, L : !EnvLaws E}.
Implicit Types (d : DB) (w : World).

(** The row [SubmitTask] creates for a script. *)
Definition queued_row (taskID : uuid) (script : string) (s : TaskShard) : Prop :=
  sh_TaskID s = taskID /\ ScriptName s = script /\ sh_Status s = ShardStatusQueued /\
  AssignedAgentID s = "" /\ sh_StartedAt s = None /\ sh_FinishedAt s = None.

(** One queued shard per script was added, in order, and nothing else. *)
Definition shards_added (taskID : uuid) (scripts : list string) d d' : Prop :=
  tasks d' = tasks d /\ tenants d' = tenants d /\ clusters d' = clusters d /\
  (forall k s, task_shards d !! k = Some s -> task_shards d' !! k = Some s) /\
  (forall k s, task_shards d' !! k = Some s ->
     task_shards d !! k = Some s \/ exists script, queued_row taskID script s) /\
  exists rows, shards_of taskID d' ≡ₚ (rows ++ shards_of taskID d)%list /\
               Forall2 (queued_row taskID) scripts rows.

Lemma shards_added_nil taskID d : shards_added taskID [] d d.
Proof. repeat split; [done|by left|]. by exists []. Qed.

Lemma shards_added_cons taskID script scripts d d1 d' k s :
  task_shards d !! k = None -> live s = true -> queued_row taskID script s ->
  d1 = set_task_shards (<[k := s]> (task_shards d)) d ->
  shards_added taskID scripts d1 d' -> shards_added taskID (script :: scripts) d d'.
Proof.
  intros Hk Hl Hq -> (Ht & Hn & Hc & Hm & Ho & rows & Hp & Hf). repeat split; [done..| | |].
  - intros j x Hj. apply Hm. cbn. rewrite lookup_insert_ne; [done|congruence].
  - intros j x Hj. apply Ho in Hj as [Hj|?]; [|by right]. cbn in Hj.
    apply lookup_insert_Some in Hj as [[_ <-]|[_ Hj]]; [right; by exists script|by left].
  - exists (s :: rows). split; [|by constructor]. rewrite Hp. unfold shards_of.
    rewrite (matching_insert _ d _ k s) by done.
    rewrite bool_decide_true by by destruct Hq. by rewrite <-Permutation_middle.
Qed.

Lemma new_shard_row id k now taskID script :
  k = id -> let s := stamped k now (new_shard taskID script) in
  rid s = id /\ live s = true /\ queued_row taskID script s.
Proof. intros ->. by repeat split. Qed.

Lemma wp_create_shards b taskID t scripts w :
  Inv (w_db w) -> tasks (w_db w) !! taskID = Some t -> Status t = TaskStatusPending ->
  wp b (forR scripts (fun script => TaskShardOrm.Create (new_shard taskID script))) (fun r w' =>
    match r with
    | Ok _ => shards_added taskID scripts (w_db w) (w_db w') /\
              Inv (w_db w') /\ life (w_db w) (w_db w')
    | Err _ => b = true \/ ~ fresh_from (w_uuids w) (task_shards (w_db w))
    end) w.
Proof.
  revert w. induction scripts as [|script scripts IH]; intros w HI Ht Hst.
  { cbn. split; [apply shards_added_nil|]. by split. }
  cbn [forR]. apply wp_bindR. unfold TaskShardOrm.Create.
  apply wp_bindR, wp_Create_fresh; [apply _|done| | |by left].
  - intros now _ Hnone _. cbn [wp]. set (id := uuid_NewV7 (w_uuids w)) in *.
    set (s := stamped id now (new_shard taskID script)).
    set (w1 := put id s now (set_uuids (S (w_uuids w)) w)).
    destruct (new_shard_row id id now taskID script eq_refl) as (Hrs & Hls & Hqs). fold s in Hrs, Hls, Hqs.
    destruct (add_shard (w_db w) (w_db w1) id s t) as [HI1 HL1]; try done.
    { destruct Hqs as (_ & _ & -> & _). by rewrite Hst. }
    eapply wp_mono; [|by apply IH]. intros [x|e] w'.
    + intros (Ha & HI' & HL'). split; [by eapply (shards_added_cons _ _ _ _ (w_db w1) _ id s)|].
      split; [done|by etrans].
    + intros [?|Hnf]; [by left|right]. intros Hf. apply Hnf. intros j Hj. cbn.
      rewrite lookup_insert_ne; [apply Hf; cbn in Hj; lia|].
      intros Hinj. apply uuid_NewV7_inj in Hinj. cbn in Hj. lia.
  - intros now [[x Hx]|Hd].
    + right. intros Hf. cbn in Hx. rewrite (Hf (w_uuids w)) in Hx; [done|lia].
    + apply existsb_exists in Hd as (? & _ & ?). done.
Qed.

(** What a submission leaves: the task, PENDING, and its shards. *)
Definition submitted (id : uuid) (task : Task) (scripts : list string) d d' : Prop :=
  tasks d !! id = None /\
  exists now, shards_added id scripts
                (set_tasks (<[id := stamped id now task]> (tasks d)) d) d'.

Lemma wp_submit_body b task scripts w :
  Inv (w_db w) -> rid task <> uuid_Nil -> live task = true -> Status task = TaskStatusPending ->
  wp b (submit_body task scripts) (fun r w' =>
    match r with
    | Ok _ => submitted (rid task) task scripts (w_db w) (w_db w') /\
              Inv (w_db w') /\ life (w_db w) (w_db w')
    | Err _ => b = true \/ tasks (w_db w) !! rid task <> None \/
               ~ fresh_from (w_uuids w) (task_shards (w_db w))
    end) w.
Proof.
  intros HI Hn Hl Hst. unfold submit_body. apply wp_bindR. unfold TaskOrm.Create.
  apply wp_bindR, wp_Create_given; [apply _|done| | |by left].
  - intros now _ Hnone _. cbn [wp]. set (t := stamped (rid task) now task).
    set (w1 := put (rid task) t now w).
    destruct (add_task (w_db w) (w_db w1) (rid task) t) as [HI1 HL1]; try done.
    { change (Status t) with (Status task). rewrite Hst. by apply ins_spec. }
    eapply wp_mono; [|apply (wp_create_shards b (rid task) t)]; [|done| |done].
    + intros [x|e] w'; [|intros [?|?]; [by left|by right; right]].
      intros (Ha & HI' & HL'). split; [split; [done|by exists now]|]. split; [done|by etrans].
    + apply lookup_insert_eq.
  - intros now [[x Hx]|Hd].
    + right. left. cbn in Hx. by rewrite Hx.
    + apply existsb_exists in Hd as (? & _ & ?). done.
Qed.

(** A submission assigns nothing. *)
Lemma submitted_releases id task scripts d d' :
  life d d' -> submitted id task scripts d d' -> releases d d'.
Proof.
  intros HL (_ & now & _ & Hn & _ & _ & Ho & _). split; [done|intros k n; by rewrite Hn|].
  intros k s A Hk Hh. apply Ho in Hk as [Hk|(script & _ & _ & _ & Ha & _)]; [by exists s|].
  unfold holder, AssignedAgentID in *. destruct (sh_assigned_agent_id s); [|done]. cbn in Ha. by subst.
Qed.

Lemma framed_submit_body task scripts : framed (submit_body task scripts).
Proof. unfold submit_body, TaskOrm.Create, TaskShardOrm.Create. framed_all. Qed.
Lemma lawful_submit_tx task scripts :
  rid task <> uuid_Nil -> live task = true -> Status task = TaskStatusPending ->
  lawful (transaction (submit_body task scripts)).
Proof.
  intros Hn Hl Hst. apply lawful_tx; [apply framed_submit_body|]. intros w Hw.
  eapply wp_mono; [|by apply wp_submit_body]. intros [x|e] w'; [|done]. intros (Hs & ? & ?).
  apply releases_commits; [done|by eapply submitted_releases].
Qed.

Lemma lawful_NewV7 :
  lawful_to NewV7 (fun r => match r with Ok id => id <> uuid_Nil | Err _ => True end).
Proof.
  intros g [m|]; [done|]. apply lawful_act_to; try done. intros w. apply uuid_NewV7_nonnil.
Qed.

Lemma lawful_SubmitTask params : lawful (SubmitTask params).
Proof.
  unfold SubmitTask. do 4 (apply lawful_bindR; [solve [eauto with prog]|intros ?]).
  eapply lawful_bind_to; [apply lawful_NewV7|]. intros [id|e] Hid; [|done].
  unfold UploadBytes. lawful_all. by apply lawful_submit_tx.
Qed.

(** ** Cancellation *)
Definition cancelled_task (at_ : Z) (t : Task) : Task :=
  assign_task [SetTaskStatus TaskStatusCancelled; SetTaskFinishedAt (Some at_);
               SetTaskLastError ""] t.
Definition cancels (taskID : uuid) (s : TaskShard) : bool :=
  bool_decide (sh_TaskID s = taskID) && negb (ins (sh_Status s) terminal_statuses).
Definition cancelled_shard (at_ : Z) (s : TaskShard) : TaskShard :=
  assign_shard [SetShardStatus ShardStatusCancelled; SetShardFinishedAt (Some at_);
                SetAssignedAgentID None; SetShardStartedAt None; SetShardLastError ""] s.
#[local] Arguments cancelled_task : simpl never.
#[local] Arguments cancelled_shard : simpl never.

(** The task and every shard of it that is not terminal are cancelled; no other
    row changes. *)
Definition cancelled (T id : uuid) d d' : Prop :=
  exists t a1 n1 a2 n2,
    tasks d !! id = Some t /\ TenantID t = T /\ (Status t ∉ terminal_statuses) /\
    tasks d' = <[id := touch n1 (cancelled_task a1 t)]> (tasks d) /\
    task_shards d' = update_rows (cancels id) (fun s => touch n2 (cancelled_shard a2 s))
                       (task_shards d) /\
    tenants d' = tenants d /\ clusters d' = clusters d.

(** A cancellation is refused when the tenant has no such task or it is
    terminal. *)
Definition uncancellable (T id : uuid) d : Prop :=
  forall t, tasks d !! id = Some t -> TenantID t <> T \/ Status t ∈ terminal_statuses.

Lemma wp_cancel_body b T id w :
  Inv (w_db w) ->
  wp b (cancel_body T id) (fun r w' =>
    match r with
    | Ok _ => cancelled T id (w_db w) (w_db w')
    | Err _ => b = true \/ uncancellable T id (w_db w)
    end) w.
Proof.
  intros HI. unfold cancel_body, CancelTaskById. apply wp_bindR, wp_bind. cbn [wp now].
  intros a1 _. apply wp_bindR, wp_Updates_at with id; cbn [w_db set_clock].
  - by apply inv_sane_tasks.
  - intros t Ht. by clean.
  - intros t n n1 Ht Hp Hn _. clean. rewrite (proj2 (Z.eqb_neq n 0) Hn). cbn [wp].
    unfold CancelTaskShardsByTaskId. apply wp_bind. cbn [wp now]. intros a2 _.
    apply wp_bindR, wp_Updates; [|by left]. intros n2 _. cbn [wp].
    exists t, a1, n1, a2, n2. by repeat split.
  - intros n1 Hn _. rewrite Z.eqb_refl.
    assert (uncancellable T id (w_db w)) as Hu.
    { intros t Ht. specialize (Hn t Ht). destruct (inv_task _ HI id t Ht) as (Hid & _ & _).
      rewrite (bool_decide_true (rid t = id)), andb_true_r in Hn by done.
      apply andb_false_iff in Hn as [Hn|Hn]; clean; auto. }
    apply wp_bindR, wp_First; by right.
  - by left.
Qed.

Lemma cancelled_lawful T id d d' : Inv d -> cancelled T id d d' -> Inv d' /\ life d d'.
Proof.
  intros HI (t & a1 & n1 & a2 & n2 & Ht & _ & Hnt & Ht' & Hs' & _ & _).
  pose (ft := fun x : Task => if decide (rid x = id) then touch n1 (cancelled_task a1 x) else x).
  pose (fs := fun s : TaskShard => if live s && cancels id s
                                   then touch n2 (cancelled_shard a2 s) else s).
  assert (remap ft fs d d') as Hm.
  { split; [|exact Hs']. rewrite Ht'. apply map_eq. intros k. rewrite lookup_fmap.
    destruct (decide (k = id)) as [->|Hne].
    - rewrite lookup_insert_eq, Ht. cbn. unfold ft. destruct (inv_task _ HI id t Ht).
      by rewrite decide_True.
    - rewrite lookup_insert_ne by done. destruct (tasks d !! k) as [x|] eqn:Hk; [|done].
      cbn. unfold ft. destruct (inv_task _ HI k x Hk). by rewrite decide_False by congruence. }
  assert (good ft fs d) as Hg; [|split; [by eapply remap_inv|by eapply remap_life]].
  split.
  - intros k x Hk. destruct (inv_task _ HI k x Hk) as (Hx & _ & Hst). unfold ft.
    destruct (decide _) as [He|]; [|by split]. assert (x = t) as -> by congruence. split.
    + repeat split. change (rtc task_step (Status t) TaskStatusCancelled). apply rtc_once.
      constructor. by apply nonterminal_task.
    + by apply ins_spec.
  - intros k s Hk. unfold fs. destruct (live s && cancels id s) eqn:Hc; [|done].
    unfold cancels in Hc. clean. repeat split.
    change (rtc shard_step (sh_Status s) ShardStatusCancelled). apply rtc_once. constructor.
    destruct (compat_parent _ _ _ HI Hk) as (x & _ & _ & _ & Hst & Hcp).
    by eapply nonterminal_shard.
  - intros k s x Hk Hx Hcp. destruct (inv_task _ HI _ x Hx) as (Hxid & _ & Hst).
    destruct (inv_shard _ HI k s Hk) as [_ Hl]. unfold ft, fs, cancels. rewrite Hl.
    destruct (decide _) as [He|Hne]; cbn [andb].
    + rewrite bool_decide_true by congruence. cbn [andb].
      destruct (ins (sh_Status s) terminal_statuses) eqn:Hi; [|done]. clean. cbn [negb].
      change (compat TaskStatusCancelled (sh_Status s) = true). unfold compat, terminal_statuses in *.
      statuses; by rewrite Hi.
    + by rewrite bool_decide_false by congruence.
Qed.

Lemma framed_cancel_body T id : framed (cancel_body T id).
Proof. unfold cancel_body, CancelTaskById, CancelTaskShardsByTaskId. framed_all. Qed.

(** Cancellations assign nothing. *)
Lemma cancelled_releases T id d d' : life d d' -> cancelled T id d d' -> releases d d'.
Proof.
  intros HL (t & a1 & n1 & a2 & n2 & _ & _ & _ & _ & Hs & Hn & _).
  eapply releases_fmap; [done..|]. intros s A. by destruct (live s && cancels id s).
Qed.

(** A cancelled task is finished, whichever version of the row was read before. *)
Definition cancel_of (t0 : Task) (new : list Task) : Prop :=
  exists t, new = [t] /\ Status t = TaskStatusCancelled /\ rid t = rid t0 /\
            TenantID t = TenantID t0 /\ CompletionHookURL t = CompletionHookURL t0.
Lemma cancelled_finishes T t0 d d' :
  Inv d -> seen d t0 -> cancelled T (rid t0) d d' ->
  exists new, cancel_of t0 new /\ finishes d d' new.
Proof.
  intros HI (x & Hx & Hm) (t & a1 & n1 & a2 & n2 & Ht & _ & Hnt & Ht' & _).
  assert (x = t) as -> by congruence. destruct Hm as (Hid & _ & HT & _ & HU & _).
  set (t' := touch n1 (cancelled_task a1 t)) in *.
  assert (Status t' = TaskStatusCancelled /\ rid t' = rid t) as [Hst Hr] by done.
  exists [t']. split; [exists t'; split_and!; [done..| | |]; by rewrite <-1?HT, <-1?HU|].
  split; [apply NoDup_singleton|]. intros ? ->%list_elem_of_singleton.
  rewrite Hr, Hid, Hst, Ht', lookup_insert_eq. split; [done|]. split; [by apply ins_spec|eauto].
Qed.

Lemma accounted_cancel_tx T t0 g :
  t0 ∈ known g ->
  accounted g (transaction (cancel_body T (rid t0))) (fun g' r =>
    match r with
    | Ok v => exists new, cancel_of t0 new /\ g' = grant new g
    | Err _ => g' = g
    end).
Proof.
  intros Hk. apply (accounted_tx g _ (fun _ => cancel_of t0) (framed_cancel_body T _)).
  intros w [HI Hs]. eapply wp_mono; [|by apply wp_cancel_body].
  intros [x|e] w'; [|done]. intros Hc. split.
  { destruct (cancelled_lawful _ _ _ _ HI Hc) as [HI' HL].
    apply releases_commits; [done|by eapply cancelled_releases]. }
  by eapply cancelled_finishes; [|apply Hs|].
Qed.

Lemma accounted_cancel_hook t0 new g g0 :
  cancel_of t0 new -> extends (grant new g0) g ->
  accounted g (cancel_hook t0 (rid t0)) (fun g' _ => extends g0 g').
Proof.
  intros (t & -> & Hst & Hid & HT & HU) Hg. unfold cancel_hook.
  destruct (newCompletionHookPayload _ _ _ _ _) as [p|] eqn:Hp.
  2:{ cbn. etrans; [|exact Hg]. apply grant_extends. }
  assert (announces p t) as Ha by by eapply newCompletionHookPayload_announces.
  eapply accounted_bind; [apply lawful_TaskOrm_GetByID|exact Hg|]. intros g1 r Hg1.
  eapply accounted_dispatch; [|exact Hg1]. by destruct r as [[] |].
Qed.

Lemma lawful_CancelTask notify tenantName id :
  (forall a s, lawful (notify a s)) -> lawful (CancelTask notify tenantName id).
Proof.
  intros Hn. unfold CancelTask. do 2 (apply lawful_bindR; [eauto with prog|intros ?]).
  eapply lawful_bind_acct; [intros g; apply accounted_GetByID|].
  intros g g1 [[t0 shards]|e] [Hg Ht]; [|done]. destruct Ht as [Ht <-].
  pose proof (extends_learn _ _ _ Ht Hg) as Hg1.
  eapply accounted_bind; [apply lawful_Find|exact Hg1|]. intros g2 [l|e] Hg2.
  2:{ cbn. etrans; [apply learn_extends|exact Hg2]. }
  assert (t0 ∈ known g2) as Ht2 by (apply Hg2; left).
  assert (extends g g2) as Hg02 by (etrans; [apply learn_extends|exact Hg2]).
  eapply guarded_bind; [by apply accounted_cancel_tx|]. intros g3 [[]|e]; [|by intros ->].
  intros (new & Hnew & ->). eapply guarded_bind.
  - by apply (accounted_cancel_hook t0 new _ g2 Hnew).
  - intros g4 b Hg4. apply accounted_lawful; [|by etrans]. unfold notify_all. lawful_all.
Qed.
Lemma lawful_GetTask tenantName id : lawful (GetTask tenantName id).
Proof. lawful GetTask. Qed.
Lemma lawful_ListTasks tenantName status : lawful (ListTasks tenantName status).
Proof. lawful ListTasks. Qed.

(** ** Bundles *)
(** The entries that count: install.sh at the root, and the .sh files directly
    in cmd/. *)
Definition is_install (e : string * bool) : bool := negb e.2 && (path_Clean e.1 =s "install.sh").
Definition script_of (e : string * bool) : option string :=
  if negb e.2 && (path_Clean (path_Split e.1).1 =s "cmd") && has_suffix ".sh" (path_Split e.1).2
  then Some (path_Split e.1).2 else None.

Lemma scan_entries_from l i ss :
  fold_left (fun acc e => scan_entry e acc) l (i, ss) =
  (i || existsb is_install l, (ss ++ omap script_of l)%list).
Proof.
  revert i ss. induction l as [|[name dir] l IH]; intros i ss; cbn.
  { by rewrite orb_false_r, app_nil_r. }
  unfold is_install, script_of. cbn.
  destruct dir; cbn; [apply IH|].
  destruct (path_Split name) as [d f]; cbn.
  destruct (path_Clean name =s "install.sh"), i, (_ && _); rewrite IH; cbn;
    rewrite <-1?app_assoc; done.
Qed.

Lemma sort_Strings_sorted l : Sorted bytewise (sort_Strings l).
Proof. apply Sorted_merge_sort. intros a b. apply String.leb_total. Qed.

(** C28: A bundle is accepted exactly when it is a zip archive with an install.sh
    at its root and at least one .sh file directly in cmd/; the scripts are then
    those files' names, each as often as it occurs, in bytewise order. *)
Theorem extractScriptsFromZip_spec zipBytes :
  match zip_NewReader zipBytes with
  | Err _ => is_err (extractScriptsFromZip zipBytes) = true
  | Ok entries =>
    if existsb is_install entries && negb (bool_decide (omap script_of entries = []))
    then exists scripts, extractScriptsFromZip zipBytes = Ok scripts /\
           scripts ≡ₚ omap script_of entries /\ Sorted bytewise scripts
    else is_err (extractScriptsFromZip zipBytes) = true
  end.
Proof.
  unfold extractScriptsFromZip. destruct (zip_NewReader zipBytes) as [entries|e]; [|done].
  unfold scan_entries. rewrite scan_entries_from. cbn [orb app].
  destruct (existsb is_install entries); cbn; [|done].
  case_bool_decide as Hn; [done|]. cbn. eexists. split; [reflexivity|].
  split; [apply merge_sort_Permutation|apply sort_Strings_sorted].
Qed.

(** ** The calls as a whole *)
(** The tenant a name stands for. *)
Definition named (name : string) d (n : Tenant) : Prop :=
  (exists k, tenants d !! k = Some n) /\ live n = true /\ Name n = name /\ name <> "".

Lemma wp_GetByName b name Q w :
  (forall n, named name (w_db w) n -> Q (Ok n) w) ->
  (forall e, b = true \/ (forall n, ~ named name (w_db w) n) -> Q (Err e) w) ->
  wp b (TenantOrm.GetByName name) Q w.
Proof.
  intros H1 H2. unfold TenantOrm.GetByName. destruct (name =s "") eqn:Hn; clean.
  { apply H2. right. intros n (_ & _ & _ & ?). congruence. }
  apply wp_First.
  - intros n Hin. apply elem_matching in Hin as (? & ? & ?). clean. apply H1. by repeat split.
  - intros Hnil. apply H2. right. intros n ([k Hk] & Hl & Hname & _).
    rewrite matching_nil in Hnil. specialize (Hnil k n Hk Hl). clean. congruence.
  - intros Hb m. apply H2. by left.
Qed.

(** Why a submission without external failures is turned down. *)
Definition submit_refused (params : SubmitTaskParams) w : Prop :=
  is_err (check_hook (sp_CompletionHookURL params)) = true \/
  (forall n, ~ named (sp_TenantName params) (w_db w) n) \/
  is_err (extractScriptsFromZip (sp_ZipBytes params)) = true \/
  ~ fresh_from (w_uuids w) (tasks (w_db w)) \/
  ~ fresh_from (w_uuids w) (task_shards (w_db w)).

Lemma wp_SubmitTask b params w :
  Inv (w_db w) -> w_db_open w = true ->
  wp b (SubmitTask params) (fun r w' =>
    match r with
    | Ok id =>
      exists n scripts hook, named (sp_TenantName params) (w_db w) n /\
        extractScriptsFromZip (sp_ZipBytes params) = Ok scripts /\
        check_hook (sp_CompletionHookURL params) = Ok hook /\
        submitted id (new_task id (rid n) hook (Z.of_nat (length scripts))) scripts
                  (w_db w) (w_db w') /\
        w_oss w' !! bundle_key id = Some (sp_ZipBytes params)
    | Err _ => w_db w' = w_db w /\ (b = true \/ submit_refused params w)
    end) w.
Proof.
  intros HI Ho. unfold SubmitTask. apply wp_bindR, wp_GetDB; [done|].
  apply wp_bindR. destruct (check_hook _) as [hook|e] eqn:Hh; cbn [wp].
  2:{ split; [done|]. right. left. by rewrite Hh. }
  apply wp_bindR, wp_GetByName; [|intros e [?|?]; (split; [done|]); [by left|by right; right; left]].
  intros n Hn. apply wp_bindR.
  destruct (extractScriptsFromZip _) as [scripts|e] eqn:Hx; cbn [wp].
  2:{ split; [done|]. right. right. right. left. by rewrite Hx. }
  apply wp_bindR. unfold NewV7. apply wp_call; [|by split; [|left]]. cbn [fst snd].
  set (id := uuid_NewV7 (w_uuids w)). set (w1 := set_uuids (S (w_uuids w)) w).
  apply wp_bindR, wp_call; [|by split; [|left]]. cbn [fst snd].
  apply wp_bindR. unfold UploadBytes. apply wp_call; [|by split; [|left]]. cbn [fst snd].
  set (w2 := set_oss _ w1). set (task := new_task id (rid n) hook _).
  assert (rid task <> uuid_Nil) as Hid by apply uuid_NewV7_nonnil.
  apply wp_bindR, wp_transaction; [by split; [|left]|].
  eapply wp_mono; [|apply wp_framed;
    [|exact (wp_submit_body b task scripts w2 HI Hid eq_refl eq_refl)]].
  2:{ unfold submit_body, TaskOrm.Create, TaskShardOrm.Create. framed_all. }
  intros [x|e] w' [Hr Hf]; cbn [wp].
  - split; [|by intros; split; [|left]]. destruct Hr as (Hsub & _ & _).
    exists n, scripts, hook. split_and!; try done. destruct Hf as [_ _ _ _ _ _ -> _].
    apply lookup_insert_eq.
  - split; [done|]. destruct Hr as [?|[Hdup|Hnf]]; [by left|right..]; right; right; right.
    + left. intros Hf'. apply Hdup. apply Hf'. lia.
    + right. intros Hf'. apply Hnf. intros j Hj. apply Hf'. cbn in Hj. lia.
Qed.

(** The bundle is in the object store, and the database has gained the PENDING task
    [id] of the named tenant with one queued shard per script, and nothing else. *)
Definition submission (params : SubmitTaskParams) (id : uuid) w w' : Prop :=
  exists n scripts hook now, named (sp_TenantName params) (w_db w) n /\
    extractScriptsFromZip (sp_ZipBytes params) = Ok scripts /\
    check_hook (sp_CompletionHookURL params) = Ok hook /\
    tasks (w_db w) !! id = None /\
    tasks (w_db w') = <[id := stamped id now (new_task id (rid n) hook
                                (Z.of_nat (length scripts)))]> (tasks (w_db w)) /\
    tenants (w_db w') = tenants (w_db w) /\ clusters (w_db w') = clusters (w_db w) /\
    (forall k s, task_shards (w_db w) !! k = Some s -> task_shards (w_db w') !! k = Some s) /\
    (forall k s, task_shards (w_db w') !! k = Some s ->
       task_shards (w_db w) !! k = Some s \/ exists script, queued_row id script s) /\
    (exists rows, shards_of id (w_db w') ≡ₚ rows /\ Forall2 (queued_row id) scripts rows) /\
    w_oss w' !! bundle_key id = Some (sp_ZipBytes params).

Lemma wp_submission b params w :
  Inv (w_db w) -> w_db_open w = true ->
  wp b (SubmitTask params) (fun r w' =>
    match r with
    | Ok id => submission params id w w'
    | Err _ => w_db w' = w_db w /\ (b = true \/ submit_refused params w)
    end) w.
Proof.
  intros HI Ho. eapply wp_mono; [|by apply wp_SubmitTask]. intros [id|e] w'; [|done].
  intros (n & scripts & hook & Hn & Hs & Hh & (Hnone & now & Hadd) & Hoss).
  destruct Hadd as (Ht & Hn' & Hc & Hm & Hold & rows & Hp & Hf). cbn in Ht, Hm, Hn', Hc, Hold.
  exists n, scripts, hook, now. split_and!; try done. exists rows. split; [|done].
  rewrite Hp. unfold shards_of at 1.
  assert (matching (fun s => bool_decide (sh_TaskID s = id))
            (set_tasks (<[id := stamped id now (new_task id (rid n) hook
               (Z.of_nat (length scripts)))]> (tasks (w_db w))) (w_db w)) = []) as ->.
  { apply matching_nil. cbn. intros k s Hk _. apply bool_decide_eq_false. intros Heq.
    destruct (inv_parent _ HI k s Hk) as (t & Ht' & _). congruence. }
  by rewrite app_nil_r.
Qed.

(** A submission is all or nothing, and without external failures it only fails for
    an invalid hook URL, an unknown tenant, an invalid bundle or an identifier
    already in use. *)
Theorem SubmitTask_spec params w o :
  Inv (w_db w) -> w_db_open w = true ->
  let x := run (SubmitTask params) w o in
  match result x with
  | Ok id => submission params id w (final x)
  | Err _ => w_db (final x) = w_db w /\ (calm o -> submit_refused params w)
  end.
Proof.
  intros HI Ho x. destruct (wp_run_both _ _ w o (fun b => wp_submission b params w HI Ho))
    as (b & Hb & Hr). fold x in Hr.
  destruct (result x); [exact Hr|]. destruct Hr as [Hd Hr]. split; [done|].
  intros Hc. destruct Hr as [->|?]; [by discriminate (Hb Hc)|done].
Qed.

Lemma wp_GetTask b tenantName id w :
  Inv (w_db w) -> w_db_open w = true ->
  wp b (GetTask tenantName id) (fun r w' => w_db w' = w_db w /\
    match r with
    | Ok (t, shards) => tasks (w_db w) !! id = Some t /\ shards ≡ₚ shards_of id (w_db w) /\
                        exists n, named tenantName (w_db w) n /\ TenantID t = rid n
    | Err e => b = true \/
        ((forall n, ~ named tenantName (w_db w) n) /\ errors_Is e ErrTenantNotFound = true) \/
        (errors_Is e ErrTaskNotFound = true /\ exists n, named tenantName (w_db w) n /\
           forall t, tasks (w_db w) !! id = Some t -> TenantID t <> rid n)
    end) w.
Proof.
  intros HI Ho. unfold GetTask, TaskOrm.GetByID. apply wp_bindR, wp_GetDB; [done|].
  apply wp_bindR, wp_GetByName; [|intros e [?|?]; (split; [done|]); [by left|by right; left]].
  intros n Hn. apply wp_bindR, wp_bindR, wp_First_key; [by apply inv_sane_tasks| | |by split; [|left]].
  - intros t Ht. cbn in Ht. destruct (inv_task _ HI id t Ht) as (Hid & _ & _).
    apply wp_bindR, wp_Find; [|by split; [|left]]. intros l Hl. cbn [wp fst].
    destruct (bool_decide (TenantID t = rid n)) eqn:Hten; clean; cbn.
    + split; [done|]. split; [done|]. split; [by rewrite Hl, Hid|]. eauto.
    + split; [done|]. right. right. split; [done|]. exists n. split; [done|]. congruence.
  - intros Hnone. cbn in *. split; [done|]. right. right. split; [done|].
    exists n. split; [done|]. congruence.
Qed.

(** A task is only shown to its own tenant.  [GetTask] returns the task with
    all its shards exactly when it belongs to the named tenant; a task of another
    tenant gives the same "task not found" as one that does not exist.  Reading
    changes nothing. *)
Theorem GetTask_isolated tenantName id w o :
  Inv (w_db w) -> w_db_open w = true -> calm o ->
  let x := run (GetTask tenantName id) w o in
  w_db (final x) = w_db w /\
  match result x with
  | Ok (t, shards) => tasks (w_db w) !! id = Some t /\ shards ≡ₚ shards_of id (w_db w) /\
                      exists n, named tenantName (w_db w) n /\ TenantID t = rid n
  | Err e =>
      ((forall n, ~ named tenantName (w_db w) n) /\ errors_Is e ErrTenantNotFound = true) \/
      (errors_Is e ErrTaskNotFound = true /\ exists n, named tenantName (w_db w) n /\
         forall t, tasks (w_db w) !! id = Some t -> TenantID t <> rid n)
  end.
Proof.
  intros HI Ho Hc x.
  pose proof (wp_run_calm _ _ w o Hc (wp_GetTask false tenantName id w HI Ho)) as [Hd Hr].
  fold x in Hd, Hr. split; [done|]. destruct (result x) as [[t shards]|e]; [done|].
  by destruct Hr as [?|?].
Qed.

Lemma wp_ListTasksByTenant b T status w :
  Inv (w_db w) ->
  wp b (ListTasksByTenant T status) (fun r w' => w_db w' = w_db w /\
    match r with
    | Ok l =>
      l.*1 ≡ₚ matching (fun t => bool_decide (TenantID t = T) &&
                                 (if status <>s "" then Status t =s status else true)) (w_db w) /\
      Sorted (fun a b => CreatedAt (base b) <= CreatedAt (base a))%Z l.*1 /\
      Forall (fun ts => ts.2 ≡ₚ shards_of (rid ts.1) (w_db w)) l
    | Err _ => b = true
    end) w.
Proof.
  intros HI. unfold ListTasksByTenant. apply wp_bindR, wp_Find_exact; [|by split].
  set (p := fun t : Task => _ && _). set (found := order_by _ _).
  assert (found ≡ₚ matching p (w_db w)) as Hp by apply order_by_perm.
  assert (Sorted (fun a b => CreatedAt (base b) <= CreatedAt (base a))%Z found) as Hs.
  { eapply Sorted_impl; [|apply Sorted_merge_sort, not_after_total].
    - intros a c. unfold not_after, lex, desc_Z.
      destruct (Z.compare_spec (CreatedAt (base c)) (CreatedAt (base a))); [lia..|done].
    - constructor; [apply fair_desc_Z|done]. }
  clearbody found. destruct found as [|t l].
  { cbn. split; [done|]. split; [done|]. by split. }
  apply wp_bindR, wp_Find; [|by split]. intros shards Hsh. cbn [wp]. split; [done|].
  set (tl := t :: l) in *.
  assert (((fun x => (x, List.filter (fun s => bool_decide (sh_TaskID s = rid x)) shards))
             <$> tl).*1 = tl) as Hfst.
  { rewrite <-list_fmap_compose. cbn. by rewrite list_fmap_id. }
  rewrite Hfst. split; [done|]. split; [done|].
  apply Forall_fmap, Forall_forall. intros x Hx. cbn.
  rewrite (filter_perm _ _ _ Hsh). rewrite <-matching_and. unfold shards_of.
  erewrite matching_ext; [reflexivity|]. intros s. cbn.
  destruct (bool_decide (sh_TaskID s = rid x)) eqn:Heq; [|by rewrite andb_false_r]. clean.
  rewrite andb_true_r. apply bool_decide_eq_true. rewrite Heq.
  change (rid x ∈ rid <$> tl). by apply list_elem_of_fmap_2.
Qed.

(** Without external failures [ListTasks] returns exactly the named tenant's
    tasks with the wanted status (all of them for the empty status), newest first,
    each with all of its shards, and changes nothing. *)
Theorem ListTasks_spec tenantName status w o :
  Inv (w_db w) -> w_db_open w = true -> calm o ->
  let x := run (ListTasks tenantName status) w o in
  w_db (final x) = w_db w /\
  match result x with
  | Ok l => exists n, named tenantName (w_db w) n /\
      l.*1 ≡ₚ matching (fun t => bool_decide (TenantID t = rid n) &&
                                 (if status <>s "" then Status t =s status else true)) (w_db w) /\
      Sorted (fun a b => CreatedAt (base b) <= CreatedAt (base a))%Z l.*1 /\
      Forall (fun ts => ts.2 ≡ₚ shards_of (rid ts.1) (w_db w)) l
  | Err e => (forall n, ~ named tenantName (w_db w) n) /\ errors_Is e ErrTenantNotFound = true
  end.
Proof.
  intros HI Ho Hc x.
  assert (wp false (ListTasks tenantName status) (fun r w' => w_db w' = w_db w /\
    match r with
    | Ok l => exists n, named tenantName (w_db w) n /\
        l.*1 ≡ₚ matching (fun t => bool_decide (TenantID t = rid n) &&
                          (if status <>s "" then Status t =s status else true)) (w_db w) /\
        Sorted (fun a b => CreatedAt (base b) <= CreatedAt (base a))%Z l.*1 /\
        Forall (fun ts => ts.2 ≡ₚ shards_of (rid ts.1) (w_db w)) l
    | Err e => (forall n, ~ named tenantName (w_db w) n) /\ errors_Is e ErrTenantNotFound = true
    end) w) as Hw; [|exact (wp_run_calm _ _ w o Hc Hw)].
  unfold ListTasks. apply wp_bindR, wp_GetDB; [done|].
  apply wp_bindR, wp_GetByName; [|intros e [?|?]; [done|by split]].
  intros n Hn. eapply wp_mono; [|by apply wp_ListTasksByTenant].
  intros [l|e] w' [Hd Hr]; [|done]. split; [done|]. eauto.
Qed.
End SubmitFacts.
#[export] Hint Resolve lawful_SubmitTask lawful_CancelTask lawful_GetTask lawful_ListTasks : prog.

(** The theorems on [demo]. *)
Definition demo_submit : SubmitTaskParams := mkSubmit "acme" "zip" "http://hook".

Lemma SubmitTask_spec_witness :
  let E := toy_env in
  let x := run (SubmitTask demo_submit) demo quiet in
  result x = Ok 1000%N /\
  exists rows, shards_of 1000 (w_db (final x)) ≡ₚ rows /\
               Forall2 (queued_row 1000) ["a.sh"; "b.sh"] rows.
Proof.
  cbn zeta. split; [vm_compute; reflexivity|].
  pose proof (SubmitTask_spec (E := toy_env) (L := toy_laws) demo_submit demo quiet
                demo_inv eq_refl) as H. cbv zeta in H.
  replace (result _) with (Ok 1000%N) in H by (vm_compute; reflexivity).
  destruct H as (n & scripts & hook & now & _ & Hs & _ & _ & _ & _ & _ & _ & _ & Hrows & _).
  replace scripts with ["a.sh"; "b.sh"] in Hrows; [exact Hrows|].
  assert (@extractScriptsFromZip toy_env "zip" = Ok ["a.sh"; "b.sh"]) as Hx
    by (vm_compute; reflexivity).
  change (sp_ZipBytes demo_submit) with "zip" in Hs. congruence.
Defined.

Lemma GetTask_isolated_witness :
  let E := toy_env in
  is_ok (result (run (GetTask "acme" 10) demo quiet)) = true /\
  match result (run (GetTask "globex" 10) demo quiet) with
  | Ok _ => False
  | Err e => errors_Is e ErrTaskNotFound = true
  end.
Proof.
  cbn zeta. split; [vm_compute; reflexivity|].
  destruct (GetTask_isolated (E := toy_env) (L := toy_laws) "globex" 10 demo quiet
              demo_inv eq_refl (Forall_nil_2 _)) as [_ H].
  destruct (result _) as [[t shards]|e] eqn:Hr; [by vm_compute in Hr|].
  vm_compute in Hr. injection Hr as <-. vm_compute. reflexivity.
Defined.

Lemma ListTasks_spec_witness :
  let E := toy_env in
  exists l (n : Tenant), result (run (ListTasks "acme" "") demo quiet) = Ok l /\ length l = 2 /\
    l.*1 ≡ₚ matching (fun t => bool_decide (TenantID t = rid n) && true) demo_db.
Proof.
  cbn zeta.
  destruct (ListTasks_spec (E := toy_env) (L := toy_laws) "acme" "" demo quiet
              demo_inv eq_refl (Forall_nil_2 _)) as [_ H].
  destruct (result _) as [l|e] eqn:Hr; [|by vm_compute in Hr].
  destruct H as (n & _ & Hp & _). exists l, n. split; [reflexivity|].
  split; [|exact Hp]. vm_compute in Hr. by injection Hr as <-.
Defined.
