(* ===== verification/ReadCommitted.v ===== *)
(** * Transactions that run at the same time: the machine and its logic

    In Effects.v a transaction is one atomic action.  PostgreSQL runs the statements
    of concurrent transactions interleaved, at its default isolation level READ
    COMMITTED: a statement sees the rows committed before it started and the rows
    its own transaction has written; a row that a transaction has written, or read
    FOR UPDATE, cannot be written or locked by another one until the first has
    ended.  This file defines that machine ([rc_step], and [rc_exec] as a function)
    and a logic for one transaction among others ([rcwp]), in which holding the lock
    of a row is a right ([K]), with its soundness: what has been committed goes through
    the promised effects, a relation per transaction, in the order of the commits
    ([rc_serial]).  Isolation.v uses it for the transactions of the repository. *)
From S2P Require Import Prelude Errors Model Env Proto World Effects Store StoreFacts.

(** ** Rows and what a transaction sees *)
Inductive table_name := TTasks | TShards | TTenants | TClusters.
#[export] Instance table_name_eq_dec : EqDecision table_name.
Proof. solve_decision. Defined.
#[export] Instance table_name_countable : Countable table_name.
Proof.
  refine (inj_countable' (fun t => match t with TTasks => 0 | TShards => 1 | TTenants => 2
                                              | TClusters => 3 end)
    (fun n => match n with 0 => TTasks | 1 => TShards | 2 => TTenants | _ => TClusters end) _).
  by intros [].
Defined.
Definition key : Type := table_name * uuid.

(** Two databases agree on a row. *)
Definition row_same (x : key) (d d' : DB) : Prop :=
  match x.1 with
  | TTasks => tasks d !! x.2 = tasks d' !! x.2
  | TShards => task_shards d !! x.2 = task_shards d' !! x.2
  | TTenants => tenants d !! x.2 = tenants d' !! x.2
  | TClusters => clusters d !! x.2 = clusters d' !! x.2
  end.

(** The rows of [L] from [own], the others from [d]. *)
Definition mix {R : Type} (n : table_name) (L : gset key) (own d : gmap uuid R) : gmap uuid R :=
  filter (fun kr => (n, kr.1) ∈ L) own ∪ filter (fun kr => (n, kr.1) ∉ L) d.
Definition overlay (L : gset key) (own d : DB) : DB :=
  mkDB (mix TTasks L (tasks own) (tasks d)) (mix TShards L (task_shards own) (task_shards d))
       (mix TTenants L (tenants own) (tenants d)) (mix TClusters L (clusters own) (clusters d)).

Lemma lookup_mix {R : Type} n L (own d : gmap uuid R) k :
  mix n L own d !! k = if decide ((n, k) ∈ L) then own !! k else d !! k.
Proof.
  unfold mix. destruct (decide _) as [Hin|Hout].
  - destruct (own !! k) as [r|] eqn:Hk.
    + apply lookup_union_Some_l. by apply map_lookup_filter_Some_2.
    + apply lookup_union_None. split; apply map_lookup_filter_None; naive_solver.
  - rewrite lookup_union_r by (apply map_lookup_filter_None; naive_solver).
    destruct (d !! k) as [r|] eqn:Hk.
    + by apply map_lookup_filter_Some_2.
    + apply map_lookup_filter_None. by left.
Qed.

(** Before it has written anything, a transaction sees the committed database. *)
Lemma overlay_empty own d : overlay ∅ own d = d.
Proof.
  assert (forall R n (m m' : gmap uuid R), mix n ∅ m m' = m') as Hm.
  { intros R n m m'. apply map_eq. intros i. rewrite lookup_mix, decide_False; [done|]. set_solver. }
  unfold overlay. rewrite !Hm. by destruct d.
Qed.

(** ** The machine *)
Inductive conn_state (X : Type) :=
| Running (p : prog (res X)) (locks : gset key) (own : DB)
| Finished (r : res X).
Arguments Running {_} _ _ _.
Arguments Finished {_} _.

Definition locks_of {X} (c : conn_state X) : gset key :=
  match c with Running _ L _ => L | Finished _ => ∅ end.

(** A statement waits until it can have the rows it changes or reads FOR UPDATE, and
    may lock more; a commit makes the written rows visible; a failed body, or a failed commit, is
    rolled back. *)
Inductive rc_step {X} : World * list (conn_state X) -> World * list (conn_state X) -> Prop :=
| rc_stmt w cs i {B} (f : World -> B * World) h L own L' :
    cs !! i = Some (Running (Act f h) L own) ->
    let v := overlay L own (w_db w) in
    let bw := f (set_locked [] (set_db v w)) in
    L ⊆ L' -> (forall x, ~ row_same x v (w_db bw.2) -> x ∈ L') ->
    (forall k, k ∈ w_locked bw.2 -> (TTasks, k) ∈ L') ->
    (forall j c, j <> i -> cs !! j = Some c -> locks_of c ## L') ->
    rc_step (w, cs) (set_db (w_db w) bw.2, <[i := Running (h bw.1) L' (w_db bw.2)]> cs)
| rc_ext w cs i h L own x :
    cs !! i = Some (Running (Ext h) L own) ->
    rc_step (w, cs) (w, <[i := Running (h x) L own]> cs)
| rc_now w cs i h L own t :
    cs !! i = Some (Running (Now h) L own) -> (w_clock w <= t)%Z ->
    rc_step (w, cs) (set_clock t w, <[i := Running (h t) L own]> cs)
| rc_commit w cs i a L own :
    cs !! i = Some (Running (Ret (Ok a)) L own) ->
    rc_step (w, cs) (set_db (overlay L own (w_db w)) w, <[i := Finished (Ok a)]> cs)
| rc_rollback w cs i r L own e :
    cs !! i = Some (Running (Ret r) L own) ->
    rc_step (w, cs) (w, <[i := Finished (Err e)]> cs).

(** *** The machine as a function

    [rc_exec i] is a step of the transaction [i], in which nothing outside fails, and
    [None] when it has to wait or has ended. *)
Definition changed_keys {R : Type} `{EqDecision R} (n : table_name) (m m' : gmap uuid R) : gset key :=
  set_map (fun k => (n, k)) (filter (fun k => m !! k <> m' !! k) (dom m ∪ dom m')).
Definition changed (d d' : DB) : gset key :=
  changed_keys TTasks (tasks d) (tasks d') ∪ changed_keys TShards (task_shards d) (task_shards d') ∪
  (changed_keys TTenants (tenants d) (tenants d') ∪ changed_keys TClusters (clusters d) (clusters d')).

Definition others_free {X : Type} (i : nat) (L : gset key) (cs : list (conn_state X)) : bool :=
  forallb (fun jc : nat * conn_state X => bool_decide (jc.1 = i) || bool_decide (locks_of jc.2 ## L))
          (imap pair cs).

Definition rc_exec {X : Type} (i : nat) (s : World * list (conn_state X))
    : option (World * list (conn_state X)) :=
  let '(w, cs) := s in
  match cs !! i with
  | Some (Running (Act f h) L own) =>
    let v := overlay L own (w_db w) in
    let bw := f (set_locked [] (set_db v w)) in
    let L' := L ∪ changed v (w_db bw.2) ∪ list_to_set (pair TTasks <$> w_locked bw.2) in
    if others_free i L' cs
    then Some (set_db (w_db w) bw.2, <[i := Running (h bw.1) L' (w_db bw.2)]> cs) else None
  | Some (Running (Ext h) L own) => Some (w, <[i := Running (h None) L own]> cs)
  | Some (Running (Now h) L own) => Some (w, <[i := Running (h (w_clock w)) L own]> cs)
  | Some (Running (Ret (Ok a)) L own) =>
    Some (set_db (overlay L own (w_db w)) w, <[i := Finished (Ok a)]> cs)
  | Some (Running (Ret (Err e)) L own) => Some (w, <[i := Finished (Err e)]> cs)
  | _ => None
  end.

(** The transactions take turns as in [sched]; one that waits misses its turn. *)
Definition rc_turns {X : Type} (sched : list nat) (s : World * list (conn_state X))
    : World * list (conn_state X) :=
  foldl (fun s i => default s (rc_exec i s)) s sched.

Lemma elem_changed_keys {R : Type} `{EqDecision R} n (m m' : gmap uuid R) k :
  (n, k) ∈ changed_keys n m m' <-> m !! k <> m' !! k.
Proof.
  unfold changed_keys. rewrite elem_of_map. split.
  - intros (k' & [= ->] & Hk). by apply elem_of_filter in Hk as [? _].
  - intros Hk. exists k. split; [done|]. apply elem_of_filter. split; [done|].
    rewrite elem_of_union, !elem_of_dom.
    destruct (m !! k) as [x|] eqn:H1; [by left|]. destruct (m' !! k) as [y|] eqn:H2; [by right|done].
Qed.

Lemma changed_spec x d d' : ~ row_same x d d' -> x ∈ changed d d'.
Proof.
  intros Hx. unfold changed. destruct x as [n k].
  destruct n; unfold row_same in Hx; cbn in Hx; rewrite !elem_of_union, elem_changed_keys; tauto.
Qed.

Lemma rc_exec_sound {X : Type} i (s s' : World * list (conn_state X)) : rc_exec i s = Some s' -> rc_step s s'.
Proof.
  destruct s as [w cs]. cbn. destruct (cs !! i) as [[[a|B f h|h|h|B body h] L own|r]|] eqn:Hi; try done.
  - destruct a as [a|e]; intros [= <-]; [by apply rc_commit|by eapply rc_rollback].
  - destruct (others_free _ _ _) eqn:Hf; [|done]. intros [= <-]. apply rc_stmt; [done|set_solver|..].
    + intros x Hx. apply changed_spec in Hx. set_solver.
    + intros k Hk. apply elem_of_union_r, elem_of_list_to_set. by apply list_elem_of_fmap_2.
    + intros j c Hne Hj. unfold others_free in Hf. rewrite forallb_forall in Hf.
      specialize (Hf (j, c)). rewrite <-list_elem_of_In, elem_of_lookup_imap in Hf.
      assert (exists i0 y, (j, c) = (i0, y) /\ cs !! i0 = Some y) as He by (by exists j, c).
      apply Hf in He. apply orb_true_iff in He as [He|He]; cbn in He;
        apply bool_decide_eq_true in He; done.
  - intros [= <-]. by apply rc_ext.
  - intros [= <-]. replace w with (set_clock (w_clock w) w) at 2 by (by destruct w).
    apply rc_now; [done|lia].
Qed.

Lemma rc_turns_sound {X : Type} sched (s : World * list (conn_state X)) : rtc rc_step s (rc_turns sched s).
Proof.
  revert s. induction sched as [|i sched IH]; intros s; [reflexivity|]. cbn [rc_turns foldl].
  destruct (rc_exec i s) as [s'|] eqn:He; [|apply IH].
  eapply rtc_l; [by apply (rc_exec_sound i)|apply IH].
Qed.

(** ** Reasoning about one transaction among others

    [I] holds of the committed database and [R] relates its successive states,
    whatever transaction commits; [K x] does as long as the lock of [x] is held.
    [observed] are the databases that are committed at some moment of the execution
    in question: what a statement reads, it reads from one of them. *)
Class Observed := observed : DB -> Prop.

(** The committed databases of the executions from [s0] to [s1]. *)
Definition committed_between {X} (s0 s1 : World * list (conn_state X)) : Observed :=
  fun d => exists s, rtc rc_step s0 s /\ rtc rc_step s s1 /\ w_db s.1 = d.

Section Logic.
Context {O : Observed}.
Context (I : DB -> Prop) (R : DB -> DB -> Prop) (K : key -> DB -> DB -> Prop).
Context `{!PreOrder R} `{!forall x, PreOrder (K x)}.

(** [old] is the committed database at the transaction's last statement, [d] the
    one of now. *)
Definition now_is (L : gset key) (old d : DB) : Prop :=
  I d /\ R old d /\ (forall x, x ∈ L -> K x old d) /\ observed d.

Fixpoint rcwp {A} (p : prog A) (Q : A -> gset key -> DB -> DB -> Prop) (L : gset key) (own old : DB)
    : Prop :=
  match p with
  | Ret a => Q a L own old
  | Act f h => forall w L', now_is L old (w_db w) ->
      let v := overlay L own (w_db w) in let bw := f (set_locked [] (set_db v w)) in
      L ⊆ L' -> (forall x, ~ row_same x v (w_db bw.2) -> x ∈ L') ->
      (forall k, k ∈ w_locked bw.2 -> (TTasks, k) ∈ L') ->
      rcwp (h bw.1) Q L' (w_db bw.2) (w_db w)
  | Ext h => forall x, rcwp (h x) Q L own old
  | Now h => forall t, rcwp (h t) Q L own old
  | Tx _ _ => True
  end.

Lemma rcwp_mono {A} (p : prog A) Q Q' L own old :
  (forall a L own old, Q a L own old -> Q' a L own old) ->
  rcwp p Q L own old -> rcwp p Q' L own old.
Proof.
  revert L own old. induction p as [A a|A C f h IH|A h IH|A h IH|A C body _ h _]; intros L own old HQ;
    cbn; [apply HQ|..|done]; intros Hp; intros; by eapply IH, Hp.
Qed.

Lemma rcwp_bind {A B} (p : prog A) (k : A -> prog B) Q L own old :
  rcwp p (fun a => rcwp (k a) Q) L own old -> rcwp (bind p k) Q L own old.
Proof.
  revert L own old. induction p as [A a|A C f h IH|A h IH|A h IH|A C body _ h _]; intros L own old;
    cbn; [done|..|done]; intros Hp; intros; by apply IH, Hp.
Qed.

Lemma rcwp_bindR {A B} (p : prog (res A)) wrap (k : A -> prog (res B)) Q L own old :
  rcwp p (fun r => match r with Ok a => rcwp (k a) Q | Err e => Q (Err (wrap e)) end) L own old ->
  rcwp (bindR p wrap k) Q L own old.
Proof. intros Hp. apply rcwp_bind. eapply rcwp_mono; [|exact Hp]. by intros [a|e]. Qed.

(** A transaction that only promises something of its commits. *)
Definition commits {X} (Q : X -> gset key -> DB -> DB -> Prop) (r : res X) L own old : Prop :=
  match r with Ok a => Q a L own old | Err _ => True end.

(** The commit has the effect [rel] on the database it finds, keeps [I] and [R], and
    leaves the rights of the others alone. *)
Definition effect (rel : DB -> DB -> Prop) L own old : Prop :=
  forall d, now_is L old d ->
    let d' := overlay L own d in
    rel d d' /\ I d' /\ R d d' /\ forall x, x ∉ L -> K x d d'.

(** ** The invariant of the machine *)
Context {X : Type} (rel : nat -> X -> DB -> DB -> Prop).

Definition conn_ok (d : DB) (i : nat) (c : conn_state X) : Prop :=
  match c with
  | Running p L own => exists old, rcwp p (commits (fun a => effect (rel i a))) L own old /\ now_is L old d
  | Finished _ => True
  end.

Record rc_inv (s : World * list (conn_state X)) : Prop := {
  rc_committed : I (w_db s.1);
  rc_conns : forall i c, s.2 !! i = Some c -> conn_ok (w_db s.1) i c;
  rc_disjoint : forall i j c c', i <> j -> s.2 !! i = Some c -> s.2 !! j = Some c' ->
    locks_of c ## locks_of c';
}.

(** What has been committed, one after the other. *)
Inductive serial (d0 : DB) : list (nat * X) -> DB -> Prop :=
| serial_nil : serial d0 [] d0
| serial_snoc h d i a d' : serial d0 h d -> rel i a d d' -> serial d0 (h ++ [(i, a)])%list d'.

Record history (d0 : DB) (s : World * list (conn_state X)) (h : list (nat * X)) : Prop := {
  hist_serial : serial d0 h (w_db s.1);
  hist_commits : forall i a, (i, a) ∈ h <-> s.2 !! i = Some (Finished (Ok a));
  hist_once : NoDup h.*1;
}.

Lemma now_is_refl L d : I d -> observed d -> now_is L d d.
Proof. intros HI Ho. split; [done|]. split; [reflexivity|]. split; [|done]. intros x _. reflexivity. Qed.

Lemma now_is_commit L L' old d d' :
  I d' -> R d d' -> (forall x, x ∉ L -> K x d d') -> L' ## L -> observed d' -> now_is L' old d ->
  now_is L' old d'.
Proof.
  intros HI HR HL Hdis Ho (_ & Hr & Hk & _). split; [done|]. split; [by etrans|]. split; [|done]. intros x Hx.
  etrans; [by apply Hk|]. apply HL. set_solver.
Qed.

(** One connection's step, when the committed database stays and nothing commits. *)
Lemma rc_inv_step w w' cs i c c' d0 h :
  rc_inv (w, cs) -> history d0 (w, cs) h -> w_db w' = w_db w ->
  cs !! i = Some c -> (forall a, c <> Finished (Ok a)) -> conn_ok (w_db w) i c' ->
  (forall a, c' <> Finished (Ok a)) ->
  (forall j c1, j <> i -> cs !! j = Some c1 -> locks_of c1 ## locks_of c') ->
  rc_inv (w', <[i := c']> cs) /\ history d0 (w', <[i := c']> cs) h.
Proof.
  intros [HI Hc Hd] [Hs Hh Ho] Hdb Hi Hnf Hok Hnf' Hdis. cbn in *. rewrite <-Hdb in *.
  split; split; cbn; [done|..|done| |done].
  - intros j cj Hj. apply list_lookup_insert_Some in Hj as [(<- & <- & _)|[_ Hj]]; [done|]. by apply Hc.
  - intros j k cj ck Hne Hj Hk.
    apply list_lookup_insert_Some in Hj as [(<- & <- & _)|[Hij Hj]];
      apply list_lookup_insert_Some in Hk as [(<- & <- & _)|[Hik Hk]]; try done.
    + symmetry. by eapply Hdis.
    + by eapply Hdis.
    + by eapply (Hd j k).
  - intros j a. rewrite Hh, list_lookup_insert_Some. split.
    + intros Hj. right. split; [|done]. intros <-. rewrite Hi in Hj. injection Hj as ->. by destruct (Hnf a).
    + intros [(_ & Hj & _)|[_ Hj]]; [by destruct (Hnf' a)|done].
Qed.

Lemma rc_commit_inv w cs i a L own d0 h :
  rc_inv (w, cs) -> history d0 (w, cs) h -> cs !! i = Some (Running (Ret (Ok a)) L own) ->
  observed (overlay L own (w_db w)) ->
  let s' := (set_db (overlay L own (w_db w)) w, <[i := Finished (Ok a)]> cs) in
  rc_inv s' /\ history d0 s' (h ++ [(i, a)]).
Proof.
  intros [HI Hc Hd] [Hs Hh Ho] Hi Hob s'. cbn in *. destruct (Hc i _ Hi) as (old & Hp & Hnow).
  cbn in Hp. destruct (Hp _ Hnow) as (Hrel & HI' & HR & HL). split; split; cbn.
  - exact HI'.
  - intros j cj Hj. apply list_lookup_insert_Some in Hj as [(<- & <- & _)|[Hij Hj]]; [done|].
    specialize (Hc j cj Hj). destruct cj as [p L' own'|r]; [|done]. destruct Hc as (old' & Hp' & Hn').
    exists old'. split; [done|]. eapply now_is_commit; [done..| |done|done].
    exact (Hd j i _ _ (not_eq_sym Hij) Hj Hi).
  - intros j k cj ck Hne Hj Hk.
    apply list_lookup_insert_Some in Hj as [(<- & <- & _)|[Hij Hj]]; [apply disjoint_empty_l|].
    apply list_lookup_insert_Some in Hk as [(<- & <- & _)|[Hik Hk]]; [apply disjoint_empty_r|].
    by eapply (Hd j k).
  - by apply serial_snoc with (w_db w).
  - intros j b. rewrite elem_of_app, list_elem_of_singleton, Hh, list_lookup_insert_Some.
    assert (i < length cs) as Hlt by by eapply lookup_lt_Some.
    split.
    + intros [Hj|[= -> ->]]; [right|by left]. split; [|done]. congruence.
    + intros [(-> & [= ->] & _)|[_ Hj]]; [by right|by left].
  - rewrite fmap_app. apply NoDup_app. split; [done|]. split; [|apply NoDup_singleton].
    intros j Hj Hj'. apply list_elem_of_singleton in Hj' as ->.
    apply list_elem_of_fmap in Hj as ([j b] & Hj' & Hj). cbn in Hj'. subst j. apply Hh in Hj. congruence.
Qed.

Lemma rc_step_inv d0 s s' h :
  rc_inv s -> history d0 s h -> rc_step s s' -> observed (w_db s'.1) ->
  exists h', rc_inv s' /\ history d0 s' h'.
Proof.
  intros Hs Hh Hstep Hob.
  destruct Hstep as [w cs i B f k L own L' Hi v bw HL Hch Hfu Hfree|w cs i k L own x Hi|
                     w cs i k L own t Hi Ht|w cs i a L own Hi|w cs i r L own e Hi].
  - destruct (rc_conns _ Hs i _ Hi) as (old & Hp & Hnow). exists h.
    eapply rc_inv_step; [done..|exact Hi|done| |done|exact Hfree]. exists (w_db w).
    split; [by apply (Hp w L')|]. apply now_is_refl; [apply Hnow|exact Hob].
  - destruct (rc_conns _ Hs i _ Hi) as (old & Hp & Hnow). exists h.
    eapply rc_inv_step; [done..|exact Hi|done|exists old; by split; [apply Hp|]|done|].
    intros j c Hne Hj. by apply (rc_disjoint _ Hs j i c _ Hne Hj Hi).
  - destruct (rc_conns _ Hs i _ Hi) as (old & Hp & Hnow). exists h.
    eapply rc_inv_step; [done..|exact Hi|done|exists old; by split; [apply Hp|]|done|].
    intros j c Hne Hj. by apply (rc_disjoint _ Hs j i c _ Hne Hj Hi).
  - eexists. by apply rc_commit_inv.
  - exists h. eapply rc_inv_step; [done..|exact Hi|done|done|done|]. intros j c _ _. apply disjoint_empty_r.
Qed.

(** Every execution of transactions that have just begun has committed a serial
    execution of their effects. *)
Theorem rc_serial w (ps : list (prog (res X))) s' :
  let s0 := (w, (fun p => Running p ∅ (w_db w)) <$> ps) in
  I (w_db w) -> (forall s, rtc rc_step s0 s -> rtc rc_step s s' -> observed (w_db s.1)) ->
  (forall i p, ps !! i = Some p ->
     rcwp p (commits (fun a => effect (rel i a))) ∅ (w_db w) (w_db w)) ->
  rtc rc_step s0 s' ->
  I (w_db s'.1) /\ exists h, history (w_db w) s' h.
Proof.
  intros s HI Hob Hp Hr.
  assert (exists h, rc_inv s' /\ history (w_db w) s' h) as (h & [] & Hh); [|by split; [|exists h]].
  assert (exists h, rc_inv s /\ history (w_db w) s h) as Hs.
  { exists []. split; split; cbn; [done|..|constructor| |constructor].
    - intros i c Hc. apply list_lookup_fmap_Some in Hc as (p & -> & Hi). exists (w_db w).
      split; [by apply Hp|apply now_is_refl; [done|by apply (Hob s)]].
    - intros i j c c' _ Hc Hc'. apply list_lookup_fmap_Some in Hc as (p & -> & _).
      apply disjoint_empty_l.
    - intros i a. split; [by intros Hn%not_elem_of_nil|]. intros Hc.
      by apply list_lookup_fmap_Some in Hc as (p & ? & _). }
  clearbody s. induction Hr as [s|s1 s2 s3 H12 H23 IH]; [exact Hs|]. apply IH.
  - intros s Hr2. apply Hob. by apply rtc_l with s2.
  - destruct Hs as (h & Hi & Hh). eapply rc_step_inv; [done..|]. apply Hob; [by apply rtc_once|done].
Qed.

(** ** Rules for statements *)
Lemma rcwp_stmt {A} (g : DB -> res A * DB) Q L own old :
  (forall m, Q (Err (EExternal m)) L own old) ->
  (forall d L', now_is L old d -> L ⊆ L' ->
     let v := overlay L own d in
     (forall x, ~ row_same x v (g v).2 -> x ∈ L') -> Q (g v).1 L' (g v).2 d) ->
  rcwp (stmt g) Q L own old.
Proof.
  intros He Hg [m|]; cbn; [apply He|]. intros w L' Hnow HL Hch _. by apply Hg.
Qed.

Lemma overlay_row x L own d : x ∉ L -> row_same x d (overlay L own d).
Proof.
  intros Hx. destruct x as [[] k]; unfold row_same; cbn; by rewrite lookup_mix, decide_False.
Qed.

Section Queries.
Context `{E : Env, L : !EnvLaws E}.
Context {T : Type} `{Row T, Table T}.

Lemma rcwp_First (p : T -> bool) cs Q S own old :
  (forall m, Q (Err (EExternal m)) S own old) ->
  (forall d S', now_is S old d -> S ⊆ S' ->
     Q (Err (ESentinel ErrRecordNotFound)) S' (overlay S own d) d) ->
  (forall d S' r, now_is S old d -> S ⊆ S' -> r ∈ matching p (overlay S own d) ->
     Q (Ok r) S' (overlay S own d) d) ->
  rcwp (First p cs) Q S own old.
Proof.
  intros He Hn Hr. apply rcwp_stmt; [by intros; apply He|]. intros d S' Hnow HS v _. cbn [fst snd].
  pose proof (order_by_perm (cs ++ [asc_id]) (matching p v)) as Hp.
  destruct (order_by _ _) as [|r l]; [by apply Hn|]. apply Hr; [done|done|]. fold v. rewrite <-Hp. left.
Qed.

Lemma rcwp_Count (p : T -> bool) Q S own old :
  (forall m, Q (Err (EExternal m)) S own old) ->
  (forall d S', now_is S old d -> S ⊆ S' ->
     Q (Ok (Z.of_nat (length (matching p (overlay S own d))))) S' (overlay S own d) d) ->
  rcwp (Count p) Q S own old.
Proof. intros He Hr. apply rcwp_stmt; [by intros; apply He|]. intros d S' Hnow HS v _. by apply Hr. Qed.

Lemma rcwp_Updates (p : T -> bool) f Q S own old :
  (forall m, Q (Err (EExternal m)) S own old) ->
  (forall t d S', now_is S old d -> S ⊆ S' ->
     let v := overlay S own d in
     let v' := set_rows (update_rows p (fun r => touch t (f r)) (rows v)) v in
     (forall x, ~ row_same x v v' -> x ∈ S') ->
     Q (Ok (Z.of_nat (length (matching p v)))) S' v' d) ->
  rcwp (Updates p f) Q S own old.
Proof.
  intros He Hu. unfold Updates. apply rcwp_bind. cbn [rcwp now]. intros t.
  apply rcwp_stmt; [by intros; apply He|]. intros d S' Hnow HS v Hch. by apply Hu.
Qed.

(** An UPDATE whose condition fixes the primary key: of no row or of one, which is
    locked if it changes. *)
Lemma rcwp_Updates_at `{!LawfulTable T} (n : table_name) (p : T -> bool) id f Q S own old :
  (forall k d d', row_same (n, k) d d' <-> rows d !! k = rows d' !! k) ->
  (forall r, p r = true -> rid r = id) ->
  (forall m, Q (Err (EExternal m)) S own old) ->
  (forall d, now_is S old d -> sane (rows (overlay S own d))) ->
  (forall d S', now_is S old d -> S ⊆ S' ->
     (forall r, rows (overlay S own d) !! id = Some r -> p r = false) ->
     Q (Ok 0%Z) S' (overlay S own d) d) ->
  (forall t d S' r m, now_is S old d -> S ⊆ S' -> rows (overlay S own d) !! id = Some r ->
     p r = true -> (0 < m)%Z -> (touch t (f r) <> r -> (n, id) ∈ S') ->
     Q (Ok m) S' (set_rows (<[id := touch t (f r)]> (rows (overlay S own d))) (overlay S own d)) d) ->
  rcwp (Updates p f) Q S own old.
Proof.
  intros Hn Hp He Hs Hno Hyes. apply rcwp_Updates; [done|]. intros t d S' Hnow HS. cbv zeta.
  specialize (Hs d Hnow). set (v := overlay S own d) in *. intros Hch.
  destruct (decide (Z.of_nat (length (matching p v)) = 0%Z)) as [Hz|Hz].
  - pose proof (affected_zero p v Hz) as Hzero. rewrite Hz, (update_rows_none p) in * by done.
    rewrite set_rows_rows in *. apply Hno; [done|done|]. intros r Hr. apply (Hzero id); [done|].
    by apply (Hs id r).
  - destruct (affected_pos p v Hz) as (k & r & Hk & Hl & Hr).
    assert (k = id) as -> by (destruct (Hs k r Hk) as [<- _]; by apply Hp).
    assert (update_rows p (fun r => touch t (f r)) (rows v) = <[id := touch t (f r)]> (rows v)) as Hu.
    { apply (update_rows_single p (fun r => touch t (f r)) (rows v) id r); [done..|]. intros k' r' Hk' Hr'. destruct (Hs k' r' Hk') as [<- _].
      by apply Hp. }
    rewrite Hu in *. apply Hyes; [done|done|done|done|lia|]. intros Hne. apply Hch. rewrite Hn, rows_set_rows.
    rewrite Hk, lookup_insert_eq. congruence.
Qed.

(** An insertion: the key is free, and locked. *)
Lemma rcwp_Insert `{!LawfulTable T, !LawfulRow T} (n : table_name) (r : T) Q S own old :
  (forall k d d', row_same (n, k) d d' <-> rows d !! k = rows d' !! k) ->
  (forall e S own old, Q (Err e) S own old) ->
  (forall t d S', now_is S old d -> S ⊆ S' -> rows (overlay S own d) !! rid r = None ->
     (n, rid r) ∈ S' ->
     Q (Ok (stamped (rid r) t r)) S'
       (set_rows (<[rid r := stamped (rid r) t r]> (rows (overlay S own d))) (overlay S own d)) d) ->
  rcwp (Insert (fun _ _ => false) r) Q S own old.
Proof.
  intros Hn He Hq. unfold Insert. apply rcwp_bind. cbn [rcwp now]. intros t.
  assert (rid (stamped (rid r) t r) = rid r) as Hid by (unfold rid, stamped; by rewrite base_with_base).
  apply rcwp_stmt; [by intros; apply He|]. intros d S' Hnow HS v.
  change (with_base _ r) with (stamped (rid r) t r). rewrite Hid.
  destruct (_ || _) eqn:Hdup; cbn [fst snd]; intros Hch; [apply He|].
  apply orb_false_iff in Hdup as [Hd _]. apply bool_decide_eq_false in Hd.
  rewrite <-eq_None_not_Some in Hd. apply Hq; [done..|]. apply Hch.
  rewrite Hn, rows_set_rows, Hd, lookup_insert_eq. done.
Qed.
End Queries.

Lemma rcwp_NewV7 `{E : Env} Q S own old :
  (forall m, Q (Err (EExternal m)) S own old) ->
  (forall n d S', now_is S old d -> S ⊆ S' -> Q (Ok (uuid_NewV7 n)) S' (overlay S own d) d) ->
  rcwp NewV7 Q S own old.
Proof. intros He Hq [m|]; [apply He|]. intros w S' Hn v bw HS _ _. by apply Hq. Qed.

(** The locking read holds the row from then on. *)
Lemma rcwp_FirstForUpdate `{E : Env, L : !EnvLaws E} (p : Task -> bool) Q S own old :
  (forall m, Q (Err (EExternal m)) S own old) ->
  (forall d S', now_is S old d -> S ⊆ S' ->
     Q (Err (ESentinel ErrRecordNotFound)) S' (overlay S own d) d) ->
  (forall d S' t, now_is S old d -> S ⊆ S' -> t ∈ matching p (overlay S own d) ->
     (TTasks, rid t) ∈ S' -> Q (Ok t) S' (overlay S own d) d) ->
  rcwp (FirstForUpdate p) Q S own old.
Proof.
  intros He Hn Hr [m|]; [by apply He|]. intros w S' Hnow v. cbn [w_db set_db set_locked].
  fold v. pose proof (order_by_perm [asc_id] (matching p v)) as Hp.
  destruct (order_by _ _) as [|t l]; cbn [fst snd w_db w_locked set_db set_locked]; intros HS _ Hfu.
  - by apply Hn.
  - apply Hr; [done|done|fold v; rewrite <-Hp; left|]. apply Hfu. left.
Qed.
End Logic.
