(* ===== verification/Isolation.v ===== *)
(** * The transactions of the repository at READ COMMITTED

    The bodies of all transactions on tasks and shards (leases, reports, roll-backs,
    cancellations, submissions and the scheduler's UPDATE of pending tasks), as they
    are in the files of their components, run statement by statement in the machine
    of ReadCommitted.v.  Each has a specification ([effect_of]), and in the order of
    the commits what is committed refines the specifications ([transactions_refine]);
    the invariant, the life cycles and what leases, reports and cancellations owe each
    other follow from those alone.  The specifications say less than the theorems of
    the components, in which a transaction is one action: READ COMMITTED is not
    serialisable, and [roll_back_overtaken] is an execution whose outcome is not that
    of the bodies one after the other in the order of their commits. *)
From S2P Require Import Prelude Errors Model Env Proto World Effects Store StoreFacts.
From S2P Require Import Lifecycle Lawful Demo TaskOrm TaskShardOrm AgentService TaskHooks TaskStatus.
From S2P Require Import TaskLease TaskApi ReadCommitted.

(** ** How the committed rows move *)
Definition active (t : Task) : Prop := Status t ∈ shardQueryStatuses.
Definition ended (s : TaskShard) : Prop := sh_Status s ∈ terminal_statuses.

Record onward (d d' : DB) : Prop := mkOnward {
  on_life : life d d';
  on_ended : forall k s, task_shards d !! k = Some s -> ended s -> task_shards d' !! k = Some s;
  on_new : forall k s, task_shards d' !! k = Some s -> task_shards d !! k = None ->
    tasks d !! sh_TaskID s = None;
  on_active : forall k t, tasks d !! k = Some t -> active t ->
    (exists t', tasks d' !! k = Some t' /\ active t') \/
    forall j s, task_shards d' !! j = Some s -> sh_TaskID s = k -> ended s;
  on_tenants : tenants d' = tenants d;
}.

(** The shards of a task that have not ended do not end. *)
Definition steady (k : uuid) (d d' : DB) : Prop :=
  forall j s, task_shards d !! j = Some s -> sh_TaskID s = k -> ~ ended s ->
    exists s', task_shards d' !! j = Some s' /\ sh_TaskID s' = k /\ ~ ended s'.

(** Who holds the lock of a row owns the row; who holds the lock of a task also
    decides when its shards end. *)
Definition lock_right (x : key) (d d' : DB) : Prop :=
  row_same x d d' /\ (x.1 = TTasks -> steady x.2 d d').

#[export] Instance row_same_preorder x : PreOrder (row_same x).
Proof.
  split; unfold row_same.
  - intros d. by destruct x.1.
  - intros d1 d2 d3. destruct x.1; congruence.
Qed.
#[export] Instance steady_preorder k : PreOrder (steady k).
Proof.
  split.
  - intros d j s Hj Hk Hn. by exists s.
  - intros d1 d2 d3 H12 H23 j s Hj Hk Hn. destruct (H12 j s Hj Hk Hn) as (s2 & H2 & K2 & N2).
    by apply (H23 j s2).
Qed.
#[export] Instance lock_right_preorder x : PreOrder (lock_right x).
Proof.
  split.
  - intros d. split; [|intros _]; reflexivity.
  - intros d1 d2 d3 [R1 S1] [R2 S2]. split; [by etrans|]. intros Hx. etrans; [by apply S1|by apply S2].
Qed.
Lemma lock_right_row x d d' : lock_right x d d' -> row_same x d d'.
Proof. by intros []. Qed.

Lemma shard_life d d' k s : onward d d' -> task_shards d !! k = Some s ->
  exists s', task_shards d' !! k = Some s' /\ sh_TaskID s' = sh_TaskID s.
Proof.
  intros Ho Hk. destruct (life_shard _ _ (on_life _ _ Ho) k s Hk) as (s' & Hs' & _ & _ & Hid & _).
  by exists s'.
Qed.
Lemma task_life d d' k t : onward d d' -> tasks d !! k = Some t -> is_Some (tasks d' !! k).
Proof. intros Ho Hk. destruct (life_task _ _ (on_life _ _ Ho) k t Hk) as (t' & -> & _). by eexists. Qed.

#[export] Instance onward_preorder : PreOrder onward.
Proof.
  split.
  - intros d. split; [reflexivity|done|congruence| |done]. intros k t Hk Ha. left. by exists t.
  - intros d1 d2 d3 H12 H23. pose proof H12 as [L1 E1 N1 A1 T1]. pose proof H23 as [L2 E2 N2 A2 T2].
    split; [by etrans|auto| | |congruence].
    + intros k s Hk H1. destruct (task_shards d2 !! k) as [s2|] eqn:H2.
      * destruct (shard_life _ _ _ _ H23 H2) as (s' & Hs' & Hid). assert (s' = s) as -> by congruence.
        rewrite Hid. by apply (N1 k s2).
      * specialize (N2 k s Hk H2). destruct (tasks d1 !! sh_TaskID s) as [t|] eqn:Ht; [|done].
        destruct (task_life _ _ _ _ H12 Ht) as [t' Ht']. congruence.
    + intros k t Hk Ha. destruct (A1 k t Hk Ha) as [(t2 & Ht2 & Ha2)|Hall]; [by apply (A2 k t2)|].
      right. intros j s Hj Hid. destruct (task_shards d2 !! j) as [s2|] eqn:H2.
      * destruct (shard_life _ _ _ _ H23 H2) as (s' & Hs' & Hid'). assert (s' = s) as -> by congruence.
        pose proof (Hall j s2 H2 ltac:(congruence)) as He. specialize (E2 j s2 H2 He).
        assert (s2 = s) as -> by congruence. done.
      * specialize (N2 j s Hj H2). destruct (task_life _ _ _ _ H12 Hk) as [t' Ht']. congruence.
Qed.

Lemma not_pending s s' : rtc task_step s s' -> s <> TaskStatusPending -> s' <> TaskStatusPending.
Proof. induction 1 as [s|s1 s2 s3 H12 _ IH]; [done|]. intros _. apply IH. by inversion H12. Qed.

(** Only a task that fails can leave [on_active] to be shown: the invariant gives it
    for the others. *)
Lemma active_onward d d' k t :
  Inv d' -> life d d' -> tasks d !! k = Some t -> active t ->
  (forall t', tasks d' !! k = Some t' -> Status t' = TaskStatusFailed ->
     forall j s, task_shards d' !! j = Some s -> sh_TaskID s = k -> ended s) ->
  (exists t', tasks d' !! k = Some t' /\ active t') \/
  forall j s, task_shards d' !! j = Some s -> sh_TaskID s = k -> ended s.
Proof.
  intros HI' HL Hk Ha Hf. destruct (life_task _ _ HL k t Hk) as (t' & Hk' & _ & _ & _ & _ & _ & Hr).
  destruct (inv_task _ HI' k t' Hk') as (_ & _ & Hst).
  assert (Status t' <> TaskStatusPending) as Hnp.
  { apply (not_pending _ _ Hr). unfold active, shardQueryStatuses in Ha. statuses; by rewrite Ha. }
  assert (forall l, Forall (fun x => x ∈ terminal_statuses) l ->
            (forall x, compat (Status t') x = true -> x ∈ l) ->
            forall j s, task_shards d' !! j = Some s -> sh_TaskID s = k -> ended s) as Hend.
  { intros l Hl Hc j s Hj Hid. destruct (inv_parent _ HI' j s Hj) as (t2 & Ht2 & Hcp).
    assert (t2 = t') as -> by congruence. rewrite Forall_forall in Hl. by apply Hl, Hc. }
  assert (forall x ts, compat ts x = true -> x ∈ shard_statuses_in ts) as Hcin
    by (intros x ts; apply ins_spec).
  unfold task_statuses in Hst. statuses.
  1, 2, 3: left; exists t'; split; [done|]; unfold active; rewrite Hst; by apply ins_spec.
  - right. apply (Hend [ShardStatusSucceeded]); [|intros x Hx; rewrite Hst in Hx; exact (Hcin _ _ Hx)].
    repeat constructor; by apply ins_spec.
  - right. by apply (Hf t').
  - right. apply (Hend [ShardStatusSucceeded; ShardStatusFailed; ShardStatusCancelled]);
      [|intros x Hx; rewrite Hst in Hx; exact (Hcin _ _ Hx)].
    repeat constructor; by apply ins_spec.
Qed.

(** ** Row by row

    What a transaction has written, relative to what it has found: [Pt] and [Ps]
    relate the old and the new content of each row of the tasks and the shards. *)
Definition row_rel (T : Type) : Type := uuid -> option T -> option T -> Prop.
Definition same_row {T : Type} : row_rel T := fun _ a b => b = a.
Definition set_row {T : Type} (k : uuid) (o n : option T) : row_rel T :=
  fun i a b => if decide (i = k) then a = o /\ b = n else b = a.

Definition rowwise (Pt : row_rel Task) (Ps : row_rel TaskShard) (d d' : DB) : Prop :=
  (forall i, Pt i (tasks d !! i) (tasks d' !! i)) /\
  (forall i, Ps i (task_shards d !! i) (task_shards d' !! i)) /\
  tenants d' = tenants d /\ clusters d' = clusters d.

Definition wrote (Pt : row_rel Task) (Ps : row_rel TaskShard) (S : gset key) (own old : DB) : Prop :=
  (forall i, (TTasks, i) ∈ S -> Pt i (tasks old !! i) (tasks own !! i)) /\
  (forall i, (TShards, i) ∈ S -> Ps i (task_shards old !! i) (task_shards own !! i)) /\
  (forall i, (TTenants, i) ∈ S -> tenants own !! i = tenants old !! i) /\
  (forall i, (TClusters, i) ∈ S -> clusters own !! i = clusters old !! i).

Lemma rowwise_wrote Pt Ps S d v : rowwise Pt Ps d v -> wrote Pt Ps S v d.
Proof. unfold wrote. intros (Ht & Hs & -> & ->). by split_and!; intros i _. Qed.

Lemma wrote_empty Pt Ps own old : wrote Pt Ps ∅ own old.
Proof. split_and!; intros i Hi; by apply not_elem_of_empty in Hi. Qed.

(** The next statement, or the commit, finds the committed database so changed. *)
Lemma wrote_rowwise Pt Ps S own old d :
  wrote Pt Ps S own old -> (forall x, x ∈ S -> row_same x old d) ->
  (forall i, (TTasks, i) ∉ S -> Pt i (tasks d !! i) (tasks d !! i)) ->
  (forall i, (TShards, i) ∉ S -> Ps i (task_shards d !! i) (task_shards d !! i)) ->
  rowwise Pt Ps d (overlay S own d).
Proof.
  intros (Ht & Hs & Hn & Hc) Ha Rt Rs. split_and!.
  - intros i. cbn. rewrite lookup_mix. destruct (decide _) as [Hi|Hi]; [|by apply Rt].
    rewrite <-(Ha _ Hi : tasks old !! i = tasks d !! i). by apply Ht.
  - intros i. cbn. rewrite lookup_mix. destruct (decide _) as [Hi|Hi]; [|by apply Rs].
    rewrite <-(Ha _ Hi : task_shards old !! i = task_shards d !! i). by apply Hs.
  - apply map_eq. intros i. cbn. rewrite lookup_mix. destruct (decide _) as [Hi|]; [|done].
    rewrite <-(Ha _ Hi : tenants old !! i = tenants d !! i). by apply Hn.
  - apply map_eq. intros i. cbn. rewrite lookup_mix. destruct (decide _) as [Hi|]; [|done].
    rewrite <-(Ha _ Hi : clusters old !! i = clusters d !! i). by apply Hc.
Qed.

Lemma same_rows {T : Type} (m m' : gmap uuid T) :
  (forall i, same_row i (m !! i) (m' !! i)) <-> m' = m.
Proof. split; [intros Hi; apply map_eq; intros i; apply Hi|intros -> i; reflexivity]. Qed.
Lemma set_rows_spec {T : Type} k (o : option T) r (m m' : gmap uuid T) :
  (forall i, set_row k o (Some r) i (m !! i) (m' !! i)) <-> m !! k = o /\ m' = <[k := r]> m.
Proof.
  unfold set_row. split.
  - intros Hi. split; [specialize (Hi k); by destruct (decide (k = k)) as [_|]; [destruct Hi|]|].
    apply map_eq. intros i. specialize (Hi i). destruct (decide (i = k)) as [->|].
    + rewrite lookup_insert_eq. by destruct Hi.
    + by rewrite lookup_insert_ne.
  - intros [Hk ->] i. destruct (decide (i = k)) as [->|]; [by rewrite lookup_insert_eq|].
    by rewrite lookup_insert_ne.
Qed.
Lemma set_row_refl {T : Type} k (o n : option T) i a : i <> k -> set_row k o n i a a.
Proof. intros Hne. unfold set_row. by rewrite decide_False. Qed.

(** ** Programs among the others *)
Abbreviation rc_wp := (rcwp Inv onward lock_right) (only parsing).
Abbreviation rc_now := (now_is Inv onward lock_right) (only parsing).
Abbreviation rc_effect := (effect Inv onward lock_right) (only parsing).

Section Stages.
Context {O : Observed}.

(** At some moment up to [d], what was committed satisfied [P]. *)
Definition before (P : DB -> Prop) (d : DB) : Prop := exists d1, observed d1 /\ onward d1 d /\ P d1.

(** A stage of a transaction: what it has written, and the locks it relies on. *)
Definition stage (Pt : row_rel Task) (Ps : row_rel TaskShard) (L S : gset key) (own old : DB) : Prop :=
  wrote Pt Ps S own old /\ L ⊆ S.

Lemma stage_view Pt Ps L S own old d :
  stage Pt Ps L S own old -> rc_now S old d ->
  (forall i a, (TTasks, i) ∉ L -> Pt i a a) -> (forall i a, (TShards, i) ∉ L -> Ps i a a) ->
  rowwise Pt Ps d (overlay S own d).
Proof.
  intros [Hw HL] (_ & _ & Hk & _) Rt Rs. apply (wrote_rowwise _ _ _ _ old); [done|..].
  - intros x Hx. by apply lock_right_row, Hk.
  - intros i Hi. apply Rt. set_solver.
  - intros i Hi. apply Rs. set_solver.
Qed.
Lemma stage_next Pt Ps L S d v : rowwise Pt Ps d v -> L ⊆ S -> stage Pt Ps L S v d.
Proof. intros Hr HL. split; [by apply rowwise_wrote|done]. Qed.

(** The commit: the effect, the invariant, and the changes others have to know of. *)
Lemma stage_commit rel Pt Ps L S own old :
  stage Pt Ps L S own old ->
  (forall i a, (TTasks, i) ∉ L -> Pt i a a) -> (forall i a, (TShards, i) ∉ L -> Ps i a a) ->
  (forall d d', Inv d -> onward old d -> rowwise Pt Ps d d' ->
     rel d d' /\ Inv d' /\ onward d d' /\ forall k, (TTasks, k) ∉ L -> steady k d d') ->
  rc_effect rel S own old.
Proof.
  intros Hst Rt Rs Hrel d Hnow d'. pose proof (stage_view _ _ _ _ _ _ _ Hst Hnow Rt Rs) as Hrow.
  destruct (Hrel d d' (proj1 Hnow) (proj1 (proj2 Hnow)) Hrow) as (H1 & H2 & H3 & H4).
  split; [done|]. split; [done|]. split; [done|]. intros x Hx. split; [by apply overlay_row|].
  intros Hxt. apply H4. destruct x as [n k]. cbn in Hxt. subst n. intros Hin. by apply Hx, Hst.
Qed.

End Stages.

(** ** Kinds of changes *)
(** One shard that had not ended, or none, has changed, and no task has ended by it. *)
Lemma shard_put_onward d d' k s s' :
  Inv d' -> life d d' -> task_shards d !! k = Some s -> ~ ended s -> sh_TaskID s' = sh_TaskID s ->
  task_shards d' = <[k := s']> (task_shards d) -> tenants d' = tenants d ->
  (forall j t t', tasks d !! j = Some t -> active t -> tasks d' !! j = Some t' ->
     Status t' = TaskStatusFailed ->
     forall i x, task_shards d' !! i = Some x -> sh_TaskID x = j -> ended x) ->
  onward d d' /\ forall j, (j <> sh_TaskID s \/ ~ ended s') -> steady j d d'.
Proof.
  intros HI' HL Hk Hn Hid Hs Htn Hf. split.
  - split; [done|..|done].
    + intros j x Hj He. rewrite Hs, lookup_insert_ne; [done|]. intros <-. congruence.
    + intros j x Hj Hnone. rewrite Hs, lookup_insert_ne in Hj by congruence. congruence.
    + intros j t Hj Ha. apply (active_onward d d' j t); [done..|]. intros t' Hj' Hst. by eapply Hf.
  - intros j Hj i x Hi Hx Hnx. destruct (decide (i = k)) as [->|Hne].
    + assert (x = s) as -> by congruence. exists s'. rewrite Hs, lookup_insert_eq, Hid.
      destruct Hj as [Hj|Hj]; [by destruct Hj|]. by split_and!.
    + exists x. rewrite Hs, lookup_insert_ne by done. by split_and!.
Qed.

(** No shard has changed. *)
Lemma shards_same_onward d d' :
  Inv d' -> life d d' -> task_shards d' = task_shards d -> tenants d' = tenants d ->
  (forall j t t', tasks d !! j = Some t -> active t -> tasks d' !! j = Some t' ->
     Status t' = TaskStatusFailed ->
     forall i x, task_shards d' !! i = Some x -> sh_TaskID x = j -> ended x) ->
  onward d d' /\ forall j, steady j d d'.
Proof.
  intros HI' HL Hs Htn Hf. split.
  - split; [done|congruence|congruence| |done].
    intros j t Hj Ha. apply (active_onward d d' j t); [done..|]. intros t' Hj' Hst. by eapply Hf.
  - intros j i x Hi Hx Hnx. exists x. by rewrite Hs.
Qed.

(** Rows that go along the life cycle and stay compatible. *)
Definition goes {T : Type} (P : T -> T -> Prop) (o n : option T) : Prop :=
  match o, n with
  | Some r, Some r' => P r r'
  | None, None => True
  | _, _ => False
  end.

Lemma rows_lawful d d' :
  Inv d ->
  (forall i, goes (fun t t' => task_moves t t' /\ Status t' ∈ task_statuses) (tasks d !! i) (tasks d' !! i)) ->
  (forall i, goes shard_moves (task_shards d !! i) (task_shards d' !! i)) ->
  (forall k s s' t t', task_shards d !! k = Some s -> task_shards d' !! k = Some s' ->
     tasks d !! sh_TaskID s = Some t -> tasks d' !! sh_TaskID s = Some t' ->
     compat (Status t) (sh_Status s) = true -> compat (Status t') (sh_Status s') = true) ->
  Inv d' /\ life d d'.
Proof.
  intros HI Ht Hs Hc.
  set (ft := fun t : Task => default t (tasks d' !! rid t)).
  set (fs := fun s : TaskShard => default s (task_shards d' !! rid s)).
  assert (forall i t, tasks d !! i = Some t -> tasks d' !! i = Some (ft t)) as Hft.
  { intros i t Hi. destruct (inv_task _ HI i t Hi) as (<- & _). specialize (Ht (rid t)).
    rewrite Hi in Ht. unfold ft. by destruct (tasks d' !! rid t). }
  assert (forall i s, task_shards d !! i = Some s -> task_shards d' !! i = Some (fs s)) as Hfs.
  { intros i s Hi. destruct (inv_shard _ HI i s Hi) as (<- & _). specialize (Hs (rid s)).
    rewrite Hi in Hs. unfold fs. by destruct (task_shards d' !! rid s). }
  assert (remap ft fs d d') as Hr.
  { split; apply map_eq; intros i; rewrite lookup_fmap.
    - destruct (tasks d !! i) as [t|] eqn:Hi; [by apply Hft|]. specialize (Ht i). rewrite Hi in Ht.
      by destruct (tasks d' !! i).
    - destruct (task_shards d !! i) as [s|] eqn:Hi; [by apply Hfs|]. specialize (Hs i).
      rewrite Hi in Hs. by destruct (task_shards d' !! i). }
  assert (good ft fs d) as Hg; [|by split; [eapply remap_inv|eapply remap_life]].
  split.
  - intros i t Hi. specialize (Ht i). rewrite Hi, (Hft i t Hi) in Ht. by destruct Ht as [? ?].
  - intros i s Hi. specialize (Hs i). by rewrite Hi, (Hfs i s Hi) in Hs.
  - intros i s t Hi Ht0 Hcp. by eapply Hc; [exact Hi|apply Hfs|exact Ht0|apply Hft|].
Qed.

(** ** Leases *)
Section Lease.
Context `{E : Env, L : !EnvLaws E} {O : Observed}.
Implicit Types (d : DB) (S : gset key).

(** A task row a lease may have written: it has promoted the task. *)
Definition promoted_row (T : uuid) : row_rel Task := fun _ old own =>
  old = own \/ exists t now, old = Some t /\ Status t = TaskStatusWaitingForAgents /\ TenantID t = T /\
                            own = Some (touch now (set_task (SetTaskStatus TaskStatusQueued) t)).
Lemma promoted_refl T i o : promoted_row T i o o.
Proof. by left. Qed.
Lemma same_refl {T : Type} i (o : option T) : same_row i o o.
Proof. done. Qed.

(** The tenant has the backend. *)
Definition served (T : uuid) (B : string) d : Prop :=
  exists te, tenants d !! T = Some te /\ PrimaryBackendName te = B.

(** What a lease does when it commits: one shard, queued until then, of a task that
    is under way, of the tenant, which has the backend; tasks of the tenant that were
    waiting for agents may have been promoted. *)
Definition takes (T : uuid) (B A : string) (r : Task * TaskShard) d d' : Prop :=
  exists s t n, served T B d /\ rid r.2 = rid s /\ sh_TaskID r.2 = sh_TaskID s /\ rid r.1 = sh_TaskID s /\
    task_shards d !! rid s = Some s /\ sh_Status s = ShardStatusQueued /\
    tasks d !! sh_TaskID s = Some t /\ TenantID t = T /\ active t /\
    task_shards d' = <[rid s := touch n (leased A s)]> (task_shards d) /\
    (forall i, promoted_row T i (tasks d !! i) (tasks d' !! i)) /\
    tenants d' = tenants d /\ clusters d' = clusters d.

Definition leasing (T : uuid) := stage (promoted_row T) same_row ∅.

Lemma leasing_view T S own old d :
  leasing T S own old -> rc_now S old d -> rowwise (promoted_row T) same_row d (overlay S own d).
Proof. intros Hs Hn. by apply (stage_view _ _ _ _ _ _ _ Hs Hn); intros; [apply promoted_refl|]. Qed.

Lemma leasing_next T S S' own old d :
  leasing T S own old -> rc_now S old d -> leasing T S' (overlay S own d) d.
Proof. intros Hs Hn. apply stage_next; [by apply leasing_view with old|]. set_solver. Qed.

(** A promoted row still belongs to a task that is under way. *)
Lemma promoted_active T i old own (t : Task) :
  promoted_row T i old own -> own = Some t -> active t ->
  exists t0, old = Some t0 /\ active t0 /\ TenantID t0 = TenantID t.
Proof.
  intros [->|(t0 & now & -> & Hw & _ & ->)] Ho Hq; [by exists t|]. exists t0. split; [done|].
  simplify_eq. split; [|done]. unfold active. rewrite Hw. by apply ins_spec.
Qed.

(** The task of a queued shard that was under way still is. *)
Lemma still_active d d' k s s' t :
  onward d d' -> task_shards d !! k = Some s -> task_shards d' !! k = Some s' ->
  sh_Status s' = ShardStatusQueued -> tasks d !! sh_TaskID s = Some t -> active t ->
  sh_TaskID s' = sh_TaskID s /\
  exists t', tasks d' !! sh_TaskID s = Some t' /\ active t' /\ TenantID t' = TenantID t.
Proof.
  intros HO Hk Hk' Hq Ht Hact. destruct (shard_life _ _ _ _ HO Hk) as (s2 & H2 & Hid).
  assert (s2 = s') as -> by congruence. split; [done|].
  destruct (life_task _ _ (on_life _ _ HO) _ t Ht) as (t' & Ht' & _ & _ & HT & _). exists t'.
  split; [done|]. split; [|done].
  destruct (on_active _ _ HO _ t Ht Hact) as [(t2 & H2' & Ha2)|Hall]; [congruence|].
  specialize (Hall k s' Hk' Hid). unfold ended in Hall. rewrite Hq in Hall. by apply ins_spec in Hall.
Qed.

(** The commit of a lease. *)
Lemma takes_lawful T B A r d d' : Inv d -> takes T B A r d d' -> Inv d' /\ life d d'.
Proof.
  intros HI (s & t & n & _ & _ & _ & _ & Hs & Hst & Ht & _ & Hq & Hs' & Ht' & _).
  apply rows_lawful; [done|..].
  - intros i. destruct (Ht' i) as [<-|(x & m & -> & Hw & _ & ->)].
    + destruct (tasks d !! i) as [x|] eqn:Hx; [|done]. split; [reflexivity|]. by apply (inv_task _ HI i).
    + split; [|by apply ins_spec]. repeat split. cbn. rewrite Hw. apply rtc_once. constructor.
  - intros i. rewrite Hs'. destruct (decide (i = rid s)) as [->|Hne].
    + rewrite lookup_insert_eq, Hs. repeat split. cbn. rewrite Hst. apply rtc_once. constructor.
    + rewrite lookup_insert_ne by done. by destruct (task_shards d !! i).
  - intros k x x' y y' Hk Hk' Hy Hy' Hc.
    assert (forall a, compat (Status y') a = compat (Status y) a) as Heq.
    { intros a. specialize (Ht' (sh_TaskID x)). rewrite Hy, Hy' in Ht'.
      destruct Ht' as [[= ->]|(z & m & [= <-] & Hw & _ & [= ->])]; [done|]. by rewrite Hw. }
    rewrite Heq. rewrite Hs' in Hk'. destruct (decide (k = rid s)) as [->|Hne].
    + rewrite lookup_insert_eq in Hk'. simplify_eq. unfold active, shardQueryStatuses in Hq.
      statuses; by rewrite Hq.
    + rewrite lookup_insert_ne in Hk' by done. congruence.
Qed.

Lemma not_ended_queued s : sh_Status s = ShardStatusQueued -> ~ ended s.
Proof. unfold ended. intros ->. by apply ins_false. Qed.
Lemma not_ended_leased s : sh_Status s = ShardStatusLeased -> ~ ended s.
Proof. unfold ended. intros ->. by apply ins_false. Qed.

Lemma takes_onward T B A r d d' :
  Inv d -> takes T B A r d d' -> Inv d' /\ onward d d' /\ forall k, steady k d d'.
Proof.
  intros HI Htk. destruct (takes_lawful _ _ _ _ _ _ HI Htk) as [HI' HL]. split; [done|].
  destruct Htk as (s & t & n & _ & _ & _ & _ & Hs & Hst & _ & _ & _ & Hs' & Ht' & Htn & _).
  destruct (shard_put_onward d d' (rid s) s (touch n (leased A s))) as [Ho Hsteady]; try done.
  - by apply not_ended_queued.
  - intros j x x' Hx Ha Hx' Hf. exfalso. specialize (Ht' j). rewrite Hx, Hx' in Ht'.
    destruct Ht' as [[= ->]|(z & m & [= <-] & Hw & _ & [= ->])]; [|done].
    unfold active in Ha. rewrite Hf in Ha. by apply ins_spec in Ha.
  - split; [done|]. intros k. apply Hsteady. right. by apply not_ended_leased.
Qed.

Lemma leasing_commit T B A task (s x : TaskShard) t n S v d :
  rid x = rid s -> sh_TaskID x = sh_TaskID s -> rid task = sh_TaskID s ->
  task_shards d !! rid s = Some x -> sh_Status x = ShardStatusQueued ->
  tasks d !! sh_TaskID s = Some t -> TenantID t = T -> active t -> served T B d ->
  stage (promoted_row T) (set_row (rid s) (Some x) (Some (touch n (leased A x)))) {[(TShards, rid s)]} S v d ->
  rc_effect (takes T B A (task, leased A s)) S v d.
Proof.
  intros Hr Hid Htask Hx Hq Ht HT Ha HB Hst. eapply stage_commit; [exact Hst|..].
  - intros i a _. apply promoted_refl.
  - intros i a Hi. apply set_row_refl. set_solver.
  - intros d2 d' HI Ho (Ht2 & Hs2 & Hn & Hc). apply set_rows_spec in Hs2 as [Hx2 Hs2].
    destruct (still_active d d2 (rid s) x x t Ho Hx Hx2 Hq) as (_ & t2 & Htt & Ha2 & HT2);
      [by rewrite Hid|done|].
    assert (takes T B A (task, leased A s) d2 d') as Htk.
    { exists x, t2, n. rewrite Hr. rewrite Hid in *. split_and!; try done; [|congruence].
      destruct HB as (te & ? & ?). exists te. by rewrite (on_tenants _ _ Ho). }
    destruct (takes_onward _ _ _ _ _ _ HI Htk) as (? & ? & Hst2). split_and!; auto.
Qed.

(** From the statement that takes the shard, or asks for another. *)
Definition lease_promise (T : uuid) (B A : string) := commits (fun r => rc_effect (takes T B A r)).

Lemma rcwp_take_shard T B A n task (s : TaskShard) (t : Task) d S own old :
  (forall S own old, leasing T S own old ->
     rc_wp (lease_loop T B A n) (lease_promise T B A) S own old) ->
  rid task = sh_TaskID s -> task_shards d !! rid s = Some s -> tasks d !! sh_TaskID s = Some t ->
  TenantID t = T -> active t -> served T B d -> leasing T S own old -> onward d old ->
  rc_wp
    (if negb (ins (Status task) shardQueryStatuses) then lease_loop T B A n
     else
       n1 <-? Updates (fun x => bool_decide (rid x = rid s) && (sh_Status x =s ShardStatusQueued))
                (leased A) # wrapf "lease shard" ;;
       if (n1 =? 0)%Z then lease_loop T B A n else Ret (Ok (task, leased A s)))
    (lease_promise T B A) S own old.
Proof.
  intros IH Htask Hk Ht HT Hq HB Hle Hon. destruct (negb _); [by apply IH|].
  assert (forall d, rc_now S old d -> task_shards (overlay S own d) = task_shards d) as Hsame.
  { intros d4 Hn. apply same_rows. apply (leasing_view _ _ _ _ _ Hle Hn). }
  apply rcwp_bindR, (rcwp_Updates_at _ _ _ TShards) with (rid s); try done.
  - intros r Hr. by clean.
  - intros d4 Hn. change (sane (task_shards (overlay S own d4))). rewrite Hsame by done.
    apply inv_sane_shards, Hn.
  - intros d4 S4 Hn HS _. rewrite Z.eqb_refl. by apply IH, leasing_next with old.
  - intros tm d4 S4 x m Hn HS Hx Hp Hm Hlock. rewrite (proj2 (Z.eqb_neq m 0)) by lia. cbn [rcwp].
    change (task_shards (overlay S own d4) !! rid s = Some x) in Hx.
    change (rows (overlay S own d4)) with (task_shards (overlay S own d4)).
    pose proof (leasing_view _ _ _ _ _ Hle Hn) as (Hpt & _ & Htn & Hcl).
    set (v := overlay S own d4) in *. rewrite (Hsame d4 Hn : task_shards v = _) in *.
    destruct Hn as (HI4 & Ho4 & _). destruct (inv_shard _ HI4 _ x Hx) as [Hr _]. clean.
    assert (onward d d4) as Hdd by (by etrans).
    destruct (still_active d d4 (rid s) s x t Hdd Hk Hx) as (Hid & t' & Ht' & Ha' & HT'); try done.
    apply (leasing_commit T B A task s x t' tm); try done; [congruence| |].
    { destruct HB as (te & ? & ?). exists te. by rewrite (on_tenants _ _ Hdd). }
    apply stage_next.
    + split; [exact Hpt|]. split; [|by split]. by apply set_rows_spec.
    + apply singleton_subseteq_l, Hlock. intros Heq. apply (f_equal sh_Status) in Heq.
      by replace (sh_Status x) with ShardStatusQueued in Heq.
Qed.

(** A promotion is a row a lease may have written. *)
Lemma promoting (T : uuid) (d v : DB) (id : uuid) n :
  (forall i t, tasks d !! i = Some t -> rid t = id -> TenantID t = T) ->
  rowwise (promoted_row T) same_row d v ->
  rowwise (promoted_row T) same_row d
    (set_tasks (update_rows (fun t : Task => bool_decide (rid t = id) && (Status t =s TaskStatusWaitingForAgents))
       (fun t => touch n (assign_task [SetTaskStatus TaskStatusQueued] t)) (tasks v)) v).
Proof.
  intros HT (Ht & Hs & Hn & Hc). split; [|by split_and!]. intros i. specialize (Ht i). cbn [tasks set_tasks].
  rewrite lookup_update_rows. destruct (tasks v !! i) as [t|] eqn:Hi; [|exact Ht].
  cbn [fmap option_fmap option_map]. destruct (live t && _) eqn:Hp; [|exact Ht]. clean.
  destruct Ht as [Hd|(t0 & n0 & _ & _ & _ & [= ->])]; [|done]. right. exists t, n.
  split_and!; try done. by apply (HT i).
Qed.

Lemma rcwp_lease_loop T B A n S own old :
  leasing T S own old -> rc_wp (lease_loop T B A n) (lease_promise T B A) S own old.
Proof.
  revert S own old. induction n as [|n IH]; intros S own old Hle; [done|]. cbn [lease_loop].
  apply rcwp_bindR, rcwp_stmt; [done|]. intros d S1 Hnow _ v _. cbn [fst snd].
  destruct (leasing_view _ _ _ _ _ Hle Hnow) as (Ht & Hs & Htn & _). apply same_rows in Hs. fold v in Ht, Hs, Htn.
  destruct (lease_candidates T B _) as [|[s t] rest] eqn:Hc; [done|].
  destruct (candidate_spec T B v s t ltac:(rewrite Hc; left))
    as ([k Hk] & _ & Hst & Htv & HT & Hq & te & Hte & HB).
  rewrite Hs in Hk. apply lease_shard_row in Hk; [|apply Hnow].
  destruct (promoted_active _ _ _ _ t (Ht (sh_TaskID s)) Htv Hq) as (t0 & Ht0 & Hq0 & HT0).
  pose proof (leasing_next _ _ S1 _ _ _ Hle Hnow) as Hle1. fold v in Hle1.
  apply rcwp_bindR, rcwp_First; [done..|]. intros d2 S2 r Hnow2 _ Hr.
  apply elem_matching in Hr as (_ & _ & Hp). clean.
  pose proof (leasing_next _ _ S2 _ _ _ Hle1 Hnow2) as Hle2. destruct Hnow2 as (_ & Ho2 & _).
  assert (TenantID t0 = T) as HT1 by congruence.
  assert (served T B d) as Hser by (exists te; split; [congruence|done]).
  apply rcwp_bindR. unfold promote_task. destruct (_ =s _).
  - apply rcwp_bindR, rcwp_Updates; [done|]. intros tm d3 S3 Hnow3 _ v3 v3' _. cbn [rcwp].
    apply (rcwp_take_shard T B A n _ s t0 d); try done.
    + apply stage_next; [|set_solver]. apply promoting; [|by apply leasing_view with (old := d2)].
      intros i x Hx Hi. destruct (inv_task _ (proj1 Hnow3) i x Hx) as [<- _].
      destruct (life_task d d3) with (k := sh_TaskID s) (t := t0) as (x' & Hx' & _ & _ & HTx & _); [|done|congruence].
      apply (on_life d d3). etrans; [exact Ho2|apply Hnow3].
    + etrans; [exact Ho2|apply Hnow3].
  - cbn [rcwp]. by apply (rcwp_take_shard T B A n _ s t0 d).
Qed.
End Lease.

(** ** Cancellations *)
Section Cancel.
Context `{E : Env, L : !EnvLaws E} {O : Observed}.
Implicit Types (d : DB) (S : gset key).
#[local] Arguments cancelled_task : simpl never.
#[local] Arguments cancelled_shard : simpl never.

Definition cancel_row (id : uuid) (a n : Z) (s : TaskShard) : TaskShard :=
  if live s && cancels id s then touch n (cancelled_shard a s) else s.
Definition cancel_rows (id : uuid) (a n : Z) : row_rel TaskShard :=
  fun _ o o' => o' = cancel_row id a n <$> o.

(** The first UPDATE has the task, and nothing else. *)
Definition cancelling (T id : uuid) S own old : Prop :=
  exists t a n, tasks old !! id = Some t /\ TenantID t = T /\ (Status t ∉ terminal_statuses) /\
    stage (set_row id (Some t) (Some (touch n (cancelled_task a t)))) same_row {[(TTasks, id)]} S own old.

Lemma cancels_spec id s : cancels id s = true <-> sh_TaskID s = id /\ ~ ended s.
Proof.
  unfold cancels, ended. rewrite andb_true_iff, bool_decide_eq_true, negb_true_iff.
  by rewrite ins_false.
Qed.

Lemma cancelled_onward T id d d' :
  Inv d -> cancelled T id d d' ->
  Inv d' /\ onward d d' /\ forall k, (TTasks, k) ∉ ({[(TTasks, id)]} : gset key) -> steady k d d'.
Proof.
  intros HI Hcan. destruct (cancelled_lawful _ _ _ _ HI Hcan) as [HI' HL]. split; [done|].
  destruct Hcan as (t & a1 & n1 & a2 & n2 & Ht & _ & _ & Ht' & Hs' & Htn & _).
  assert (forall i, task_shards d' !! i = cancel_row id a2 n2 <$> task_shards d !! i) as Hrow.
  { intros i. rewrite Hs'. apply lookup_update_rows. }
  split; [split; [done|..|done]|].
  - intros k s Hk He. rewrite Hrow, Hk. cbn. unfold cancel_row.
    destruct (cancels id s) eqn:Hc; [by apply cancels_spec in Hc as [_ ?]|]. by rewrite andb_false_r.
  - intros k s Hk Hn. rewrite Hrow, Hn in Hk. done.
  - intros k x Hk Ha. apply (active_onward d d' k x); [done..|]. intros x' Hk' Hf.
    destruct (decide (k = id)) as [->|Hne].
    + rewrite Ht', lookup_insert_eq in Hk'. injection Hk' as <-. done.
    + rewrite Ht', lookup_insert_ne in Hk' by done. assert (x' = x) as -> by congruence.
      unfold active in Ha. rewrite Hf in Ha. by apply ins_spec in Ha.
  - intros k Hk j s Hj Hid Hn. exists s. rewrite Hrow, Hj. cbn. unfold cancel_row.
    destruct (cancels id s) eqn:Hc; [|by rewrite andb_false_r; split_and!].
    apply cancels_spec in Hc as [Hc _]. destruct Hk. rewrite <-Hid, Hc. set_solver.
Qed.

(** The commit, once all shards of the task that have not ended are locked. *)
Lemma cancel_commit T id t a n a2 n2 S v d :
  Inv d -> tasks d !! id = Some t -> TenantID t = T -> Status t ∉ terminal_statuses ->
  rowwise (set_row id (Some t) (Some (touch n (cancelled_task a t)))) (cancel_rows id a2 n2) d v ->
  (TTasks, id) ∈ S ->
  (forall i s, task_shards d !! i = Some s -> cancels id s = true -> (TShards, i) ∈ S) ->
  rc_effect (cancelled T id) S v d.
Proof.
  intros HI Ht HT Hnt Hrow Hin Hall d2 (HI2 & Ho & HK & _) d'.
  assert (rowwise (set_row id (Some t) (Some (touch n (cancelled_task a t)))) (cancel_rows id a2 n2) d2 d')
    as (Ht2 & Hs2 & Hn & Hc).
  { apply (wrote_rowwise _ _ S v d); [by apply rowwise_wrote|..].
    - intros x Hx. by apply lock_right_row, HK.
    - intros i Hi. apply set_row_refl. congruence.
    - intros i Hi. unfold cancel_rows. destruct (task_shards d2 !! i) as [s|] eqn:Hs; [|done]. cbn.
      unfold cancel_row. destruct (cancels id s) eqn:Hcs; [|by rewrite andb_false_r]. exfalso.
      pose proof Hcs as Hcs'. apply cancels_spec in Hcs' as [Hid He].
      destruct (task_shards d !! i) as [s0|] eqn:H0.
      + destruct (shard_life _ _ _ _ Ho H0) as (s' & Hs' & Hid'). assert (s' = s) as -> by congruence.
        destruct (decide (ended s0)) as [He0|He0].
        * pose proof (on_ended _ _ Ho i s0 H0 He0). congruence.
        * apply Hi. apply (Hall i s0 H0). apply cancels_spec. by rewrite <-Hid'.
      + pose proof (on_new _ _ Ho i s Hs H0) as Hnew. rewrite Hid in Hnew. congruence. }
  apply set_rows_spec in Ht2 as [Htd2 Ht2].
  assert (cancelled T id d2 d') as Hcan.
  { exists t, a, n, a2, n2. split_and!; try done. apply map_eq. intros i. rewrite lookup_update_rows.
    apply Hs2. }
  destruct (cancelled_onward _ _ _ _ HI2 Hcan) as (? & ? & Hst). split_and!; [done..|].
  intros x Hx. split; [by apply overlay_row|]. intros Hxt. apply Hst. destruct x as [m k]. cbn in Hxt.
  subst m. intros Hk. apply elem_of_singleton in Hk. injection Hk as ->. done.
Qed.

Lemma rcwp_CancelTaskShards T id S own old :
  cancelling T id S own old ->
  rc_wp (CancelTaskShardsByTaskId id) (commits (fun _ => rc_effect (cancelled T id))) S own old.
Proof.
  intros (t & a & n & Ht & HT & Hnt & Hst). unfold CancelTaskShardsByTaskId.
  apply rcwp_bind. cbn [rcwp now]. intros a2. apply rcwp_bindR, rcwp_Updates; [done|].
  intros n2 d S' Hnow HS v v' Hch. cbn [rcwp commits].
  pose proof Hst as [_ HinS]. apply singleton_subseteq_l in HinS.
  assert (rowwise (set_row id (Some t) (Some (touch n (cancelled_task a t)))) same_row d v)
    as (Hv1 & Hv2 & Hv3 & Hv4).
  { apply (stage_view _ _ _ _ _ _ _ Hst Hnow); [|done]. intros i o Hi. apply set_row_refl.
    intros ->. set_solver. }
  destruct Hnow as (HI & Ho & HK & _). apply same_rows in Hv2.
  assert (tasks d !! id = Some t) as Htd.
  { rewrite <-Ht. symmetry. exact (lock_right_row _ _ _ (HK _ HinS)). }
  assert (forall i, task_shards v' !! i = cancel_row id a2 n2 <$> task_shards d !! i) as Hv'.
  { intros i. rewrite <-Hv2. apply lookup_update_rows. }
  apply (cancel_commit T id t a n a2 n2); try done; [by apply HS|].
  intros i s Hi Hc. apply Hch. unfold row_same. cbn [fst snd]. rewrite Hv2, Hv', Hi. cbn.
  destruct (inv_shard _ HI i s Hi) as [_ Hl]. unfold cancel_row. rewrite Hl, Hc. cbn [andb].
  intros [= Heq]. apply (f_equal sh_Status) in Heq. apply cancels_spec in Hc as [_ Hc].
  apply Hc. unfold ended. rewrite Heq. by apply ins_spec.
Qed.

Lemma rcwp_cancel_body T id old :
  rc_wp (cancel_body T id) (commits (fun _ => rc_effect (cancelled T id))) ∅ old old.
Proof.
  unfold cancel_body, CancelTaskById. apply rcwp_bindR, rcwp_bind. cbn [rcwp now]. intros a.
  apply rcwp_bindR, (rcwp_Updates_at _ _ _ TTasks) with id; try done.
  - intros t Ht. by clean.
  - intros d Hn. rewrite overlay_empty. apply inv_sane_tasks, Hn.
  - intros d S' _ _ _. rewrite Z.eqb_refl. apply rcwp_bindR. by apply rcwp_First.
  - intros n d S' t m Hn _. rewrite overlay_empty. intros Ht Hp Hm Hlock. clean.
    rewrite (proj2 (Z.eqb_neq m 0)) by lia. cbn [rcwp]. apply rcwp_CancelTaskShards.
    exists t, a, n. split_and!; try done. apply stage_next.
    + split; [by apply set_rows_spec|]. by split_and!.
    + apply singleton_subseteq_l, Hlock. intros Heq. apply (f_equal Status) in Heq.
      match goal with Hx : Status t ∉ _ |- _ => apply Hx end. rewrite <-Heq. by apply ins_spec.
Qed.
End Cancel.

(** ** Before the first write *)
Section Untouched.
Context `{E : Env, L : !EnvLaws E} {O : Observed}.
Implicit Types (d : DB) (S : gset key).

(** Nothing written yet, and the locks [L] held. *)
Definition untouched := stage same_row same_row.

Lemma untouched_view LS S own old d :
  untouched LS S own old -> rc_now S old d -> overlay S own d = d.
Proof.
  intros Hs Hn. destruct (stage_view _ _ _ _ _ _ _ Hs Hn) as (Ht & Hsh & Hn' & Hc); [done..|].
  apply same_rows in Ht, Hsh. destruct (overlay S own d), d. cbn in *. congruence.
Qed.
Lemma untouched_here LS S d : LS ⊆ S -> untouched LS S d d.
Proof. intros HL. by apply stage_next; [split; [|split]|]. Qed.
Lemma untouched_begin own old : untouched ∅ ∅ own old.
Proof. split; [apply wrote_empty|done]. Qed.

(** A transition of a shard, from where nothing has been written: the row goes from
    a status of [current] to the target, and is locked. *)
Definition transitioned (target : string) (us : list shard_set) (n : Z) (s : TaskShard) : TaskShard :=
  touch n (assign_shard (us ++ [SetShardStatus target]) s).

Lemma rcwp_transitionStatus (id : uuid) (target : string) (current : list string) (us : list shard_set) (Q : res unit -> gset key -> DB -> DB -> Prop) LS S own old :
  untouched LS S own old -> (target ∉ current) ->
  (forall s n, sh_Status (transitioned target us n s) = target) ->
  (forall e S own old, Q (Err e) S own old) ->
  (forall n d S' s, rc_now S old d -> S ⊆ S' -> task_shards d !! id = Some s -> sh_Status s ∈ current ->
     (TShards, id) ∈ S' ->
     Q (Ok tt) S' (set_task_shards (<[id := transitioned target us n s]> (task_shards d)) d) d) ->
  rc_wp (transitionStatus id target current us) Q S own old.
Proof.
  intros Hu Hnt Htgt He HQ. apply rcwp_bindR, (rcwp_Updates_at _ _ _ TShards) with id; try done.
  - intros s Hs. by clean.
  - intros d Hn. rewrite (untouched_view _ _ _ _ _ Hu Hn). apply inv_sane_shards, Hn.
  - intros d S' Hn HS _. rewrite Z.eqb_refl. apply rcwp_bindR. apply rcwp_First; intros; apply He.
  - intros n d S' s m Hn HS. rewrite (untouched_view _ _ _ _ _ Hu Hn). intros Hs Hp Hm Hlock. clean.
    rewrite (proj2 (Z.eqb_neq m 0)) by lia. cbn [rcwp]. apply HQ; try done. apply Hlock. intros Heq.
    apply (f_equal sh_Status) in Heq. apply Hnt. rewrite <-(Htgt s n). unfold transitioned.
    by rewrite Heq.
Qed.
End Untouched.

(** ** Roll-backs *)
Section Rollback.
Context `{E : Env, L : !EnvLaws E} {O : Observed}.
Implicit Types (d : DB) (S : gset key).
#[local] Arguments requeued : simpl never.

(** The shard is queued again.  If the caller has read that its task was waiting for
    agents, the task is waiting for agents again, unless it was not QUEUED when the
    second UPDATE looked at it, which can be earlier than the commit. *)
Definition unqueued (id : uuid) d : Prop :=
  forall t, tasks d !! id = Some t -> Status t <> TaskStatusQueued.
Definition rolled_back (id : uuid) (current : list string) (task : Task) d d' : Prop :=
  exists s n, task_shards d !! id = Some s /\ sh_Status s ∈ current /\
    task_shards d' = <[id := touch n (requeued s)]> (task_shards d) /\
    ((tasks d' = tasks d /\ (Status task <> TaskStatusWaitingForAgents \/ before (unqueued (rid task)) d)) \/
     (Status task = TaskStatusWaitingForAgents /\ exists t m,
       tasks d !! rid task = Some t /\ Status t = TaskStatusQueued /\
       tasks d' = <[rid task := touch m (set_task (SetTaskStatus TaskStatusWaitingForAgents) t)]> (tasks d))) /\
    tenants d' = tenants d /\ clusters d' = clusters d.

Definition held (current : list string) : Prop :=
  Forall (fun x => x ∈ [ShardStatusLeased; ShardStatusRunning]) current.

Lemma rolled_back_onward id current task d d' :
  held current -> Inv d -> rolled_back id current task d d' ->
  Inv d' /\ onward d d' /\ forall k, steady k d d'.
Proof.
  intros Hcur HI (s & n & Hs & Hst & Hs' & Hts & Htn & _).
  assert (tasks d' = tasks d \/ exists t m, tasks d !! rid task = Some t /\ Status t = TaskStatusQueued /\
            tasks d' = <[rid task := touch m (set_task (SetTaskStatus TaskStatusWaitingForAgents) t)]> (tasks d))
    as Ht' by (destruct Hts as [[? _]|[_ ?]]; auto).
  clear Hts.
  assert (sh_Status s ∈ [ShardStatusLeased; ShardStatusRunning]) as Hin
    by (unfold held in Hcur; rewrite Forall_forall in Hcur; auto).
  destruct (put_shard d (set_task_shards (task_shards d') d) id s (touch n (requeued s))) as [HI1 HL1]; try done.
  { repeat split. change (rtc shard_step (sh_Status s) ShardStatusQueued). apply rtc_once. by constructor. }
  { intros t Ht. destruct (compat_parent _ _ _ HI Hs) as (x & Hx & _ & _ & Hts & Hc).
    assert (x = t) as -> by congruence. change (compat (Status t) ShardStatusQueued = true).
    unfold task_statuses in Hts.
    statuses; rewrite Hts, Hin in Hc; cbn in Hc; (done || by rewrite Hts). }
  assert (Inv d' /\ life d d') as [HI' HL].
  { destruct Ht' as [Ht'|(t & m & Ht & Hq & Ht')].
    - split; [by apply (same_tables_inv (set_task_shards (task_shards d') d))|].
      etrans; [exact HL1|by apply same_tables_life].
    - destruct (put_task (set_task_shards (task_shards d') d) d' (rid task) t
        (touch m (set_task (SetTaskStatus TaskStatusWaitingForAgents) t))) as [? HL2]; try done.
      + repeat split. cbn. rewrite Hq. apply rtc_once. constructor.
      + by apply ins_spec.
      + intros ks x Hk Hid. destruct (inv_parent _ HI1 ks x Hk) as (y & Hy & Hc). rewrite Hid in Hy.
        cbn in Hy. assert (y = t) as -> by congruence. by rewrite Hq in Hc.
      + split; [done|]. by etrans. }
  split; [done|].
  destruct (shard_put_onward d d' id s (touch n (requeued s))) as [Ho Hsteady]; try done.
  - unfold ended. intros He. unfold terminal_statuses in He. statuses; by rewrite He in Hin.
  - intros j x x' Hx Ha Hx' Hf. exfalso. destruct Ht' as [Ht'|(t & m & Ht & Hq & Ht')].
    + assert (x' = x) as -> by congruence. unfold active in Ha. rewrite Hf in Ha. by apply ins_spec in Ha.
    + rewrite Ht' in Hx'. destruct (decide (j = rid task)) as [->|Hne].
      * rewrite lookup_insert_eq in Hx'. by injection Hx' as <-.
      * rewrite lookup_insert_ne in Hx' by done. assert (x' = x) as -> by congruence.
        unfold active in Ha. rewrite Hf in Ha. by apply ins_spec in Ha.
  - split; [done|]. intros k. apply Hsteady. right. by apply not_ended_queued.
Qed.

Lemma rcwp_RollbackShardWithTask id current task own old :
  held current ->
  rc_wp (RollbackShardWithTask id current task)
    (commits (fun _ => rc_effect (rolled_back id current task))) ∅ own old.
Proof.
  intros Hcur. unfold RollbackShardWithTask, RollbackToQueued. apply rcwp_bindR.
  apply rcwp_transitionStatus with ∅; [apply untouched_begin|..|done|].
  { unfold held in Hcur. rewrite Forall_forall in Hcur. intros Hq. apply Hcur in Hq. by apply ins_spec in Hq. }
  { done. }
  intros n d S s Hn HS Hs Hst Hin. change (transitioned _ _ n s) with (touch n (requeued s)).
  set (P := set_row id (Some s) (Some (touch n (requeued s)))).
  set (v := set_task_shards _ d).
  assert (forall i a, (TShards, i) ∉ ({[(TShards, id)]} : gset key) -> P i a a) as Hrefl.
  { intros i a Hi. apply set_row_refl. set_solver. }
  assert (forall S v d, stage same_row P {[(TShards, id)]} S v d ->
            Status task <> TaskStatusWaitingForAgents \/ (observed d /\ unqueued (rid task) d) ->
            rc_effect (rolled_back id current task) S v d) as Hnot.
  { intros S1 v1 d1 Hsg Hwhy. eapply stage_commit; [exact Hsg|done|exact Hrefl|].
    intros d2 d' HI Ho (Ht2 & Hs2 & Hn2 & Hc2). apply same_rows in Ht2. apply set_rows_spec in Hs2 as [? ?].
    assert (rolled_back id current task d2 d') as Hr.
    { exists s, n. split_and!; auto. left. split; [done|]. destruct Hwhy as [|[? ?]]; [by left|right].
      by exists d1. }
    destruct (rolled_back_onward _ _ _ _ _ Hcur HI Hr) as (? & ? & ?). by split_and!. }
  assert (stage same_row P {[(TShards, id)]} S v d) as Hsg.
  { apply stage_next; [|set_solver]. split; [done|]. split; [by apply set_rows_spec|done]. }
  destruct (_ =s _) eqn:Hwait; [|apply Hnot; [done|left; by apply eqs_neq]].
  apply eqs_spec in Hwait. unfold RollbackTaskToWaiting.
  assert (forall d2, rc_now S d d2 -> rowwise same_row P d2 (overlay S v d2)) as Hview.
  { intros d2 Hn2. by apply (stage_view _ _ _ _ _ _ _ Hsg Hn2). }
  assert (forall d2, rc_now S d d2 -> tasks (overlay S v d2) = tasks d2) as Htv.
  { intros d2 Hn2. apply same_rows, (Hview d2 Hn2). }
  clearbody v. apply rcwp_bind, rcwp_bindR, (rcwp_Updates_at _ _ _ TTasks) with (rid task); try done.
  - intros t Ht. by clean.
  - intros d2 Hn2. change (sane (tasks (overlay S v d2))). rewrite Htv by done.
    apply inv_sane_tasks, Hn2.
  - intros d2 S2 Hn2 HS2 Hno. apply Hnot; [apply stage_next; [by apply Hview|set_solver]|].
    right. split; [apply Hn2|]. intros t Ht Hq. rewrite <-(Htv d2 Hn2) in Ht. specialize (Hno t Ht).
    destruct (inv_task _ (proj1 Hn2) (rid task) t) as (Hr & _); [by rewrite <-(Htv d2 Hn2)|].
    by rewrite Hr, bool_decide_true, Hq in Hno.
  - intros m d2 S2 t k Hn2 HS2 Ht Hp Hk Hlock. clean. destruct (Z.gtb_spec k 0); [|lia].
    cbn [rcwp]. change (tasks (overlay S v d2) !! rid task = Some t) in Ht. rewrite Htv in Ht by done.
    destruct (Hview d2 Hn2) as (_ & Hs2 & Hn3 & Hc3).
    change (rows (overlay S v d2)) with (tasks (overlay S v d2)). rewrite (Htv d2 Hn2).
    set (t' := touch m _).
    eapply (stage_commit _ (set_row (rid task) (Some t) (Some t')) P {[(TTasks, rid task); (TShards, id)]}).
    + apply stage_next; [split; [by apply set_rows_spec|by split]|].
      assert ((TTasks, rid task) ∈ S2) as Hin2; [|set_solver].
      apply Hlock. intros Heq. apply (f_equal Status) in Heq.
      match goal with Hq : Status t = _ |- _ => rewrite Hq in Heq end. done.
    + intros i a Hi. apply set_row_refl. set_solver.
    + intros i a Hi. apply Hrefl. set_solver.
    + intros d3 d' HI Ho (Ht3 & Hs3 & Hn4 & Hc4). apply set_rows_spec in Ht3 as [? ?], Hs3 as [? ?].
      assert (rolled_back id current task d3 d') as Hr.
      { exists s, n. split_and!; auto. right. split; [done|]. exists t, m. by split_and!. }
      destruct (rolled_back_onward _ _ _ _ _ Hcur HI Hr) as (? & ? & ?). by split_and!.
Qed.
End Rollback.

(** ** The scheduler's UPDATE of pending tasks *)
Section Mark.
Context `{E : Env, L : !EnvLaws E} {O : Observed}.
Implicit Types (d : DB) (S : gset key).

Definition to_mark (ids : list uuid) (t : Task) : bool :=
  live t && (bool_decide (rid t ∈ ids) && (Status t =s TaskStatusPending)).
Definition marked_task (status err : string) (n : Z) (t : Task) : Task :=
  touch n (assign_task [SetTaskStatus status; SetTaskLastError err] t).

(** The pending tasks of the list that were there when the UPDATE ran are marked, and
    no other row changes. *)
Definition marks (ids : list uuid) (status err : string) d d' : Prop :=
  (forall i, (tasks d' !! i = tasks d !! i /\
        forall t, tasks d !! i = Some t -> to_mark ids t = true -> before (fun d1 => tasks d1 !! i = None) d) \/
     exists t n, tasks d !! i = Some t /\ to_mark ids t = true /\ tasks d' !! i = Some (marked_task status err n t)) /\
  task_shards d' = task_shards d /\ tenants d' = tenants d /\ clusters d' = clusters d.

Lemma to_mark_pending ids t : to_mark ids t = true -> Status t = TaskStatusPending.
Proof. unfold to_mark. intros Hp. by clean. Qed.

Lemma marks_onward ids status err d d' :
  status ∈ [TaskStatusWaitingForAgents; TaskStatusFailed] ->
  Inv d -> marks ids status err d d' -> Inv d' /\ onward d d' /\ forall k, steady k d d'.
Proof.
  intros Hst HI (Ht & Hs & Htn & _).
  assert (Inv d' /\ life d d') as [HI' HL].
  { apply rows_lawful; [done|..].
    - intros i. destruct (Ht i) as [[-> _]|(t & n & -> & Hp%to_mark_pending & ->)].
      + destruct (tasks d !! i) as [t|] eqn:Hi; [|done]. split; [reflexivity|]. by apply (inv_task _ HI i).
      + split; [|change (status ∈ task_statuses); statuses; by apply ins_spec]. repeat split.
        change (rtc task_step (Status t) status). rewrite Hp. apply rtc_once. statuses; constructor.
    - intros i. rewrite Hs. by destruct (task_shards d !! i).
    - intros k s s' t t' Hk Hk' Hkt Hkt' Hc. assert (s' = s) as -> by congruence.
      specialize (Ht (sh_TaskID s)). rewrite Hkt, Hkt' in Ht.
      destruct Ht as [[[= ->] _]|(x & n & [= <-] & Hp%to_mark_pending & [= ->])]; [done|].
      change (compat status (sh_Status s) = true). rewrite Hp in Hc. unfold compat in Hc.
      apply ins_spec in Hc. cbn in Hc. statuses; by rewrite Hc. }
  split; [done|]. apply shards_same_onward; [done..|]. intros j t t' Hj Ha Hj' Hf. exfalso.
  specialize (Ht j). rewrite Hj, Hj' in Ht.
  destruct Ht as [[[= ->] _]|(x & n & [= <-] & Hp%to_mark_pending & _)]; unfold active in Ha.
  - rewrite Hf in Ha. by apply ins_spec in Ha.
  - rewrite Hp in Ha. by apply ins_spec in Ha.
Qed.

(** A task that is pending now was pending when it was there before. *)
Lemma was_pending d d' i t t0 :
  life d d' -> tasks d !! i = Some t0 -> tasks d' !! i = Some t -> Status t = TaskStatusPending ->
  Status t0 = TaskStatusPending.
Proof.
  intros HL Hi Hi' Hp. destruct (life_task _ _ HL i t0 Hi) as (t' & Ht' & _ & _ & _ & _ & _ & Hr).
  assert (t' = t) as -> by congruence. destruct (decide (Status t0 = TaskStatusPending)) as [|Hn]; [done|].
  by destruct (not_pending _ _ Hr Hn).
Qed.

Lemma mark_commit ids status err n S v d :
  status ∈ [TaskStatusWaitingForAgents; TaskStatusFailed] -> Inv d -> observed d ->
  (forall i, tasks v !! i = (fun t => if to_mark ids t then marked_task status err n t else t) <$> tasks d !! i) ->
  task_shards v = task_shards d -> tenants v = tenants d -> clusters v = clusters d ->
  (forall i t, tasks d !! i = Some t -> to_mark ids t = true -> (TTasks, i) ∈ S) ->
  rc_effect (marks ids status err) S v d.
Proof.
  intros Hst HI Hob Hv Hvs Hvt Hvc Hall d2 (HI2 & Ho & HK & _) d'.
  set (Pt := fun i (o o' : option Task) =>
    (o' = o /\ forall t, o = Some t -> to_mark ids t = true -> before (fun d1 => tasks d1 !! i = None) d2) \/
    exists t n, o = Some t /\ to_mark ids t = true /\ o' = Some (marked_task status err n t)).
  assert (rowwise Pt same_row d2 d') as (Ht & Hs & Htn & Hcl).
  { apply (wrote_rowwise _ _ S v d).
    - apply rowwise_wrote. split; [|by split; [intros i; rewrite Hvs|]]. intros i. rewrite Hv.
      destruct (tasks d !! i) as [t|] eqn:Hi; [|by left]. cbn.
      destruct (to_mark ids t) eqn:Hm; [right; by exists t, n|]. left. split; [done|]. congruence.
    - intros x Hx. by apply lock_right_row, HK.
    - intros i Hi. left. split; [done|]. intros t Ht Hm. exists d. split; [done|]. split; [done|].
      destruct (tasks d !! i) as [t0|] eqn:H0; [exfalso|done]. apply Hi, (Hall i t0 H0).
      destruct (inv_task _ HI i t0 H0) as (Hr0 & Hl0 & _), (inv_task _ HI2 i t Ht) as (Hr & _).
      pose proof (was_pending _ _ _ _ _ (on_life _ _ Ho) H0 Ht (to_mark_pending _ _ Hm)) as Hp0.
      unfold to_mark in *. clean. rewrite Hl0, Hp0, Hr0. cbn. rewrite andb_true_r.
      apply bool_decide_eq_true. congruence.
    - done. }
  apply same_rows in Hs. assert (marks ids status err d2 d') as Hm by by split.
  destruct (marks_onward _ _ _ _ _ Hst HI2 Hm) as (? & ? & ?). split_and!; [done..|].
  intros x Hx. split; [by apply overlay_row|]. auto.
Qed.

Lemma rcwp_MarkTasksStatus ids status err own old :
  status ∈ [TaskStatusWaitingForAgents; TaskStatusFailed] ->
  rc_wp (MarkTasksStatus ids status err) (commits (fun _ => rc_effect (marks ids status err))) ∅ own old.
Proof.
  intros Hst. unfold MarkTasksStatus. case_bool_decide as Hnil.
  { eapply (stage_commit _ same_row same_row ∅); [apply untouched_begin|done..|].
    intros d d' HI _ (Ht & Hs & Htn & Hc). apply same_rows in Ht, Hs.
    assert (marks ids status err d d') as Hm.
    { split; [|done]. intros i. left. rewrite Ht. split; [done|]. intros t _. rewrite Hnil. unfold to_mark.
      rewrite bool_decide_false; [by destruct (live t)|]. by intros Hin%not_elem_of_nil. }
    destruct (marks_onward _ _ _ _ _ Hst HI Hm) as (? & ? & ?). by split_and!. }
  apply rcwp_bindR, rcwp_Updates; [done|]. intros n d S' Hn HS v v' Hch. subst v v'.
  rewrite overlay_empty in *. destruct Hn as (HI & _ & _ & Hob).
  assert (forall i, update_rows (fun t : Task => bool_decide (rid t ∈ ids) && (Status t =s TaskStatusPending))
            (fun t => touch n (assign_task [SetTaskStatus status; SetTaskLastError err] t)) (tasks d) !! i =
          (fun t => if to_mark ids t then marked_task status err n t else t) <$> tasks d !! i) as Hrow.
  { intros i. apply lookup_update_rows. }
  apply (mark_commit ids status err n); try done. intros i t Hi Hm. apply Hch. unfold row_same. cbn.
  rewrite Hrow, Hi. cbn. rewrite Hm. intros [= Heq]. apply (f_equal Status) in Heq.
  rewrite (to_mark_pending _ _ Hm) in Heq. change (TaskStatusPending = status) in Heq.
  rewrite <-Heq in Hst. by apply ins_spec in Hst.
Qed.
End Mark.

(** ** Submissions *)
Section Submit.
Context `{E : Env, L : !EnvLaws E} {O : Observed}.
Implicit Types (d : DB) (S : gset key).

(** The rows that are inserted. *)
Definition added (rows : list TaskShard) : gmap uuid TaskShard :=
  list_to_map ((fun s => (rid s, s)) <$> rows).
Definition new_rows (rows : list TaskShard) : row_rel TaskShard := fun i o o' =>
  match added rows !! i with Some s => o = None /\ o' = Some s | None => o' = o end.
Definition submit_locks (id : uuid) (rows : list TaskShard) : gset key :=
  {[(TTasks, id)]} ∪ list_to_set (pair TShards ∘ rid <$> rows).

(** A PENDING task, new, and a queued shard for each script. *)
Definition submits (task : Task) (scripts : list string) d d' : Prop :=
  exists n rows, tasks d !! rid task = None /\
    tasks d' = <[rid task := stamped (rid task) n task]> (tasks d) /\
    NoDup (rid <$> rows) /\ Forall2 (queued_row (rid task)) scripts rows /\
    Forall (fun s => live s = true) rows /\
    (forall i, new_rows rows i (task_shards d !! i) (task_shards d' !! i)) /\
    tenants d' = tenants d /\ clusters d' = clusters d.

Lemma added_elem rows i s : added rows !! i = Some s -> s ∈ rows /\ rid s = i.
Proof.
  intros Hi. apply elem_of_list_to_map_2, list_elem_of_fmap in Hi as (x & [= -> ->] & Hx). done.
Qed.
Lemma added_none rows i : added rows !! i = None <-> i ∉ rid <$> rows.
Proof. unfold added. rewrite <-not_elem_of_list_to_map. by rewrite <-list_fmap_compose. Qed.
Lemma added_snoc rows s i :
  rid s ∉ rid <$> rows -> added (rows ++ [s]) !! i = if decide (i = rid s) then Some s else added rows !! i.
Proof.
  intros Hn. unfold added. rewrite fmap_app. cbn. rewrite list_to_map_snoc.
  2:{ by rewrite <-list_fmap_compose. }
  destruct (decide (i = rid s)) as [->|]; [apply lookup_insert_eq|by rewrite lookup_insert_ne].
Qed.
Lemma submit_locks_shard id rows i : (TShards, i) ∉ submit_locks id rows -> added rows !! i = None.
Proof.
  intros Hi. apply added_none. intros Hin. apply Hi. unfold submit_locks.
  apply elem_of_union. right. apply elem_of_list_to_set.
  apply list_elem_of_fmap in Hin as (s & -> & Hs). by apply (list_elem_of_fmap_2 (pair TShards ∘ rid)).
Qed.

(** The rows of a submission satisfy the invariant. *)
Lemma queued_rows scripts rows s id :
  Forall2 (queued_row id) scripts rows -> s ∈ rows -> sh_TaskID s = id /\ sh_Status s = ShardStatusQueued.
Proof.
  intros Hf Hs. apply list_elem_of_lookup in Hs as [i Hi].
  destruct (Forall2_lookup_r _ _ _ _ _ Hf Hi) as (x & _ & Hq). by destruct Hq as (? & _ & ? & _).
Qed.

Lemma submits_onward task scripts d d' :
  live task = true -> Status task = TaskStatusPending -> Inv d -> submits task scripts d d' ->
  Inv d' /\ onward d d' /\ forall k, steady k d d'.
Proof.
  intros Hl Hst HI (n & rows & Hnone & Ht' & _ & Hq & Hlive & Hrow & Htn & _).
  rewrite Forall_forall in Hlive.
  assert (forall k t, tasks d !! k = Some t -> tasks d' !! k = Some t) as Htask.
  { intros k t Hk. rewrite Ht', lookup_insert_ne by congruence. done. }
  assert (forall k s, task_shards d !! k = Some s -> task_shards d' !! k = Some s) as Hshard.
  { intros k s Hk. specialize (Hrow k). unfold new_rows in Hrow.
    destruct (added rows !! k) as [x|]; [|congruence]. destruct Hrow. congruence. }
  assert (forall k s, task_shards d' !! k = Some s -> task_shards d !! k = Some s \/
            (s ∈ rows /\ rid s = k)) as Hback.
  { intros k s Hk. specialize (Hrow k). unfold new_rows in Hrow.
    destruct (added rows !! k) as [x|] eqn:Hx; [|left; congruence]. right. destruct Hrow as [_ Hr].
    assert (x = s) as -> by congruence. by apply added_elem. }
  assert (Inv d') as HI'.
  { split.
    - intros k t. rewrite Ht'. destruct (decide (k = rid task)) as [->|Hne].
      + rewrite lookup_insert_eq. intros [= <-]. split; [done|]. split; [done|].
        change (Status task ∈ task_statuses). rewrite Hst. by apply ins_spec.
      + rewrite lookup_insert_ne by done. apply (inv_task _ HI).
    - intros k s Hk. destruct (Hback k s Hk) as [Hd|[Hin Hr]]; [by apply (inv_shard _ HI)|]. auto.
    - intros k s Hk. destruct (Hback k s Hk) as [Hd|[Hin Hr]].
      + destruct (inv_parent _ HI k s Hd) as (t & Ht & Hc). exists t. auto.
      + destruct (queued_rows _ _ _ _ Hq Hin) as [-> ->]. rewrite Ht', lookup_insert_eq.
        eexists. split; [done|]. change (compat (Status task) ShardStatusQueued = true). by rewrite Hst. }
  split; [done|]. split; [split; [..|done]|].
  - split; [intros k t Hk; exists t|intros k s Hk; exists s]; (split; [auto|reflexivity]).
  - auto.
  - intros k s Hk Hn. destruct (Hback k s Hk) as [Hd|[Hin _]]; [congruence|].
    by destruct (queued_rows _ _ _ _ Hq Hin) as [-> _].
  - intros k t Hk Ha. left. exists t. auto.
  - intros k j s Hj Hid Hn. exists s. auto.
Qed.

(** The task and some of its shards are inserted. *)
Definition submitting (task : Task) (n : Z) (scripts : list string) (rows : list TaskShard) S own old : Prop :=
  NoDup (rid <$> rows) /\ Forall2 (queued_row (rid task)) scripts rows /\
  Forall (fun s => live s = true) rows /\
  stage (set_row (rid task) None (Some (stamped (rid task) n task))) (new_rows rows)
        (submit_locks (rid task) rows) S own old.

Lemma submitting_view task n scripts rows S own old d :
  submitting task n scripts rows S own old -> rc_now S old d ->
  rowwise (set_row (rid task) None (Some (stamped (rid task) n task))) (new_rows rows) d (overlay S own d).
Proof.
  intros (_ & _ & _ & Hst) Hn. apply (stage_view _ _ _ _ _ _ _ Hst Hn).
  - intros i a Hi. apply set_row_refl. intros ->. apply Hi. unfold submit_locks. set_solver.
  - intros i a Hi. apply submit_locks_shard in Hi. unfold new_rows. by rewrite Hi.
Qed.

Lemma submitting_snoc task n scripts rows S S' own old d script s :
  submitting task n scripts rows S own old -> rc_now S old d -> S ⊆ S' ->
  task_shards (overlay S own d) !! rid s = None -> (TShards, rid s) ∈ S' ->
  live s = true -> queued_row (rid task) script s ->
  let v := overlay S own d in
  submitting task n (scripts ++ [script]) (rows ++ [s]) S'
    (set_task_shards (<[rid s := s]> (task_shards v)) v) d.
Proof.
  intros Hs Hn HS Hfree Hin Hl Hq v.
  pose proof (submitting_view _ _ _ _ _ _ _ _ Hs Hn) as (Ht & Hsh & Htn & Hcl). fold v in Ht, Hsh, Htn, Hcl, Hfree.
  destruct Hs as (Hnd & Hf & Hlive & [_ HL]).
  assert (added rows !! rid s = None /\ task_shards d !! rid s = None) as [Ha Hd].
  { specialize (Hsh (rid s)). unfold new_rows in Hsh. rewrite Hfree in Hsh.
    destruct (added rows !! rid s); [by destruct Hsh|by split]. }
  apply added_none in Ha. split; [|split; [|split]].
  - rewrite fmap_app. apply NoDup_app. split; [done|]. split; [|apply NoDup_singleton].
    intros x Hx Hx'. apply list_elem_of_singleton in Hx' as ->. done.
  - apply Forall2_app; [done|by constructor].
  - apply Forall_app. split; [done|by constructor].
  - apply stage_next.
    + split; [exact Ht|]. split; [|by split]. intros i. unfold new_rows. rewrite added_snoc by done.
      cbn [task_shards set_task_shards]. destruct (decide (i = rid s)) as [->|Hne].
      * by rewrite lookup_insert_eq.
      * rewrite lookup_insert_ne by done. apply Hsh.
    + unfold submit_locks in *. rewrite fmap_app, list_to_set_app_L. cbn. set_solver.
Qed.

Lemma rcwp_create_shard (task : Task) (n : Z) (don : list string) (rows : list TaskShard) S (own old : DB) (script : string) (Q : res unit -> gset key -> DB -> DB -> Prop) :
  submitting task n don rows S own old ->
  (forall e S own old, Q (Err e) S own old) ->
  (forall S own old s, submitting task n (don ++ [script]) (rows ++ [s]) S own old -> Q (Ok tt) S own old) ->
  rc_wp (TaskShardOrm.Create (new_shard (rid task) script)) Q S own old.
Proof.
  intros Hsub He HQ. unfold TaskShardOrm.Create, Store.Create, BeforeCreate.
  apply rcwp_bindR, rcwp_bindR. cbv zeta. rewrite bool_decide_true by done.
  apply rcwp_bindR, rcwp_NewV7; [intros; apply He|]. intros m d S1 Hn HS. cbn [rcwp].
  set (s := with_base _ (new_shard (rid task) script)).
  assert (submitting task n don rows S1 (overlay S own d) d) as Hsub1.
  { pose proof (submitting_view _ _ _ _ _ _ _ _ Hsub Hn) as Hv. destruct Hsub as (? & ? & ? & [_ HL]).
    split_and!; try done. apply stage_next; [exact Hv|by etrans]. }
  apply (rcwp_Insert _ _ _ TShards); [done|intros; apply He|].
  intros t d2 S2 Hn2 HS2 Hfree Hin. cbn [rcwp]. apply HQ with (stamped (rid s) t s).
  pose proof (submitting_snoc task n don rows S1 S2 (overlay S own d) d d2 script (stamped (rid s) t s)) as Hx.
  change (rid (stamped (rid s) t s)) with (rid s) in Hx. by apply Hx.
Qed.

Lemma rcwp_create_shards task n scripts don rows S own old :
  live task = true -> Status task = TaskStatusPending ->
  submitting task n don rows S own old ->
  rc_wp (forR scripts (fun script => TaskShardOrm.Create (new_shard (rid task) script)))
    (commits (fun _ => rc_effect (submits task (don ++ scripts)))) S own old.
Proof.
  intros Hl Hst. revert don rows S own old.
  induction scripts as [|script scripts IH]; intros don rows S own old Hsub.
  - rewrite app_nil_r. cbn [forR rcwp commits]. pose proof Hsub as (Hnd & Hf & Hlive & Hsg).
    eapply stage_commit; [exact Hsg|..].
    + intros i a Hi. apply set_row_refl. intros ->. apply Hi. unfold submit_locks. set_solver.
    + intros i a Hi. apply submit_locks_shard in Hi. unfold new_rows. by rewrite Hi.
    + intros d d' HI _ (Ht & Hs & Htn & Hcl). apply set_rows_spec in Ht as [? ?].
      assert (submits task don d d') as Hsu by (exists n, rows; by split_and!).
      destruct (submits_onward _ _ _ _ Hl Hst HI Hsu) as (? & ? & ?). by split_and!.
  - cbn [forR]. apply rcwp_bindR, (rcwp_create_shard task n don rows); [done..|].
    intros S1 own1 old1 s Hs. rewrite (assoc_L (++) don [script] scripts : (don ++ script :: scripts)%list = _).
    by apply (IH _ (rows ++ [s])%list).
Qed.

Lemma rcwp_submit_body task scripts own old :
  rid task <> uuid_Nil -> live task = true -> Status task = TaskStatusPending ->
  rc_wp (submit_body task scripts) (commits (fun _ => rc_effect (submits task scripts))) ∅ own old.
Proof.
  intros Hid Hl Hst. unfold submit_body, TaskOrm.Create, Store.Create, BeforeCreate.
  apply rcwp_bindR, rcwp_bindR, rcwp_bindR. cbv zeta. rewrite bool_decide_false by done. cbn [rcwp].
  apply (rcwp_Insert _ _ _ TTasks); [done|done|]. intros n d S Hn _. rewrite overlay_empty.
  intros Hfree Hin. cbn [rcwp]. apply (rcwp_create_shards task n scripts [] []); [done..|].
  split; [constructor|]. split; [constructor|]. split; [constructor|]. apply stage_next.
  - split; [by apply set_rows_spec|]. split; [|done]. intros i. by apply same_refl.
  - unfold submit_locks. cbn. set_solver.
Qed.
End Submit.

(** ** Reports *)
Section Report.
Context `{E : Env, L : !EnvLaws E} {O : Observed}.
Implicit Types (d : DB) (S : gset key) (params : ReportShardStatusParams).
#[local] Arguments started_task : simpl never.
#[local] Arguments started_shard : simpl never.
#[local] Arguments finished_shard : simpl never.

Lemma elem_task_shards id d s :
  sane (task_shards d) -> s ∈ shards_of id d <-> (exists k, task_shards d !! k = Some s) /\ sh_TaskID s = id.
Proof.
  intros Hs. unfold shards_of. rewrite elem_matching, bool_decide_eq_true. split.
  - by intros (? & _ & ?).
  - intros ([k Hk] & ?). split; [by exists k|]. split; [|done]. by apply (Hs k).
Qed.

Lemma existsb_elem {T : Type} (p : T -> bool) l : existsb p l = true <-> exists x, x ∈ l /\ p x = true.
Proof. rewrite existsb_exists. split; intros (x & Hx & Hp); exists x; by rewrite list_elem_of_In in *. Qed.

Lemma finished_status params a n m s :
  rp_ShardStatus params ∈ [ShardStatusSucceeded; ShardStatusFailed] ->
  sh_Status (touch m (finished_shard params a n s)) = rp_ShardStatus params.
Proof.
  intros Hp. destruct (touch_shard m (finished_shard params a n s)) as [-> _].
  unfold finished_shard. statuses; by rewrite Hp.
Qed.
Lemma finished_row params a n m s :
  rid (touch m (finished_shard params a n s)) = rid s /\ live (touch m (finished_shard params a n s)) = live s.
Proof. unfold finished_shard. by destruct (_ =s _). Qed.
Lemma finished_task params a n m s : sh_TaskID (touch m (finished_shard params a n s)) = sh_TaskID s.
Proof. unfold finished_shard. by destruct (_ =s _). Qed.

(** A report moves on, and only ends shards of the task of its shard. *)
Lemma report_done_onward params at_ d payload d' :
  Inv d -> report_done params at_ d payload d' ->
  Inv d' /\ onward d d' /\
  forall k, (forall s, task_shards d !! rp_ShardID params = Some s -> sh_TaskID s <> k) -> steady k d d'.
Proof.
  intros HI Hr. destruct (report_done_lawful _ _ _ _ _ HI Hr) as [HI' HL]. split; [done|].
  destruct Hr as [s|?|s t a n1 n2 Hp Hs Ht Hq _|s t a n1 n2 payload d1 d' Hp Hs Ht Hq Hrun -> Hrec].
  1, 2: split; [reflexivity|]; intros k _; reflexivity.
  - destruct (shard_put_onward d (set_tasks (<[sh_TaskID s := touch n2 (started_task at_ t)]> (tasks d))
      (set_task_shards (<[rp_ShardID params := touch n1 (started_shard a s)]> (task_shards d)) d))
      (rp_ShardID params) s (touch n1 (started_shard a s))) as [Ho Hst]; try done.
    + by apply not_ended_leased.
    + cbn [tasks set_tasks]. intros j x x' Hx Ha Hx' Hf. exfalso. destruct (decide (j = sh_TaskID s)) as [->|Hne].
      * rewrite lookup_insert_eq in Hx'. injection Hx' as <-.
        destruct (touch_task n2 (started_task at_ t)) as (Hs1 & _). rewrite Hs1 in Hf.
        unfold started_task in Hf. by destruct (StartedAt t).
      * rewrite lookup_insert_ne in Hx' by done. assert (x' = x) as -> by congruence.
        unfold active in Ha. rewrite Hf in Ha. by apply ins_spec in Ha.
    + split; [done|]. intros k _. apply Hst. right. unfold ended.
      change (sh_Status (touch n1 (started_shard a s))) with ShardStatusRunning. by apply ins_false.
  - set (x' := touch n2 _) in *. set (d1 := set_task_shards _ d) in *.
    assert (Inv d1 /\ tasks d1 = tasks d) as [HI1 Ht1].
    { split; [|done]. destruct (put_shard d d1 (rp_ShardID params) s x') as [? _]; try done.
      - repeat split; subst x'; try (unfold finished_shard; by destruct (_ =s _)).
        rewrite finished_status by done. rewrite Hq. apply rtc_once. statuses; rewrite Hp; constructor.
      - intros t0 Ht0. assert (t0 = t) as -> by congruence. subst x'. rewrite finished_status, Hrun by done.
        statuses; by rewrite Hp. }
    assert (task_shards d' = task_shards d1 /\ forall j y y', tasks d !! j = Some y -> tasks d' !! j = Some y' ->
              y' = y \/ (j = sh_TaskID s /\ forall z, z ∈ shards_of (sh_TaskID s) d1 -> ended z)) as [Hsame Hcase].
    { unfold recomputed in Hrec. destruct (aggregate _) as [st|] eqn:Ha.
      - destruct Hrec as (fin & nw & err & _ & _ & ->). split; [done|]. cbn [tasks set_tasks].
        intros j y y' Hy Hy'. destruct (decide (j = sh_TaskID s)) as [->|Hne].
        + right. split; [done|]. intros z Hz. destruct (aggregate_sound _ _ Ha) as [_ Hall].
          apply Hall. by apply list_elem_of_fmap_2.
        + left. rewrite lookup_insert_ne in Hy' by done. change (tasks d1) with (tasks d) in Hy'. congruence.
      - destruct Hrec as [_ ->]. split; [done|]. intros j y y' Hy Hy'. left. rewrite Ht1 in Hy'. congruence. }
    assert (tenants d' = tenants d) as Htn.
    { unfold recomputed in Hrec. destruct (aggregate _); [by destruct Hrec as (? & ? & ? & _ & _ & ->)|].
      by destruct Hrec as [_ ->]. }
    destruct (shard_put_onward d d' (rp_ShardID params) s x') as [Ho Hst]; try done.
    + unfold ended. rewrite Hq. by apply ins_false.
    + apply finished_task.
    + intros j y y' Hy Ha Hy' Hf i z Hi Hid. destruct (Hcase j y y' Hy Hy') as [->|[-> Hall]].
      * exfalso. unfold active in Ha. rewrite Hf in Ha. by apply ins_spec in Ha.
      * apply Hall, elem_task_shards; [by apply inv_sane_shards|]. rewrite Hsame in Hi. by split; [exists i|].
    + split; [done|]. intros k Hk. apply Hst. left. intros ->. by apply (Hk s).
Qed.

(** What holds once the task is locked and the shard has its new row [x']. *)
Definition reporting params (s x' : TaskShard) (t : Task) S own old : Prop :=
  task_shards old !! rp_ShardID params = Some s /\ tasks old !! sh_TaskID s = Some t /\
  sh_TaskID x' = sh_TaskID s /\
  rowwise same_row (set_row (rp_ShardID params) (Some s) (Some x')) old own /\
  (TTasks, sh_TaskID s) ∈ S /\ (TShards, rp_ShardID params) ∈ S.

Definition report_locks params (s : TaskShard) : gset key :=
  {[(TTasks, sh_TaskID s); (TShards, rp_ShardID params)]}.

Lemma reporting_next params s x' t S S' own old d :
  reporting params s x' t S own old -> rc_now S old d -> S ⊆ S' ->
  reporting params s x' t S' (overlay S own d) d.
Proof.
  intros (Hs & Ht & Hid & Hrow & Hit & His) Hn HS.
  assert (stage same_row (set_row (rp_ShardID params) (Some s) (Some x')) (report_locks params s) S own old) as Hst
    by (apply stage_next; [done|unfold report_locks; set_solver]).
  pose proof (stage_view _ _ _ _ _ _ _ Hst Hn) as Hv. destruct Hn as (HI & Ho & HK & _).
  split_and!; [..|apply Hv|by apply HS|by apply HS]; try done.
  - rewrite <-Hs. symmetry. exact (lock_right_row _ _ _ (HK _ His)).
  - rewrite <-Ht. symmetry. exact (lock_right_row _ _ _ (HK _ Hit)).
  - intros i a Hi. apply set_row_refl. intros ->. apply Hi. unfold report_locks. set_solver.
Qed.

Lemma reporting_view params s x' t S own old :
  reporting params s x' t S own old -> own = set_task_shards (<[rp_ShardID params := x']> (task_shards old)) old.
Proof.
  intros (_ & _ & _ & (Ht & Hs & Hn & Hc) & _). apply same_rows in Ht. apply set_rows_spec in Hs as [_ Hs].
  destruct own, old. unfold set_task_shards. cbn in *. congruence.
Qed.

Definition reports params at_ payload d d' : Prop := report_done params at_ d payload d'.

(** The commit of a report that changes the task to [t'], or leaves it. *)
Lemma report_commit params at_ payload s x' t S own old (o : option Task) own' S' :
  (forall d, Inv d -> onward old d -> lock_right (TTasks, sh_TaskID s) old d ->
     task_shards d !! rp_ShardID params = Some s -> tasks d !! sh_TaskID s = Some t ->
     report_done params at_ d payload
       (set_tasks (match o with Some t' => <[sh_TaskID s := t']> (tasks d) | None => tasks d end)
          (set_task_shards (<[rp_ShardID params := x']> (task_shards d)) d))) ->
  reporting params s x' t S own old -> S ⊆ S' ->
  own' = (match o with Some t' => set_tasks (<[sh_TaskID s := t']> (tasks own)) own | None => own end) ->
  rc_effect (reports params at_ payload) S' own' old.
Proof.
  intros Hdone Hrep HS -> d Hnow d'. pose proof (reporting_view _ _ _ _ _ _ _ Hrep) as Hown.
  assert (reporting params s x' t S' own old) as Hrep'.
  { destruct Hrep as (? & ? & ? & ? & ? & ?). split_and!; try done; by apply HS. }
  destruct (reporting_next params s x' t S' S' own old d Hrep' Hnow ltac:(done)) as (Hs & Ht & _).
  destruct Hrep' as (Hs0 & Ht0 & Hid & Hrow & Hit & His). pose proof Hnow as (HI & Ho & HK & _).
  assert (d' = set_tasks (match o with Some t' => <[sh_TaskID s := t']> (tasks d) | None => tasks d end)
          (set_task_shards (<[rp_ShardID params := x']> (task_shards d)) d)) as Hd'.
  { assert (rowwise (match o with Some t' => set_row (sh_TaskID s) (Some t) (Some t') | None => same_row end)
      (set_row (rp_ShardID params) (Some s) (Some x')) d d') as (Rt & Rs & Rn & Rc).
    { apply (stage_view _ _ (report_locks params s) S' _ old); [|done|..].
      - apply stage_next; [|unfold report_locks; set_solver]. destruct Hrow as (R1 & R2 & R3 & R4).
        destruct o as [t'|]; [|by split]. split; [|by split]. apply same_rows in R1.
        apply set_rows_spec. split; [done|]. cbn. by rewrite R1.
      - intros i a Hi. destruct o; [|done]. apply set_row_refl. intros ->. apply Hi. unfold report_locks. set_solver.
      - intros i a Hi. apply set_row_refl. intros ->. apply Hi. unfold report_locks. set_solver. }
    apply set_rows_spec in Rs as [_ Rs]. clearbody d'. destruct d' as [a b c e].
    cbn [tasks task_shards tenants clusters] in *. unfold set_tasks, set_task_shards. cbn.
    destruct o; [apply set_rows_spec in Rt as [_ Rt]|apply same_rows in Rt]; cbn in Rt; congruence. }
  assert (report_done params at_ d payload d') as Hd by (rewrite Hd'; apply Hdone; auto).
  destruct (report_done_onward _ _ _ _ _ HI Hd) as (? & ? & Hst). split_and!; [done..|].
  intros x Hx. split; [by apply overlay_row|]. intros Hxt. apply Hst. intros s' Hs' Hk.
  apply Hx. destruct x as [n k]. cbn in Hxt, Hk. subst n k. assert (s' = s) as -> by congruence. done.
Qed.

(** *** Recomputing the status of the task *)
Definition report_promise params at_ := commits (fun payload => rc_effect (reports params at_ payload)).

(** Once all shards of a task have ended, they stay what they are. *)
Definition all_ended (id : uuid) d : Prop :=
  forall i y, task_shards d !! i = Some y -> sh_TaskID y = id -> ended y.
Definition same_shards (id : uuid) d d' : Prop :=
  forall i y, sh_TaskID y = id -> task_shards d !! i = Some y <-> task_shards d' !! i = Some y.

Lemma reporting_settled params s x' t S own old d :
  reporting params s x' t S own old -> onward old d -> all_ended (sh_TaskID s) own ->
  same_shards (sh_TaskID s) own (set_task_shards (<[rp_ShardID params := x']> (task_shards d)) d).
Proof.
  intros Hrep Ho Hall. pose proof (reporting_view _ _ _ _ _ _ _ Hrep) as H1.
  destruct Hrep as (_ & Ht & _). intros i y Hid. rewrite H1 in Hall |- *. unfold all_ended in Hall. cbn in *.
  destruct (decide (i = rp_ShardID params)) as [->|Hne]; [by rewrite !lookup_insert_eq|].
  rewrite !lookup_insert_ne by done. split; intros Hy.
  - apply (on_ended _ _ Ho); [done|]. apply (Hall i); [|done]. by rewrite lookup_insert_ne.
  - destruct (task_shards old !! i) as [y0|] eqn:H0.
    + destruct (shard_life _ _ _ _ Ho H0) as (y' & Hy' & Hid'). assert (y' = y) as -> by congruence.
      assert (ended y0) as He by (apply (Hall i); [by rewrite lookup_insert_ne|congruence]).
      pose proof (on_ended _ _ Ho i y0 H0 He). congruence.
    + pose proof (on_new _ _ Ho i y Hy H0) as Hnew. rewrite Hid in Hnew. congruence.
Qed.
Lemma reporting_settled_view params s x' t S own old d :
  reporting params s x' t S own old -> rc_now S old d -> all_ended (sh_TaskID s) own ->
  same_shards (sh_TaskID s) own (overlay S own d).
Proof.
  intros Hrep Hn Hall.
  rewrite (reporting_view _ _ _ _ _ _ _ (reporting_next _ _ _ _ S S own old d Hrep Hn ltac:(done))).
  apply (reporting_settled _ _ _ _ _ _ _ _ Hrep); [apply Hn|done].
Qed.

Lemma all_ended_same id d d' : all_ended id d -> same_shards id d d' -> all_ended id d'.
Proof. intros Hall Hs i y Hy Hid. apply (Hall i); [|done]. by apply Hs. Qed.
Lemma same_shards_trans id d1 d2 d3 : same_shards id d1 d2 -> same_shards id d2 d3 -> same_shards id d1 d3.
Proof. intros H12 H23 i y Hid. etrans; [by apply H12|by apply H23]. Qed.

(** The views of a report are sane. *)
Lemma reporting_sane params s x' t S own old :
  Inv old -> rid x' = rp_ShardID params -> live x' = true -> reporting params s x' t S own old ->
  sane (task_shards own) /\ sane (tasks own) /\ tasks own !! sh_TaskID s = Some t.
Proof.
  intros HI Hr Hl Hrep. rewrite (reporting_view _ _ _ _ _ _ _ Hrep). destruct Hrep as (_ & Ht & _).
  split; [|split; [exact (inv_sane_tasks _ HI)|done]]. apply sane_insert; [by apply inv_sane_shards|done..].
Qed.

Lemma same_shards_of id d d' s :
  sane (task_shards d) -> sane (task_shards d') -> same_shards id d d' ->
  s ∈ shards_of id d <-> s ∈ shards_of id d'.
Proof.
  intros H1 H2 Hs. rewrite !elem_task_shards by done. split; intros ([k Hk] & Hid); (split; [|done]); exists k;
    by apply (Hs k s Hid).
Qed.

Lemma existsb_same {T : Type} (p : T -> bool) l l' : (forall x, x ∈ l <-> x ∈ l') -> existsb p l = existsb p l'.
Proof.
  intros Hl. apply eq_true_iff_eq. rewrite !existsb_elem.
  split; intros (x & Hx & Hp); exists x; (split; [by apply Hl|done]).
Qed.

Definition any_failed (id : uuid) d : bool :=
  existsb (fun s => sh_Status s =s ShardStatusFailed) (shards_of id d).

(** The aggregate, when all shards have ended. *)
Lemma aggregate_ended id d :
  sane (task_shards d) -> all_ended id d ->
  aggregate (sh_Status <$> shards_of id d) =
    Some (if any_failed id d then TaskStatusFailed else TaskStatusSucceeded).
Proof.
  intros Hs Hall. unfold aggregate, any_failed. rewrite !(existsb_fmap sh_Status). cbv beta.
  destruct (existsb (fun s : TaskShard => negb _) _) eqn:Hact; [|by destruct (existsb (fun s : TaskShard => sh_Status s =s _) _)].
  apply existsb_elem in Hact as (y & Hy & Hny). apply elem_task_shards in Hy as [[k Hk] Hid]; [|done].
  apply negb_true_iff, ins_false in Hny. by destruct Hny; apply (Hall k y).
Qed.
Lemma aggregate_active id d i y :
  sane (task_shards d) -> task_shards d !! i = Some y -> sh_TaskID y = id -> ~ ended y ->
  aggregate (sh_Status <$> shards_of id d) = None.
Proof.
  intros Hs Hy Hid Hn. unfold aggregate. rewrite (existsb_fmap sh_Status).
  replace (existsb _ _) with true; [done|]. symmetry. apply existsb_elem. exists y.
  split; [apply elem_task_shards; [done|by split; [exists i|]]|]. by apply negb_true_iff, ins_false.
Qed.

Lemma failure_text_same id fb d d' err :
  sane (task_shards d) -> sane (task_shards d') -> same_shards id d d' ->
  failure_text id fb d err -> failure_text id fb d' err.
Proof.
  intros H1 H2 Hs [(s & Hin & Hrest)|?]; [left|by right]. exists s. split; [|done].
  by apply (same_shards_of id d d').
Qed.

(** The state of a final report: its shard has the final row, the task is locked and
    running. *)
Record finishing params (s : TaskShard) (t : Task) (a n1 n2 : Z) S own old : Prop := mkFinishing {
  fin_status : rp_ShardStatus params ∈ [ShardStatusSucceeded; ShardStatusFailed];
  fin_running : sh_Status s = ShardStatusRunning;
  fin_rep : reporting params s (touch n2 (finished_shard params a n1 s)) t S own old;
  fin_inv : Inv old;
}.

Lemma finishing_next params s t a n1 n2 S S' own old d :
  finishing params s t a n1 n2 S own old -> rc_now S old d -> S ⊆ S' ->
  finishing params s t a n1 n2 S' (overlay S own d) d.
Proof. intros [? ? Hr ?] Hn HS. split; [done|done|by apply reporting_next with old|apply Hn]. Qed.

Lemma finishing_facts params s t a n1 n2 S own old :
  finishing params s t a n1 n2 S own old ->
  Status t = TaskStatusRunning /\ sane (task_shards own) /\ sane (tasks own) /\
  tasks own !! sh_TaskID s = Some t /\ rid t = sh_TaskID s.
Proof.
  intros [Hp Hq Hr HI]. pose proof Hr as (Hs & Ht & _).
  destruct (compat_parent _ _ _ HI Hs) as (t' & Ht' & Hrt & _ & Hst & Hc).
  assert (t' = t) as -> by congruence. rewrite Hq in Hc. apply (running_parent _ Hst) in Hc.
  destruct (inv_shard _ HI _ s Hs) as [Hrs Hls].
  destruct (finished_row params a n1 n2 s) as [Hr1 Hl1]. rewrite <-Hr1 in Hrs. rewrite <-Hl1 in Hls.
  destruct (reporting_sane _ _ _ _ _ _ _ HI Hrs Hls Hr) as (? & ? & ?). by split_and!.
Qed.

Lemma finishing_report params at_ s t a n1 n2 S own old d payload d' :
  finishing params s t a n1 n2 S own old ->
  task_shards d !! rp_ShardID params = Some s -> tasks d !! sh_TaskID s = Some t ->
  recomputed (sh_TaskID s) (default "" (rp_ErrorMessage params)) t
    (set_task_shards (<[rp_ShardID params := touch n2 (finished_shard params a n1 s)]> (task_shards d)) d)
    payload d' ->
  report_done params at_ d payload d'.
Proof.
  intros Hf Hs Ht Hrec. pose proof (finishing_facts _ _ _ _ _ _ _ _ _ Hf) as (Hrun & _).
  destruct Hf as [Hp Hq _ _]. by eapply report_finished.
Qed.

(** A shard of the task is active: the task stays as it is. *)
Lemma finishing_active params at_ s t a n1 n2 S own old y :
  finishing params s t a n1 n2 S own old -> y ∈ shards_of (sh_TaskID s) own -> ~ ended y ->
  rc_effect (reports params at_ None) S own old.
Proof.
  intros Hf Hy Hn. pose proof (finishing_facts _ _ _ _ _ _ _ _ _ Hf) as (_ & Hsane & _).
  apply elem_task_shards in Hy as [[i Hi] Hid]; [|done]. pose proof Hf as [Hp _ Hr _].
  eapply (report_commit params at_ None s _ t S own old None own S); [|exact Hr|done|done].
  intros d HI Ho [_ Hk] Hs Ht. specialize (Hk eq_refl). cbn [snd] in Hk.
  eapply finishing_report; [exact Hf|done|done|]. unfold recomputed.
  rewrite (reporting_view _ _ _ _ _ _ _ Hr) in Hi. cbn in Hi.
  destruct (decide (i = rp_ShardID params)) as [->|Hne].
  { rewrite lookup_insert_eq in Hi. injection Hi as <-. destruct Hn. unfold ended.
    rewrite finished_status by done. statuses; rewrite Hp; by apply ins_spec. }
  rewrite lookup_insert_ne in Hi by done. destruct (Hk i y Hi Hid Hn) as (y' & Hy' & Hid' & Hn').
  rewrite (aggregate_active _ _ i y'); [by split| |by cbn; rewrite lookup_insert_ne|done|done].
  cbn. destruct (inv_shard _ HI _ s Hs) as [? ?].
  destruct (finished_row params a n1 n2 s) as [Hr1 Hl1].
  apply sane_insert; [by apply inv_sane_shards|congruence..].
Qed.

(** None is active: the task gets the status of its shards. *)
Lemma finishing_settles params at_ s t a n1 n2 S own old S' fin err nw :
  finishing params s t a n1 n2 S own old -> all_ended (sh_TaskID s) own ->
  let st := if any_failed (sh_TaskID s) own then TaskStatusFailed else TaskStatusSucceeded in
  (if any_failed (sh_TaskID s) own
   then failure_text (sh_TaskID s) (default "" (rp_ErrorMessage params)) own err else err = "") ->
  S ⊆ S' ->
  rc_effect (reports params at_ (newCompletionHookPayload t st err (Some fin) (st =s TaskStatusSucceeded))) S'
    (set_tasks (<[sh_TaskID s := touch nw (assign_task [SetTaskFinishedAt (Some fin); SetTaskStatus st;
                                                       SetTaskLastError err] t)]> (tasks own)) own) old.
Proof.
  intros Hf Hall st Herr HS. pose proof (finishing_facts _ _ _ _ _ _ _ _ _ Hf) as (_ & Hsane & _).
  pose proof Hf as [Hp _ Hr _].
  eapply (report_commit params at_ _ s _ t S own old (Some _) _ S'); [|exact Hr|done|reflexivity].
  intros d HI Ho _ Hs Ht. eapply finishing_report; [exact Hf|done|done|]. unfold recomputed.
  pose proof (reporting_settled _ _ _ _ _ _ _ d Hr Ho Hall) as Hsame.
  set (d1 := set_task_shards _ d) in *.
  assert (sane (task_shards d1)) as Hsane1.
  { cbn. destruct (inv_shard _ HI _ s Hs) as [? ?].
    destruct (finished_row params a n1 n2 s) as [Hr1 Hl1].
  apply sane_insert; [by apply inv_sane_shards|congruence..]. }
  rewrite aggregate_ended; [|done|by apply (all_ended_same _ own)].
  assert (any_failed (sh_TaskID s) d1 = any_failed (sh_TaskID s) own) as ->.
  { apply existsb_same. intros x. symmetry. by apply same_shards_of. }
  exists fin, nw, err. fold st. split; [|by split].
  subst st. destruct (any_failed (sh_TaskID s) own).
  - exact (failure_text_same _ _ _ _ _ Hsane Hsane1 Hsame Herr).
  - exact Herr.
Qed.

(** What is known from the count of the active shards on. *)
Record settling params (s : TaskShard) (t : Task) (a n1 n2 : Z) (failed : bool) S own old : Prop := mkSettling {
  set_fin : finishing params s t a n1 n2 S own old;
  set_ended : all_ended (sh_TaskID s) own;
  set_failed : any_failed (sh_TaskID s) own = failed;
}.

Lemma settling_same params s t a n1 n2 failed S S' own old d :
  settling params s t a n1 n2 failed S own old -> rc_now S old d -> S ⊆ S' ->
  settling params s t a n1 n2 failed S' (overlay S own d) d /\
  forall fb err, failure_text (sh_TaskID s) fb own err -> failure_text (sh_TaskID s) fb (overlay S own d) err.
Proof.
  intros [Hf Ha Hfl] Hn HS. pose proof (finishing_next _ _ _ _ _ _ _ S' _ _ _ Hf Hn HS) as Hf'.
  pose proof (finishing_facts _ _ _ _ _ _ _ _ _ Hf) as (_ & Hs1 & _).
  pose proof (finishing_facts _ _ _ _ _ _ _ _ _ Hf') as (_ & Hs2 & _).
  pose proof (reporting_settled_view _ _ _ _ _ _ _ _ (fin_rep _ _ _ _ _ _ _ _ _ Hf) Hn Ha) as Hsame.
  split; [split; [done|by eapply all_ended_same|]|].
  - rewrite <-Hfl. apply existsb_same. intros x. symmetry. by apply same_shards_of.
  - intros fb err. by apply failure_text_same.
Qed.

Lemma rcwp_settle params at_ s t a n1 n2 failed S own old fin err :
  settling params s t a n1 n2 failed S own old ->
  (if failed then failure_text (sh_TaskID s) (default "" (rp_ErrorMessage params)) own err else err = "") ->
  let st := if failed then TaskStatusFailed else TaskStatusSucceeded in
  rc_wp
    (updated <-? updateTaskTerminalStatus (sh_TaskID s)
                   [SetTaskFinishedAt (Some fin); SetTaskStatus st; SetTaskLastError err] terminal_statuses ;;
     if updated : bool
     then Ret (Ok (newCompletionHookPayload t st err (Some fin) (negb failed)))
     else Ret (Ok None))
    (report_promise params at_) S own old.
Proof.
  intros Hset Herr st. apply rcwp_bindR, rcwp_bindR.
  assert (forall d S', rc_now S old d -> S ⊆ S' -> settling params s t a n1 n2 failed S' (overlay S own d) d)
    as Hnext by (intros; by eapply settling_same).
  apply (rcwp_Updates_at _ _ _ TTasks) with (sh_TaskID s); try done.
  - intros r Hr. by clean.
  - intros d Hn. pose proof (Hnext d S Hn ltac:(done)) as [Hf _ _].
    by destruct (finishing_facts _ _ _ _ _ _ _ _ _ Hf) as (_ & _ & ? & _).
  - intros d S' Hn HS Hno. exfalso. pose proof (Hnext d S' Hn HS) as [Hf _ _].
    destruct (finishing_facts _ _ _ _ _ _ _ _ _ Hf) as (Hrun & _ & _ & Ht & Hr).
    specialize (Hno t Ht). by rewrite bool_decide_true, Hrun in Hno.
  - intros nw d S' r m Hn HS Hr Hp Hm Hlock. rewrite (proj2 (Z.eqb_neq m 0)) by lia. cbn [rcwp].
    destruct (settling_same _ _ _ _ _ _ _ _ S' _ _ d Hset Hn HS) as [[Hf Ha Hfl] Htext].
    destruct (finishing_facts _ _ _ _ _ _ _ _ _ Hf) as (_ & _ & _ & Ht & _).
    change (tasks (overlay S own d) !! sh_TaskID s = Some r) in Hr. assert (r = t) as -> by congruence.
    pose proof (finishing_settles params at_ s t a n1 n2 S' (overlay S own d) d S' fin err nw Hf Ha) as Hfin.
    cbv zeta in Hfin. rewrite Hfl in Hfin. fold st in Hfin.
    assert ((st =s TaskStatusSucceeded) = negb failed) as Hneg by (subst st; by destruct failed).
    rewrite Hneg in Hfin. apply Hfin; [|done]. destruct failed; [by apply Htext|done].
Qed.

Lemma rcwp_resolve params (s : TaskShard) (t : Task) (a n1 n2 : Z) (failed : bool) S (own old : DB)
    (Q : res string -> gset key -> DB -> DB -> Prop) :
  let fb := default "" (rp_ErrorMessage params) in
  settling params s t a n1 n2 failed S own old ->
  (forall e S own old, Q (Err e) S own old) ->
  (forall err S own old, settling params s t a n1 n2 failed S own old ->
     failure_text (sh_TaskID s) fb own err -> Q (Ok err) S own old) ->
  rc_wp (resolveTaskFailureLastError (sh_TaskID s) fb) Q S own old.
Proof.
  intros fb Hset He HQ. unfold resolveTaskFailureLastError. apply rcwp_bind, rcwp_First.
  - intros m. cbn. apply He.
  - intros d S' Hn HS. destruct (settling_same _ _ _ _ _ _ _ _ S' _ _ d Hset Hn HS) as [Hs' _].
    change (negb (errors_Is (ESentinel ErrRecordNotFound) ErrRecordNotFound)) with false. cbn iota.
    assert (failure_text (sh_TaskID s) fb (overlay S own d)
      (if fb <>s "" then fb else "task failed because one or more shards failed")) as Htx by by right.
    by destruct (fb <>s ""); apply HQ.
  - intros d S' r Hn HS Hr. destruct (settling_same _ _ _ _ _ _ _ _ S' _ _ d Hset Hn HS) as [Hs' _].
    cbn [rcwp]. apply HQ; [done|]. left. exists r.
    apply elem_matching in Hr as (Hk & Hl & Hp). clean.
    split; [|by split]. apply elem_matching. split; [done|]. split; [done|]. by apply bool_decide_eq_true.
Qed.

Lemma rcwp_recompute params at_ s t a n1 n2 S own old :
  finishing params s t a n1 n2 S own old ->
  rc_wp (RecomputeTaskStatus (sh_TaskID s) (default "" (rp_ErrorMessage params)))
    (report_promise params at_) S own old.
Proof.
  intros Hf. unfold RecomputeTaskStatus.
  change [ShardStatusSucceeded; ShardStatusFailed; ShardStatusCancelled] with terminal_statuses.
  apply rcwp_bindR, rcwp_FirstForUpdate; [done..|]. intros d1 S1 t' Hn1 HS1 Hin _.
  pose proof (finishing_next _ _ _ _ _ _ _ S1 _ _ _ Hf Hn1 HS1) as Hf1.
  destruct (finishing_facts _ _ _ _ _ _ _ _ _ Hf1) as (Hrun & _ & Hst1 & Ht1 & _).
  apply elem_matching in Hin as ([k Hk] & _ & Hid). apply bool_decide_eq_true in Hid.
  change (tasks (overlay S own d1) !! k = Some t') in Hk. destruct (Hst1 k t' Hk) as [Hrk _].
  assert (t' = t) as -> by congruence. rewrite Hrun.
  change (TaskStatusRunning =s TaskStatusCancelled) with false.
  change ((TaskStatusRunning =s TaskStatusSucceeded) || (TaskStatusRunning =s TaskStatusFailed)) with false.
  cbn iota. apply rcwp_bindR, rcwp_Count; [done|]. intros d2 S2 Hn2 HS2.
  pose proof (finishing_next _ _ _ _ _ _ _ S2 _ _ _ Hf1 Hn2 HS2) as Hf2.
  set (v2 := overlay S1 _ d2) in *. rewrite matching_and, count_existsb.
  fold (shards_of (sh_TaskID s) v2). destruct (existsb _ _) eqn:Hact.
  { apply existsb_elem in Hact as (y & Hy & Hny). apply negb_true_iff, ins_false in Hny.
    by apply (finishing_active params at_ s t a n1 n2 S2 v2 d2 y). }
  assert (all_ended (sh_TaskID s) v2) as Hall.
  { intros i y Hi Hiy. destruct (decide (ended y)) as [|Hny]; [done|].
    assert (existsb (fun s => negb (ins (sh_Status s) terminal_statuses)) (shards_of (sh_TaskID s) v2) = true);
      [|congruence].
    apply existsb_elem. exists y. split; [|by apply negb_true_iff, ins_false].
    apply elem_task_shards; [|by split; [exists i|]]. by destruct (finishing_facts _ _ _ _ _ _ _ _ _ Hf2) as (_ & ? & _). }
  apply rcwp_bindR, rcwp_Count; [done|]. intros d3 S3 Hn3 HS3.
  destruct (settling_same _ _ _ _ _ _ _ _ S3 _ _ d3 (mkSettling _ _ _ _ _ _ _ _ _ _ Hf2 Hall eq_refl) Hn3 HS3)
    as [[Hf3 Hall3 _] _].
  set (v3 := overlay S2 v2 d3) in *. rewrite matching_and, count_existsb. fold (shards_of (sh_TaskID s) v3).
  apply rcwp_bind. cbn [rcwp now]. intros fin.
  destruct (existsb (fun x : TaskShard => sh_Status x =s ShardStatusFailed) _) eqn:Hfl.
  - apply rcwp_bindR, (rcwp_resolve params s t a n1 n2 true); [by split|done|].
    intros err S4 v4 d4 Hs4 Htx. by apply (rcwp_settle params at_ s t a n1 n2 true).
  - by apply (rcwp_settle params at_ s t a n1 n2 false S3 v3 d3 fin "").
Qed.

(** *** The body of a report *)
(** The task of the shard [s0], read before, is locked, and nothing is written yet. *)
Record locked params (s0 : TaskShard) (t : Task) S own old : Prop := mkLocked {
  lk_stage : untouched {[(TTasks, sh_TaskID s0)]} S own old;
  lk_task : tasks old !! sh_TaskID s0 = Some t;
  lk_shard : exists d0, task_shards d0 !! rp_ShardID params = Some s0 /\ onward d0 old;
}.

Lemma rcwp_report_row params (s0 : TaskShard) (t : Task) (target : string) (current : list string)
    (us : list shard_set) (Q : res unit -> gset key -> DB -> DB -> Prop) S own old :
  locked params s0 t S own old -> (target ∉ current) ->
  (forall s n, sh_Status (transitioned target us n s) = target) ->
  (forall s n, sh_TaskID (transitioned target us n s) = sh_TaskID s) ->
  (forall e S own old, Q (Err e) S own old) ->
  (forall n d S s, Inv d -> sh_Status s ∈ current -> sh_TaskID s = sh_TaskID s0 ->
     reporting params s (transitioned target us n s) t S
       (set_task_shards (<[rp_ShardID params := transitioned target us n s]> (task_shards d)) d) d ->
     Q (Ok tt) S (set_task_shards (<[rp_ShardID params := transitioned target us n s]> (task_shards d)) d) d) ->
  rc_wp (transitionStatus (rp_ShardID params) target current us) Q S own old.
Proof.
  intros [Hst Ht (d0 & Hs0 & Ho0)] Hnt H1 H2 He HQ.
  apply (rcwp_transitionStatus _ _ _ _ _ _ _ _ _ Hst Hnt H1 He).
  intros n d S' s Hn HS Hs Hc Hin. pose proof Hn as (HI & Ho & HK & _). destruct Hst as [_ HL].
  assert ((TTasks, sh_TaskID s0) ∈ S) as Hit by set_solver.
  assert (sh_TaskID s = sh_TaskID s0) as Hid.
  { assert (onward d0 d) as Hod by (by etrans). destruct (shard_life _ _ _ _ Hod Hs0) as (s' & Hs' & <-).
    congruence. }
  apply HQ; [done..|]. split_and!; [done| |done| |by rewrite Hid; apply HS|done].
  - rewrite Hid, <-Ht. symmetry. exact (lock_right_row _ _ _ (HK _ Hit)).
  - split; [done|]. split; [by apply set_rows_spec|done].
Qed.

Lemma rcwp_report_started params at_ s0 t S own old :
  rp_ShardStatus params = ShardStatusRunning -> Status t <> TaskStatusCancelled ->
  locked params s0 t S own old ->
  rc_wp (_ <-? report_transition params ;; _ <-? report_output params ;; report_task params at_ t s0)
    (report_promise params at_) S own old.
Proof.
  intros Hp Hc Hlk. unfold report_transition, report_output, report_task. rewrite Hp.
  change (ShardStatusRunning =s ShardStatusSucceeded) with false. rewrite eqs_refl. cbn iota.
  unfold MarkRunning. apply rcwp_bindR, rcwp_bindR, rcwp_bind. cbn [rcwp now]. intros a.
  apply (rcwp_report_row params s0 t _ _ _ _ S own old Hlk); [by apply ins_false|done..|].
  intros n d S1 s HI Hq Hid Hr. apply elem_of_cons in Hq as [Hq|Hq]; [|by apply not_elem_of_nil in Hq].
  set (x' := transitioned _ _ _ _) in *. set (v := set_task_shards _ d) in *.
  cbn [rcwp]. apply rcwp_bindR. cbn [rcwp]. rewrite <-Hid.
  apply rcwp_bindR, (rcwp_Updates_at _ _ _ TTasks) with (sh_TaskID s); try done.
  - intros r Hr'. by clean.
  - intros d2 Hn2. pose proof (reporting_next _ _ _ _ _ S1 _ _ d2 Hr Hn2 ltac:(done)) as Hr2.
    change (sane (tasks (overlay S1 v d2))). rewrite (reporting_view _ _ _ _ _ _ _ Hr2).
    exact (inv_sane_tasks _ (proj1 Hn2)).
  - intros m d2 S2 r k Hn2 HS2 Hrow Hpr Hk _. rewrite (proj2 (Z.eqb_neq k 0)) by lia. cbn [rcwp].
    pose proof (reporting_next _ _ _ _ _ S1 _ _ d2 Hr Hn2 ltac:(done)) as Hr2.
    change (tasks (overlay S1 v d2) !! sh_TaskID s = Some r) in Hrow.
    pose proof (reporting_view _ _ _ _ _ _ _ Hr2) as Hv2. pose proof Hr2 as (_ & Ht2 & _).
    rewrite Hv2 in Hrow. cbn [tasks set_task_shards] in Hrow. assert (r = t) as -> by congruence.
    eapply (report_commit params at_ None s x' t S1 (overlay S1 v d2) d2 (Some _) _ S2); [|exact Hr2|done|reflexivity].
    intros d3 HI3 _ _ Hs3 Ht3. exact (report_started params at_ d3 s t a n m Hp Hs3 Ht3 Hq Hc).
Qed.

(** The tail of a final report. *)
Lemma rcwp_report_finish params at_ s0 s t a n1 n2 S own old :
  sh_TaskID s = sh_TaskID s0 -> finishing params s t a n1 n2 S own old ->
  rc_wp (report_task params at_ t s0) (report_promise params at_) S own old.
Proof.
  intros Hid Hf. unfold report_task. pose proof (fin_status _ _ _ _ _ _ _ _ _ Hf) as Hp.
  assert ((rp_ShardStatus params =s ShardStatusRunning) = false /\
          (rp_ShardStatus params =s ShardStatusSucceeded) ||
          (rp_ShardStatus params =s ShardStatusFailed) = true) as [-> ->].
  { statuses; by rewrite Hp. }
  apply rcwp_bindR. rewrite <-Hid. eapply rcwp_mono; [|by apply (rcwp_recompute params at_ s t a n1 n2)].
  intros [payload|e] S1 own1 old1 Hr; [exact Hr|done].
Qed.

Lemma rcwp_report_failed params at_ s0 t S own old :
  rp_ShardStatus params = ShardStatusFailed -> locked params s0 t S own old ->
  rc_wp (_ <-? report_transition params ;; _ <-? report_output params ;; report_task params at_ t s0)
    (report_promise params at_) S own old.
Proof.
  intros Hp Hlk. unfold report_transition, report_output. rewrite Hp.
  change (ShardStatusFailed =s ShardStatusRunning) with false.
  change (ShardStatusFailed =s ShardStatusSucceeded) with false. rewrite eqs_refl. cbn iota.
  unfold MarkFailed. apply rcwp_bindR, rcwp_bindR, rcwp_bind. cbn [rcwp now]. intros a.
  apply (rcwp_report_row params s0 t _ _ _ _ S own old Hlk); [by apply ins_false|done..|].
  intros n d S1 s HI Hq Hid Hr. apply elem_of_cons in Hq as [Hq|Hq]; [|by apply not_elem_of_nil in Hq].
  cbn [rcwp]. apply rcwp_bindR. cbn [rcwp].
  apply (rcwp_report_finish params at_ s0 s t a 0 n); [done|].
  split; [rewrite Hp; by apply ins_spec|done| |done].
  unfold finished_shard. rewrite Hp. exact Hr.
Qed.

Lemma rcwp_report_succeeded params at_ s0 t S own old :
  rp_ShardStatus params = ShardStatusSucceeded -> locked params s0 t S own old ->
  rc_wp (_ <-? report_transition params ;; _ <-? report_output params ;; report_task params at_ t s0)
    (report_promise params at_) S own old.
Proof.
  intros Hp Hlk. unfold report_transition, report_output. rewrite Hp.
  change (ShardStatusSucceeded =s ShardStatusRunning) with false. rewrite eqs_refl. cbn iota.
  unfold MarkSucceeded. apply rcwp_bindR, rcwp_bindR, rcwp_bind. cbn [rcwp now]. intros a.
  apply (rcwp_report_row params s0 t _ _ _ _ S own old Hlk); [by apply ins_false|done..|].
  intros n d S1 s HI Hq Hid Hr. apply elem_of_cons in Hq as [Hq|Hq]; [|by apply not_elem_of_nil in Hq].
  set (x' := transitioned _ _ _ _) in *. set (v := set_task_shards _ d) in *.
  cbn [rcwp]. apply rcwp_bindR, rcwp_bindR.
  assert (forall d2, rc_now S1 d d2 ->
            sane (task_shards (overlay S1 v d2)) /\ task_shards (overlay S1 v d2) !! rp_ShardID params = Some x')
    as Hv.
  { intros d2 Hn2. pose proof (reporting_next _ _ _ _ _ S1 _ _ d2 Hr Hn2 ltac:(done)) as Hr2.
    rewrite (reporting_view _ _ _ _ _ _ _ Hr2). destruct Hr2 as (Hs2 & _).
    destruct (inv_shard _ (proj1 Hn2) _ s Hs2) as [? ?]. cbn [task_shards set_task_shards].
    split; [apply sane_insert; [apply inv_sane_shards, Hn2|done..]|apply lookup_insert_eq]. }
  apply (rcwp_Updates_at _ _ _ TShards) with (rp_ShardID params); try done.
  - intros r Hr'. by clean.
  - intros d2 Hn2. apply (Hv d2 Hn2).
  - intros d2 S2 Hn2 HS2 Hno. exfalso. destruct (Hv d2 Hn2) as [Hsn Hx].
    specialize (Hno x' Hx). destruct (Hsn _ _ Hx) as [Hrx _]. by rewrite bool_decide_true in Hno.
  - intros m d2 S2 r k Hn2 HS2 Hrow _ _ _. destruct (Hv d2 Hn2) as [_ Hx].
    change (task_shards (overlay S1 v d2) !! rp_ShardID params = Some r) in Hrow.
    assert (r = x') as -> by congruence. cbn [rcwp].
    pose proof (reporting_next _ _ _ _ _ S2 _ _ d2 Hr Hn2 HS2) as Hr2.
    pose proof (reporting_view _ _ _ _ _ _ _ Hr2) as Hv2.
    apply (rcwp_report_finish params at_ s0 s t a n m); [done|].
    split; [rewrite Hp; by apply ins_spec|done| |apply Hn2].
    destruct Hr2 as (Hs2 & Ht2 & _ & Hrw & Hit & His). split_and!; try done; [by rewrite finished_task|].
    destruct Hrw as (R1 & _ & R3 & R4). split; [exact R1|]. split; [|by split]. apply set_rows_spec.
    split; [done|]. change (rows (overlay S1 v d2)) with (task_shards (overlay S1 v d2)). rewrite Hv2.
    cbn [task_shards set_task_shards set_rows shards_Table]. rewrite insert_insert_eq.
    unfold finished_shard. by rewrite Hp.
Qed.

Lemma rcwp_report_body params at_ old :
  rc_wp (report_body params at_) (report_promise params at_) ∅ old old.
Proof.
  unfold report_body, TaskShardOrm.GetByID.
  apply rcwp_bindR, rcwp_bindR, rcwp_First; [done..|]. intros d S1 s0 Hn HS1. rewrite overlay_empty.
  intros Hin. cbn [rcwp]. apply elem_matching in Hin as ([k Hk] & _ & Hid). apply bool_decide_eq_true in Hid.
  change (task_shards d !! k = Some s0) in Hk. destruct (inv_shard _ (proj1 Hn) k s0 Hk) as [Hr0 _].
  assert (k = rp_ShardID params) as -> by congruence.
  pose proof (untouched_here ∅ S1 d ltac:(set_solver)) as Hu1.
  apply rcwp_bindR, rcwp_FirstForUpdate; [done..|]. intros d1 S2 t Hn1 HS2.
  rewrite (untouched_view _ _ _ _ _ Hu1 Hn1). intros Hin Hlock.
  apply elem_matching in Hin as ([kt Hkt] & _ & Hidt). apply bool_decide_eq_true in Hidt.
  change (tasks d1 !! kt = Some t) in Hkt. destruct (inv_task _ (proj1 Hn1) kt t Hkt) as (Hrt & _).
  assert (kt = sh_TaskID s0) as -> by congruence. rewrite Hidt in Hlock.
  assert (locked params s0 t S2 d1 d1) as Hlk.
  { split; [apply untouched_here; set_solver|done|]. exists d. split; [done|apply Hn1]. }
  assert (forall payload, (forall d2, onward d1 d2 -> report_done params at_ d2 payload d2) ->
            rc_effect (reports params at_ payload) S2 d1 d1) as Hread.
  { intros payload Hdone. eapply (stage_commit _ same_row same_row ∅); [apply (untouched_here ∅); set_solver|done..|].
    intros d2 d' HI Ho (R1 & R2 & R3 & R4). apply same_rows in R1, R2.
    assert (d' = d2) as -> by (destruct d', d2; cbn in *; congruence).
    split_and!; [by apply Hdone|done|reflexivity|]. intros; reflexivity. }
  destruct (_ && _ && _) eqn:Hdup.
  { clean. cbn [rcwp]. apply Hread. intros d2 Ho. apply report_duplicate with s0; [done| |done].
    apply (on_ended d); [etrans; [apply Hn1|exact Ho]|done|].
    unfold ended. match goal with Hq : sh_Status s0 = _ |- _ => rewrite Hq end. by apply ins_spec. }
  destruct (Status t =s TaskStatusCancelled) eqn:Hcan; [done|]. apply eqs_neq in Hcan.
  destruct (rp_ShardStatus params =s ShardStatusRunning) eqn:H1; [apply eqs_spec in H1; by apply rcwp_report_started|].
  destruct (rp_ShardStatus params =s ShardStatusSucceeded) eqn:H2; [apply eqs_spec in H2; by apply rcwp_report_succeeded|].
  destruct (rp_ShardStatus params =s ShardStatusFailed) eqn:H3; [apply eqs_spec in H3; by apply rcwp_report_failed|].
  unfold report_transition, report_output, report_task. rewrite H1, H2, H3. cbn [orb rcwp bindR bind].
  apply Hread. intros d2 _. apply report_ignored. unfold required_status. by rewrite H1, H2, H3.
Qed.
End Report.

(** ** All transactions at the same time *)
Inductive request :=
| RqLease (tenantID : uuid) (backendName agentID : string)
| RqReport (params : ReportShardStatusParams) (at_ : Z)
| RqRollback (shardID : uuid) (currentStatuses : list string) (task : Task)
| RqCancel (tenantID taskID : uuid)
| RqSubmit (task : Task) (scripts : list string)
| RqMark (taskIDs : list uuid) (status lastError : string).

Inductive answer :=
| Leased (r : Task * TaskShard)
| Reported (payload : option CompletionHookPayload)
| Done.

(** What the callers of the transactions pass. *)
Definition sound_request (q : request) : Prop :=
  match q with
  | RqRollback _ current _ => held current
  | RqSubmit task _ => rid task <> uuid_Nil /\ live task = true /\ Status task = TaskStatusPending
  | RqMark _ status _ => status ∈ [TaskStatusWaitingForAgents; TaskStatusFailed]
  | _ => True
  end.

Section Requests.
Context `{E : Env} {O : Observed}.

(** The body of the transaction. *)
Definition txn_body (q : request) : prog (res answer) :=
  match q with
  | RqLease T B A => r <-? lease_loop T B A maxRetries ;; Ret (Ok (Leased r))
  | RqReport params at_ => p <-? report_body params at_ ;; Ret (Ok (Reported p))
  | RqRollback id current task => _ <-? RollbackShardWithTask id current task ;; Ret (Ok Done)
  | RqCancel T id => _ <-? cancel_body T id ;; Ret (Ok Done)
  | RqSubmit task scripts => _ <-? submit_body task scripts ;; Ret (Ok Done)
  | RqMark ids status err => _ <-? MarkTasksStatus ids status err ;; Ret (Ok Done)
  end.

Definition begin (qs : list request) (w : World) : list (conn_state answer) :=
  (fun p => Running p ∅ (w_db w)) <$> (txn_body <$> qs).

(** What it does when it commits: the specification of each transaction, on the
    database it commits to.  It is not all a run of the body on that database would
    do: the statements before the commit have read what was committed [before]. *)
Definition effect_of (q : request) (a : answer) (d d' : DB) : Prop :=
  match q, a with
  | RqLease T B A, Leased r => takes T B A r d d'
  | RqReport params at_, Reported payload => reports params at_ payload d d'
  | RqRollback id current task, Done => rolled_back id current task d d'
  | RqCancel T id, Done => cancelled T id d d'
  | RqSubmit task scripts, Done => submits task scripts d d'
  | RqMark ids status err, Done => marks ids status err d d'
  | _, _ => False
  end.
Definition nth_effect (qs : list request) (i : nat) (a : answer) (d d' : DB) : Prop :=
  exists q, qs !! i = Some q /\ effect_of q a d d'.
End Requests.

Section RequestFacts.
Context `{E : Env, L : !EnvLaws E} {O : Observed}.
Implicit Types (d : DB).

Lemma effect_onward q a d d' : sound_request q -> Inv d -> effect_of q a d d' -> Inv d' /\ onward d d'.
Proof.
  intros Hq HI He. destruct q, a; try done.
  - by destruct (takes_onward _ _ _ _ _ _ HI He) as (? & ? & _).
  - by destruct (report_done_onward _ _ _ _ _ HI He) as (? & ? & _).
  - by destruct (rolled_back_onward _ _ _ _ _ Hq HI He) as (? & ? & _).
  - by destruct (cancelled_onward _ _ _ _ HI He) as (? & ? & _).
  - destruct Hq as (_ & Hl & Hst). by destruct (submits_onward _ _ _ _ Hl Hst HI He) as (? & ? & _).
  - by destruct (marks_onward _ _ _ _ _ Hq HI He) as (? & ? & _).
Qed.

Lemma rcwp_txn_body qs i q w :
  qs !! i = Some q -> sound_request q ->
  rc_wp (txn_body q) (commits (fun a => rc_effect (nth_effect qs i a))) ∅ (w_db w) (w_db w).
Proof.
  intros Hi Hq.
  assert (forall a S own old, rc_effect (effect_of q a) S own old -> rc_effect (nth_effect qs i a) S own old) as Hnth.
  { intros a S own old He d Hn d'. destruct (He d Hn) as (? & ? & ? & ?). split_and!; try done. by exists q. }
  destruct q; cbn [txn_body]; apply rcwp_bindR.
  - eapply rcwp_mono; [|apply rcwp_lease_loop; split; [apply wrote_empty|done]].
    intros [r|e] S own old Hr; [|done]. by apply Hnth.
  - eapply rcwp_mono; [|apply rcwp_report_body]. intros [r|e] S own old Hr; [|done]. by apply Hnth.
  - eapply rcwp_mono; [|by apply rcwp_RollbackShardWithTask]. intros [r|e] S own old Hr; [|done]. by apply Hnth.
  - eapply rcwp_mono; [|apply rcwp_cancel_body]. intros [r|e] S own old Hr; [|done]. by apply Hnth.
  - destruct Hq as (? & ? & ?). eapply rcwp_mono; [|by apply rcwp_submit_body].
    intros [r|e] S own old Hr; [|done]. by apply Hnth.
  - eapply rcwp_mono; [|by apply rcwp_MarkTasksStatus]. intros [r|e] S own old Hr; [|done]. by apply Hnth.
Qed.

(** A shard that is not queued is only queued again by a roll-back. *)
Lemma effect_unqueued q a d d' k s :
  Inv d -> effect_of q a d d' -> (forall current task, q <> RqRollback k current task) ->
  task_shards d !! k = Some s -> sh_Status s <> ShardStatusQueued ->
  exists s', task_shards d' !! k = Some s' /\ sh_Status s' <> ShardStatusQueued.
Proof.
  intros HI He Hq Hk Hs.
  assert (forall (d1 d2 : DB) j x x', task_shards d1 !! j = Some x -> task_shards d1 !! k = Some s ->
            (j = k -> sh_Status x' <> ShardStatusQueued) -> task_shards d2 = <[j := x']> (task_shards d1) ->
            exists s', task_shards d2 !! k = Some s' /\ sh_Status s' <> ShardStatusQueued) as Hput.
  { intros d1 d2 j x x' Hj Hk1 Hx ->. destruct (decide (j = k)) as [->|Hne].
    - rewrite lookup_insert_eq. exists x'. auto.
    - rewrite lookup_insert_ne by done. by exists s. }
  destruct q, a; try done; cbn in He.
  - destruct He as (x & t & n & _ & _ & _ & _ & Hx & _ & _ & _ & _ & Hs' & _).
    by refine (Hput d d' _ x _ Hx Hk _ Hs').
  - destruct He as [x|?|x t b n1 n2 ? Hx _ _ _|x t b n1 n2 payload d1 d' Hp Hx _ _ _ -> Hrec]; [by exists s..| |].
    + by apply (Hput d (set_tasks _ (set_task_shards _ d)) _ x (touch n1 (started_shard b x)) Hx Hk).
    + assert (task_shards d' = <[rp_ShardID params := touch n2 (finished_shard params b n1 x)]> (task_shards d))
        as Hd'.
      { unfold recomputed in Hrec. destruct (aggregate _); [by destruct Hrec as (? & ? & ? & _ & _ & ->)|].
        by destruct Hrec as [_ ->]. }
      refine (Hput d d' _ x _ Hx Hk _ Hd'). intros _. rewrite finished_status by done.
      statuses; by rewrite Hp.
  - destruct He as (x & n & Hx & _ & Hs' & _). refine (Hput d d' _ x _ Hx Hk _ Hs').
    intros ->. by destruct (Hq currentStatuses task).
  - destruct He as (t & a1 & n1 & a2 & n2 & _ & _ & _ & _ & -> & _). rewrite lookup_update_rows, Hk. cbn.
    destruct (_ && _); [|by exists s]. by eexists.
  - destruct He as (n & rows & _ & _ & _ & _ & _ & Hrow & _). specialize (Hrow k). unfold new_rows in Hrow.
    rewrite Hk in Hrow. destruct (added rows !! k); [by destruct Hrow|]. by exists s.
  - destruct He as (_ & Hsame & _). rewrite Hsame. by exists s.
Qed.

(** Serial executions. *)
Lemma serial_split {X : Type} (rel : nat -> X -> DB -> DB -> Prop) d0 h1 h2 d :
  serial rel d0 (h1 ++ h2) d -> exists d1, serial rel d0 h1 d1 /\ serial rel d1 h2 d.
Proof.
  revert d. induction h2 as [|x h2 IH] using rev_ind; intros d.
  - rewrite app_nil_r. intros Hs. exists d. split; [done|constructor].
  - rewrite app_assoc. intros Hs. inversion Hs as [Hnil|h d1 i a d2 Hh Hr Heq].
    + by destruct (h1 ++ h2)%list.
    + apply app_inj_tail in Heq as [-> <-]. destruct (IH d1 Hh) as (d3 & ? & ?). exists d3.
      split; [done|]. by econstructor.
Qed.
Lemma serial_cons {X : Type} (rel : nat -> X -> DB -> DB -> Prop) d0 i a h d :
  serial rel d0 ((i, a) :: h) d -> exists d1, rel i a d0 d1 /\ serial rel d1 h d.
Proof.
  intros Hs. apply (serial_split rel d0 [(i, a)] h) in Hs as (d1 & H1 & H2). exists d1. split; [|done].
  inversion H1 as [|h' d2 i' a' d3 Hh Hr Heq]; subst. destruct h' as [|? []]; try done.
  cbn in Heq. simplify_eq.
  inversion Hh as [Hnil|h2 d4 j b d5 _ _ Heq]; subst; [done|by destruct h2].
Qed.

Lemma serial_onward qs d h d' :
  Forall sound_request qs -> Inv d -> serial (nth_effect qs) d h d' -> Inv d' /\ onward d d'.
Proof.
  intros Hqs HI Hs. induction Hs as [|h d1 i a d2 _ [HI1 Ho1] (q & Hq & He)]; [split; [done|reflexivity]|].
  rewrite Forall_lookup in Hqs. destruct (effect_onward q a d1 d2 (Hqs i q Hq) HI1 He) as [? ?].
  split; [done|by etrans].
Qed.

Lemma serial_unqueued qs d h d' k s :
  Forall sound_request qs -> Inv d -> serial (nth_effect qs) d h d' ->
  (forall i a current task, (i, a) ∈ h -> qs !! i <> Some (RqRollback k current task)) ->
  task_shards d !! k = Some s -> sh_Status s <> ShardStatusQueued ->
  exists s', task_shards d' !! k = Some s' /\ sh_Status s' <> ShardStatusQueued.
Proof.
  intros Hqs HI Hs. revert Hs. induction 1 as [|h d1 i a d2 Hh IH (q & Hq & He)]; intros Hno Hk Hst; [by exists s|].
  destruct IH as (s1 & Hk1 & Hst1); [|done..|].
  { intros j b c t Hj. apply (Hno j b c t). set_solver. }
  destruct (serial_onward _ _ _ _ Hqs HI Hh) as [HI1 _].
  apply (effect_unqueued q a d1 d2 k s1 HI1 He); [|done..].
  intros c t ->. apply (Hno i a c t); [set_solver|done].
Qed.

Definition rolls_back (k : uuid) (q : option request) : bool :=
  match q with Some (RqRollback id _ _) => bool_decide (id = k) | _ => false end.

(** A shard that is handed out twice has been rolled back in between. *)
Lemma leased_twice qs d0 d h1 i r1 h2 j r2 h3 :
  Forall sound_request qs -> Inv d0 ->
  serial (nth_effect qs) d0 (h1 ++ (i, Leased r1) :: h2 ++ (j, Leased r2) :: h3) d -> rid r1.2 = rid r2.2 ->
  exists m a current task, (m, a) ∈ h2 /\ qs !! m = Some (RqRollback (rid r1.2) current task).
Proof.
  intros Hqs HI0 Hs Heq. apply serial_split in Hs as (d1 & Hs1 & Hs).
  apply serial_cons in Hs as (d2 & (q & _ & He1) & Hs). apply serial_split in Hs as (d3 & Hs2 & Hs).
  apply serial_cons in Hs as (d4 & (q' & _ & He2) & _).
  destruct (serial_onward _ _ _ _ Hqs HI0 Hs1) as [HI1 _].
  destruct q as [T B A| | | | |]; try done. destruct q' as [T' B' A'| | | | |]; try done. cbn in He1, He2.
  pose proof (takes_onward _ _ _ _ _ _ HI1 He1) as (HI2 & _).
  destruct He1 as (s & _ & n & _ & Hr & _ & _ & _ & _ & _ & _ & _ & Hs' & _).
  destruct He2 as (s2 & _ & _ & _ & Hr2 & _ & _ & Hk2 & Hq2 & _).
  destruct (decide (Exists (fun ma => rolls_back (rid s) (qs !! ma.1) = true) h2)) as [Hex|Hno].
  - apply Exists_exists in Hex as ([m a] & Hin & Hm). cbn in Hm.
    destruct (qs !! m) as [[| |id c t| | |]|] eqn:Hqm; try done. apply bool_decide_eq_true in Hm as ->.
    exists m, a, c, t. by rewrite Hr.
  - exfalso. destruct (serial_unqueued _ _ _ _ (rid s) (touch n (leased A s)) Hqs HI2 Hs2)
      as (s3 & Hk3 & Hq3); [|by rewrite Hs', lookup_insert_eq|done|].
    + intros m a c t Hin Hm. apply Hno, Exists_exists. exists (m, a). split; [done|].
      cbn [fst]. rewrite Hm. by apply bool_decide_eq_true.
    + assert (rid s = rid s2) as Hrs by congruence. rewrite <-Hrs in Hk2. congruence.
Qed.

(** What ends a task: a cancellation, or the report that settles its status and
    starts its completion hook. *)
Definition ends (qs : list request) (x : nat * answer) (id : uuid) : Prop :=
  match qs !! x.1, x.2 with
  | Some (RqCancel _ k), Done => k = id
  | Some (RqReport _ _), Reported (Some p) => pl_TaskID p = id
  | _, _ => False
  end.

Lemma report_ends params at_ d p d' :
  Inv d -> report_done params at_ d (Some p) d' ->
  (exists t, tasks d !! pl_TaskID p = Some t /\ Status t = TaskStatusRunning) /\
  exists t, tasks d' !! pl_TaskID p = Some t /\ Status t ∈ terminal_statuses.
Proof.
  intros HI Hr. inversion Hr as [| | |s t a n1 n2 q d1 dd Hp Hs Ht Hq Hrun Hd1 Hrec]; subst.
  unfold recomputed in Hrec. destruct (aggregate _) as [st|] eqn:Ha; [|by destruct Hrec].
  destruct Hrec as (fin & now & err & _ & Hpl & ->). unfold newCompletionHookPayload in Hpl.
  destruct (_ =s _); [done|]. injection Hpl as Hpl. destruct (inv_task _ HI _ t Ht) as (Hrt & _).
  assert (pl_TaskID p = sh_TaskID s) as -> by by rewrite Hpl, <-Hrt.
  split; [by exists t|]. cbn [tasks set_tasks]. rewrite lookup_insert_eq. eexists. split; [done|].
  change (st ∈ terminal_statuses). destruct (aggregate_sound _ _ Ha) as [Hst _].
  destruct Hst as [->|[-> _]]; by apply ins_spec.
Qed.

Lemma ends_effect qs i a d d' id :
  Inv d -> nth_effect qs i a d d' -> ends qs (i, a) id ->
  (exists t, tasks d !! id = Some t /\ Status t ∉ terminal_statuses) /\
  exists t, tasks d' !! id = Some t /\ Status t ∈ terminal_statuses.
Proof.
  intros HI (q & Hq & He) Hends. unfold ends in Hends. cbn in Hends. rewrite Hq in Hends.
  destruct q, a as [|[p|]|]; try done; cbn in He; subst id.
  - destruct (report_ends _ _ _ _ _ HI He) as [(t & Ht & Hr) Hend]. split; [|done]. exists t.
    split; [done|]. rewrite Hr. by apply ins_false.
  - destruct He as (t & a1 & n1 & a2 & n2 & Ht & _ & Hnt & Ht' & _). split; [by exists t|].
    rewrite Ht', lookup_insert_eq. eexists. split; [done|].
    change (TaskStatusCancelled ∈ terminal_statuses). by apply ins_spec.
Qed.

Lemma ended_once qs d0 h1 x h2 y h3 d id :
  Forall sound_request qs -> Inv d0 -> serial (nth_effect qs) d0 (h1 ++ x :: h2 ++ y :: h3) d ->
  ends qs x id -> ~ ends qs y id.
Proof.
  intros Hqs HI0 Hs Hx Hy. destruct x as [i a], y as [j b]. apply serial_split in Hs as (d1 & Hs1 & Hs).
  apply serial_cons in Hs as (d2 & He1 & Hs). apply serial_split in Hs as (d3 & Hs2 & Hs).
  apply serial_cons in Hs as (d4 & He2 & _). destruct (serial_onward _ _ _ _ Hqs HI0 Hs1) as [HI1 _].
  destruct (ends_effect _ _ _ _ _ _ HI1 He1 Hx) as [_ (t2 & Ht2 & Hend)].
  destruct (serial_onward qs d1 [(i, a)] d2 Hqs HI1 (serial_snoc _ _ [] _ _ _ _ (serial_nil _ _) He1)) as [HI2 _].
  destruct (serial_onward _ _ _ _ Hqs HI2 Hs2) as [HI3 [HL _ _ _ _]].
  destruct (ends_effect _ _ _ _ _ _ HI3 He2 Hy) as [(t3 & Ht3 & Hnt) _].
  destruct (life_task _ _ HL id t2 Ht2) as (t' & Ht' & _ & _ & _ & _ & _ & Hm).
  assert (t' = t3) as -> by congruence. apply Hnt. by rewrite (terminal_task_stays _ _ Hend Hm).
Qed.
End RequestFacts.

(** C7: The transactions at isolation level READ COMMITTED, interleaved.  Let any
    number of leases, shard reports, roll-backs, cancellations, submissions and
    updates of pending tasks run statement by statement, with PostgreSQL's row locks,
    in any interleaving and with any of them failing at any point.  In the order of
    their commits, what is committed refines the specifications [effect_of] of the
    committed transactions, each on the database it commits to.  So the invariant of
    tasks and shards and their life cycles hold; a shard handed out by two leases has
    been rolled back in between; at most one of all reports and cancellations ends a
    task; and once a cancellation has committed, its task stays CANCELLED without a
    queued, leased or running shard, whatever the leases and reports under way do
    then.  The outcome need not be that of the bodies run one after the other in the
    order of their commits: in [roll_back_overtaken] it is not. *)
Theorem transactions_refine `{E : Env, L : !EnvLaws E} qs w w' cs :
  Inv (w_db w) -> Forall sound_request qs -> rtc rc_step (w, begin qs w) (w', cs) ->
  let O := committed_between (w, begin qs w) (w', cs) in
  Inv (w_db w') /\ life (w_db w) (w_db w') /\
  exists h, serial (nth_effect (O := O) qs) (w_db w) h (w_db w') /\ NoDup h.*1 /\
    (forall i a, (i, a) ∈ h <-> cs !! i = Some (Finished (Ok a))) /\
    (forall h1 i r1 h2 j r2 h3,
       h = (h1 ++ (i, Leased r1) :: h2 ++ (j, Leased r2) :: h3)%list -> rid r1.2 = rid r2.2 ->
       exists m a current task, (m, a) ∈ h2 /\ qs !! m = Some (RqRollback (rid r1.2) current task)) /\
    (forall h1 x h2 y h3 id, h = (h1 ++ x :: h2 ++ y :: h3)%list -> ends qs x id -> ~ ends qs y id) /\
    (forall i a T id, (i, a) ∈ h -> qs !! i = Some (RqCancel T id) ->
       (exists t, tasks (w_db w') !! id = Some t /\ Status t = TaskStatusCancelled) /\
       forall k s, task_shards (w_db w') !! k = Some s -> sh_TaskID s = id ->
         sh_Status s ∈ terminal_statuses).
Proof.
  intros HI Hqs Hr O.
  destruct (rc_serial Inv onward lock_right (nth_effect qs) w (txn_body <$> qs) (w', cs) HI) as (HI' & h & [Hh Hc Hn]).
  { intros s Hs0 Hs1. by exists s. }
  { intros i p Hp. apply list_lookup_fmap_Some in Hp as (q & -> & Hq).
    rewrite Forall_lookup in Hqs. apply rcwp_txn_body; [done|by apply (Hqs i)]. }
  { exact Hr. }
  cbn [fst snd] in *. destruct (serial_onward _ _ _ _ Hqs HI Hh) as [_ Ho].
  split; [done|]. split; [apply Ho|]. exists h. split_and!; try done.
  - intros h1 i r1 h2 j r2 h3 -> Heq. exact (leased_twice _ _ _ _ _ _ _ _ _ _ Hqs HI Hh Heq).
  - intros h1 x h2 y h3 id ->. exact (ended_once _ _ _ _ _ _ _ _ _ Hqs HI Hh).
  - intros i a T id Hin Hq. apply list_elem_of_split in Hin as (h1 & h2 & ->).
    apply serial_split in Hh as (d1 & Hh1 & Hh). apply serial_cons in Hh as (d2 & (q & Hq' & He) & Hh2).
    destruct (serial_onward _ _ _ _ Hqs HI Hh1) as [HI1 _].
    assert (q = RqCancel T id) as -> by congruence. destruct a; try done. cbn in He.
    destruct (cancelled_onward _ _ _ _ HI1 He) as (HI2 & _).
    destruct (serial_onward _ _ _ _ Hqs HI2 Hh2) as [_ [HL _ _ _ _]].
    destruct He as (t & a1 & n1 & a2 & n2 & _ & _ & _ & Ht' & _).
    destruct (life_task _ _ HL id (touch n1 (cancelled_task a1 t))) as (t' & Hk' & _ & _ & _ & _ & _ & Hm);
      [by rewrite Ht', lookup_insert_eq|].
    assert (Status t' = TaskStatusCancelled) as Hst
      by (apply (terminal_task_stays TaskStatusCancelled); [by apply ins_spec|exact Hm]).
    split; [by exists t'|]. intros k s Hk Hid. destruct (inv_parent _ HI' k s Hk) as (x & Hx & Hcp).
    assert (x = t') as -> by congruence. rewrite Hst in Hcp. by apply ins_spec in Hcp.
Qed.

(** On [demo], in turn: two leases, which both read the shard 13 before either takes
    it; the last report of task 11; a roll-back of the shard 14 and its task; a
    submission, and the scheduler's update of task 12; later the cancellation of
    task 10. *)
Definition demo_requests : list request :=
  [RqLease 1 "kubernetes" "idle"; RqLease 1 "kubernetes" "busy"; RqReport demo_report 9;
   RqRollback 14 [ShardStatusLeased]
     (mkTask (at_ 10 5) 1 TaskStatusWaitingForAgents "" 2 None None None "" "");
   RqSubmit (new_task 30 2 "" 2) ["a.sh"; "b.sh"];
   RqMark [12%N] TaskStatusWaitingForAgents ""; RqCancel 1 10].
Definition demo_turns : World * list (conn_state answer) :=
  rc_turns (concat (repeat (seq 0 6) 14) ++ concat (repeat (seq 0 7) 40))
           (demo, @begin toy_env demo_requests demo).
Definition demo_outcome (s : World * list (conn_state answer)) : bool :=
  match s.2 !! 0, s.2 !! 1, s.2 !! 6 with
  | Some (Finished (Ok (Leased r1))), Some (Finished (Ok (Leased r2))), Some (Finished (Ok Done)) =>
    bool_decide (rid r1.2 = 13%N) && bool_decide (rid r2.2 = 14%N)
  | _, _, _ => false
  end.

Lemma demo_sound : Forall sound_request demo_requests.
Proof. repeat constructor; done. Qed.
Lemma demo_turns_reached : rtc rc_step (demo, @begin toy_env demo_requests demo) demo_turns.
Proof. apply rc_turns_sound. Qed.
Lemma demo_outcome_true : demo_outcome demo_turns = true.
Proof. vm_compute. reflexivity. Qed.

(** A roll-back of the shard 14 that read its task 10 as waiting for agents, and a
    lease of the shard 13 of the same task.  In [overtaken] the lease begins and
    commits when the roll-back has run its UPDATEs and not committed: the task, which
    the lease promotes, was not QUEUED when the roll-back looked, and stays QUEUED.
    In [in_turn] the roll-back begins when the lease has committed, and sends the task
    back to WAITING_FOR_AGENTS. *)
Definition race : list request :=
  [RqRollback 14 [ShardStatusLeased]
     (mkTask (at_ 10 5) 1 TaskStatusWaitingForAgents "" 2 None None None "" "");
   RqLease 1 "kubernetes" "idle"].
Definition raced (sched : list nat) : World * list (conn_state answer) :=
  rc_turns sched (demo, @begin toy_env race demo).
Definition in_turn : World * list (conn_state answer) := raced (repeat 1 40 ++ repeat 0 40).
Definition overtaken : World * list (conn_state answer) := raced (repeat 0 6 ++ repeat 1 40 ++ repeat 0 40).
Definition task_10 (s : World * list (conn_state answer)) : option string :=
  Status <$> tasks (w_db s.1) !! 10%N.

Lemma roll_back_overtaken :
  (exists L own, (raced (repeat 0 6)).2 !! 0 = Some (Running (Ret (Ok Done)) L own)) /\
  task_10 in_turn = Some TaskStatusWaitingForAgents /\ task_10 overtaken = Some TaskStatusQueued /\
  exists r r', overtaken.2 = [Finished (Ok Done); Finished (Ok (Leased r))] /\
    in_turn.2 = [Finished (Ok Done); Finished (Ok (Leased r'))].
Proof. vm_compute. split_and!; eauto 10. Qed.

Lemma transactions_refine_witness :
  let E := toy_env in
  exists w' cs h r1 r2, rtc rc_step (demo, begin demo_requests demo) (w', cs) /\
    serial (nth_effect (O := committed_between (demo, begin demo_requests demo) (w', cs)) demo_requests)
      (w_db demo) h (w_db w') /\
    (0, Leased r1) ∈ h /\ (1, Leased r2) ∈ h /\ rid r1.2 = 13%N /\ rid r2.2 = 14%N /\ Inv (w_db w') /\
    exists t, tasks (w_db w') !! 10%N = Some t /\ Status t = TaskStatusCancelled.
Proof.
  cbn zeta. generalize demo_turns demo_turns_reached demo_outcome_true. intros [w' cs] Hr Ho.
  pose proof (transactions_refine (E := toy_env) (L := toy_laws) demo_requests demo w' cs
                demo_inv demo_sound Hr) as (HI & _ & h & Hh & _ & Hc & _ & _ & Hcan).
  unfold demo_outcome in Ho. cbn [snd] in Ho.
  destruct (cs !! 0) as [[|[[r1| |]|]]|] eqn:H1; try discriminate Ho.
  destruct (cs !! 1) as [[|[[r2| |]|]]|] eqn:H2; try discriminate Ho.
  destruct (cs !! 6) as [[|[[]|]]|] eqn:H3; try discriminate Ho.
  apply andb_true_iff in Ho as [Hr1 Hr2]. apply bool_decide_eq_true in Hr1, Hr2.
  exists w', cs, h, r1, r2. split; [exact Hr|]. split; [exact Hh|]. split; [by apply Hc|].
  split; [by apply Hc|]. split; [done|]. split; [done|]. split; [done|].
  exact (proj1 (Hcan 6 Done 1%N 10%N (proj2 (Hc 6 Done) H3) eq_refl)).
Defined.
