(* ===== verification/ClusterService.v ===== *)
(** * Cluster lifecycle (internal/service/cluster_service)

    backend/registry.go's [Provider] interface is a record of programs; the
    registry maps a backend name to its provider. *)
From S2P Require Import Prelude Errors Model Env Proto World Effects Store StoreFacts.
From S2P Require Import Lifecycle Lawful TaskOrm ClusterOrm.

(** ** backend/registry.go, backend/kinds.go *)
Definition BackendKindKubernetes : string := "kubernetes".

Record Provider := mkProvider {
  ProvisionCluster : Tenant -> prog (res unit);
  ScaleCluster : Tenant -> Z -> prog (res unit);
  DestroyCluster : Tenant -> prog (res unit);
}.
Abbreviation ProviderRegistry := (gmap string Provider).

Definition NewRegistry : ProviderRegistry := ∅.
Definition Registry_Register (kind : string) (p : Provider) (r : ProviderRegistry)
    : ProviderRegistry := <[kind := p]> r.
Definition Registry_Get (backendName : string) (r : ProviderRegistry) : res Provider :=
  match r !! backendName with
  | Some p => Ok p
  | None => Err (ENew ("no provider registered for backend " +:+ quoted backendName))
  end.

Section ClusterService.
Context `{Env}.

(** ** service.go *)
Definition MarkActive (clusterID : uuid) : prog (res unit) :=
  UpdateStatus clusterID ClusterStatusActive.
Definition TerminateCluster (clusterID : uuid) : prog (res unit) :=
  UpdateStatus clusterID ClusterStatusTerminated.
Definition RenewBilling (clusterID : uuid) : prog (res unit) :=
  cluster <-? First (fun c : Cluster => bool_decide (rid c = clusterID)) [] ;;
  let newBoundary := (NextBillingBoundaryAt cluster +
                      duration_of_seconds (BillingCycleSeconds cluster))%Z in
  _ <-? Updates (fun c : Cluster => bool_decide (rid c = clusterID))
                (assign_cluster [SetNextBillingBoundaryAt newBoundary]) ;;
  Ret (Ok tt).
Definition GetByTenant (tenantID : uuid) : prog (res Cluster) := ClusterOrm.GetByTenant tenantID.

(** ** billing.go, at the instant [t] that [time.Now()] returns

    Without the saturation of [time.Until] and [time.Since] at the ends of the 64-bit
    durations, 292 years away. *)
Definition IsNearBoundary (t : Z) (cluster : Cluster) (threshold : Z) : bool :=
  (NextBillingBoundaryAt cluster - t <=? threshold)%Z.
Definition IsExpired (t : Z) (cluster : Cluster) : bool :=
  (NextBillingBoundaryAt cluster <? t)%Z.
Definition IsIdleExpired (t : Z) (cluster : Cluster) (threshold : Z) : bool :=
  match IdleSince cluster with
  | None => false
  | Some since => (threshold <=? t - since)%Z
  end.
Definition ShouldTerminate (cluster : Cluster) (idleThreshold : Z) : prog (res bool) :=
  activeCount <-? CountActiveTasks (cl_TenantID cluster) ;;
  if (activeCount >? 0)%Z then Ret (Ok false) else
  t <- now ;;
  if negb (IsIdleExpired t cluster idleThreshold) then Ret (Ok false) else Ret (Ok true).

(** ** recycler.go *)
Section Recycler.
Context (registry : ProviderRegistry) (advanceThreshold idleThreshold : Z).

Definition recycle_busy (cluster : Cluster) : prog unit :=
  (match IdleSince cluster with
   | Some _ => _ <- UpdateIdleSince (rid cluster) None ;; Ret tt
   | None => Ret tt
   end) ;;
  t <- now ;;
  if IsExpired t cluster then _ <- RenewBilling (rid cluster) ;; Ret tt
  else
  t' <- now ;;
  if IsNearBoundary t' cluster advanceThreshold
  then _ <- RenewBilling (rid cluster) ;; Ret tt
  else Ret tt.

Definition recycle_terminate (cluster : Cluster) : prog unit :=
  let tenant := mkTenant (mkBase (cl_TenantID cluster) 0 0 None) "" "" 0 in
  match Registry_Get (BackendName cluster) registry with
  | Err _ => Ret tt
  | Ok provider =>
    r <- DestroyCluster provider tenant ;;
    match r with
    | Err _ => Ret tt
    | Ok _ => _ <- TerminateCluster (rid cluster) ;; Ret tt
    end
  end.

(** [IsIdleExpired(c) && (IsNearBoundary(c) || IsExpired(c))], each reading the
    clock. *)
Definition may_terminate (cluster : Cluster) : prog bool :=
  t <- now ;;
  if IsIdleExpired t cluster idleThreshold then
    t1 <- now ;;
    if IsNearBoundary t1 cluster advanceThreshold then Ret true
    else t2 <- now ;; Ret (IsExpired t2 cluster)
  else Ret false.

Definition recycle_idle (cluster : Cluster) : prog unit :=
  cluster' <- (match IdleSince cluster with
               | None =>
                 t <- now ;;
                 _ <- UpdateIdleSince (rid cluster) (Some t) ;;
                 Ret (set_cluster (SetIdleSince (Some t)) cluster)
               | Some _ => Ret cluster
               end) ;;
  doomed <- may_terminate cluster' ;;
  if doomed : bool then recycle_terminate cluster' else Ret tt.

Definition recycle_cluster (cluster : Cluster) : prog unit :=
  if cl_Status cluster <>s ClusterStatusActive then Ret tt else
  r <- CountActiveTasks (cl_TenantID cluster) ;;
  match r with
  | Err _ => Ret tt
  | Ok activeCount =>
    if (activeCount >? 0)%Z then recycle_busy cluster else recycle_idle cluster
  end.

(** The clusters of one wake-up; [ctx.Err()] ends the loop. *)
Fixpoint recycle_list (l : list Cluster) : prog unit :=
  match l with
  | [] => Ret tt
  | c :: l' => Ext (fun done => match done with
                                | Some _ => Ret tt
                                | None => recycle_cluster c ;; recycle_list l'
                                end)
  end.

Definition recycle_tick : prog unit :=
  r <- GetDB ;;
  match r with
  | Err _ => Ret tt
  | Ok _ =>
    found <- GetActiveClusterList ;;
    match found with
    | Err _ => Ret tt
    | Ok l => recycle_list l
    end
  end.
End Recycler.

(** As many wake-ups as the ticker delivers before the context is done. *)
Fixpoint RecycleClusters (registry : ProviderRegistry) (billingAdvanceSeconds idleThresholdSeconds : Z)
    (ticks : nat) : prog unit :=
  match ticks with
  | O => Ret tt
  | S n =>
    recycle_tick registry (duration_of_seconds billingAdvanceSeconds)
                 (duration_of_seconds idleThresholdSeconds) ;;
    RecycleClusters registry billingAdvanceSeconds idleThresholdSeconds n
  end.
End ClusterService.

(** ** The cluster service leaves tasks and shards alone *)
(** What the server relies on of a backend: it does not write the tables. *)
Class LawfulProvider (p : Provider) : Prop := {
  lawful_provision : forall t, lawful (ProvisionCluster p t);
  lawful_scale : forall t n, lawful (ScaleCluster p t n);
  lawful_destroy : forall t, lawful (DestroyCluster p t);
}.
Definition lawful_registry (r : ProviderRegistry) : Prop :=
  forall name p, Registry_Get name r = Ok p -> LawfulProvider p.

Section ClusterServiceLaws.
Context `{E : Env, L : !EnvLaws E}.
Context (registry : ProviderRegistry) (Hreg : lawful_registry registry).

Lemma lawful_MarkActive id : lawful (MarkActive id).
Proof. lawful MarkActive. Qed.
Lemma lawful_TerminateCluster id : lawful (TerminateCluster id).
Proof. lawful TerminateCluster. Qed.
Lemma lawful_RenewBilling id : lawful (RenewBilling id).
Proof. lawful RenewBilling. Qed.
Lemma lawful_GetByTenant id : lawful (GetByTenant id).
Proof. lawful GetByTenant. Qed.
#[local] Hint Resolve lawful_MarkActive lawful_TerminateCluster lawful_RenewBilling : prog.

Lemma lawful_recycle_terminate c : lawful (recycle_terminate registry c).
Proof.
  unfold recycle_terminate. destruct (Registry_Get _ _) as [p|e] eqn:Hp; [|done].
  destruct (Hreg _ _ Hp) as [_ _ Hd]. lawful_all.
Qed.
#[local] Hint Resolve lawful_recycle_terminate : prog.
Lemma lawful_recycle_cluster adv idle c : lawful (recycle_cluster registry adv idle c).
Proof. unfold recycle_cluster, recycle_busy, recycle_idle, may_terminate. lawful_all. Qed.
#[local] Hint Resolve lawful_recycle_cluster : prog.
Lemma lawful_recycle_list adv idle l : lawful (recycle_list registry adv idle l).
Proof. induction l as [|c l IH]; cbn [recycle_list]; lawful_all. Qed.
#[local] Hint Resolve lawful_recycle_list : prog.
Lemma lawful_recycle_tick adv idle : lawful (recycle_tick registry adv idle).
Proof. lawful recycle_tick. Qed.
End ClusterServiceLaws.
#[export] Hint Resolve lawful_MarkActive lawful_TerminateCluster lawful_RenewBilling
  lawful_GetByTenant lawful_recycle_tick : prog.
