(* ===== verification/ClusterFacts.v ===== *)
(** * What the recycler does to the clusters table

    One wake-up of recycler.go, over every outcome of the database and of the
    backend: which rows change and when a cluster may be terminated. *)
From S2P Require Import Prelude Errors Model Env Proto World Effects Store StoreFacts.
From S2P Require Import Lifecycle Lawful Demo TaskOrm ClusterOrm ClusterService.

(** ** What the recycler relies on of a backend *)
(** A call on the outside world: it leaves the database alone. *)
Definition remote_same (w w' : World) : Prop :=
  w_db w' = w_db w /\ ((w_clock w <= w_clock w')%Z /\ w_uuids w <= w_uuids w').
#[export] Instance remote_refl : Reflexive remote_same.
Proof. split; [done|lia]. Qed.
#[export] Instance remote_trans : Transitive remote_same.
Proof. intros w1 w2 w3 [H1 H2] [H3 H4]. split; [congruence|lia]. Qed.

Definition remote {A} (p : prog A) : Prop :=
  safe (fun _ => True) remote_same p (fun _ => True).

Lemma remote_bind {A B} (p : prog A) (k : A -> prog B) :
  remote p -> (forall a, remote (k a)) -> remote (bind p k).
Proof. intros Hp Hk. eapply safe_bind; [exact Hp|]. intros a _. apply Hk. Qed.
Lemma remote_bindR {A B} (p : prog (res A)) f (k : A -> prog (res B)) :
  remote p -> (forall a, remote (k a)) -> remote (bindR p f k).
Proof. intros Hp Hk. apply remote_bind; [done|]. by intros [a|e]. Qed.
Lemma remote_wp {A} (p : prog A) b w : remote p -> wp b p (fun _ w' => remote_same w w') w.
Proof.
  intros Hp. apply wp_any_fault.
  eapply wp_mono; [|exact (safe_wp _ _ p _ w Hp Logic.I)]. by intros a w' (_ & _ & ?).
Qed.

Class RemoteProvider (p : Provider) : Prop := {
  remote_provision : forall t, remote (ProvisionCluster p t);
  remote_scale : forall t n, remote (ScaleCluster p t n);
  remote_destroy : forall t, remote (DestroyCluster p t);
}.
#[export] Hint Resolve remote_provision remote_scale remote_destroy : prog.

(** A backend whose clean-up succeeds when nothing outside fails. *)
Definition destroys (p : Provider) : Prop :=
  forall t w, wp false (DestroyCluster p t) (fun r _ => r = Ok tt) w.

(** ** The specification of a wake-up *)
Section Spec.
Context (registry : ProviderRegistry) (adv idle : Z).

Definition active_task (m : gmap uuid Task) (T : uuid) : Prop :=
  exists k t, m !! k = Some t /\ TenantID t = T /\ Status t ∈ activeStatuses.

Definition near (c : Cluster) (clock : Z) : Prop :=
  (NextBillingBoundaryAt c - clock <= adv)%Z \/ (NextBillingBoundaryAt c < clock)%Z.

(** Idle for long enough at [clock]: since the recorded instant, or since an
    instant of this wake-up, which began at [clock0]. *)
Definition idle_enough (c : Cluster) (clock0 clock : Z) : Prop :=
  exists since, (IdleSince c = Some since \/ IdleSince c = None /\ (clock0 <= since)%Z) /\
                (idle <= clock - since)%Z.

Definition renewed (c : Cluster) : Z :=
  (NextBillingBoundaryAt c + duration_of_seconds (BillingCycleSeconds c))%Z.

(** A cluster that the wake-up has to terminate. *)
Definition due (m : gmap uuid Task) (clock : Z) (c : Cluster) : Prop :=
  cl_Status c = ClusterStatusActive /\ ~ active_task m (cl_TenantID c) /\ near c clock /\
  (exists since, IdleSince c = Some since /\ (idle <= clock - since)%Z) /\
  exists p, Registry_Get (BackendName c) registry = Ok p.

Definition same_cluster (c c' : Cluster) : Prop :=
  rid c' = rid c /\ live c' = live c /\ CreatedAt (base c') = CreatedAt (base c) /\ cl_TenantID c' = cl_TenantID c /\
  BackendName c' = BackendName c /\ BillingCycleSeconds c' = BillingCycleSeconds c.

(** The idle instant: kept, cleared for a cluster with unfinished tasks, or set to an
    instant of the wake-up for one without. *)
Definition idled (m : gmap uuid Task) (clock0 : Z) (c c' : Cluster) (clock : Z) : Prop :=
  IdleSince c' = IdleSince c \/
  (active_task m (cl_TenantID c) /\ is_Some (IdleSince c) /\ IdleSince c' = None) \/
  (~ active_task m (cl_TenantID c) /\ IdleSince c = None /\
   exists t, IdleSince c' = Some t /\ (clock0 <= t <= clock)%Z).

(** From row [c], in a wake-up between [clock0] and [clock], to row [c']; [b]
    tells whether external calls may fail. *)
Record recycled (b : bool) (m : gmap uuid Task) (clock0 : Z) (c c' : Cluster) (clock : Z)
    : Prop := mkRecycled {
  rc_same : same_cluster c c';
  rc_status : cl_Status c' = cl_Status c \/
    (cl_Status c' = ClusterStatusTerminated /\ cl_Status c = ClusterStatusActive /\
     ~ active_task m (cl_TenantID c) /\ idle_enough c clock0 clock /\ near c clock);
  rc_billing : NextBillingBoundaryAt c' = NextBillingBoundaryAt c \/
    (NextBillingBoundaryAt c' = renewed c /\ cl_Status c' = ClusterStatusActive /\
     active_task m (cl_TenantID c) /\ near c clock);
  rc_idle : idled m clock0 c c' clock;
  rc_other : c' = c \/ cl_Status c = ClusterStatusActive;
  rc_due : b = false -> due m clock0 c -> cl_Status c' = ClusterStatusTerminated;
  rc_renew : b = false -> cl_Status c = ClusterStatusActive ->
    active_task m (cl_TenantID c) -> near c clock0 -> NextBillingBoundaryAt c' = renewed c;
}.

Lemma near_mono c t t' : (t <= t')%Z -> near c t -> near c t'.
Proof. unfold near. lia. Qed.
Lemma due_mono m t t' c : (t <= t')%Z -> due m t c -> due m t' c.
Proof.
  intros Ht (H1 & H2 & H3 & (s & Hs & Hi) & H5). repeat split; [done..| |by exists s; split; [|lia]|done].
  by eapply near_mono.
Qed.
Lemma idled_mono m t0 t0' c c' t t' :
  (t0 <= t0')%Z -> (t <= t')%Z -> idled m t0' c c' t -> idled m t0 c c' t'.
Proof.
  intros H0 Ht [?|[?|(? & ? & s & ? & ?)]]; [by left|by right; left|]. right. right.
  split; [done|]. split; [done|]. exists s. split; [done|lia].
Qed.
Lemma recycled_mono b m t0 t0' c c' t t' :
  (t0 <= t0')%Z -> (t <= t')%Z -> recycled b m t0' c c' t -> recycled b m t0 c c' t'.
Proof.
  intros H0 Ht [Hs Hst Hb Hid Ho Hd Hr]. split; [done| | |by eapply idled_mono|done| |].
  - destruct Hst as [?|(? & ? & ? & (s & Hi & Hle) & Hn)]; [by left|]. right.
    do 3 (split; [done|]). split; [|by eapply near_mono]. exists s. split; [|lia].
    destruct Hi as [?|[? ?]]; [by left|]. right. split; [done|lia].
  - destruct Hb as [?|(? & ? & ? & ?)]; [by left|]. right. do 3 (split; [done|]).
    by eapply near_mono.
  - intros Hb0 Hdue. apply Hd; [done|]. by eapply due_mono.
  - intros Hb0 Hact Hat Hnear. apply Hr; [done..|]. by eapply near_mono.
Qed.
End Spec.

(** ** One turn *)
Section Turn.
Context `{E : Env, L : !EnvLaws E}.
Context (registry : ProviderRegistry).
Context (Hreg : forall name p, Registry_Get name registry = Ok p -> RemoteProvider p).
Context (adv idle : Z) (b : bool).
Context (Hdes : b = false -> forall name p, Registry_Get name registry = Ok p -> destroys p).

(** Only the row [id] of the clusters table has changed, to [r]. *)
Definition onto (id : uuid) (r : Cluster) (w w' : World) : Prop :=
  w_db w' = set_clusters (<[id := r]> (clusters (w_db w))) (w_db w) /\
  ((w_clock w <= w_clock w')%Z /\ w_uuids w <= w_uuids w').

Lemma onto_same id r w w' :
  clusters (w_db w) !! id = Some r -> remote_same w w' -> onto id r w w'.
Proof.
  intros Hr [Hd Ht]. split; [|done]. rewrite Hd, insert_id by done. by destruct (w_db w).
Qed.
Lemma onto_trans id r1 r2 w w1 w2 : onto id r1 w w1 -> onto id r2 w1 w2 -> onto id r2 w w2.
Proof.
  intros [H1 T1] [H2 T2]. split; [|lia]. rewrite H2, H1. cbn. by rewrite insert_insert_eq.
Qed.
Lemma onto_lookup id r w w' : onto id r w w' -> clusters (w_db w') !! id = Some r.
Proof. intros [-> _]. cbn. apply lookup_insert_eq. Qed.
Lemma onto_sane id r w w' :
  sane (clusters (w_db w)) -> rid r = id -> live r = true -> onto id r w w' ->
  sane (clusters (w_db w')).
Proof. intros Hs Hr Hl [-> _]. by apply sane_insert. Qed.

Lemma wp_update_cluster id us r w Q :
  sane (clusters (w_db w)) -> clusters (w_db w) !! id = Some r ->
  (forall n t w', onto id (touch t (assign_cluster us r)) w w' -> Q (Ok n) w') ->
  (b = true -> forall e w', onto id r w w' -> Q (Err e) w') ->
  wp b (Updates (fun c : Cluster => bool_decide (rid c = id)) (assign_cluster us)) Q w.
Proof.
  intros Hs Hr H1 H2. apply wp_Updates; [|intros Hb].
  - intros t Ht. apply (H1 _ t).
    destruct (Hs id r Hr) as [Hid Hl]. split; [|done].
    unfold updated. cbn -[update_rows]. erewrite update_rows_single; [reflexivity|done..| |].
    + by rewrite bool_decide_true.
    + intros k x Hk Hx. clean. by destruct (Hs k x Hk) as [<- _].
  - intros t msg Ht. apply (H2 Hb). apply onto_same; [done|]. by split.
Qed.

(** An update of one cluster: done, or failed without effect. *)
Definition upd (us : list cluster_set) (r r' : Cluster) : Prop :=
  (b = true /\ r' = r) \/ exists t, r' = touch t (assign_cluster us r).

Lemma wp_upd id us r w Q :
  sane (clusters (w_db w)) -> clusters (w_db w) !! id = Some r ->
  (forall x r' w', onto id r' w w' -> upd us r r' -> Q x w') ->
  wp b (_ <-? Updates (fun c : Cluster => bool_decide (rid c = id)) (assign_cluster us) ;;
        Ret (Ok tt)) Q w.
Proof.
  intros Hs Hr HQ. apply wp_bindR. eapply wp_update_cluster; [done..| |].
  - intros n t w' Ho. cbn [wp]. eapply HQ; [exact Ho|]. right. by eexists.
  - intros Hb e w' Ho. eapply HQ; [exact Ho|]. by left.
Qed.

Lemma wp_UpdateIdleSince id s r w Q :
  sane (clusters (w_db w)) -> clusters (w_db w) !! id = Some r ->
  (forall x r' w', onto id r' w w' -> upd [SetIdleSince s] r r' -> Q x w') ->
  wp b (UpdateIdleSince id s) Q w.
Proof. apply wp_upd. Qed.

Lemma wp_UpdateStatus id st r w Q :
  sane (clusters (w_db w)) -> clusters (w_db w) !! id = Some r ->
  (forall x r' w', onto id r' w w' -> upd [SetClusterStatus st] r r' -> Q x w') ->
  wp b (UpdateStatus id st) Q w.
Proof. apply wp_upd. Qed.

Lemma wp_RenewBilling id r w Q :
  sane (clusters (w_db w)) -> clusters (w_db w) !! id = Some r ->
  (forall x r' w', onto id r' w w' -> upd [SetNextBillingBoundaryAt (renewed r)] r r' -> Q x w') ->
  wp b (RenewBilling id) Q w.
Proof.
  intros Hs Hr HQ. apply wp_bindR. apply wp_First_key; [done|..].
  - intros r0 Hr0. assert (r0 = r) as ->. { cbn in Hr0. congruence. }
    by eapply wp_upd.
  - intros Hn. cbn in Hn. congruence.
  - intros Hb msg. apply (HQ _ r); [|by left]. by apply onto_same.
Qed.

Lemma wp_CountActiveTasks T w Q :
  (forall n, (n > 0)%Z <-> active_task (tasks (w_db w)) T -> Q (Ok n) w) ->
  (b = true -> forall msg, Q (Err (EExternal msg)) w) ->
  wp b (CountActiveTasks T) Q w.
Proof.
  intros H1 H2. apply wp_stmt; [|done]. cbn [fst snd]. rewrite set_db_same. apply H1.
  unfold active_task. split.
  - intros Hn. destruct (List.filter _ _) as [|t l] eqn:Hf; [by cbn in Hn|].
    assert (In t (t :: l)) as Hin by by left. rewrite <-Hf in Hin.
    apply filter_In in Hin as [Hin Hp]. clean. apply list_elem_of_In, elem_scan in Hin as [k Hk].
    eauto.
  - intros (k & t & Hk & HT & Ha).
    assert (In t (List.filter (fun t => bool_decide (TenantID t = T) && ins (Status t) activeStatuses)
                    (scan (tasks (w_db w))))) as Hin.
    { apply filter_In. split; [apply list_elem_of_In, elem_scan; eauto|].
      rewrite bool_decide_true by done. by apply ins_spec. }
    destruct (List.filter _ _); [done|cbn; lia].
Qed.

(** The row of [c] with at most another [idle_since]. *)
Definition idle_row (m : gmap uuid Task) (clock0 clock : Z) (c r : Cluster) : Prop :=
  same_cluster c r /\ cl_Status r = cl_Status c /\ NextBillingBoundaryAt r = NextBillingBoundaryAt c /\
  idled m clock0 c r clock /\ (r = c \/ cl_Status c = ClusterStatusActive).
Lemma idle_row_refl m t0 t c : idle_row m t0 t c c.
Proof. repeat split; by left. Qed.
Lemma idle_row_upd m t0 t s c r :
  cl_Status c = ClusterStatusActive ->
  (forall r', IdleSince r' = s -> idled m t0 c r' t) -> upd [SetIdleSince s] c r -> idle_row m t0 t c r.
Proof.
  intros Ha Hs [[_ ->]|[n ->]]; [apply idle_row_refl|]. repeat split; [by apply Hs|by right].
Qed.
Lemma idle_row_mono m t0 t t' c r : (t <= t')%Z -> idle_row m t0 t c r -> idle_row m t0 t' c r.
Proof. intros Ht (? & ? & ? & Hi & ?). split_and!; try done. by eapply (idled_mono _ _ _ _ _ t). Qed.

(** [c'] is the row after a renewal of [r], a row of [c]. *)
Lemma renew_row m t0 t c r c' :
  idle_row m t0 t c r -> upd [SetNextBillingBoundaryAt (renewed r)] r c' ->
  same_cluster c c' /\ cl_Status c' = cl_Status c /\ idled m t0 c c' t /\
  ((b = true /\ NextBillingBoundaryAt c' = NextBillingBoundaryAt c) \/
   NextBillingBoundaryAt c' = renewed c).
Proof.
  intros ((Hi & Hl & Hcr & HT & HB & HC) & Hs & Hn & Hid & _) Hu. assert (renewed r = renewed c) as Hren.
  { unfold renewed. by rewrite Hn, HC. }
  destruct Hu as [[Hb ->]|[n ->]].
  - repeat split; [done..|]. by left.
  - repeat split; [done..|]. by right.
Qed.

Lemma recycled_renewal m clock0 c r c' clock :
  cl_Status c = ClusterStatusActive -> active_task m (cl_TenantID c) -> near adv c clock ->
  idle_row m clock0 clock c r -> upd [SetNextBillingBoundaryAt (renewed r)] r c' ->
  recycled registry adv idle b m clock0 c c' clock.
Proof.
  intros Hact Hat Hnear Hrow Hu. destruct (renew_row _ _ _ _ _ _ Hrow Hu) as (Hsame & Hst & Hid & Hb).
  split; [done|by left| |done|by right| |].
  - destruct Hb as [[_ ?]|?]; [by left|]. right. by rewrite Hst.
  - by intros _ (_ & Hno & _).
  - intros Hf _ _ _. destruct Hb as [[? _]|?]; [congruence|done].
Qed.

(** The row is left as it is, apart from [idle_since]. *)
Lemma recycled_idle_row m clock0 c r clock :
  idle_row m clock0 clock c r -> (b = false -> ~ due registry adv idle m clock0 c) ->
  (b = false -> cl_Status c = ClusterStatusActive -> active_task m (cl_TenantID c) ->
     ~ near adv c clock0) ->
  recycled registry adv idle b m clock0 c r clock.
Proof.
  intros (Hs & Hst & Hn & Hi & Ho) Hd Hr. split; [done|by left|by left|done|done| |].
  - intros Hb Hdue. by destruct (Hd Hb).
  - intros Hb Ha Hact Hnear. by destruct (Hr Hb Ha Hact).
Qed.

Lemma row_sane m t0 t c r w w' :
  sane (clusters (w_db w)) -> clusters (w_db w) !! rid c = Some c -> idle_row m t0 t c r ->
  onto (rid c) r w w' -> sane (clusters (w_db w')).
Proof.
  intros Hs Hc ((Hi & Hl & _) & _) Ho. destruct (Hs _ _ Hc) as [_ Hlc].
  eapply onto_sane; [done|exact Hi|by rewrite Hl|exact Ho].
Qed.

(** The row in a turn that began in [w], as it is in [w']. *)
Abbreviation row_in c r w w' := (idle_row (tasks (w_db w)) (w_clock w) (w_clock w') c r) (only parsing).

Lemma onto_clock id r w w' t : onto id r w w' -> (w_clock w' <= t)%Z -> onto id r w (set_clock t w').
Proof. intros [H1 H2] Ht. split; [done|]. cbn. lia. Qed.

Abbreviation turn c w := (fun _ w' => exists c', onto (rid c) c' w w' /\
  recycled registry adv idle b (tasks (w_db w)) (w_clock w) c c' (w_clock w')).

Lemma wp_renew_turn c r w w1 :
  sane (clusters (w_db w)) -> clusters (w_db w) !! rid c = Some c ->
  cl_Status c = ClusterStatusActive -> active_task (tasks (w_db w)) (cl_TenantID c) ->
  row_in c r w w1 -> onto (rid c) r w w1 -> near adv c (w_clock w1) ->
  wp b (_ <- RenewBilling (rid c) ;; Ret tt) (turn c w) w1.
Proof.
  intros Hs Hc Hact Hat Hrow Ho Hnear. apply wp_bind.
  eapply wp_RenewBilling; [by eapply row_sane|by eapply onto_lookup|].
  intros x c' w2 Ho2 Hu. cbn [wp]. exists c'. split; [by eapply onto_trans|].
  destruct Ho2 as [_ [Ht _]].
  eapply recycled_renewal; [done|done| |by eapply idle_row_mono|done]. by eapply near_mono.
Qed.

Lemma wp_recycle_busy c w :
  sane (clusters (w_db w)) -> clusters (w_db w) !! rid c = Some c ->
  cl_Status c = ClusterStatusActive -> active_task (tasks (w_db w)) (cl_TenantID c) ->
  wp b (recycle_busy adv c) (turn c w) w.
Proof.
  intros Hs Hc Hact Hat. unfold recycle_busy.
  assert (forall r w1, row_in c r w w1 -> onto (rid c) r w w1 ->
    wp b (t <- now ;; if IsExpired t c then _ <- RenewBilling (rid c) ;; Ret tt
          else t' <- now ;; if IsNearBoundary t' c adv then _ <- RenewBilling (rid c) ;; Ret tt
                            else Ret tt) (turn c w) w1) as Htail.
  { intros r w1 Hrow Ho. apply wp_bind. cbn [wp now]. intros t Ht.
    assert (forall t, (w_clock w1 <= t)%Z -> row_in c r w (set_clock t w1)) as Hrow'.
    { intros t0 Ht0. by eapply idle_row_mono. }
    destruct (IsExpired t c) eqn:He.
    { unfold IsExpired in He. apply Z.ltb_lt in He. eapply wp_renew_turn; [done..|by apply Hrow'|by apply onto_clock|].
      right. cbn. lia. }
    apply wp_bind. cbn [wp now]. intros t' Ht'. cbn in Ht'.
    assert (onto (rid c) r w (set_clock t' (set_clock t w1))) as Ho2.
    { apply onto_clock; [by apply onto_clock|done]. }
    assert (row_in c r w (set_clock t' (set_clock t w1))) as Hrow2 by (apply Hrow'; lia).
    destruct (IsNearBoundary t' c adv) eqn:Hn; unfold IsNearBoundary in Hn.
    { apply Z.leb_le in Hn. eapply wp_renew_turn; [done..|exact Hrow2|exact Ho2|]. left. cbn. lia. }
    cbn [wp]. exists r. split; [done|]. apply recycled_idle_row; [done|by intros _ (_ & Hno & _)|].
    intros _ _ _. unfold near. unfold IsExpired in He. apply Z.ltb_ge in He. apply Z.leb_gt in Hn.
    destruct Ho as [_ Hcl]. lia. }
  apply wp_bind. destruct (IdleSince c) as [s|] eqn:Hsi;
    [|by apply (Htail c); [apply idle_row_refl|by apply onto_same]].
  apply wp_bind. eapply wp_UpdateIdleSince; [done..|]. intros x r w1 Ho Hu. cbn [wp].
  eapply Htail; [|done]. eapply idle_row_upd; [done| |exact Hu]. intros r' Hr. right. left.
  split; [done|]. by rewrite Hsi.
Qed.

(** The clock read in the middle of a test only moves forward. *)
Lemma wp_may_terminate c w Q :
  (forall d w', remote_same w w' ->
     (d = true -> near adv c (w_clock w') /\
        exists since, IdleSince c = Some since /\ (idle <= w_clock w' - since)%Z) ->
     (d = false -> near adv c (w_clock w) ->
        ~ exists since, IdleSince c = Some since /\ (idle <= w_clock w - since)%Z) ->
     Q d w') ->
  wp b (may_terminate adv idle c) Q w.
Proof.
  intros HQ. unfold may_terminate. apply wp_bind. cbn [wp now]. intros t Ht.
  destruct (IsIdleExpired t c idle) eqn:Hi; unfold IsIdleExpired in Hi.
  2:{ cbn [wp]. apply HQ; [by split|done|]. intros _ _ (s & Hs & Hle). rewrite Hs in Hi.
      apply Z.leb_gt in Hi. lia. }
  destruct (IdleSince c) as [s|] eqn:Hs; [|done]. apply Z.leb_le in Hi.
  apply wp_bind. cbn [wp now]. intros t1 Ht1. cbn in Ht1.
  destruct (IsNearBoundary t1 c adv) eqn:Hn; unfold IsNearBoundary in Hn.
  { apply Z.leb_le in Hn. cbn [wp]. apply HQ; [split; [done|cbn; lia]| |done].
    intros _. split; [left; cbn; lia|]. exists s. split; [done|cbn; lia]. }
  apply Z.leb_gt in Hn. apply wp_bind. cbn [wp now]. intros t2 Ht2. cbn in Ht2.
  apply HQ; [split; [done|cbn; lia]| |]; unfold IsExpired, near; cbn.
  - intros He. apply Z.ltb_lt in He. split; [right; lia|]. exists s. split; [done|lia].
  - intros He Hnear. apply Z.ltb_ge in He. lia.
Qed.

(** The row of [c] terminated, [r] being the row just before. *)
Lemma recycled_terminated m clock0 c r c' clock :
  cl_Status c = ClusterStatusActive -> ~ active_task m (cl_TenantID c) ->
  idle_enough idle c clock0 clock -> near adv c clock ->
  idle_row m clock0 clock c r -> upd [SetClusterStatus ClusterStatusTerminated] r c' ->
  recycled registry adv idle b m clock0 c c' clock.
Proof.
  intros Hact Hno Hidle Hnear Hrow [[Hb ->]|[t ->]].
  - apply recycled_idle_row; [done|congruence..].
  - destruct Hrow as (Hs & Hst & Hn & Hi & _). split; [exact Hs|by right|left; exact Hn|exact Hi|by right|done|done].
Qed.

Lemma wp_Destroy name p t w :
  Registry_Get name registry = Ok p ->
  wp b (DestroyCluster p t) (fun r w' => remote_same w w' /\ (b = false -> r = Ok tt)) w.
Proof.
  intros Hp. apply wp_and; [apply remote_wp; by apply (Hreg _ _ Hp)|].
  destruct b eqn:Hb.
  - eapply wp_mono; [|apply (remote_wp _ true w), (Hreg _ _ Hp)]. done.
  - eapply wp_mono; [|apply (Hdes eq_refl _ _ Hp)]. done.
Qed.

(** [c0] is [c] as the recycler holds it in memory. *)
Lemma wp_recycle_terminate c c0 r w w1 :
  sane (clusters (w_db w)) -> clusters (w_db w) !! rid c = Some c ->
  cl_Status c = ClusterStatusActive -> ~ active_task (tasks (w_db w)) (cl_TenantID c) ->
  idle_enough idle c (w_clock w) (w_clock w1) -> near adv c (w_clock w1) ->
  row_in c r w w1 -> onto (rid c) r w w1 -> rid c0 = rid c -> BackendName c0 = BackendName c ->
  wp b (recycle_terminate registry c0) (turn c w) w1.
Proof.
  intros Hs Hc Hact Hno Hidle Hnear Hrow Ho Hid HB. unfold recycle_terminate. rewrite Hid, HB.
  destruct (Registry_Get (BackendName c) registry) as [p|e] eqn:Hp.
  2:{ cbn [wp]. exists r. split; [done|]. apply recycled_idle_row; [done| |done].
      intros _ (_ & _ & _ & _ & p & Hp'). congruence. }
  apply wp_bind. eapply wp_mono; [|by eapply wp_Destroy]. intros res w2 [Hw2 Hok].
  assert (onto (rid c) r w w2) as Ho2.
  { eapply onto_trans; [exact Ho|]. apply onto_same; [by eapply onto_lookup|done]. }
  destruct res as [[]|e].
  - apply wp_bind. eapply wp_UpdateStatus; [by eapply row_sane|by eapply onto_lookup|].
    intros x c' w3 Ho3 Hu. cbn [wp]. exists c'. split; [by eapply onto_trans|].
    destruct Hw2 as [_ T2], Ho3 as [_ T3].
    eapply recycled_terminated; [done|done| | |eapply idle_row_mono; [|exact Hrow]; lia|done].
    + destruct Hidle as (s & Hs' & Hle). exists s. split; [done|lia].
    + eapply near_mono; [|done]. lia.
  - cbn [wp]. exists r. split; [done|]. apply recycled_idle_row; [|intros Hb; by specialize (Hok Hb)|done].
    destruct Hw2 as [_ T2]. eapply idle_row_mono; [|exact Hrow]. lia.
Qed.

Lemma wp_recycle_idle c w :
  sane (clusters (w_db w)) -> clusters (w_db w) !! rid c = Some c ->
  cl_Status c = ClusterStatusActive -> ~ active_task (tasks (w_db w)) (cl_TenantID c) ->
  wp b (recycle_idle registry adv idle c) (turn c w) w.
Proof.
  intros Hs Hc Hact Hno. unfold recycle_idle.
  assert (forall c0 r w1, row_in c r w w1 -> onto (rid c) r w w1 -> rid c0 = rid c ->
    BackendName c0 = BackendName c -> NextBillingBoundaryAt c0 = NextBillingBoundaryAt c ->
    (IdleSince c0 = IdleSince c \/
     IdleSince c = None /\ exists t, IdleSince c0 = Some t /\ (w_clock w <= t)%Z) ->
    wp b (doomed <- may_terminate adv idle c0 ;;
          if doomed : bool then recycle_terminate registry c0 else Ret tt) (turn c w) w1) as Htail.
  { intros c0 r w1 Hrow Ho Hid HB Hnb Hsince. apply wp_bind. apply wp_may_terminate.
    intros d w2 Hw2 Hyes Hnay. unfold near in Hyes, Hnay. rewrite Hnb in Hyes, Hnay.
    assert (onto (rid c) r w w2) as Ho2.
    { eapply onto_trans; [exact Ho|]. apply onto_same; [by eapply onto_lookup|done]. }
    assert (row_in c r w w2) as Hrow2.
    { destruct Hw2 as [_ T2]. eapply idle_row_mono; [|exact Hrow]. lia. }
    destruct d.
    - destruct (Hyes eq_refl) as [Hnear (s & Hs0 & Hle)].
      eapply wp_recycle_terminate; [done|done|done|done| |done|exact Hrow2|done|done|done]. exists s. split; [|done].
      destruct Hsince as [Heq|[Hnone (t & Ht & Hle')]]; [left; congruence|right].
      split; [done|]. congruence.
    - cbn [wp]. exists r. split; [done|]. apply recycled_idle_row; [exact Hrow2| |done].
      intros _ (_ & _ & Hnear & (s & Hs0 & Hle) & _). destruct Ho as [_ Hcl].
      apply Hnay; [done|unfold near in Hnear; lia|]. exists s.
      destruct Hsince as [Heq|[Hnone _]]; [|congruence]. split; [congruence|lia]. }
  apply wp_bind. destruct (IdleSince c) as [s|] eqn:Hsi.
  { cbn [wp]. eapply (Htail c c); [apply idle_row_refl|by apply onto_same|done..|]. by left. }
  apply wp_bind. cbn [wp now]. intros t Ht. apply wp_bind.
  eapply wp_UpdateIdleSince; [done..|]. intros x r w1 Ho Hu. cbn [wp].
  eapply Htail; [eapply idle_row_upd; [done| |exact Hu]| |done..|].
  - intros r' Hr. right. right. split; [done|]. split; [done|]. exists t. split; [done|].
    destruct Ho as [_ [Hcl _]]. cbn in Hcl. lia.
  - eapply onto_trans; [|exact Ho]. apply onto_same; [done|]. by split.
  - right. split; [done|]. exists t. split; [done|lia].
Qed.

Lemma wp_recycle_cluster c w :
  sane (clusters (w_db w)) -> clusters (w_db w) !! rid c = Some c ->
  wp b (recycle_cluster registry adv idle c) (turn c w) w.
Proof.
  intros Hs Hc. unfold recycle_cluster.
  assert (row_in c c w w) as Hrefl by apply idle_row_refl. assert (onto (rid c) c w w) as Ho by by apply onto_same.
  destruct (cl_Status c <>s ClusterStatusActive) eqn:Hst; clean.
  { cbn [wp]. exists c. split; [done|]. apply recycled_idle_row; [exact Hrefl|by intros _ [? _]|by intros]. }
  apply wp_bind. apply wp_CountActiveTasks.
  - intros n Hn. destruct (n >? 0)%Z eqn:Hpos.
    + apply wp_recycle_busy; [done..|]. apply Hn. lia.
    + apply wp_recycle_idle; [done..|]. intros Ha. apply Hn in Ha. lia.
  - intros Hb msg. cbn [wp]. exists c. split; [done|].
    apply recycled_idle_row; [exact Hrefl|congruence..].
Qed.

(** Every row of the table after the turns of the clusters [l]. *)
Definition swept (l : list Cluster) (w w' : World) : Prop :=
  w_db w' = set_clusters (clusters (w_db w')) (w_db w) /\ (w_clock w <= w_clock w')%Z /\
  forall k, match clusters (w_db w) !! k, clusters (w_db w') !! k with
            | Some c, Some c' => k ∈ rid <$> l \/ c' = c
            | None, None => True
            | _, _ => False
            end.
Definition all_recycled (l : list Cluster) (w w' : World) : Prop :=
  forall c, c ∈ l -> exists c', clusters (w_db w') !! rid c = Some c' /\
    recycled registry adv idle b (tasks (w_db w)) (w_clock w) c c' (w_clock w').

Lemma swept_nil w : swept [] w w.
Proof.
  split; [by destruct (w_db w)|]. split; [lia|]. intros k. destruct (_ !! k); [by right|done].
Qed.

(** A turn on [c], then the turns on [l]. *)
Lemma swept_cons c c' l w w1 w' :
  clusters (w_db w) !! rid c = Some c -> onto (rid c) c' w w1 -> swept l w1 w' -> swept (c :: l) w w'.
Proof.
  intros Hc [H1 T1] (H2 & T2 & Hk). split; [|split; [lia|]].
  - rewrite H2, H1. done.
  - intros k. specialize (Hk k). rewrite H1 in Hk. cbn in Hk.
    destruct (decide (k = rid c)) as [->|Hne].
    + rewrite lookup_insert_eq in Hk. rewrite Hc. destruct (clusters (w_db w') !! rid c); [|done].
      left. apply elem_of_cons. by left.
    + rewrite lookup_insert_ne in Hk by done. destruct (clusters (w_db w) !! k), (clusters (w_db w') !! k); try done.
      destruct Hk as [?|?]; [left; apply elem_of_cons; by right|by right].
Qed.

(** The tail of a list may stop early when calls may fail: its rows are then as
    they were. *)
Lemma recycled_skip m clock0 c clock : b = true -> recycled registry adv idle b m clock0 c c clock.
Proof. intros Hb. apply recycled_idle_row; [apply idle_row_refl|congruence..]. Qed.

Lemma wp_recycle_list l w :
  sane (clusters (w_db w)) -> NoDup (rid <$> l) ->
  (forall c, c ∈ l -> clusters (w_db w) !! rid c = Some c) ->
  wp b (recycle_list registry adv idle l) (fun _ w' => swept l w w' /\ all_recycled l w w') w.
Proof.
  revert w. induction l as [|c l IH]; intros w Hs Hnd Hl.
  { cbn. split; [apply swept_nil|]. by intros c Hc%not_elem_of_nil. }
  cbn [fmap list_fmap] in Hnd. apply NoDup_cons in Hnd as [Hc Hnd].
  assert (clusters (w_db w) !! rid c = Some c) as Hrow by (apply Hl; left).
  cbn [recycle_list wp]. split.
  - apply wp_bind. eapply wp_mono; [|by apply wp_recycle_cluster].
    intros _ w1 (c' & Ho & Hrec). pose proof Ho as [H1 T1].
    assert (forall x, x ∈ l -> rid x <> rid c) as Hother.
    { intros x Hx Heq. apply Hc. rewrite <-Heq. by apply list_elem_of_fmap_2. }
    eapply wp_mono; [|apply IH; [|done|]].
    + intros _ w2 [Hsw Hall]. split; [by eapply swept_cons|].
      pose proof Hsw as (H2 & T2 & Hk).
      intros x [->|Hx]%elem_of_cons.
      * exists c'. specialize (Hk (rid c)). rewrite (onto_lookup _ _ _ _ Ho) in Hk.
        destruct (clusters (w_db w2) !! rid c) as [y|]; [|done].
        destruct Hk as [?| ->]; [done|]. split; [done|]. eapply recycled_mono; [..|exact Hrec]; lia.
      * destruct (Hall x Hx) as (x' & Hx' & Hr). exists x'. split; [done|].
        rewrite H1 in Hr. cbn in Hr. eapply recycled_mono; [..|exact Hr]; lia.
    + destruct (Hs _ _ Hrow) as [_ Hlive]. destruct (rc_same _ _ _ _ _ _ _ _ _ Hrec) as (Hi & Hlv & _).
      eapply onto_sane; [done|exact Hi|by rewrite Hlv|exact Ho].
    + intros x Hx. rewrite H1. cbn. rewrite lookup_insert_ne by (symmetry; auto).
      apply Hl. by right.
  - intros Hb m. split.
    + split; [by destruct (w_db w)|]. split; [lia|]. intros k. destruct (_ !! k); [by right|done].
    + intros x Hx. exists x. split; [by apply Hl|]. by apply recycled_skip.
Qed.

Lemma wp_recycle_tick w :
  w_db_open w = true -> sane (clusters (w_db w)) ->
  wp b (recycle_tick registry adv idle) (fun _ w' =>
    w_db w' = set_clusters (clusters (w_db w')) (w_db w) /\
    forall k, match clusters (w_db w) !! k, clusters (w_db w') !! k with
              | Some c, Some c' =>
                  recycled registry adv idle b (tasks (w_db w)) (w_clock w) c c' (w_clock w')
              | None, None => True
              | _, _ => False
              end) w.
Proof.
  intros Hopen Hs.
  assert (b = true -> forall k, match clusters (w_db w) !! k with
    | Some c => recycled registry adv idle b (tasks (w_db w)) (w_clock w) c c (w_clock w)
    | None => True end) as Hskip.
  { intros Hb k. destruct (_ !! k); [by apply recycled_skip|done]. }
  apply wp_bind. apply wp_GetDB; [done|]. apply wp_bind. apply wp_Find.
  - intros l Hperm. eapply wp_mono; [|apply wp_recycle_list; [done| |]].
    + intros _ w' [(Hdb & Ht & Hk) Hall]. split; [done|]. intros k. specialize (Hk k).
      destruct (clusters (w_db w) !! k) as [c|] eqn:Hc; [|done].
      destruct (clusters (w_db w') !! k) as [c'|] eqn:Hc'; [|done].
      destruct (Hs k c Hc) as [Hid Hlive].
      destruct (ins (cl_Status c) [ClusterStatusActive; ClusterStatusProvisioning]) eqn:Hin.
      * assert (c ∈ l) as Hcl.
        { rewrite Hperm. apply elem_matching. split; [by exists k|]. by split. }
        destruct (Hall c Hcl) as (x & Hx & Hrec). rewrite Hid, Hc' in Hx. by injection Hx as <-.
      * assert (c' = c) as ->.
        { destruct Hk as [Hk|Hk]; [|done]. apply list_elem_of_fmap in Hk as (y & -> & Hy).
          rewrite Hperm in Hy. apply elem_matching in Hy as ([j Hj] & _ & Hy).
          destruct (Hs j y Hj) as [<- _]. cbn in Hj. rewrite Hc in Hj. injection Hj as <-.
          congruence. }
        assert (cl_Status c <> ClusterStatusActive) as Hna.
        { intros Ha. rewrite Ha in Hin. by vm_compute in Hin. }
        apply recycled_idle_row; [apply idle_row_refl|by intros _ [? _]|by intros].
    + rewrite Hperm. apply matching_nodup. intros k r Hk. by destruct (Hs k r Hk).
    + intros c Hc. rewrite Hperm in Hc. apply elem_matching in Hc as ([k Hk] & _ & _).
      by destruct (Hs k c Hk) as [-> _].
  - intros Hb msg. cbn [wp]. split; [by destruct (w_db w)|]. intros k.
    specialize (Hskip Hb k). by destruct (_ !! k).
Qed.
End Turn.

(** ** The claims *)
Section RecyclerClaims.
Context `{E : Env, L : !EnvLaws E}.
Context (registry : ProviderRegistry) (adv idle : Z).
Context (Hreg : forall name p, Registry_Get name registry = Ok p -> RemoteProvider p).

(** C23: Whatever fails during a wake-up, the recycler only terminates an ACTIVE
    cluster whose tenant has no unfinished task, that has been idle for the
    threshold and that is near or past its billing boundary; it moves a boundary
    only by exactly one cycle and only for an ACTIVE cluster with unfinished tasks; it
    clears the idle instant only of an ACTIVE cluster with unfinished tasks, and sets
    it, to an instant of the wake-up, only for an ACTIVE cluster without that has none
    yet.  A cluster that is not ACTIVE keeps its row; of the other rows only the status,
    the boundary, the idle instant and the update time can change; no row is added or
    removed, and no other table changes.  In particular the boundary of an idle cluster
    that is not terminated is not moved. *)
Theorem recycle_tick_safe w o :
  w_db_open w = true -> sane (clusters (w_db w)) ->
  let w' := final (run (recycle_tick registry adv idle) w o) in
  w_db w' = set_clusters (clusters (w_db w')) (w_db w) /\
  dom (clusters (w_db w')) = dom (clusters (w_db w)) /\
  forall k c c', clusters (w_db w) !! k = Some c -> clusters (w_db w') !! k = Some c' ->
    same_cluster c c' /\
    (cl_Status c' = cl_Status c \/
     (cl_Status c' = ClusterStatusTerminated /\ cl_Status c = ClusterStatusActive /\
      ~ active_task (tasks (w_db w)) (cl_TenantID c) /\
      idle_enough idle c (w_clock w) (w_clock w') /\ near adv c (w_clock w'))) /\
    (NextBillingBoundaryAt c' = NextBillingBoundaryAt c \/
     (NextBillingBoundaryAt c' = renewed c /\ cl_Status c' = ClusterStatusActive /\
      active_task (tasks (w_db w)) (cl_TenantID c) /\ near adv c (w_clock w'))) /\
    idled (tasks (w_db w)) (w_clock w) c c' (w_clock w') /\
    (c' = c \/ cl_Status c = ClusterStatusActive).
Proof.
  intros Hopen Hs w'. assert (true = false -> forall name p,
    Registry_Get name registry = Ok p -> destroys p) as Hd by done.
  destruct (wp_run _ _ w o (wp_recycle_tick registry Hreg adv idle true Hd w Hopen Hs)) as [Hdb Hk].
  fold w' in Hdb, Hk. split; [exact Hdb|]. split.
  - apply set_eq. intros k. rewrite !elem_of_dom. specialize (Hk k).
    destruct (clusters (w_db w) !! k), (clusters (w_db w') !! k); done.
  - intros k c c' Hc Hc'. specialize (Hk k). rewrite Hc, Hc' in Hk. by destruct Hk.
Qed.

(** C24: Without external failures a wake-up terminates every ACTIVE cluster that
    is idle for the threshold and near its boundary, and renews the billing of
    every ACTIVE cluster with unfinished tasks that is near its boundary, for any
    number of clusters. *)
Theorem recycle_tick_complete w o k c :
  (forall name p, Registry_Get name registry = Ok p -> destroys p) ->
  w_db_open w = true -> sane (clusters (w_db w)) -> calm o ->
  clusters (w_db w) !! k = Some c ->
  let w' := final (run (recycle_tick registry adv idle) w o) in
  exists c', clusters (w_db w') !! k = Some c' /\
    (due registry adv idle (tasks (w_db w)) (w_clock w) c ->
       cl_Status c' = ClusterStatusTerminated) /\
    (cl_Status c = ClusterStatusActive -> active_task (tasks (w_db w)) (cl_TenantID c) ->
       near adv c (w_clock w) ->
       cl_Status c' = ClusterStatusActive /\ NextBillingBoundaryAt c' = renewed c).
Proof.
  intros Hdes Hopen Hs Ho Hc w'.
  destruct (wp_run_calm _ _ w o Ho
              (wp_recycle_tick registry Hreg adv idle false (fun _ => Hdes) w Hopen Hs)) as [_ Hk].
  fold w' in Hk. specialize (Hk k). rewrite Hc in Hk.
  destruct (clusters (w_db w') !! k) as [c'|]; [|done]. destruct Hk as [_ Hst _ _ _ Hdue Hren].
  exists c'. split; [done|]. split; [by apply Hdue|]. intros Ha Hat Hn. split; [|by apply Hren].
  destruct Hst as [->|(_ & _ & Hno & _)]; [done|by destruct Hno].
Qed.
End RecyclerClaims.

(** ** An idle deployment *)
Definition demo_provider : Provider :=
  mkProvider (fun _ => call (fun w => (Ok tt, w))) (fun _ _ => call (fun w => (Ok tt, w)))
             (fun _ => call (fun w => (Ok tt, w))).
Definition demo_providers : ProviderRegistry :=
  Registry_Register BackendKindKubernetes demo_provider NewRegistry.
(** Tenant 1 has unfinished tasks, tenant 2 has none. *)
Definition demo_recycle : World :=
  set_db (set_tasks (delete 12%N demo_tasks) demo_db) demo.

Lemma demo_providers_remote name p :
  Registry_Get name demo_providers = Ok p -> RemoteProvider p.
Proof.
  unfold Registry_Get, demo_providers, Registry_Register, NewRegistry.
  destruct (decide (name = BackendKindKubernetes)) as [->|Hne].
  - rewrite lookup_insert_eq. intros [= <-]. split; intros; cbn; intros [m|]; cbn; intros; done.
  - by rewrite lookup_insert_ne, lookup_empty.
Qed.
Lemma demo_providers_destroy name p : Registry_Get name demo_providers = Ok p -> destroys p.
Proof.
  unfold Registry_Get, demo_providers, Registry_Register, NewRegistry.
  destruct (decide (name = BackendKindKubernetes)) as [->|Hne].
  - rewrite lookup_insert_eq. by intros [= <-].
  - by rewrite lookup_insert_ne, lookup_empty.
Qed.
Lemma demo_recycle_sane : sane (clusters (w_db demo_recycle)).
Proof. by apply sane_check_sound. Qed.

Lemma recycle_tick_safe_witness :
  let w' := final (run (@recycle_tick toy_env demo_providers (180 * Second) (600 * Second))
                       demo_recycle quiet) in
  dom (clusters (w_db w')) = dom demo_clusters /\ tasks (w_db w') = delete 12%N demo_tasks.
Proof.
  destruct (@recycle_tick_safe toy_env toy_laws demo_providers (180 * Second) (600 * Second)
              demo_providers_remote demo_recycle quiet eq_refl demo_recycle_sane) as (Hd & Hdom & _).
  split; [exact Hdom|]. rewrite Hd. reflexivity.
Defined.

Lemma recycle_tick_complete_witness :
  exists c', clusters (w_db (final (run (@recycle_tick toy_env demo_providers (180 * Second)
                                       (600 * Second)) demo_recycle quiet))) !! 4%N = Some c' /\
             cl_Status c' = ClusterStatusTerminated.
Proof.
  destruct (@recycle_tick_complete toy_env toy_laws demo_providers (180 * Second) (600 * Second)
              demo_providers_remote demo_recycle quiet 4%N
              (mkCluster (at_ 4 1) 2 ClusterStatusActive "kubernetes" 3600 (100 * Second)
                 (Some (- 1000 * Second)%Z))
              demo_providers_destroy eq_refl demo_recycle_sane (Forall_nil_2 _) eq_refl)
    as (c' & Hc' & Hdue & _).
  exists c'. split; [exact Hc'|]. apply Hdue. split; [reflexivity|]. split.
  - intros (k & t & Hk & HT & _). apply elem_of_map_to_list in Hk. vm_compute in Hk.
    repeat (apply elem_of_cons in Hk as [Hk|Hk]; [injection Hk as -> ->; discriminate HT|]).
    by apply not_elem_of_nil in Hk.
  - split; [left; by vm_compute|]. split; [|by eexists].
    eexists. split; [reflexivity|by vm_compute].
Defined.
