(* ===== verification/TaskPoll.v ===== *)
(** * Scheduling pending tasks (internal/service/task_service/poll_pending_tasks.go) *)
From S2P Require Import Prelude Errors Model Env Proto World Effects Store StoreFacts.
From S2P Require Import Lifecycle Lawful TaskOrm TenantOrm ClusterOrm ClusterService.

Section TaskPoll.
Context `{Env}.

(** [groups[task.TenantID] = append(groups[task.TenantID], task.ID)] *)
Definition group_tasks (pending : list Task) : gmap uuid (uuid * list uuid) :=
  fold_left (fun g t =>
    <[TenantID t := (TenantID t, (snd (default (0%N, []) (g !! TenantID t)) ++ [rid t])%list)]> g)
    pending ∅.

Definition mark (task_ids : list uuid) (status lastError : string) : prog unit :=
  _ <- MarkTasksStatus task_ids status lastError ;; Ret tt.

Section Poll.
Context (registry : ProviderRegistry) (billingCycleSeconds : Z).

Definition wanted_cluster (tenant : Tenant) (t : Z) : Cluster :=
  mkCluster (mkBase uuid_Nil 0 0 None) (rid tenant) ClusterStatusProvisioning
    (PrimaryBackendName tenant) billingCycleSeconds
    (t + duration_of_seconds billingCycleSeconds)%Z None.

(** The tail of a tenant's turn, once the cluster record exists. *)
Definition poll_provision (provider : Provider) (tenant : Tenant) (task_ids : list uuid)
    : prog unit :=
  ensured <- ProvisionCluster provider tenant ;;
  match ensured with
  | Err e => mark task_ids TaskStatusPending ("ensure: " +:+ Error e)
  | Ok _ =>
    scaled <- ScaleCluster provider tenant (MaxAgents tenant) ;;
    match scaled with
    | Err e => mark task_ids TaskStatusPending ("scale: " +:+ Error e)
    | Ok _ =>
      existing <- ClusterService.GetByTenant (rid tenant) ;;
      (match existing with
       | Ok c => _ <- MarkActive (rid c) ;; Ret tt
       | Err _ => Ret tt
       end) ;;
      mark task_ids TaskStatusWaitingForAgents ""
    end
  end.

Definition poll_tenant (tenant_id : uuid) (task_ids : list uuid) : prog unit :=
  found <- TenantOrm.GetById tenant_id ;;
  match found with
  | Err _ => Ret tt
  | Ok tenant =>
    if (MaxAgents tenant <=? 0)%Z
    then mark task_ids TaskStatusFailed "tenant max_agents is 0"
    else
    match Registry_Get (PrimaryBackendName tenant) registry with
    | Err e => mark task_ids TaskStatusPending (Error e)
    | Ok provider =>
      t <- now ;;
      cluster <- GetOrCreateActiveCluster (wanted_cluster tenant t) ;;
      match cluster with
      | Err e => mark task_ids TaskStatusPending (Error e)
      | Ok _ => poll_provision provider tenant task_ids
      end
    end
  end.

(** [for tenant_id, task_ids := range groups], in the order the runtime picks;
    a group is skipped once the context is done. *)
Fixpoint poll_groups (groups : list (uuid * list uuid)) : prog unit :=
  match groups with
  | [] => Ret tt
  | (tenant_id, task_ids) :: rest =>
    Ext (fun done => match done with
                     | Some _ => poll_groups rest
                     | None => poll_tenant tenant_id task_ids ;; poll_groups rest
                     end)
  end.

Definition poll_tick : prog unit :=
  pending <- GetPendingTaskList ;;
  match pending with
  | Err _ => Ret tt
  | Ok l => poll_groups (scan (group_tasks l))
  end.

Fixpoint poll_loop (ticks : nat) : prog unit :=
  match ticks with
  | O => Ret tt
  | S n => poll_tick ;; poll_loop n
  end.

Definition PollPendingTasks (ticks : nat) : prog unit :=
  r <- GetDB ;;
  match r with
  | Err _ => Ret tt
  | Ok _ => poll_loop ticks
  end.
End Poll.
End TaskPoll.

(** ** Scheduling keeps the life cycle *)
Section TaskPollLaws.
Context `{E : Env, L : !EnvLaws E}.
Context (registry : ProviderRegistry) (Hreg : lawful_registry registry).

Lemma lawful_mark ids status err :
  status ∈ [TaskStatusPending; TaskStatusWaitingForAgents; TaskStatusFailed] ->
  lawful (mark ids status err).
Proof. intros Hs. unfold mark. apply lawful_bind; [by apply lawful_MarkTasksStatus|done]. Qed.
Lemma pending_in : TaskStatusPending ∈
  [TaskStatusPending; TaskStatusWaitingForAgents; TaskStatusFailed].
Proof. by apply ins_spec. Qed.
Lemma waiting_in : TaskStatusWaitingForAgents ∈
  [TaskStatusPending; TaskStatusWaitingForAgents; TaskStatusFailed].
Proof. by apply ins_spec. Qed.
Lemma failed_in : TaskStatusFailed ∈
  [TaskStatusPending; TaskStatusWaitingForAgents; TaskStatusFailed].
Proof. by apply ins_spec. Qed.
#[local] Hint Resolve lawful_mark pending_in waiting_in failed_in : prog.

Lemma lawful_poll_tenant cycle T ids : lawful (poll_tenant registry cycle T ids).
Proof.
  unfold poll_tenant. apply lawful_bind; [lawful_all|]. intros [tenant|e]; [|done].
  destruct (_ <=? _)%Z; [lawful_all|].
  destruct (Registry_Get _ _) as [p|e] eqn:Hp; [|lawful_all].
  destruct (Hreg _ _ Hp) as [Hpr Hsc _]. unfold poll_provision. lawful_all.
Qed.
#[local] Hint Resolve lawful_poll_tenant : prog.
Lemma lawful_poll_groups cycle groups : lawful (poll_groups registry cycle groups).
Proof. induction groups as [|[T ids] l IH]; cbn [poll_groups]; lawful_all. Qed.
#[local] Hint Resolve lawful_poll_groups : prog.
Lemma lawful_poll_tick cycle : lawful (poll_tick registry cycle).
Proof. lawful poll_tick. Qed.
End TaskPollLaws.
#[export] Hint Resolve lawful_poll_tick : prog.
