(* ===== verification/PollFacts.v ===== *)
(** * What the scheduler does with pending tasks

    The cluster record of a tenant (get_or_create_active_cluster.go) and a
    wake-up of poll_pending_tasks.go: its groups, a tenant's turn, and all turns. *)
From S2P Require Import Prelude Errors Model Env Proto World Effects Store StoreFacts.
From S2P Require Import Lifecycle Lawful Demo TaskOrm TenantOrm ClusterOrm ClusterService.
From S2P Require Import ClusterFacts TaskPoll.

(** ** One cluster per tenant *)
Definition one_per_tenant (m : gmap uuid Cluster) : Prop :=
  forall k k' c c', m !! k = Some c -> m !! k' = Some c' ->
    cl_TenantID c = cl_TenantID c' -> k = k'.

Lemma one_insert m k c c0 :
  one_per_tenant m -> m !! k = Some c0 -> cl_TenantID c = cl_TenantID c0 ->
  one_per_tenant (<[k := c]> m).
Proof.
  intros Hone Hk HT i j x y Hi Hj Hxy.
  assert (forall l z, <[k := c]> m !! l = Some z ->
    exists z', m !! l = Some z' /\ cl_TenantID z' = cl_TenantID z) as Hback.
  { intros l z. destruct (decide (l = k)) as [->|Hne].
    - rewrite lookup_insert_eq. intros [= <-]. eauto.
    - rewrite lookup_insert_ne by done. eauto. }
  destruct (Hback i x Hi) as (x' & ? & ?), (Hback j y Hj) as (y' & ? & ?).
  eapply Hone; [done..|congruence].
Qed.

Lemma one_insert_new m k c :
  one_per_tenant m -> (forall j x, m !! j = Some x -> cl_TenantID x <> cl_TenantID c) ->
  one_per_tenant (<[k := c]> m).
Proof.
  intros Hone Hno i j x y. 
  destruct (decide (i = k)) as [->|Hi], (decide (j = k)) as [->|Hj];
    rewrite ?lookup_insert_eq, ?lookup_insert_ne by done; intros Hx Hy Hxy.
  - done.
  - injection Hx as <-. by destruct (Hno j y Hy).
  - injection Hy as <-. by destruct (Hno i x Hx).
  - by eapply Hone.
Qed.

Section GetOrCreate.
Context `{E : Env, L : !EnvLaws E}.

(** The outcomes of a successful call for [want]: the tenant's live cluster, its
    terminated cluster put back into service, or a new one. *)
Inductive ensured (want : Cluster) (d : DB) : Cluster -> DB -> Prop :=
| ensured_live c :
    clusters d !! rid c = Some c -> cl_TenantID c = cl_TenantID want ->
    cl_Status c <> ClusterStatusTerminated -> ensured want d c d
| ensured_revived r t :
    clusters d !! rid r = Some r -> cl_TenantID r = cl_TenantID want ->
    cl_Status r = ClusterStatusTerminated ->
    ensured want d (assign_cluster (reactivate want) r)
      (set_clusters (<[rid r := touch t (assign_cluster (reactivate want) r)]> (clusters d)) d)
| ensured_new id t :
    clusters d !! id = None ->
    (forall k x, clusters d !! k = Some x -> cl_TenantID x <> cl_TenantID want) ->
    ensured want d (stamped id t (default_cycle want))
      (set_clusters (<[id := stamped id t (default_cycle want)]> (clusters d)) d).

Lemma default_cycle_same want :
  cl_TenantID (default_cycle want) = cl_TenantID want /\ rid (default_cycle want) = rid want /\
  cl_Status (default_cycle want) = cl_Status want.
Proof. unfold default_cycle. by destruct (_ =? _)%Z. Qed.

Lemma wp_GetByTenant b T Q w :
  sane (clusters (w_db w)) ->
  (forall c, clusters (w_db w) !! rid c = Some c -> cl_TenantID c = T ->
     cl_Status c <> ClusterStatusTerminated -> Q (Ok c) w) ->
  ((forall k c, clusters (w_db w) !! k = Some c -> cl_TenantID c = T ->
      cl_Status c = ClusterStatusTerminated) -> Q (Err (ESentinel ErrRecordNotFound)) w) ->
  (b = true -> forall msg, Q (Err (EExternal msg)) w) ->
  wp b (ClusterOrm.GetByTenant T) Q w.
Proof.
  intros Hs H1 H2 H3. apply wp_First; [| |done].
  - intros c Hc. apply elem_matching in Hc as ([k Hk] & _ & Hp). clean.
    destruct (Hs k c Hk) as [<- _]. by apply H1.
  - intros Hn. rewrite matching_nil in Hn. apply H2. intros k c Hk HT.
    destruct (Hs k c Hk) as [_ Hl]. specialize (Hn k c Hk Hl).
    rewrite bool_decide_true in Hn by done. cbn in Hn. by clean.
Qed.

(** The UUIDs still to be generated stay unused. *)
Definition fresh_kept (w w' : World) : Prop :=
  fresh_from (w_uuids w) (clusters (w_db w)) -> fresh_from (w_uuids w') (clusters (w_db w')).
Lemma fresh_kept_dom w w' :
  w_uuids w <= w_uuids w' ->
  (forall k, clusters (w_db w) !! k = None -> clusters (w_db w') !! k = None) -> fresh_kept w w'.
Proof. intros Hle Hdom Hf j Hj. apply Hdom, Hf. lia. Qed.
Lemma fresh_kept_onto id r r0 w w' :
  clusters (w_db w) !! id = Some r0 -> onto id r w w' -> fresh_kept w w'.
Proof.
  intros Hr [Hw Ht]. apply fresh_kept_dom; [lia|]. intros k Hk. rewrite Hw. cbn.
  rewrite lookup_insert_ne; [done|]. congruence.
Qed.

Definition got (b : bool) (want : Cluster) (w : World) (r : res Cluster) (w' : World) : Prop :=
  match r with
  | Ok c => ensured want (w_db w) c (w_db w') /\ fresh_kept w w'
  | Err _ => w_db w' = w_db w /\
             (b = true \/ ~ fresh_from (w_uuids w) (clusters (w_db w)))
  end.

Lemma wp_reuse_cluster b want e w w1 :
  sane (clusters (w_db w)) -> w_db w1 = w_db w -> w_uuids w <= w_uuids w1 ->
  (b = true \/ (e = duplicate_key /\ (fresh_from (w_uuids w) (clusters (w_db w)) ->
     exists k x, clusters (w_db w) !! k = Some x /\ cl_TenantID x = cl_TenantID want))) ->
  wp b (reuse_cluster want e) (got b want w) w1.
Proof.
  intros Hs Hdb Hu He. unfold reuse_cluster.
  assert (forall w', fresh_kept w1 w' -> fresh_kept w w') as Hfk.
  { intros w' Hk Hf. apply Hk. intros j Hj. rewrite Hdb. apply Hf. lia. }
  destruct (contains "duplicate key" (Error e)) eqn:Hc.
  2:{ cbn. split; [done|]. destruct He as [?|[-> _]]; [by left|by vm_compute in Hc]. }
  apply wp_bind. apply wp_First.
  - intros c Hin. apply elem_matching in Hin as ([k Hk] & _ & Hp). clean.
    cbn in Hk. rewrite Hdb in Hk. destruct (Hs k c Hk) as [Hid _].
    destruct (cl_Status c =s ClusterStatusTerminated) eqn:Hst; clean.
    + apply wp_bindR.
      eapply wp_update_cluster with (r := c); [by rewrite Hdb|by rewrite Hdb, Hid|..].
      * intros n t w' Ho. split.
        -- pose proof Ho as [Hw' _]. rewrite Hw', Hdb. constructor; [by rewrite Hid|done..].
        -- apply Hfk. eapply fresh_kept_onto; [|exact Ho]. by rewrite Hdb, Hid.
      * intros Hb msg w' [Hw' _]. cbn. split; [|by left]. rewrite Hw', Hdb, Hid, insert_id by done.
        by destruct (w_db w).
    + cbn. split; [rewrite Hdb; constructor; [by rewrite Hid|done..]|].
      apply Hfk. exact (fun H => H).
  - intros Hn. rewrite matching_nil in Hn. cbn. split; [done|].
    destruct He as [?|[_ Hx]]; [by left|right]. intros Hf. destruct (Hx Hf) as (k & x & Hk & HT).
    cbn in Hn. rewrite Hdb in Hn. destruct (Hs k x Hk) as [_ Hl].
    specialize (Hn k x Hk Hl). by rewrite bool_decide_true in Hn.
  - intros Hb msg. cbn. split; [done|by left].
Qed.

Lemma wp_GetOrCreate b want w :
  sane (clusters (w_db w)) -> rid want = uuid_Nil ->
  wp b (GetOrCreateActiveCluster want) (got b want w) w.
Proof.
  intros Hs Hnil. destruct (default_cycle_same want) as (HT & Hid & _).
  assert (wp b (created <- Create want ;;
    match created with Ok c => Ret (Ok c) | Err e => reuse_cluster want e end) (got b want w) w)
    as Hnew.
  { apply wp_bind. unfold Create. apply wp_Create_fresh; [apply _|by rewrite Hid|..].
    - intros t Ht Hnone Hu. cbn [wp]. split.
      2:{ intros Hf j Hj. cbn in *. rewrite lookup_insert_ne; [apply Hf; lia|].
          intros Heq. apply uuid_NewV7_inj in Heq. lia. }
      constructor; [done|]. intros k x Hk Hx.
      assert (existsb (same_tenant (stamped (uuid_NewV7 (w_uuids w)) t (default_cycle want)))
                (scan (clusters (w_db w))) = true) as Hu'; [|exact (eq_true_false_abs _ Hu' Hu)].
      apply existsb_exists. exists x. split; [apply list_elem_of_In, elem_scan; by exists k|].
      unfold same_tenant. apply bool_decide_eq_true. etrans; [exact HT|done].
    - intros t Hd. apply wp_reuse_cluster; [done|done|cbn; lia|]. right. split; [done|]. intros Hf.
      destruct Hd as [[x Hx]|Hd]; 
        [specialize (Hf _ (Nat.le_refl _)); cbn in Hx; congruence|].
      apply existsb_exists in Hd as (x & Hx & Hsame). apply list_elem_of_In, elem_scan in Hx as [k Hk].
      exists k, x. split; [done|]. unfold same_tenant in Hsame. clean. rewrite <-HT. done.
    - intros Hb e w' Hw' Hu'. apply wp_reuse_cluster; [done..|]. by left. }
  unfold GetOrCreateActiveCluster. apply wp_bind. apply wp_GetByTenant; [done|..].
  - intros c Hc HTc Hst. split; [by constructor|exact (fun H => H)].
  - by intros _.
  - by intros _ _.
Qed.
End GetOrCreate.

Section PollClaims.
Context `{E : Env, L : !EnvLaws E}.

Lemma ensured_good want d c d' :
  sane (clusters d) -> one_per_tenant (clusters d) -> live want = true ->
  cl_Status want <> ClusterStatusTerminated -> ensured want d c d' ->
  cl_TenantID c = cl_TenantID want /\ cl_Status c <> ClusterStatusTerminated /\
  (exists c', clusters d' !! rid c = Some c' /\ cl_TenantID c' = cl_TenantID want /\
              cl_Status c' = cl_Status c) /\
  sane (clusters d') /\ one_per_tenant (clusters d').
Proof.
  intros Hs Hone Hlive Hst He. destruct He as [c Hc HT Hs0|r t Hr HT Hs0|id t Hnone Hno].
  - repeat split; try done; [by exists c|by destruct (Hs k r H)..].
  - destruct (Hs _ _ Hr) as [_ Hl]. cbn [clusters set_clusters].
    split; [done|]. split; [done|]. split; [|split].
    + eexists. split; [apply lookup_insert_eq|]. by split.
    + by apply sane_insert.
    + by eapply one_insert.
  - destruct (default_cycle_same want) as (HT & _ & Hst').
    assert (live (stamped id t (default_cycle want)) = true) as Hl.
    { unfold live, stamped in *. cbn. unfold default_cycle. by destruct (_ =? _)%Z. }
    cbn [clusters set_clusters]. split; [exact HT|]. split; [by change (cl_Status (default_cycle want) <> ClusterStatusTerminated); rewrite Hst'|].
    split; [|split].
    + eexists. split; [apply lookup_insert_eq|]. by split.
    + by apply sane_insert.
    + apply one_insert_new; [done|]. intros j x Hj. change (cl_TenantID x <> cl_TenantID (default_cycle want)).
      rewrite HT. by eapply Hno.
Qed.

Lemma ensured_tables want d c d' :
  ensured want d c d' -> tasks d' = tasks d /\ task_shards d' = task_shards d /\ tenants d' = tenants d.
Proof. by intros []. Qed.

(** C26: A tenant has at most one cluster record.  Whatever fails, a successful
    [GetOrCreateActiveCluster] returns a cluster of the tenant that is not
    TERMINATED and whose record is in the table: the existing one untouched, the
    terminated one with the requested status, backend and billing, or a new one
    when the tenant had none; a failed call changes nothing; and without external
    failures the call succeeds. *)
Theorem GetOrCreateActiveCluster_spec want w o :
  sane (clusters (w_db w)) -> one_per_tenant (clusters (w_db w)) -> rid want = uuid_Nil ->
  live want = true -> cl_Status want <> ClusterStatusTerminated ->
  let x := run (GetOrCreateActiveCluster want) w o in
  match result x with
  | Ok c => ensured want (w_db w) c (w_db (final x)) /\
            cl_TenantID c = cl_TenantID want /\ cl_Status c <> ClusterStatusTerminated
  | Err _ => w_db (final x) = w_db w
  end /\
  sane (clusters (w_db (final x))) /\ one_per_tenant (clusters (w_db (final x))) /\
  (calm o -> fresh_from (w_uuids w) (clusters (w_db w)) -> is_ok (result x) = true).
Proof.
  intros Hs Hone Hnil Hlive Hst x.
  pose proof (wp_run _ _ w o (wp_GetOrCreate true want w Hs Hnil)) as Hany. fold x in Hany.
  assert (calm o -> fresh_from (w_uuids w) (clusters (w_db w)) -> is_ok (result x) = true)
    as Hcalm.
  { intros Ho Hf. pose proof (wp_run_calm _ _ w o Ho (wp_GetOrCreate false want w Hs Hnil)) as Hc.
    fold x in Hc. destruct (result x) as [c|e]; [done|]. by destruct Hc as (_ & [?|[]]). }
  unfold got in Hany. destruct (result x) as [c|e].
  - destruct Hany as [Hany _].
    destruct (ensured_good want _ c _ Hs Hone Hlive Hst Hany) as (H1 & H2 & _ & H4 & H5). done.
  - destruct Hany as [Hd _]. rewrite Hd. done.
Qed.

(** ** Grouping *)
(** The group of a tenant is the list of its tasks among the pending ones, in
    their order; a tenant without pending tasks has no group. *)
Lemma group_tasks_lookup pending T :
  group_tasks pending !! T =
  match List.filter (fun t => bool_decide (TenantID t = T)) pending with
  | [] => None
  | l => Some (T, rid <$> l)
  end.
Proof.
  unfold group_tasks.
  set (add := fun (g : gmap uuid (uuid * list uuid)) (t : Task) => <[TenantID t := _]> g).
  assert (forall g T, (forall S x, g !! S = Some x -> x.1 = S /\ x.2 <> []) ->
    fold_left add pending g !! T =
    match List.filter (fun t => bool_decide (TenantID t = T)) pending with
    | [] => g !! T
    | l => Some (T, (snd (default (0%N, []) (g !! T)) ++ (rid <$> l))%list)
    end) as Hgen; [|by rewrite Hgen; [|done]].
  induction pending as [|t l IH]; intros g S Hg; [done|]. cbn [fold_left List.filter].
  rewrite IH.
  - unfold add. case_bool_decide as HS.
    + subst S. rewrite lookup_insert_eq. cbn [default snd fmap list_fmap].
      destruct (List.filter _ l); cbn [fmap list_fmap]; [done|].
      unfold id. cbn [snd]. by rewrite <-(assoc_L (++)).
    + rewrite lookup_insert_ne by done. by destruct (List.filter _ l).
  - intros S' x. unfold add. destruct (decide (S' = TenantID t)) as [->|Hne].
    + rewrite lookup_insert_eq. intros [= <-]. split; [done|]. cbn. by destruct (snd _).
    + rewrite lookup_insert_ne by done. apply Hg.
Qed.

(** ** A tenant's turn *)
Section Turn.
Context (registry : ProviderRegistry) (cycle : Z).
Context (Hreg : forall name p, Registry_Get name registry = Ok p -> RemoteProvider p).
(** The backends work when nothing outside fails. *)
Definition serves (p : Provider) : Prop := forall t w,
  wp false (ProvisionCluster p t) (fun r _ => r = Ok tt) w /\
  forall n, wp false (ScaleCluster p t n) (fun r _ => r = Ok tt) w.
Context (Hserve : forall name p, Registry_Get name registry = Ok p -> serves p).

(** The status and the error a turn gives to the tenant's pending tasks. *)
Definition verdict (tn : Tenant) : string * string :=
  if (MaxAgents tn <=? 0)%Z then (TaskStatusFailed, "tenant max_agents is 0")
  else match Registry_Get (PrimaryBackendName tn) registry with
       | Err e => (TaskStatusPending, Error e)
       | Ok _ => (TaskStatusWaitingForAgents, "")
       end.

Definition task_marked (ids : list uuid) (v : string * string) (m m' : gmap uuid Task) : Prop :=
  forall k, match m !! k, m' !! k with
            | Some x, Some x' =>
                if bool_decide (k ∈ ids /\ Status x = TaskStatusPending)
                then exists t, x' = touch t (assign_task [SetTaskStatus v.1; SetTaskLastError v.2] x)
                else x' = x
            | None, None => True
            | _, _ => False
            end.

Lemma task_marked_nil v m : task_marked [] v m m.
Proof.
  intros k. destruct (m !! k); [|done]. rewrite bool_decide_false; [done|].
  by intros [?%not_elem_of_nil _].
Qed.

(** What the scheduler relies on of the tables, and keeps. *)
Record ready (w : World) : Prop := mkReady {
  ready_tasks : sane (tasks (w_db w));
  ready_tenants : sane (tenants (w_db w));
  ready_clusters : sane (clusters (w_db w));
  ready_one : one_per_tenant (clusters (w_db w));
  ready_fresh : fresh_from (w_uuids w) (clusters (w_db w));
}.

Definition active_cluster (T : uuid) (d : DB) : Prop :=
  exists c, clusters d !! rid c = Some c /\ cl_TenantID c = T /\ cl_Status c = ClusterStatusActive.

(** The tenant is to have a cluster. *)
Definition to_serve (d : DB) (T : uuid) : Prop :=
  exists tn, tenants d !! T = Some tn /\ (verdict tn).1 = TaskStatusWaitingForAgents.

(** Only clusters of the tenants [S] have changed or are new, and none has gone to
    another tenant. *)
Record kept_but (S : uuid -> Prop) (m m' : gmap uuid Cluster) : Prop := mkKeptBut {
  kept_row : forall k c, m !! k = Some c -> exists c', m' !! k = Some c' /\
    cl_TenantID c' = cl_TenantID c /\ (~ S (cl_TenantID c) -> c' = c);
  kept_new : forall k c', m' !! k = Some c' -> m !! k = None -> S (cl_TenantID c');
}.
Lemma kept_refl S m : kept_but S m m.
Proof. split; [intros k c Hk; by exists c|congruence]. Qed.
Lemma kept_trans (S1 S2 S : uuid -> Prop) m1 m2 m3 :
  (forall T, S1 T -> S T) -> (forall T, S2 T -> S T) -> kept_but S1 m1 m2 -> kept_but S2 m2 m3 ->
  kept_but S m1 m3.
Proof.
  intros H1 H2 [R1 N1] [R2 N2]. split.
  - intros k c Hk. destruct (R1 k c Hk) as (c2 & Hk2 & HT2 & Hs2).
    destruct (R2 k c2 Hk2) as (c3 & Hk3 & HT3 & Hs3). exists c3. split; [done|]. split; [congruence|].
    intros Hno. rewrite Hs3; [apply Hs2; auto|]. rewrite HT2. auto.
  - intros k c' Hk Hnone. destruct (m2 !! k) as [c2|] eqn:Hk2.
    + destruct (R2 k c2 Hk2) as (c3 & Hk3 & HT3 & _). assert (c' = c3) as -> by congruence.
      rewrite HT3. by apply H1, (N1 k).
    + by apply H2, (N2 k).
Qed.
Lemma kept_insert (S : uuid -> Prop) m k c :
  S (cl_TenantID c) -> (forall c0, m !! k = Some c0 -> cl_TenantID c = cl_TenantID c0) ->
  kept_but S m (<[k := c]> m).
Proof.
  intros HS Hc. split.
  - intros j c0 Hj. destruct (decide (j = k)) as [->|Hne].
    + exists c. rewrite lookup_insert_eq. split; [done|]. split; [auto|]. intros Hno. destruct Hno.
      by rewrite <-(Hc c0).
    + exists c0. by rewrite lookup_insert_ne.
  - intros j c' Hj Hnone. destruct (decide (j = k)) as [->|Hne].
    + rewrite lookup_insert_eq in Hj. by injection Hj as <-.
    + rewrite lookup_insert_ne in Hj by done. congruence.
Qed.

(** What a turn of tenant [T] leaves. *)
Record turned (T : uuid) (ids : list uuid) (d d' : DB) : Prop := mkTurned {
  turned_shards : task_shards d' = task_shards d;
  turned_tenants : tenants d' = tenants d;
  turned_others : kept_but (fun S => S = T /\ to_serve d S) (clusters d) (clusters d');
  turned_tasks : match tenants d !! T with
                 | None => tasks d' = tasks d
                 | Some tn => task_marked ids (verdict tn) (tasks d) (tasks d') /\
                     ((verdict tn).1 = TaskStatusWaitingForAgents -> active_cluster T d')
                 end;
}.

Lemma task_marked_sane ids v m m' : sane m -> task_marked ids v m m' -> sane m'.
Proof.
  intros Hs Hm k x' Hk. specialize (Hm k). rewrite Hk in Hm.
  destruct (m !! k) as [x|] eqn:Hx; [|done]. destruct (Hs k x Hx) as [Hid Hl].
  destruct (bool_decide _); [destruct Hm as [t ->]|subst x']; by split.
Qed.

(** Only the tasks have changed. *)
Lemma ready_marked ids v w w' m' :
  ready w -> w_db w' = set_tasks m' (w_db w) -> w_uuids w <= w_uuids w' ->
  task_marked ids v (tasks (w_db w)) m' -> ready w'.
Proof.
  intros [] Hw Hu Hm. split; rewrite Hw; cbn; [by eapply task_marked_sane|done..|].
  intros j Hj. apply ready_fresh0. lia.
Qed.

Lemma ready_onto id c r w w' :
  ready w -> clusters (w_db w) !! id = Some c -> same_cluster c r -> onto id r w w' -> ready w'.
Proof.
  intros Hrd Hc (Hi & Hl & _ & HT & _) Ho. pose proof Ho as [Hw Ht].
  destruct Hrd as [H1 H2 H3 H4 H5]. destruct (H3 id c Hc) as [Hid Hlc]. split; rewrite ?Hw; [done|done|..].
  - apply sane_insert; [done|congruence|congruence].
  - eapply one_insert; [done|exact Hc|done].
  - rewrite <-Hw. by eapply fresh_kept_onto.
Qed.

Lemma ready_remote w w' : ready w -> remote_same w w' -> ready w'.
Proof.
  intros [H1 H2 H3 H4 H5] [Hw Ht]. split; rewrite Hw; [done..|]. intros j Hj. apply H5. lia.
Qed.

Lemma wp_mark ids v w Q :
  sane (tasks (w_db w)) ->
  (forall m' w', w_db w' = set_tasks m' (w_db w) -> w_uuids w' = w_uuids w ->
     task_marked ids v (tasks (w_db w)) m' -> Q tt w') ->
  wp false (mark ids v.1 v.2) Q w.
Proof.
  intros Hs HQ. unfold mark, MarkTasksStatus. apply wp_bind. case_bool_decide as Hids.
  { subst ids. cbn. apply (HQ (tasks (w_db w))); [by destruct (w_db w)|done|apply task_marked_nil]. }
  apply wp_bindR. apply wp_Updates; [|done]. intros t Ht. cbn [wp].
  eapply HQ; [reflexivity|reflexivity|]. intros k. cbn -[update_rows]. rewrite lookup_update_rows.
  destruct (tasks (w_db w) !! k) as [x|] eqn:Hk; [|done]. cbn [fmap option_fmap option_map].
  destruct (Hs k x Hk) as [Hid Hl]. rewrite Hl, Hid. cbn [andb].
  destruct (bool_decide (k ∈ ids) && _) eqn:Hb.
  - clean. rewrite bool_decide_true by done. by eexists.
  - rewrite bool_decide_false; [done|]. intros [Hin Hst]. rewrite bool_decide_true in Hb by done.
    rewrite Hst in Hb. by vm_compute in Hb.
Qed.

Lemma wp_serve p t w :
  RemoteProvider p -> serves p ->
  wp false (ProvisionCluster p t) (fun r w' => r = Ok tt /\ remote_same w w') w /\
  forall n, wp false (ScaleCluster p t n) (fun r w' => r = Ok tt /\ remote_same w w') w.
Proof.
  intros Hrem Hsv. split; [|intros n]; apply wp_and.
  - apply Hsv.
  - apply remote_wp, remote_provision.
  - apply Hsv.
  - apply remote_wp, remote_scale.
Qed.

Lemma wp_poll_provision p tn ids w c :
  RemoteProvider p -> serves p -> tenants (w_db w) !! rid tn = Some tn ->
  verdict tn = (TaskStatusWaitingForAgents, "") -> ready w ->
  clusters (w_db w) !! rid c = Some c -> cl_TenantID c = rid tn ->
  cl_Status c <> ClusterStatusTerminated ->
  wp false (poll_provision p tn ids) (fun _ w' =>
    turned (rid tn) ids (w_db w) (w_db w') /\ ready w') w.
Proof.
  intros Hrem Hsv Htn Hv Hrd Hc HT Hlive. unfold poll_provision.
  apply wp_bind. eapply wp_mono; [|by apply wp_serve]. intros r w1 [-> H1].
  apply wp_bind. eapply wp_mono; [|by apply wp_serve]. intros r w2 [-> H2].
  assert (remote_same w w2) as H12 by by etrans.
  assert (ready w2) as Hrd2 by by eapply ready_remote. destruct H12 as [H12 _].
  apply wp_bind. unfold ClusterService.GetByTenant.
  apply wp_GetByTenant; [apply Hrd2|..|done].
  2:{ intros Hall. destruct Hlive. rewrite H12 in Hall. by eapply Hall. }
  intros x Hx HTx Hlx. apply wp_bind, wp_bind. unfold MarkActive.
  eapply wp_UpdateStatus; [apply Hrd2|exact Hx|].
  intros res r' w3 Ho Hu. destruct Hu as [[? _]|[t ->]]; [done|]. cbn [wp].
  assert (ready w3) as Hrd3.
  { eapply ready_onto; [exact Hrd2|exact Hx| |exact Ho]. by repeat split. }
  pose proof Ho as [H3 _]. rewrite H12 in H3.
  apply (wp_mark ids (TaskStatusWaitingForAgents, "")); [apply Hrd3|].
  intros m' w4 H4 Hu4 Hm. split; [|by eapply ready_marked; [exact Hrd3|exact H4|lia|exact Hm]].
  rewrite H3 in H4, Hm. rewrite H4. split; [done|done|..].
  - rewrite H12 in Hx. cbn. apply kept_insert; cbn; [|intros c0 Hc0; by replace c0 with x by congruence].
    rewrite HTx. split; [done|].
    exists tn. by rewrite Hv.
  - rewrite Htn, Hv. split; [exact Hm|]. intros _. eexists. cbn. split; [apply lookup_insert_eq|]. done.
Qed.

Lemma ensured_others want d c d' :
  ensured want d c d' -> kept_but (fun S => S = cl_TenantID want) (clusters d) (clusters d').
Proof.
  intros [c0|r t Hr HT|id t Hnone]; cbn; [apply kept_refl|apply kept_insert; cbn..].
  - done.
  - intros c0 Hc0. by replace c0 with r by congruence.
  - by apply default_cycle_same.
  - congruence.
Qed.

Lemma wp_poll_tenant T ids w :
  ready w ->
  wp false (poll_tenant registry cycle T ids) (fun _ w' =>
    turned T ids (w_db w) (w_db w') /\ ready w') w.
Proof.
  intros Hrd. unfold poll_tenant. apply wp_bind. apply wp_First_key; [apply Hrd|..|done].
  2:{ intros Hn. cbn in Hn. cbn [wp]. split; [|done]. split; [done|done|apply kept_refl|by rewrite Hn]. }
  intros tn Htn. cbn in Htn. destruct (ready_tenants _ Hrd T tn Htn) as [HT _]. subst T.
  assert (forall v w', verdict tn = v -> v.1 <> TaskStatusWaitingForAgents -> remote_same w w' ->
    wp false (mark ids v.1 v.2) (fun _ w' => turned (rid tn) ids (w_db w) (w_db w') /\ ready w') w')
    as Hmark.
  { intros v w' Hv Hne Hw. assert (ready w') as Hrd' by by eapply ready_remote.
    apply wp_mark; [apply Hrd'|]. intros m' w2 H2 Hu2 Hm.
    split; [|eapply ready_marked; [exact Hrd'|exact H2|lia|exact Hm]].
    destruct Hw as [Hw _]. rewrite Hw in H2, Hm. rewrite H2. split; [done|done|apply kept_refl|].
    rewrite Htn, Hv. by split. }
  destruct (MaxAgents tn <=? 0)%Z eqn:Hmax.
  { apply (Hmark (TaskStatusFailed, "tenant max_agents is 0")); [|done|done].
    unfold verdict. by rewrite Hmax. }
  destruct (Registry_Get (PrimaryBackendName tn) registry) as [p|e] eqn:Hp.
  2:{ apply (Hmark (TaskStatusPending, Error e)); [|done|done].
      unfold verdict. by rewrite Hmax, Hp. }
  apply wp_bind. cbn [wp now]. intros t Ht. apply wp_bind.
  eapply wp_mono; [|apply wp_GetOrCreate; [apply Hrd|done]]. intros [c|e] w1; cbn [got].
  2:{ intros [_ [?|[]]]; [done|]. apply Hrd. }
  intros [He Hfk]. change (w_db (set_clock t w)) with (w_db w) in He.
  destruct (ensured_tables _ _ _ _ He) as (H1 & H2 & H3).
  pose proof (ensured_others _ _ _ _ He) as Hoth. change (cl_TenantID (wanted_cluster cycle tn t)) with (rid tn) in Hoth.
  apply (ensured_good (wanted_cluster cycle tn t)) in He
    as (_ & Hlc & (c' & Hc' & HTc & Hsc') & Hs1 & Hone1); [|apply Hrd|apply Hrd|done|done].
  destruct (Hs1 _ _ Hc') as [Hid _].
  assert (ready w1) as Hrd1.
  { split; [rewrite H1; apply Hrd|rewrite H3; apply Hrd|done|done|]. apply Hfk, Hrd. }
  eapply wp_mono; [|apply (wp_poll_provision p tn ids w1 c');
                    [by eapply Hreg|by eapply Hserve|by rewrite H3| |done|by rewrite Hid|done|congruence]].
  - intros _ w2 [[G1 G2 G3 G4] Hrd2]. split; [|done]. split; [congruence|congruence|..].
    + assert (to_serve (w_db w) (rid tn)) as Hto by (exists tn; unfold verdict; by rewrite Hmax, Hp).
      eapply kept_trans; [| |exact Hoth|exact G3]; cbn.
      * by intros S ->.
      * by intros S [-> _].
    + rewrite H3, Htn in G4. rewrite Htn. by rewrite H1 in G4.
  - unfold verdict. by rewrite Hmax, Hp.
Qed.

(** ** A wake-up *)
(** The groups of a wake-up: one per tenant, with tasks of that tenant. *)
Record grouped (groups : list (uuid * list uuid)) (m : gmap uuid Task) : Prop := mkGrouped {
  grouped_once : NoDup groups.*1;
  grouped_tenant : forall T ids k, (T, ids) ∈ groups -> k ∈ ids ->
    exists t, m !! k = Some t /\ TenantID t = T;
}.

(** A task after the wake-up. *)
Definition settled (tn : Tenant) (t t' : Task) : Prop :=
  exists at_, t' = touch at_ (assign_task [SetTaskStatus (verdict tn).1;
                                           SetTaskLastError (verdict tn).2] t).

Record polled (groups : list (uuid * list uuid)) (d d' : DB) : Prop := mkPolled {
  polled_shards : task_shards d' = task_shards d;
  polled_tenants : tenants d' = tenants d;
  polled_clusters : kept_but (fun T => (exists ids, (T, ids) ∈ groups) /\ to_serve d T)
    (clusters d) (clusters d');
  polled_none : forall k, tasks d !! k = None -> tasks d' !! k = None;
  polled_hit : forall k t ids tn, tasks d !! k = Some t -> (TenantID t, ids) ∈ groups -> k ∈ ids ->
    Status t = TaskStatusPending -> tenants d !! TenantID t = Some tn ->
    (exists t', tasks d' !! k = Some t' /\ settled tn t t') /\
    ((verdict tn).1 = TaskStatusWaitingForAgents -> active_cluster (TenantID t) d');
  polled_miss : forall k t, tasks d !! k = Some t ->
    Status t <> TaskStatusPending \/ tenants d !! TenantID t = None \/
    (forall ids, (TenantID t, ids) ∈ groups -> k ∉ ids) ->
    tasks d' !! k = Some t;
}.

Lemma polled_nil d : polled [] d d.
Proof. split; try done; [apply kept_refl|]. by intros k t ids tn _ ?%not_elem_of_nil. Qed.

Lemma turned_tenant T ids d d' k t :
  turned T ids d d' -> tasks d !! k = Some t ->
  exists t', tasks d' !! k = Some t' /\ TenantID t' = TenantID t.
Proof.
  intros [_ _ _ Hm] Hk. destruct (tenants d !! T) as [tn|]; [|rewrite Hm; eauto].
  destruct Hm as [Hm _]. specialize (Hm k). rewrite Hk in Hm.
  destruct (tasks d' !! k) as [t'|]; [|done]. exists t'. split; [done|].
  destruct (bool_decide _); [by destruct Hm as [? ->]|by subst t'].
Qed.

Lemma turned_miss T ids d d' k t :
  turned T ids d d' -> tasks d !! k = Some t ->
  k ∉ ids \/ Status t <> TaskStatusPending \/ tenants d !! T = None -> tasks d' !! k = Some t.
Proof.
  intros [_ _ _ Hm] Hk Hno. destruct (tenants d !! T) as [tn|]; [|by rewrite Hm].
  destruct Hm as [Hm _]. specialize (Hm k). rewrite Hk in Hm.
  destruct (tasks d' !! k) as [t'|]; [|done].
  rewrite bool_decide_false in Hm; [by subst t'|]. intros [? ?].
  destruct Hno as [?|[?|?]]; done.
Qed.

Lemma turned_none T ids d d' k : turned T ids d d' -> tasks d !! k = None -> tasks d' !! k = None.
Proof.
  intros [_ _ _ Hm] Hk. destruct (tenants d !! T) as [tn|]; [|by rewrite Hm].
  destruct Hm as [Hm _]. specialize (Hm k). rewrite Hk in Hm. by destruct (tasks d' !! k).
Qed.

(** A turn, then the turns of other tenants. *)
Lemma polled_cons T ids groups d d1 d2 :
  grouped ((T, ids) :: groups) (tasks d) -> turned T ids d d1 -> polled groups d1 d2 ->
  polled ((T, ids) :: groups) d d2.
Proof.
  intros [Hnd Hten] Ht [P1 P2 P3 P4 P5 P6]. cbn in Hnd. apply NoDup_cons in Hnd as [HT _].
  assert (forall ids', (T, ids') ∉ groups) as HT'.
  { intros ids' Hin. apply HT. by apply (list_elem_of_fmap_2 fst) in Hin. }
  assert (forall k t, tasks d !! k = Some t -> TenantID t <> T -> k ∉ ids) as Hout.
  { intros k t Hk Hne Hin. destruct (Hten T ids k) as (t' & Hk' & HTt); [left|done|]. congruence. }
  pose proof Ht as [T1 T2 T3 T4]. split.
  - congruence.
  - congruence.
  - eapply kept_trans; [| |exact T3|exact P3]; cbn.
    + intros S [-> Hs]. split; [|done]. exists ids. left.
    + intros S [[ids' Hin] (tn & Htn & Hv)]. split; [exists ids'; by right|]. exists tn.
      by rewrite <-T2.
  - intros k Hk. apply P4. by eapply turned_none.
  - intros k t ids' tn Hk Hin Hkin Hst Htn. apply elem_of_cons in Hin as [Hin|Hin].
    + injection Hin as HTt ->. rewrite <-HTt in T4. rewrite Htn in T4. destruct T4 as [Hm Hact].
      specialize (Hm k). rewrite Hk in Hm. destruct (tasks d1 !! k) as [t1|] eqn:Hk1; [|done].
      rewrite bool_decide_true in Hm by done. destruct Hm as [a ->]. split.
      * eexists. split; [|by exists a]. apply P6; [done|]. right. right.
        intros i Hi. cbn in Hi. rewrite HTt in Hi. by destruct (HT' i).
      * intros Hw. destruct (Hact Hw) as (c & Hc & HTc & Hsc). exists c. split; [|done].
        destruct (kept_row _ _ _ P3 _ c Hc) as (c' & Hc' & _ & Hsame). rewrite Hsame in Hc'; [done|].
        intros [[i Hi] _]. rewrite HTc, HTt in Hi. by destruct (HT' i).
    + assert (TenantID t <> T) as Hne by (intros Heq; rewrite Heq in Hin; by destruct (HT' ids')).
      eapply P5; [|exact Hin|done|done|by rewrite T2].
      eapply turned_miss; [exact Ht|done|left; by eapply Hout].
  - intros k t Hk Hno. apply P6.
    + eapply turned_miss; [exact Ht|done|]. destruct (decide (TenantID t = T)) as [<-|Hne].
      * destruct Hno as [?|[?|Hno]]; [by right; left|by right; right|left]. apply Hno. left.
      * left. by eapply Hout.
    + rewrite T2. destruct Hno as [?|[?|Hno]]; [by left|by right; left|right; right].
      intros i Hi. apply Hno. by right.
Qed.

Lemma grouped_tail T ids groups d d1 :
  grouped ((T, ids) :: groups) (tasks d) -> turned T ids d d1 -> grouped groups (tasks d1).
Proof.
  intros [Hnd Hten] Ht. split; [cbn in Hnd; by apply NoDup_cons in Hnd as [_ ?]|].
  intros S ids' k Hin Hk. destruct (Hten S ids' k) as (t & Hkt & HS); [by right|done|].
  destruct (turned_tenant _ _ _ _ _ _ Ht Hkt) as (t' & ? & ?). exists t'. split; [done|congruence].
Qed.

Lemma wp_poll_groups groups w :
  ready w -> grouped groups (tasks (w_db w)) ->
  wp false (poll_groups registry cycle groups) (fun _ w' =>
    polled groups (w_db w) (w_db w') /\ ready w') w.
Proof.
  revert w. induction groups as [|[T ids] groups IH]; intros w Hrd Hg.
  { cbn. split; [apply polled_nil|done]. }
  cbn [poll_groups wp]. split; [|done]. apply wp_bind.
  eapply wp_mono; [|by apply wp_poll_tenant]. intros _ w1 [Ht Hrd1].
  eapply wp_mono; [|apply IH; [done|by eapply grouped_tail]].
  intros _ w2 [Hp Hrd2]. split; [by eapply polled_cons|done].
Qed.

Lemma elem_groups pending T ids :
  (T, ids) ∈ scan (group_tasks pending) <->
  ids = rid <$> List.filter (fun t => bool_decide (TenantID t = T)) pending /\ ids <> [].
Proof.
  rewrite elem_scan. split.
  - intros [k Hk]. rewrite group_tasks_lookup in Hk. 
    destruct (List.filter _ pending) as [|t l] eqn:Hf; [done|]. injection Hk as -> <-.
    by rewrite Hf.
  - intros [-> Hne]. exists T. rewrite group_tasks_lookup. by destruct (List.filter _ pending).
Qed.

Lemma groups_grouped (m : gmap uuid Task) l :
  (forall t, t ∈ l <-> m !! rid t = Some t /\ Status t = TaskStatusPending) ->
  grouped (scan (group_tasks l)) m.
Proof.
  intros Hin. split.
  - rewrite scan_perm. set (g := group_tasks l).
    assert ((map_to_list g).*2.*1 = (map_to_list g).*1) as ->; [|apply NoDup_fst_map_to_list].
    rewrite <-list_fmap_compose. apply list_fmap_ext. intros i [T x] Hi. cbn.
    apply list_elem_of_lookup_2, elem_of_map_to_list in Hi. subst g.
    rewrite group_tasks_lookup in Hi. destruct (List.filter _ l); [done|]. by injection Hi as <-.
  - intros T ids k HT Hk. apply elem_groups in HT as [-> _].
    apply list_elem_of_fmap in Hk as (t & -> & Ht).
    apply list_elem_of_In, filter_In in Ht as [Ht HTt]. clean.
    apply list_elem_of_In, Hin in Ht as [Ht _]. by exists t.
Qed.

End Turn.
End PollClaims.

(** Tenant 3 has no cluster yet. *)
Definition demo_want : Cluster :=
  mkCluster (mkBase uuid_Nil 0 0 None) 3 ClusterStatusProvisioning "kubernetes" 3600 0 None.
Lemma demo_one_per_tenant : one_per_tenant demo_clusters.
Proof.
  intros k k' c c' Hk Hk'. apply elem_of_map_to_list in Hk, Hk'. vm_compute in Hk, Hk'.
  repeat (apply elem_of_cons in Hk as [Hk|Hk]; [injection Hk as -> ->|]);
    [..|by apply not_elem_of_nil in Hk];
  repeat (apply elem_of_cons in Hk' as [Hk'|Hk']; [injection Hk' as -> ->; done|]);
    by apply not_elem_of_nil in Hk'.
Qed.

Lemma demo_fresh : @fresh_from toy_env _ 0 demo_clusters.
Proof.
  intros j _. apply eq_None_not_Some. intros [c Hc].
  assert (@uuid_NewV7 toy_env j <> 3%N /\ @uuid_NewV7 toy_env j <> 4%N) as [H3 H4] by (cbn; lia).
  set (k := @uuid_NewV7 toy_env j) in *. clearbody k.
  apply elem_of_map_to_list in Hc. vm_compute in Hc.
  repeat (apply elem_of_cons in Hc as [Hc|Hc]; [injection Hc as Hk _; by subst k|]).
  by apply not_elem_of_nil in Hc.
Qed.

Lemma GetOrCreateActiveCluster_spec_witness :
  is_ok (result (run (@GetOrCreateActiveCluster toy_env demo_want) demo_recycle quiet)) = true.
Proof.
  refine (proj2 (proj2 (proj2 (@GetOrCreateActiveCluster_spec toy_env toy_laws demo_want
    demo_recycle quiet demo_recycle_sane demo_one_per_tenant eq_refl eq_refl _)))
    (Forall_nil_2 _) _).
  - discriminate.
  - exact demo_fresh.
Defined.

(** Tenant 1 is served by the backend. *)
Definition demo_poll : World :=
  set_db (set_tasks {[10%N := mkTask (at_ 10 5) 1 TaskStatusPending "" 2 None None None "" ""]}
            demo_db) demo.

Lemma demo_providers_serve name p : Registry_Get name demo_providers = Ok p -> serves p.
Proof.
  unfold Registry_Get, demo_providers, Registry_Register, NewRegistry.
  destruct (decide (name = BackendKindKubernetes)) as [->|Hne].
  - rewrite lookup_insert_eq. by intros [= <-].
  - by rewrite lookup_insert_ne, lookup_empty.
Qed.

Lemma demo_poll_ready : @ready toy_env demo_poll.
Proof.
  split; [by apply sane_check_sound..|exact demo_one_per_tenant|exact demo_fresh].
Qed.

