(* ===== verification/Control.v ===== *)
(** * The gRPC control plane (internal/control)

    A connection is a stream identifier in [World]; [Send] appends to the log of
    what was sent.  [recv] is the sequence of results of [stream.Recv()] on a
    connection: messages, then EOF or an error. *)
From S2P Require Import Prelude Errors Model Env Proto World Effects Store GoText StoreFacts.
From S2P Require Import Lifecycle Lawful Demo TaskOrm TaskShardOrm TenantOrm AgentService TaskHooks.
From S2P Require Import TaskStatus TaskLease TaskApi.

(** ** agent.go: the session of one connection *)
Record agentSession := mkSession {
  stream : nat;
  agentID : string;
  tenantID : uuid;
  backend : string;
}.

Definition stream_Send (s : nat) (m : ServerMessage) : prog (res unit) :=
  call (fun w => (Ok tt, set_sent ((s, m) :: w_sent w) w)).
Definition Send (sess : agentSession) (m : ServerMessage) : prog (res unit) :=
  stream_Send (stream sess) m.

(** [SendWithContext] waits for the send or for the context.  When the context
    is done first the caller gets [ctx.Err()], while the goroutine goes on with
    the send: the message may still be delivered or be lost, and that result is
    dropped. *)
Definition SendWithContext (s : nat) (m : ServerMessage) : prog (res unit) :=
  Ext (fun done => match done with
                   | None => stream_Send s m
                   | Some _ =>
                     Ext (fun why =>
                       stream_Send s m ;;
                       Ret (Err (ESentinel (match why with
                                            | Some _ => Canceled
                                            | None => DeadlineExceeded
                                            end))))
                   end).

(** Results of [stream.Recv()] after which the loop goes on or stops. *)
Inductive recv_result :=
| RecvMsg (m : AgentMessage)
| RecvErr (msg : string)
| CtxDone (e : sentinel).

Section Control.
Context `{Env}.
(** server.go: the fields of [Server] fixed at start-up. *)
Context (db_set : bool) (expectedToken : string).

(** ** try_assign_shard.go *)
Definition fixOSSURLPath (rawURL : string) : string :=
  match url_Parse rawURL with
  | Err _ => rawURL
  | Ok u => url_String (mkURL (u_Scheme u) (u_Host u)
                              (ReplaceAll (u_Path u) "%2F" "/") (u_Rest u))
  end.

Definition assign_bundle_key (task : Task) : string :=
  "r-orchestrator/tasks/" +:+ uuid_String (rid task) +:+ "/bundle.zip".
Definition assign_output_key (task : Task) (shard : TaskShard) : string :=
  "r-orchestrator/tasks/" +:+ uuid_String (rid task) +:+ "/output/" +:+ ScriptName shard
  +:+ "-output.zip".

Definition assign_message (task : Task) (shard : TaskShard) (bundleURL outputURL : string)
    : ServerMessage :=
  ServerMessage_AssignShard
    (mkAssignShard (uuid_String (rid shard)) (uuid_String (rid task)) (ScriptName shard)
       bundleURL outputURL (assign_output_key task shard) (wrap32 (ShardCount task))).

(** From the lease to the end of the function; [should_rollback] is cleared
    only on the last line. *)
Definition assign_leased (sess : agentSession) (task : Task) (shard : TaskShard)
    : prog (res unit) :=
  _ <-? HeartbeatAgent (agentID sess) AgentStatusRunning (Some (uuid_String (rid shard)))
      # statusf Internal "mark agent busy" ;;
  _ <-? call (fun w => (Ok tt, w)) # statusf Internal "init oss client" ;;
  bundleURL <-? call (fun w => (Ok (oss_GetObjectURL (assign_bundle_key task)), w))
      # statusf Internal "sign bundle url" ;;
  outputURL <-? call (fun w => (Ok (oss_SignPutURL (assign_output_key task shard) 3600), w))
      # statusf Internal "sign output url" ;;
  _ <-? Send sess (assign_message task shard (fixOSSURLPath bundleURL)
                                  (fixOSSURLPath outputURL))
      # statusf Internal "send assign shard" ;;
  Ret (Ok tt).

(** The deferred rollback. *)
Definition assign_rollback (sess : agentSession) (task : Task) (shard : TaskShard)
    (ret_err : error) : prog (res unit) :=
  let failed e := EStatus Internal (Error ret_err +:+ " (rollback failed: " +:+ Error e +:+ ")") in
  r <- RollbackAssignedShard (rid shard) task ;;
  match r with
  | Err e => Ret (Err (failed e))
  | Ok _ =>
    r' <- HeartbeatAgent (agentID sess) AgentStatusIdle None ;;
    match r' with
    | Err e => Ret (Err (failed (wrapf "rollback agent heartbeat" e)))
    | Ok _ => Ret (Err ret_err)
    end
  end.

Definition TryAssignShard (sess : agentSession) : prog (res unit) :=
  if negb db_set || (agentID sess =s "") || bool_decide (tenantID sess = uuid_Nil) ||
     (backend sess =s "")
  then Ret (Ok tt)
  else
  lease <- LeaseNextShard (tenantID sess) (backend sess) (agentID sess) ;;
  match lease with
  | Err e =>
    if errors_Is e ErrRecordNotFound then Ret (Ok tt)
    else Ret (Err (statusf Internal "lease next shard" e))
  | Ok (task, shard) =>
    r <- assign_leased sess task shard ;;
    match r with
    | Ok _ => Ret (Ok tt)
    | Err e => assign_rollback sess task shard e
    end
  end.

(** ** handle_shard_result_ready.go *)
Definition resetAgentAndAssign (sess : agentSession) : prog (res unit) :=
  _ <-? HeartbeatAgent (agentID sess) AgentStatusIdle None
      # statusf Internal "reset agent idle" ;;
  TryAssignShard sess.

(** [agentErr != nil || agent.CurrentShardID == nil || *agent.CurrentShardID != id] *)
Definition moved_on (agent : res Agent) (shardID : uuid) : bool :=
  match agent with
  | Err _ => true
  | Ok a => match CurrentShardID a with
            | None => true
            | Some s => s <>s uuid_String shardID
            end
  end.

Definition HandleShardResultReady (sess : agentSession) (shard_ready : option ShardResultReady)
    : prog (res unit) :=
  shardID <-? Ret (uuid_Parse (ShardResultReady_GetShardId shard_ready))
      # statusf InvalidArgument "invalid shard_id" ;;
  shard <-? LoadValidatedShard shardID (agentID sess) (tenantID sess) (backend sess) ;;
  let ack := ServerMessage_ShardResultStored (mkShardResultStored (uuid_String shardID)) in
  if sh_Status shard =s ShardStatusRunning then
    _ <-? ReportShardStatus (mkReport shardID ShardStatusSucceeded None
                               (ShardResultReady_GetOutputOssKey shard_ready)
                               (ShardResultReady_GetSha256 shard_ready))
        # statusf Internal "mark shard succeeded" ;;
    _ <-? Send sess ack ;;
    resetAgentAndAssign sess
  else
    agent <- GetAgent (agentID sess) ;;
    if moved_on agent shardID then Send sess ack
    else
    _ <-? Send sess ack ;;
    resetAgentAndAssign sess.

(** ** handle_shard_failed.go *)
Definition HandleShardFailed (sess : agentSession) (shard_failed : option ShardFailed)
    : prog (res unit) :=
  shardID <-? Ret (uuid_Parse (ShardFailed_GetShardId shard_failed))
      # statusf InvalidArgument "invalid shard_id" ;;
  shard <-? LoadValidatedShard shardID (agentID sess) (tenantID sess) (backend sess) ;;
  if sh_Status shard =s ShardStatusRunning then
    _ <-? ReportShardStatus (mkReport shardID ShardStatusFailed
                               (Some (ShardFailed_GetErrorMessage shard_failed)) "" "")
        # statusf Internal "mark shard failed" ;;
    resetAgentAndAssign sess
  else
    agent <- GetAgent (agentID sess) ;;
    if moved_on agent shardID then Ret (Ok tt) else resetAgentAndAssign sess.

(** ** handle_shard_started.go *)
Definition HandleShardStarted (sess : agentSession) (shard_started : option ShardStarted)
    : prog (res unit) :=
  shardID <-? Ret (uuid_Parse (ShardStarted_GetShardId shard_started))
      # statusf InvalidArgument "invalid shard_id" ;;
  _ <-? ValidateShardReport shardID (agentID sess) (tenantID sess) (backend sess)
          ShardStatusLeased "mark shard started" ;;
  _ <-? ReportShardStatus (mkReport shardID ShardStatusRunning None "" "")
      # statusf Internal "mark shard started" ;;
  _ <-? HeartbeatAgent (agentID sess) AgentStatusRunning (Some (uuid_String shardID))
      # statusf Internal "update agent running state" ;;
  Ret (Ok tt).

(** ** handle_heartbeat.go *)
Definition HandleHeartbeat (sess : agentSession) (hb : option Heartbeat) : prog (res unit) :=
  if (Heartbeat_GetAgentId hb <>s "") && (Heartbeat_GetAgentId hb <>s agentID sess)
  then Ret (Err (EStatus InvalidArgument "heartbeat agent_id does not match registered agent"))
  else
  _ <-? (if Heartbeat_GetStatus hb =s "IDLE" then
           RollbackOrphanShardsForAgent (agentID sess)
         else Ret (Ok 0%Z))
      # (fun e => EStatus Internal ("rollback orphan shards for agent " +:+ agentID sess
                                    +:+ ": " +:+ Error e)) ;;
  let shardID := if Heartbeat_GetCurrentShardId hb <>s "" then Some (Heartbeat_GetCurrentShardId hb) else None in
  _ <-? HeartbeatAgent (agentID sess) (Heartbeat_GetStatus hb) shardID
      # (fun e => if errors_Is e ErrAgentNotFound then EStatus NotFound (Error e)
                  else statusf Internal "heartbeat agent" e) ;;
  ResetHeartbeat (agentID sess) ;;
  if Heartbeat_GetStatus hb =s AgentStatusIdle then TryAssignShard sess else Ret (Ok tt).

(** ** handle_reconnected_agent.go *)
Definition HandleReconnectedAgent (sess : agentSession) (agent : Agent) : prog (res Agent) :=
  agent' <-? (if ag_Status agent =s AgentStatusRunning then
                _ <-? HeartbeatAgent (ag_ID agent) AgentStatusIdle None
                    # statusf Internal "reset stale agent state" ;;
                _ <- RollbackOrphanShardsForAgent (ag_ID agent) ;;
                a <-? GetAgent (ag_ID agent) # statusf Internal "get reset agent" ;;
                Ret (Ok a)
              else Ret (Ok agent)) ;;
  if ag_Status agent' <>s AgentStatusIdle then Ret (Ok agent')
  else
  _ <-? TryAssignShard sess ;;
  Ret (Ok agent').

(** ** handle_agent_timeout.go *)
Definition HandleAgentTimeout (agent_id reason : string) : prog unit :=
  found <- GetAgent agent_id ;;
  match found with
  | Err _ => Ret tt
  | Ok agent =>
    (match CurrentShardID agent with
     | None => Ret tt
     | Some sid =>
       if sid =s "" then Ret tt else
       match uuid_Parse sid with
       | Err _ => Ret tt
       | Ok shardID =>
         _ <- RollbackTimedOutShard shardID agent_id (ag_TenantID agent) (ag_BackendName agent) ;;
         Ret tt
       end
     end) ;;
    if reason =s "grace_expired" then
      _ <- HeartbeatAgent agent_id AgentStatusTimedOut None ;; Ret tt
    else Ret tt
  end.

(** ** notify_cancel_shard.go *)
Definition drop_stream (agent_id : string) : prog unit :=
  modify (fun w => set_streams (delete agent_id (w_streams w)) w).

Definition NotifyCancelShard (agent_id : string) (shardID : uuid) : prog (res unit) :=
  found <- gets (fun w => w_streams w !! agent_id) ;;
  match found with
  | None => Ret (Ok tt)
  | Some s =>
    r <- SendWithContext s (ServerMessage_CancelShard (mkCancelShard (uuid_String shardID))) ;;
    match r with
    | Ok _ => Ret (Ok tt)
    | Err e =>
      (if negb (errors_Is e DeadlineExceeded) && negb (errors_Is e Canceled)
       then drop_stream agent_id else Ret tt) ;;
      Ret (Err e)
    end
  end.

(** ** server.go *)
(** One message of the receive loop. *)
Definition handle_message (sess : agentSession) (message : AgentMessage) : prog (res unit) :=
  match GetHeartbeat message with
  | Some _ as hb => HandleHeartbeat sess hb
  | None =>
  match GetShardAccepted message with
  | Some _ => Ret (Ok tt)
  | None =>
  match GetShardStarted message with
  | Some _ as m => HandleShardStarted sess m
  | None =>
  match GetShardResultReady message with
  | Some _ as m => HandleShardResultReady sess m
  | None =>
  match GetShardFailed message with
  | Some _ as m => HandleShardFailed sess m
  | None => Ret (Err (EStatus InvalidArgument "unsupported control message"))
  end end end end end.

Fixpoint recv_loop (sess : agentSession) (inputs : list recv_result) : prog (res unit) :=
  match inputs with
  | [] => Ret (Ok tt) (* io.EOF *)
  | CtxDone e :: _ => Ret (Err (ESentinel e))
  | RecvErr m :: _ => Ret (Err (EStatus Internal ("recv control message: " +:+ m)))
  | RecvMsg message :: rest =>
    _ <-? handle_message sess message ;;
    recv_loop sess rest
  end.

(** From the registration on, before the deferred clean-up. *)
Definition serve_session (sess : agentSession) (inputs : list recv_result) : prog (res unit) :=
  registered_agent <-? GetAgent (agentID sess) # statusf Internal "get registered agent" ;;
  _ <-? HandleReconnectedAgent sess registered_agent ;;
  recv_loop sess inputs.

Definition disconnect (agent_id : string) : prog unit :=
  drop_stream agent_id ;; BeginGrace agent_id ;; DisconnectAgent agent_id.

Definition open_stream (agent_id : string) : prog nat :=
  act (fun w => let s := w_nstreams w in
                (s, set_streams (<[agent_id := s]> (w_streams w)) (set_nstreams (S s) w))).

Definition open_registered (register : option Register) (tenant_id : uuid)
    (inputs : list recv_result) : prog (res unit) :=
  let agent_id := Register_GetAgentId register in
  _ <-? RegisterAgent agent_id tenant_id (Register_GetBackendName register)
      # (fun e => if errors_Is e ErrAgentIdentityConflict then EStatus PermissionDenied (Error e)
                  else statusf Internal "register agent" e) ;;
  CancelTimer agent_id ;;
  ResetHeartbeat agent_id ;;
  s <- open_stream agent_id ;;
  r <- serve_session (mkSession s agent_id tenant_id (Register_GetBackendName register)) inputs ;;
  disconnect agent_id ;;
  Ret r.

Definition OpenControlStream (inputs : list recv_result) : prog (res unit) :=
  match inputs with
  | [] => Ret (Err (EStatus InvalidArgument "register message is required"))
  | RecvErr m :: _ => Ret (Err (EStatus Internal ("recv first control message: " +:+ m)))
  | CtxDone e :: _ =>
    Ret (Err (EStatus Internal ("recv first control message: " +:+ sentinel_text e)))
  | RecvMsg first_message :: rest =>
    match GetRegister first_message with
    | None => Ret (Err (EStatus InvalidArgument "first control message must be register"))
    | Some _ as register =>
      if Register_GetAgentId register =s ""
      then Ret (Err (EStatus InvalidArgument "agent_id is required"))
      else
      tenant_id <-? Ret (uuid_Parse (Register_GetTenantId register))
          # statusf InvalidArgument "invalid tenant_id" ;;
      if Register_GetToken register <>s expectedToken
      then Ret (Err (EStatus Unauthenticated
             ("tenant " +:+ uuid_String tenant_id +:+ " token mismatch")))
      else open_registered register tenant_id rest
    end
  end.
End Control.

(** ** The handlers are lawful

    The handlers of a session lease shards for its agent, which it has registered. *)
Definition speaks_for (sess : agentSession) : string * uuid * string :=
  (agentID sess, tenantID sess, backend sess).

Section ControlLaws.
Context `{E : Env, L : !EnvLaws E}.
Context (db_set : bool) (expectedToken : string).
Implicit Types (sess : agentSession).

Lemma lawful_Send sess m : lawful (Send sess m).
Proof. unfold Send, stream_Send. lawful_all. Qed.
#[local] Hint Resolve lawful_Send : prog.
Lemma lawful_assign sess task shard :
  lawful (assign_leased sess task shard).
Proof. lawful assign_leased. Qed.
Lemma lawful_assign_rollback sess task shard e : lawful (assign_rollback sess task shard e).
Proof. lawful assign_rollback. Qed.
#[local] Hint Resolve lawful_assign lawful_assign_rollback : prog.
Lemma lawful_for_TryAssignShard sess : lawful_for (speaks_for sess) (TryAssignShard db_set sess).
Proof.
  unfold TryAssignShard. unfold speaks_for.
  pose proof (lawful_for_LeaseNextShard (tenantID sess) (backend sess) (agentID sess)).
  repeat lawful_for_step.
Qed.
#[local] Hint Resolve lawful_for_TryAssignShard : prog.
Lemma lawful_for_resetAgentAndAssign sess :
  lawful_for (speaks_for sess) (resetAgentAndAssign db_set sess).
Proof. lawful_for resetAgentAndAssign. Qed.
#[local] Hint Resolve lawful_for_resetAgentAndAssign : prog.
Lemma lawful_for_HandleShardResultReady sess m :
  lawful_for (speaks_for sess) (HandleShardResultReady db_set sess m).
Proof. lawful_for HandleShardResultReady. Qed.
Lemma lawful_for_HandleShardFailed sess m :
  lawful_for (speaks_for sess) (HandleShardFailed db_set sess m).
Proof. lawful_for HandleShardFailed. Qed.
Lemma lawful_HandleShardStarted sess m : lawful (HandleShardStarted sess m).
Proof. lawful HandleShardStarted. Qed.
Lemma lawful_for_HandleHeartbeat sess m :
  lawful_for (speaks_for sess) (HandleHeartbeat db_set sess m).
Proof. lawful_for HandleHeartbeat. Qed.
#[local] Hint Resolve lawful_for_HandleShardResultReady lawful_for_HandleShardFailed
  lawful_HandleShardStarted lawful_for_HandleHeartbeat : prog.
Lemma lawful_for_handle_message sess m : lawful_for (speaks_for sess) (handle_message db_set sess m).
Proof. lawful_for handle_message. Qed.
#[local] Hint Resolve lawful_for_handle_message : prog.
Lemma lawful_for_recv_loop sess l : lawful_for (speaks_for sess) (recv_loop db_set sess l).
Proof. induction l as [|[] l IH]; cbn [recv_loop]; repeat lawful_for_step. Qed.
#[local] Hint Resolve lawful_for_recv_loop : prog.
Lemma lawful_for_HandleReconnectedAgent sess a :
  lawful_for (speaks_for sess) (HandleReconnectedAgent db_set sess a).
Proof. lawful_for HandleReconnectedAgent. Qed.
#[local] Hint Resolve lawful_for_HandleReconnectedAgent : prog.
Lemma lawful_for_serve_session sess l : lawful_for (speaks_for sess) (serve_session db_set sess l).
Proof. lawful_for serve_session. Qed.
Lemma lawful_HandleAgentTimeout a reason : lawful (HandleAgentTimeout a reason).
Proof. lawful HandleAgentTimeout. Qed.
Lemma lawful_NotifyCancelShard a s : lawful (NotifyCancelShard a s).
Proof. unfold NotifyCancelShard, SendWithContext, stream_Send, drop_stream. lawful_all. Qed.
Lemma lawful_open_registered register tenant_id inputs :
  lawful (open_registered db_set register tenant_id inputs).
Proof.
  unfold open_registered. cbv zeta.
  eapply lawful_enlist; [intros g; apply accounted_RegisterAgent|].
  do 2 (apply lawful_for_bind; [apply lawful_for_any; eauto with prog|intros ?]).
  apply lawful_for_bind; [apply lawful_for_any; unfold open_stream; lawful_all|]. intros s.
  apply lawful_for_bind; [apply (lawful_for_serve_session
    (mkSession s (Register_GetAgentId register) tenant_id (Register_GetBackendName register)))|].
  intros r. apply lawful_for_any. unfold disconnect, drop_stream. lawful_all.
Qed.
#[local] Hint Resolve lawful_open_registered : prog.
Lemma lawful_OpenControlStream inputs :
  lawful (OpenControlStream db_set expectedToken inputs).
Proof. lawful OpenControlStream. Qed.
End ControlLaws.
#[export] Hint Resolve lawful_HandleAgentTimeout lawful_NotifyCancelShard
  lawful_OpenControlStream : prog.

(** ** Cancelling through the control plane *)
Section CancelFacts.
Context `{E : Env, L : !EnvLaws E}.
Implicit Types (d : DB) (w : World).

(** What one notification does when nothing fails. *)
Definition notified (a : string) (s : uuid) w : list (nat * ServerMessage) :=
  match w_streams w !! a with
  | Some st => (st, ServerMessage_CancelShard (mkCancelShard (uuid_String s))) :: w_sent w
  | None => w_sent w
  end.

Lemma wp_NotifyCancelShard b a s w :
  wp b (NotifyCancelShard a s) (fun _ w' =>
    w_db w' = w_db w /\ w_hooks w' = w_hooks w /\
    (b = false -> w_streams w' = w_streams w /\ w_sent w' = notified a s w)) w.
Proof.
  unfold NotifyCancelShard, notified. apply wp_bind. cbn [wp gets act fst snd].
  destruct (w_streams w !! a) as [st|]; cbn [wp]; [|by repeat split].
  apply wp_bind. unfold SendWithContext, stream_Send. cbn.
  split; [split; [by repeat split|]|]; intros ->; intros; by repeat split.
Qed.

Lemma wp_notify_all b l w :
  w_notify w = true ->
  wp b (notify_all NotifyCancelShard l) (fun _ w' =>
    w_db w' = w_db w /\ w_hooks w' = w_hooks w /\
    (b = false -> (forall m, m ∈ w_sent w -> m ∈ w_sent w') /\
       forall s st, s ∈ l -> w_streams w !! AssignedAgentID s = Some st ->
         (st, ServerMessage_CancelShard (mkCancelShard (uuid_String (rid s)))) ∈ w_sent w')) w.
Proof.
  intros Hn. unfold notify_all. apply wp_bind. cbn [wp gets act fst snd]. rewrite Hn. clear Hn.
  revert w. induction l as [|s l IH]; intros w; cbn [foldP].
  { cbn. split; [done|]. split; [done|]. intros _. split; [done|].
    intros s st Hs. by apply not_elem_of_nil in Hs. }
  apply wp_bind, wp_bind. eapply wp_mono; [|apply wp_NotifyCancelShard].
  intros _ w1 (Hd1 & Hh1 & Hs1). cbn [wp]. eapply wp_mono; [|apply IH].
  intros _ w2 (Hd2 & Hh2 & Hs2). split; [congruence|]. split; [congruence|]. intros Hb.
  destruct (Hs1 Hb) as [Hst Hsent]. destruct (Hs2 Hb) as [Hmono Hin]. split.
  - intros m Hm. apply Hmono. rewrite Hsent. unfold notified.
    destruct (w_streams w !! _); [by right|done].
  - intros s' st Hs' Hlook. apply elem_of_cons in Hs' as [->|Hs'].
    + apply Hmono. rewrite Hsent. unfold notified. rewrite Hlook. left.
    + apply Hin; [done|]. by rewrite Hst.
Qed.

(** The hook of a cancellation. *)
Definition cancel_hooked (t : Task) w w' : Prop :=
  if CompletionHookURL t =s "" then w_hooks w' = w_hooks w
  else exists p, w_hooks w' = p :: w_hooks w /\ pl_TaskID p = rid t /\
                 pl_Status p = TaskStatusCancelled /\
                 pl_CompletionHookURL p = CompletionHookURL t.

Lemma wp_cancel_hook b t id w :
  wp b (cancel_hook t id) (fun _ w' =>
    w_db w' = w_db w /\ w_notify w' = w_notify w /\ w_streams w' = w_streams w /\
    w_sent w' = w_sent w /\ cancel_hooked t w w') w.
Proof.
  unfold cancel_hook, cancel_hooked, newCompletionHookPayload.
  destruct (CompletionHookURL t =s "") eqn:Hu; [by repeat split|]. clean.
  apply wp_bind. unfold TaskOrm.GetByID.
  assert (forall fin, wp b (dispatchCompletionHookAsync
      (mkPayload (rid t) (TenantID t) TaskStatusCancelled "" fin false (CompletionHookURL t)))
      (fun _ w' => w_db w' = w_db w /\ w_notify w' = w_notify w /\ w_streams w' = w_streams w /\
        w_sent w' = w_sent w /\ exists p, w_hooks w' = p :: w_hooks w /\ pl_TaskID p = rid t /\
                 pl_Status p = TaskStatusCancelled /\
                 pl_CompletionHookURL p = CompletionHookURL t) w) as Hd.
  { intros fin. apply wp_dispatch; [done|]. repeat split. by eexists. }
  apply wp_bindR, wp_First; [|intros _; apply Hd|intros _ m; apply Hd].
  intros r _. apply wp_bindR, wp_Find; [|intros _ m; apply Hd].
  intros l _. cbn [wp]. apply Hd.
Qed.

Definition interrupted (id : uuid) d (s : TaskShard) : Prop :=
  (exists k, task_shards d !! k = Some s) /\ sh_TaskID s = id /\
  (sh_Status s ∈ [ShardStatusLeased; ShardStatusRunning]) /\ sh_assigned_agent_id s <> None.

Lemma wp_CancelTask b tenantName id w :
  Inv (w_db w) -> w_db_open w = true -> w_notify w = true ->
  wp b (CancelTask NotifyCancelShard tenantName id) (fun r w' =>
    match r with
    | Ok _ => exists n t, named tenantName (w_db w) n /\ tasks (w_db w) !! id = Some t /\
        cancelled (rid n) id (w_db w) (w_db w') /\ cancel_hooked t w w' /\
        (b = false -> forall s st, interrupted id (w_db w) s ->
           w_streams w !! AssignedAgentID s = Some st ->
           (st, ServerMessage_CancelShard (mkCancelShard (uuid_String (rid s)))) ∈ w_sent w')
    | Err _ => w_db w' = w_db w /\ (b = true \/ (forall n, ~ named tenantName (w_db w) n) \/
                 exists n, named tenantName (w_db w) n /\ uncancellable (rid n) id (w_db w))
    end) w.
Proof.
  intros HI Ho Hnt. unfold CancelTask, TaskOrm.GetByID. apply wp_bindR, wp_GetDB; [done|].
  apply wp_bindR, wp_GetByName; [|intros e [?|?]; (split; [done|]); [by left|by right; left]].
  intros n Hn. apply wp_bindR, wp_bindR, wp_First_key; [by apply inv_sane_tasks| | |by split; [|left]].
  2:{ intros Hnone. cbn in Hnone. split; [done|]. right. right. exists n. split; [done|].
      intros t Ht. congruence. }
  intros t Ht. cbn in Ht. destruct (inv_task _ HI id t Ht) as (Hid & _ & _).
  apply wp_bindR, wp_Find; [|by split; [|left]]. intros sh _. cbn [wp].
  apply wp_bindR, wp_Find; [|by split; [|left]]. intros run Hrun.
  apply wp_bindR, wp_transaction; [by split; [|left]|].
  assert (framed (cancel_body (rid n) id)) as Hfr.
  { unfold cancel_body, CancelTaskById, CancelTaskShardsByTaskId. framed_all. }
  eapply wp_mono; [|apply wp_framed; [exact Hfr|exact (wp_cancel_body b (rid n) id w HI)]].
  intros [x|e] w1 [Hr [_ _ Hst Hse Hno Hho _ _]].
  2:{ split; [done|]. destruct Hr as [?|Hu]; [by left|]. right. right. eauto. }
  split; [|by split; [|left]].
  apply wp_bind. eapply wp_mono; [|apply wp_cancel_hook]. cbn [fst].
  intros _ w2 (Hd2 & Hn2 & Hs2 & Hse2 & Hh2).
  apply wp_bind. eapply wp_mono; [|apply wp_notify_all; congruence].
  intros _ w3 (Hd3 & Hh3 & Hs3). cbn [wp].
  exists n, t. split; [done|]. split; [done|]. split; [by rewrite Hd3, Hd2|]. split.
  - unfold cancel_hooked in *. rewrite Hh3. by rewrite <-Hho.
  - intros Hb s st ([k Hk] & Hi & Hq & Ha) Hlook. apply (proj2 (Hs3 Hb)).
    + rewrite Hrun. apply elem_matching. split; [by exists k|].
      destruct (inv_shard _ HI k s Hk) as [_ Hl]. split; [done|].
      rewrite bool_decide_true, (bool_decide_false (_ = None)) by done.
      by rewrite (proj2 (ins_spec _ _) Hq).
    + by rewrite Hs2, Hst.
Qed.

(** Cancelling is all or nothing and confined to the tenant.  A successful
    [CancelTask] cancels the named tenant's task, which was not terminal, together
    with every shard of it that was not terminal, changes no other row, and starts
    the completion hook if the task has one; a failed one changes no row, and
    without external failures it only fails when the tenant is unknown, has no such
    task, or the task is terminal. *)
Theorem CancelTask_spec tenantName id w o :
  Inv (w_db w) -> w_db_open w = true -> w_notify w = true ->
  let x := run (CancelTask NotifyCancelShard tenantName id) w o in
  match result x with
  | Ok _ => exists n t, named tenantName (w_db w) n /\ tasks (w_db w) !! id = Some t /\
      cancelled (rid n) id (w_db w) (w_db (final x)) /\ cancel_hooked t w (final x)
  | Err _ => w_db (final x) = w_db w /\
      (calm o -> (forall n, ~ named tenantName (w_db w) n) \/
                 exists n, named tenantName (w_db w) n /\ uncancellable (rid n) id (w_db w))
  end.
Proof.
  intros HI Ho Hn x.
  destruct (wp_run_both _ _ w o (fun b => wp_CancelTask b tenantName id w HI Ho Hn)) as (b & Hb & Hr).
  fold x in Hr. destruct (result x) as [u|e].
  - destruct Hr as (n & t & ? & ? & ? & ? & _). eauto 10.
  - destruct Hr as [Hd Hr]. split; [done|]. intros Hc.
    destruct Hr as [->|?]; [by discriminate (Hb Hc)|done].
Qed.

(** C12: Without external failures every agent that holds a leased or running
    shard of a cancelled task and has an open stream is told to stop: a
    CancelShard for that shard is sent on the agent's stream. *)
Theorem CancelTask_notifies tenantName id w o s st :
  Inv (w_db w) -> w_db_open w = true -> w_notify w = true -> calm o ->
  let x := run (CancelTask NotifyCancelShard tenantName id) w o in
  result x = Ok tt -> interrupted id (w_db w) s ->
  w_streams w !! AssignedAgentID s = Some st ->
  (st, ServerMessage_CancelShard (mkCancelShard (uuid_String (rid s)))) ∈ w_sent (final x).
Proof.
  intros HI Ho Hn Hc x Hx Hs Hst.
  pose proof (wp_run_calm _ _ w o Hc (wp_CancelTask false tenantName id w HI Ho Hn)) as Hr.
  fold x in Hr. rewrite Hx in Hr. destruct Hr as (n & t & _ & _ & _ & _ & Hm). by apply (Hm eq_refl).
Qed.
End CancelFacts.

(** The theorems on [demo]: shard 15 of task 11 runs on the agent "busy". *)
Lemma CancelTask_spec_witness :
  let E := toy_env in
  let x := run (CancelTask NotifyCancelShard "acme" 11) demo quiet in
  result x = Ok tt /\ exists n : Tenant, cancelled (rid n) 11 demo_db (w_db (final x)).
Proof.
  cbn zeta. split; [vm_compute; reflexivity|].
  pose proof (CancelTask_spec (E := toy_env) (L := toy_laws) "acme" 11 demo quiet
                demo_inv eq_refl eq_refl) as H. cbv zeta in H.
  replace (result _) with (@Ok unit tt) in H by (vm_compute; reflexivity).
  destruct H as (n & t & _ & _ & H & _). exists n. exact H.
Defined.

Lemma CancelTask_notifies_witness :
  let E := toy_env in
  let x := run (CancelTask NotifyCancelShard "acme" 11) demo quiet in
  (0, ServerMessage_CancelShard (mkCancelShard (uuid_String 15))) ∈ w_sent (final x).
Proof.
  cbn zeta.
  apply (CancelTask_notifies (E := toy_env) (L := toy_laws) "acme" 11 demo quiet
           (demo_shard 15 11 "a.sh" ShardStatusRunning (Some "busy") "" (Some 8%Z)) 0
           demo_inv eq_refl eq_refl (Forall_nil_2 _)).
  - vm_compute. reflexivity.
  - split; [exists 15%N; vm_compute; reflexivity|]. split; [reflexivity|].
    split; [by apply ins_spec|done].
  - vm_compute. reflexivity.
Defined.
