(* ===== verification/ControlFacts.v ===== *)
(** * Assignment, sessions and timeouts

    What the control plane (internal/control) promises of a single call: an
    assignment is undone when it cannot be delivered, a stream is authenticated
    before it has any effect and leaves its agent in its grace period, a shard of an
    agent that stays away is queued again. *)
From S2P Require Import Prelude Errors Model Env Proto World Effects Store StoreFacts.
From S2P Require Import Lifecycle Lawful Demo TaskOrm TaskShardOrm AgentService TaskHooks TaskStatus.
From S2P Require Import TaskLease Control.

Section Assign.
Context `{E : Env, L : !EnvLaws E}.
Implicit Types (d : DB) (w : World) (sess : agentSession).

Lemma framed_LeaseNextShard T B A : framed (LeaseNextShard T B A).
Proof.
  assert (forall n, framed (lease_loop T B A n)) as Hloop.
  { induction n as [|n IH]; cbn [lease_loop]; [done|].
    unfold take_candidate, promote_task. framed_all. }
  unfold LeaseNextShard. framed_all.
Qed.

Lemma wp_HeartbeatAgent b a status shard Q w :
  (forall now x, agents (w_reg w) !! a = Some x ->
     Q (Ok tt) (set_reg (set_agents (<[a := heartbeat status shard (unix now) x]>
                           (agents (w_reg w))) (w_reg w)) (set_clock now w))) ->
  (forall now, agents (w_reg w) !! a = None -> Q (Err (agent_not_found a)) (set_clock now w)) ->
  wp b (HeartbeatAgent a status shard) Q w.
Proof.
  intros H1 H2. cbn. intros t _. destruct (agents (w_reg w) !! a) as [x|]; [by apply H1|by apply H2].
Qed.

(** The agent as the registry has it after an assignment. *)
Definition on_shard (shard : uuid) (x : Agent) : Prop :=
  ag_Status x = AgentStatusRunning /\ CurrentShardID x = Some (uuid_String shard).
Definition at_rest (x : Agent) : Prop := ag_Status x = AgentStatusIdle /\ CurrentShardID x = None.
Definition working w (a : string) (shard : uuid) : Prop :=
  exists x, agents (w_reg w) !! a = Some x /\ on_shard shard x.
(** The entry of [a], when there is one. *)
Definition entry_is w (a : string) (P : Agent -> Prop) : Prop :=
  forall x, agents (w_reg w) !! a = Some x -> P x.

(** Outside the database and the sent messages, only the entry of [a] may change. *)
Record only_agent (a : string) w w' : Prop := mkOnlyAgent {
  oa_open : w_db_open w' = w_db_open w;
  oa_streams : w_streams w' = w_streams w;
  oa_hooks : w_hooks w' = w_hooks w;
  oa_others : delete a (agents (w_reg w')) = delete a (agents (w_reg w));
  oa_reg : set_agents ∅ (w_reg w') = set_agents ∅ (w_reg w);
}.
Lemma only_agent_trans a w1 w2 w3 : only_agent a w1 w2 -> only_agent a w2 w3 -> only_agent a w1 w3.
Proof. intros [] []. split; by etrans. Qed.
Lemma only_agent_outside a w w' : outside_same w w' -> only_agent a w w'.
Proof. intros [? Hr ? ? ? ? ?]. split; (done || by rewrite Hr). Qed.
Lemma only_agent_heartbeat a x now w :
  only_agent a w (set_reg (set_agents (<[a := x]> (agents (w_reg w))) (w_reg w)) (set_clock now w)).
Proof. split; try done. cbn. by rewrite delete_insert_eq. Qed.

(** The delivery of a leased shard does not touch the database. *)
Lemma wp_assign_leased b sess task shard w :
  wp b (assign_leased sess task shard) (fun r w' =>
    w_db w' = w_db w /\ only_agent (agentID sess) w w' /\
    match r with
    | Ok _ => working w' (agentID sess) (rid shard) /\
        exists u1 u2, w_sent w' = (stream sess, assign_message task shard u1 u2) :: w_sent w
    | Err _ => w_sent w' = w_sent w /\ entry_is w' (agentID sess) (on_shard (rid shard))
    end) w.
Proof.
  unfold assign_leased. apply wp_bindR, wp_HeartbeatAgent.
  2:{ intros now Hno. split; [done|]. split; [done|]. split; [done|]. intros x. cbn. by rewrite Hno. }
  intros now x Hx. set (x' := heartbeat _ _ _ x). set (w1 := set_reg _ _).
  assert (forall m : string, w_db w1 = w_db w /\ only_agent (agentID sess) w w1 /\ w_sent w1 = w_sent w /\
            entry_is w1 (agentID sess) (on_shard (rid shard))) as Herr.
  { intros _. split; [done|]. split; [apply only_agent_heartbeat|]. split; [done|]. intros y. cbn.
    rewrite lookup_insert_eq. by intros [= <-]. }
  do 3 (apply wp_bindR, wp_call; [|by intros; apply Herr]; cbn [fst snd]).
  apply wp_bindR. unfold Send, stream_Send. apply wp_call; [|by intros; apply Herr]. cbn [fst snd wp].
  split; [done|]. split; [|split; [|by do 2 eexists]].
  { eapply only_agent_trans; [apply (only_agent_heartbeat _ x' now)|by split]. }
  exists x'. cbn. rewrite lookup_insert_eq. by repeat split.
Qed.

(** A leased shard that was put back: it is queued and unassigned again, and the
    database is otherwise as the lease has left it. *)
Definition put_back T B A d (r : Task * TaskShard) d' : Prop :=
  exists d1 s now, lease_done T B A d r d1 /\ task_shards d1 !! rid r.2 = Some s /\
    sh_Status s = ShardStatusLeased /\
    d' = set_task_shards (<[rid r.2 := touch now (requeued s)]> (task_shards d1)) d1.

(** The error of an assignment whose roll-back has failed too. *)
Definition says_rollback_failed (e : error) : Prop :=
  exists m m', e = EStatus Internal (m +:+ " (rollback failed: " +:+ m' +:+ ")").

Lemma lease_done_row T B A d r d1 :
  lease_done T B A d r d1 ->
  exists s t now, eligible T B d s t /\ r = (promoted t, leased A s) /\
    task_shards d1 = <[rid s := touch now (leased A s)]> (task_shards d) /\
    Status r.1 <> TaskStatusWaitingForAgents.
Proof.
  intros (s & t & rest & t1 & t2 & Hc & -> & _ & Hs & _).
  pose proof (candidate_spec T B d s t ltac:(rewrite Hc; left)) as He.
  exists s, t, t2. split; [done|]. split; [done|]. split; [done|]. cbn.
  destruct He as (_ & _ & _ & _ & _ & Hq & _). pose proof (promoted_status t Hq) as Hp.
  intros Heq. rewrite Heq in Hp. statuses.
Qed.

Lemma wp_assign_rollback b sess T B A r d w e :
  Inv d -> lease_done T B A d r (w_db w) -> w_db_open w = true -> 
  entry_is w (agentID sess) (on_shard (rid r.2)) ->
  wp b (assign_rollback sess r.1 r.2 e) (fun x w' =>
    only_agent (agentID sess) w w' /\ w_sent w' = w_sent w /\
    match x with
    | Ok _ => False
    | Err e' =>
        (put_back T B A d r (w_db w') /\ entry_is w' (agentID sess) at_rest) \/
        (b = true /\ w_db w' = w_db w /\ entry_is w' (agentID sess) (on_shard (rid r.2)) /\
         says_rollback_failed e')
    end) w.
Proof.
  intros HI Hd Ho Hag. destruct (lease_done_lawful _ _ _ _ _ _ HI Hd) as [HI1 _].
  destruct (lease_done_row _ _ _ _ _ _ Hd) as (s & t & n1 & _ & Hr & Hs & Hw).
  assert (task_shards (w_db w) !! rid r.2 = Some (touch n1 (leased A s))) as Hrow.
  { rewrite Hs, Hr. apply lookup_insert_eq. }
  assert (forall w1 m, outside_same w w1 -> b = true ->
    let w2 := set_db (w_db w) w1 in
    let e' := EStatus Internal (Error e +:+ " (rollback failed: " +:+ m +:+ ")") in
    only_agent (agentID sess) w w2 /\ w_sent w2 = w_sent w /\
    ((put_back T B A d r (w_db w2) /\ entry_is w2 (agentID sess) at_rest) \/
     (b = true /\ w_db w2 = w_db w /\ entry_is w2 (agentID sess) (on_shard (rid r.2)) /\
      says_rollback_failed e'))) as Hfail.
  { intros w1 m Hf Hb. cbv zeta. pose proof Hf as [_ Hreg _ Hsent _ _ _].
    split; [by apply only_agent_outside; destruct Hf|]. split; [done|]. right. split; [done|]. split; [done|].
    split; [|by do 2 eexists]. intros x. cbn. rewrite Hreg. apply Hag. }
  unfold assign_rollback, RollbackAssignedShard. apply wp_bind, wp_bindR, wp_GetDB; [done|].
  apply wp_transaction.
  { intros Hb m. cbn [wp]. replace w with (set_db (w_db w) w) at 2 by apply set_db_same.
    by apply (Hfail w). }
  apply wp_RollbackShardWithTask; [by apply inv_sane_shards|by apply inv_sane_tasks|by left| |].
  - intros s' now w1 Hs' Hq Hd1 Hf. assert (s' = touch n1 (leased A s)) as -> by congruence.
    assert (put_back T B A d r (w_db w1)) as Hback.
    { exists (w_db w), (touch n1 (leased A s)), now. by split_and!. }
    split; [|intros Hb m; cbn [wp]; by apply Hfail].
    apply wp_bind, wp_HeartbeatAgent; cbn [wp].
    + intros now' x Hx. split; [|split; [by destruct Hf|left]].
      * eapply only_agent_trans; [by apply only_agent_outside|apply only_agent_heartbeat].
      * split; [exact Hback|]. intros y. cbn. rewrite lookup_insert_eq. by intros [= <-].
    + intros now' Hno. split; [|split; [by destruct Hf|left]].
      * eapply only_agent_trans; [by apply only_agent_outside|]. by split.
      * split; [exact Hback|]. intros y. cbn. by rewrite Hno.
  - intros e' w1 [Hb|Hno] Hf; [cbn [wp]; by apply Hfail|]. exfalso. apply (Hno _ Hrow). left.
Qed.

Definition active_session sess : Prop :=
  agentID sess <> "" /\ tenantID sess <> uuid_Nil /\ backend sess <> "".

Lemma wp_TryAssignShard b sess w :
  Inv (w_db w) -> w_db_open w = true -> active_session sess ->
  wp b (TryAssignShard true sess) (fun r w' =>
    let T := tenantID sess in let B := backend sess in let A := agentID sess in
    let d := w_db w in let d' := w_db w' in
    only_agent A w w' /\
    match r with
    | Ok _ =>
      ((forall s t, ~ eligible T B d s t) /\ d' = d /\ w_reg w' = w_reg w /\ w_sent w' = w_sent w) \/
      (exists x u1 u2, lease_done T B A d x d' /\ working w' A (rid x.2) /\
         w_sent w' = (stream sess, assign_message x.1 x.2 u1 u2) :: w_sent w)
    | Err e =>
      w_sent w' = w_sent w /\
      ((d' = d /\ w_reg w' = w_reg w) \/
       (exists x, put_back T B A d x d' /\ entry_is w' A at_rest) \/
       (exists x, b = true /\ lease_done T B A d x d' /\ entry_is w' A (on_shard (rid x.2)) /\
                  says_rollback_failed e))
    end) w.
Proof.
  intros HI Ho (Ha & HT & HB). cbv zeta. unfold TryAssignShard.
  apply eqs_neq in Ha, HB. rewrite Ha, HB, bool_decide_false by done. cbn [negb orb].
  apply wp_bind. eapply wp_mono; [|apply wp_framed; [apply framed_LeaseNextShard|by apply wp_LeaseNextShard]].
  intros [[task shard]|e] w1 [Hr Hf]; pose proof (only_agent_outside (agentID sess) _ _ Hf) as Hoa;
    destruct Hf as [Hop Hreg _ Hsent _ _ _].
  2:{ destruct Hr as [Hd Hcase]. destruct (errors_Is e ErrRecordNotFound) eqn:He; cbn [wp]; (split; [done|]).
      2:{ split; [done|]. by left. }
      left. destruct Hcase as [[_ ?]|[Hc _]]; [done|]. split; [|done].
      intros s t Hel. apply candidate_eligible in Hel. rewrite Hc in Hel.
      by apply not_elem_of_nil in Hel. }
  apply wp_bind. eapply wp_mono; [|apply wp_assign_leased].
  intros [u|e] w2 (Hd2 & Ho2 & Hs2).
  - cbn [wp]. split; [by eapply only_agent_trans|]. right. destruct Hs2 as [Hw (u1 & u2 & Hs2)].
    exists (task, shard), u1, u2. rewrite Hd2. split; [done|]. split; [done|]. by rewrite Hs2, Hsent.
  - destruct Hs2 as [Hs2 Hen].
    eapply wp_mono; [|apply (wp_assign_rollback b sess (tenantID sess) (backend sess) (agentID sess)
      (task, shard) (w_db w) w2 e)]; [|done|by rewrite Hd2|by rewrite (oa_open _ _ _ Ho2), Hop|done].
    intros [u|e'] w3 (Hoa3 & Hs3 & Hcase); [done|]. split.
    { eapply only_agent_trans; [exact Hoa|by eapply only_agent_trans]. }
    split; [by rewrite Hs3, Hs2|]. right. destruct Hcase as [Hback|(Hb & Hd3 & Hen3 & Hsay)]; [left|right].
    + by exists (task, shard).
    + exists (task, shard). by rewrite Hd3, Hd2.
Qed.

(** C14: An assignment is complete, undone, or reported as half done.  [TryAssignShard]
    either finds no eligible shard and does nothing; or leases one, marks the agent
    RUNNING on it and sends exactly one AssignShard for it; or fails and sends nothing.
    When it fails, the lease has failed and nothing has changed; or the lease is undone:
    the shard is queued and unassigned again and the agent, if registered, IDLE without
    a shard; or the roll-back has failed too, which the error says, and the shard stays
    LEASED and the agent, if registered, RUNNING on it.  Undoing does not undo the
    promotion of the task: a task that was waiting for agents stays QUEUED.  No other agent's entry, stream or hook changes. *)
Theorem TryAssignShard_spec sess w o :
  Inv (w_db w) -> w_db_open w = true -> active_session sess ->
  let x := run (TryAssignShard true sess) w o in
  let T := tenantID sess in let B := backend sess in let A := agentID sess in
  let w' := final x in let d := w_db w in let d' := w_db w' in
  only_agent A w w' /\
  match result x with
  | Ok _ =>
    ((forall s t, ~ eligible T B d s t) /\ d' = d /\ w_reg w' = w_reg w /\ w_sent w' = w_sent w) \/
    (exists r u1 u2, lease_done T B A d r d' /\ working w' A (rid r.2) /\
       w_sent w' = (stream sess, assign_message r.1 r.2 u1 u2) :: w_sent w)
  | Err e =>
    w_sent w' = w_sent w /\
    ((d' = d /\ w_reg w' = w_reg w) \/
     (exists s t t1 t2, eligible T B d s t /\ entry_is w' A at_rest /\
        d' = mkDB (if Status t =s TaskStatusWaitingForAgents
                   then <[sh_TaskID s := touch t1 (promoted t)]> (tasks d) else tasks d)
                  (<[rid s := touch t2 (requeued (leased A s))]> (task_shards d)) (tenants d) (clusters d)) \/
     (exists r, lease_done T B A d r d' /\ entry_is w' A (on_shard (rid r.2)) /\ says_rollback_failed e))
  end.
Proof.
  intros HI Ho Hact x T B A w' d d'.
  destruct (wp_run _ _ w o (wp_TryAssignShard true sess w HI Ho Hact)) as [Hoa Hr]. fold x w' in Hoa, Hr.
  split; [exact Hoa|]. destruct (result x) as [u|e]; [exact Hr|].
  destruct Hr as [Hs Hcase]. split; [exact Hs|]. destruct Hcase as [?|[(r & Hb & Hen)|(r & _ & ? & ? & ?)]].
  - by left.
  - right. left. destruct Hb as (d1 & s1 & now & (s & t & rest & t1 & t2 & Hc & -> & Ht & Hsh & Hn & Hcl) & Hs1 & _ & Hd').
    fold T B d in Hc. exists s, t, t1, now. split; [apply candidate_spec; rewrite Hc; left|]. split; [exact Hen|].
    fold d' in Hd'. rewrite Hd'. unfold set_task_shards. cbn [snd] in Hs1.
    change (rid (leased A s)) with (rid s) in *. cbn [snd]. change (rid (leased A s)) with (rid s).
    fold A d in Hsh. rewrite Hsh, lookup_insert_eq in Hs1. injection Hs1 as <-.
    rewrite Ht, Hsh, Hn, Hcl, insert_insert_eq. reflexivity.
  - right. right. by exists r.
Qed.
End Assign.

Definition demo_session : agentSession := mkSession 0 "idle" 1 "kubernetes".

Definition failing_send : Oracle := mkOracle (repeat None 9 ++ [Some "send failed"]) [].

Lemma TryAssignShard_spec_witness :
  let E := toy_env in
  let good := run (TryAssignShard true demo_session) demo quiet in
  let bad := run (TryAssignShard true demo_session) demo failing_send in
  result good = Ok tt /\ length (w_sent (final good)) = 1 /\
  (exists r u1 u2, lease_done 1 "kubernetes" "idle" demo_db r (w_db (final good)) /\
     w_sent (final good) = [(0, assign_message r.1 r.2 u1 u2)]) /\
  is_err (result bad) = true /\
  sh_Status <$> task_shards (w_db (final bad)) !! 13%N = Some ShardStatusQueued.
Proof.
  cbn zeta. split; [vm_compute; reflexivity|]. split; [vm_compute; reflexivity|].
  split; [|split; vm_compute; reflexivity].
  pose proof (TryAssignShard_spec (E := toy_env) (L := toy_laws) demo_session demo quiet
                demo_inv eq_refl ltac:(by repeat split)) as H. cbv zeta in H.
  destruct (result _) as [u|e] eqn:Hr; [|by vm_compute in Hr].
  destruct H as [_ [(_ & _ & _ & H)|(r & u1 & u2 & H1 & _ & H2)]]; [by vm_compute in H|].
  exists r, u1, u2. split; [exact H1|exact H2].
Defined.

(** ** Agents that stay away *)
Section Timeouts.
Context `{E : Env, L : !EnvLaws E}.
Implicit Types (d : DB) (w : World).

(** One shard queued again. *)
Definition shard_requeued (id : uuid) (s : TaskShard) d d' : Prop :=
  exists now, d' = set_task_shards (<[id := touch now (requeued s)]> (task_shards d)) d.

Lemma wp_RollbackTimedOutShard b id a T B s Q w :
  Inv (w_db w) -> w_db_open w = true -> T <> uuid_Nil -> id <> uuid_Nil ->
  may_report id a T B (w_db w) s -> sh_Status s ∈ [ShardStatusLeased; ShardStatusRunning] ->
  (forall w', shard_requeued id s (w_db w) (w_db w') -> outside_same w w' -> Q (Ok tt) w') ->
  (b = true -> forall e w', w_db w' = w_db w -> outside_same w w' -> Q (Err e) w') ->
  wp b (RollbackTimedOutShard id a T B) Q w.
Proof.
  intros HI Ho HT Hid Hm Hq HQ HE. unfold RollbackTimedOutShard.
  assert (outside_same w w) as Hw by done.
  apply wp_bindR, wp_LoadValidatedShard; [done..| |].
  2:{ intros e [?|[_ [?|Hno]]]; [by apply HE|done|]. by destruct (Hno s). }
  intros s' [Hs' _] _. destruct Hm as (Hs & _ & t & n & Ht & _).
  assert (s' = s) as -> by congruence. apply wp_bindR, wp_GetDB; [done|].
  apply wp_bindR, wp_First_key; [by apply inv_sane_tasks| |intros Hn; cbn in Hn; congruence|
    by intros; apply HE].
  intros t' Ht'. cbn in Ht'. assert (t' = t) as -> by congruence.
  destruct (inv_task _ HI _ t Ht) as (Hr & _).
  apply wp_transaction; [by intros; apply HE|].
  apply wp_RollbackShardWithTask; [by apply inv_sane_shards|by apply inv_sane_tasks| | |].
  - right. by rewrite Hr.
  - intros s' now w' Hs1 _ Hd Hf. assert (s' = s) as -> by congruence.
    split; [apply HQ; [by exists now|done]|]. intros Hb m. apply HE; [done..|by destruct Hf].
  - intros e w' [Hb|Hno] Hf; [apply HE; [done..|by destruct Hf]|]. by destruct (Hno s Hs).
Qed.

(** C20: When the grace period of a disconnected agent runs out, the agent is TIMED_OUT
    without a shard, and the shard it was working on is queued again and unassigned, or,
    when something fails on the way, the database is as it was: the failure is only
    logged, and the shard stays assigned to an agent that has forgotten it.  Without
    external failures the shard is queued again.  Nothing else changes in the database, no
    message is sent, and no other agent's entry changes. *)
Theorem grace_expiry_requeues a x id s w o :
  Inv (w_db w) -> w_db_open w = true -> onTimeout (w_reg w) = true ->
  agents (w_reg w) !! a = Some x -> ag_Status x = AgentStatusDisconnected ->
  CurrentShardID x = Some (uuid_String id) -> uuid_String id <> "" ->
  ag_TenantID x <> uuid_Nil -> id <> uuid_Nil ->
  may_report id a (ag_TenantID x) (ag_BackendName x) (w_db w) s ->
  sh_Status s ∈ [ShardStatusLeased; ShardStatusRunning] ->
  let w' := final (run (onGraceExpired HandleAgentTimeout a) w o) in
  (exists x', agents (w_reg w') = <[a := x']> (agents (w_reg w)) /\
     ag_Status x' = AgentStatusTimedOut /\ CurrentShardID x' = None) /\
  w_sent w' = w_sent w /\
  (w_db w' = w_db w \/ shard_requeued id s (w_db w) (w_db w')) /\
  (calm o -> shard_requeued id s (w_db w) (w_db w')).
Proof.
  intros HI Ho Hcb Hx Hst Hcur Hne HT Hid Hm Hq w'.
  destruct (wp_run_both (onGraceExpired HandleAgentTimeout a) (fun b _ w' =>
    (exists x', agents (w_reg w') = <[a := x']> (agents (w_reg w)) /\
       ag_Status x' = AgentStatusTimedOut /\ CurrentShardID x' = None) /\
    w_sent w' = w_sent w /\
    ((b = true /\ w_db w' = w_db w) \/ shard_requeued id s (w_db w) (w_db w'))) w o) as (b & Hb & H1 & H2 & H3).
  2:{ split; [exact H1|]. split; [exact H2|]. split; [by destruct H3 as [[_ ?]|?]; [left|right]|].
      intros Hc. destruct H3 as [[Hbt _]|?]; [|done]. by rewrite (Hb Hc) in Hbt. }
  clear w' o. intros b. unfold onGraceExpired. apply wp_bind. cbn [wp on_reg modify act fst snd].
  apply wp_bind. cbn [wp gets act fst snd]. cbn [w_reg set_reg agents forget_timer set_timers].
  rewrite Hx, Hst. apply wp_bind. cbn [wp gets act fst snd onTimeout w_reg set_reg forget_timer set_timers].
  rewrite Hcb. unfold HandleAgentTimeout. apply wp_bind.
  cbn [wp GetAgent gets act fst snd w_reg set_reg agents forget_timer set_timers].
  rewrite Hx, Hcur. apply eqs_neq in Hne. rewrite Hne, uuid_Parse_String. apply wp_bind, wp_bind.
  set (w0 := set_reg _ w).
  assert (forall w1, outside_same w0 w1 ->
            (b = true /\ w_db w1 = w_db w) \/ shard_requeued id s (w_db w) (w_db w1) ->
            wp b (_ <- HeartbeatAgent a AgentStatusTimedOut None ;; Ret tt) (fun _ w' =>
              (exists x', agents (w_reg w') = <[a := x']> (agents (w_reg w)) /\
                 ag_Status x' = AgentStatusTimedOut /\ CurrentShardID x' = None) /\
              w_sent w' = w_sent w /\
              ((b = true /\ w_db w' = w_db w) \/ shard_requeued id s (w_db w) (w_db w'))) w1) as Hend.
  { intros w1 [_ Hreg _ Hsent _ _ _] Hcase. apply wp_bind. eapply wp_HeartbeatAgent.
    - intros now y Hy. cbn. rewrite Hreg, Hsent. split; [|split; [done|exact Hcase]].
      eexists. split; [done|]. by split.
    - intros now Hno. exfalso. rewrite Hreg in Hno. cbn in Hno. congruence. }
  apply (wp_RollbackTimedOutShard b id a _ _ s); [done..| |].
  - intros w1 Hd Hf. apply Hend; [done|]. by right.
  - intros Hb e w1 Hd Hf. apply Hend; [done|]. by left.
Qed.

(** C32: A silent agent's shard is not taken back.  When the heartbeat timer of an
    UNRESPONSIVE agent expires for the second time, the agent is TIMED_OUT, but its
    current shard has been forgotten before the timeout handler looks for it: the
    database does not change, whatever shard the agent was working on, and the later
    grace expiry leaves the agent alone too. *)
Theorem heartbeat_timeout_strands_shard a x w o :
  agents (w_reg w) !! a = Some x -> ag_Status x = AgentStatusUnresponsive ->
  (forall clock, (w_clock w <= clock)%Z ->
     recent_heartbeat clock (heartbeatTimeout (w_reg w)) x = false) ->
  let y := run (onHeartbeatTimeout HandleAgentTimeout a ;;
                onGraceExpired HandleAgentTimeout a) w o in
  w_db (final y) = w_db w /\
  exists x', agents (w_reg (final y)) !! a = Some x' /\ ag_Status x' = AgentStatusTimedOut /\
             CurrentShardID x' = None.
Proof.
  intros Hx Hst Hold y.
  refine (wp_run _ (fun _ w' => w_db w' = w_db w /\
    exists x', agents (w_reg w') !! a = Some x' /\ ag_Status x' = AgentStatusTimedOut /\
               CurrentShardID x' = None) w o _).
  unfold onHeartbeatTimeout, onGraceExpired. apply wp_bind, wp_bind.
  cbn [wp on_reg modify act fst snd]. apply wp_bind. cbn [wp now]. intros t Ht. apply wp_bind.
  cbn [wp act fst snd]. cbn [w_reg w_clock set_reg set_clock]. unfold heartbeat_timeout_section.
  cbn [agents forget_timer set_timers heartbeatTimeout onTimeout]. rewrite Hx, Hold by done.
  rewrite Hst. cbn [fst snd]. unfold HandleAgentTimeout.
  destruct (onTimeout (w_reg w)); cbn; rewrite !lookup_insert_eq; cbn; rewrite ?lookup_insert_eq; cbn;
    (split; [done|]); eexists; rewrite ?lookup_insert_eq; by split.
Qed.
End Timeouts.

(** ** Sessions *)
Section Sessions.
Context `{E : Env, L : !EnvLaws E}.
Implicit Types (d : DB) (w : World).

(** Why the first message of a stream is turned away. *)
Definition turned_away (token : string) (inputs : list recv_result) : option code :=
  match inputs with
  | [] => Some InvalidArgument
  | RecvErr _ :: _ | CtxDone _ :: _ => Some Internal
  | RecvMsg m :: _ =>
    match GetRegister m with
    | None => Some InvalidArgument
    | Some r =>
      if reg_AgentId r =s "" then Some InvalidArgument
      else match uuid_Parse (reg_TenantId r) with
           | Err _ => Some InvalidArgument
           | Ok _ => if reg_Token r =s token then None else Some Unauthenticated
           end
    end
  end.

(** The state in which the end of a session leaves its agent. *)
Definition left_behind (a : string) w : Prop :=
  w_streams w !! a = None /\
  (forall x, agents (w_reg w) !! a = Some x -> ag_Status x = AgentStatusDisconnected) /\
  exists i deadline, timers (w_reg w) !! a = Some i /\
    theap (w_reg w) !! i = Some (mkTimer a GraceTimer deadline true).

Lemma wp_always b {A} (p : prog A) (Q : A -> World -> Prop) w :
  (forall a w', Q a w') -> wp b p Q w.
Proof.
  intros HQ. apply wp_any_fault. revert Q HQ w.
  induction p as [A a|A C f h IH|A h IH|A h IH|A C body IHb h IH]; intros Q HQ w; cbn; auto.
  split; [auto|]. apply IHb. intros [v|e] w'; [|auto]. split; auto.
Qed.

Lemma wp_disconnect b a w :
  wp b (disconnect a) (fun _ w' => left_behind a w') w.
Proof.
  unfold disconnect, drop_stream, BeginGrace, DisconnectAgent.
  cbn. intros t Ht. set (r1 := arm a GraceTimer _ _).
  assert (agents r1 = agents (w_reg w)) as Hag.
  { subst r1. unfold arm, stop_current. cbn. by destruct (timers (w_reg w) !! a). }
  assert (exists i dl, timers r1 !! a = Some i /\
            theap r1 !! i = Some (mkTimer a GraceTimer dl true)) as Htm.
  { subst r1. unfold arm. cbn. eexists _, _. rewrite lookup_insert_eq. split; [done|].
    by rewrite lookup_app_r, Nat.sub_diag by lia. }
  change (agents (stop_current a (w_reg w))) with (agents r1).
  clearbody r1. unfold left_behind. cbn. split; [apply lookup_delete_eq|].
  destruct (agents r1 !! a) as [x|] eqn:Hx; cbn.
  - split; [|done]. intros y. rewrite lookup_insert_eq. by intros [= <-].
  - split; [|done]. intros y. by rewrite Hx.
Qed.

(** C16: A stream has no effect before it is authenticated, and none that outlives
    it in the registry.  A stream whose first message is not a registration with an
    agent, a well-formed tenant and the right token is rejected, with the code of
    [turned_away], and the state of the server is exactly as before.  Otherwise,
    whatever happens on the stream, either the registration is refused and no
    stream is recorded, or at the end the stream is closed, the agent is
    DISCONNECTED and its grace timer is running. *)
Theorem OpenControlStream_session db_set token inputs w o :
  let x := run (OpenControlStream db_set token inputs) w o in
  match turned_away token inputs with
  | Some c => final x = w /\ exists e, result x = Err e /\ status_Code e = c
  | None => exists m r rest, inputs = RecvMsg m :: rest /\ GetRegister m = Some r /\
      ((exists e, result x = Err e /\ status_Code e = PermissionDenied /\
          w_db (final x) = w_db w /\ w_streams (final x) = w_streams w /\
          agents (w_reg (final x)) = agents (w_reg w)) \/
       left_behind (reg_AgentId r) (final x))
  end.
Proof.
  intros x. unfold turned_away, OpenControlStream in *.
  destruct inputs as [|[m|msg|c] rest]; [split; [done|]; by eexists| |split; [done|]; by eexists..].
  destruct (GetRegister m) as [r|] eqn:Hreg; [|split; [done|]; by eexists]. getters.
  destruct (reg_AgentId r =s "") eqn:Hid; [split; [done|]; by eexists|].
  destruct (uuid_Parse (reg_TenantId r)) as [T|e] eqn:HT; cbn [bindR bind] in *;
    [|split; [done|]; by eexists].
  destruct (reg_Token r =s token); cbn [negb] in *; [|split; [done|]; by eexists].
  exists m, r, rest. split; [done|]. split; [done|].
  refine (wp_run _ (fun res w' => (exists e, res = Err e /\ status_Code e = PermissionDenied /\
      w_db w' = w_db w /\ w_streams w' = w_streams w /\
      agents (w_reg w') = agents (w_reg w)) \/ left_behind (reg_AgentId r) w') w o _).
  unfold open_registered. apply wp_bindR. cbn [wp RegisterAgent bind now act]. intros t _.
  cbn [fst snd w_reg set_clock w_clock].
  destruct (register_section _ _ _ _ _) as [[u|e] m'] eqn:Hsec; cbn [fst snd].
  - do 3 (apply wp_bind; apply wp_always; intros ? ?). apply wp_bind, wp_always. intros res w1.
    apply wp_bind. eapply wp_mono; [|apply wp_disconnect]. intros [] w2 Hl. right. exact Hl.
  - left. unfold register_section in Hsec. eexists. split; [done|].
    repeat case_match; simplify_eq; done.
Qed.

(** A result that arrives after a roll-back is not acknowledged.  When the
    shard was put back to QUEUED and unassigned, for instance because its agent
    reconnected, the agent's ShardResultReady is answered with PermissionDenied:
    nothing is sent and nothing changes, and the error ends the stream. *)
Theorem late_result_rejected db_set sess id s key sha w o :
  Inv (w_db w) -> w_db_open w = true -> calm o -> tenantID sess <> uuid_Nil -> id <> uuid_Nil ->
  agentID sess <> "" -> task_shards (w_db w) !! id = Some s ->
  sh_Status s = ShardStatusQueued -> AssignedAgentID s = "" ->
  let x := run (HandleShardResultReady db_set sess (Some (mkShardResultReady (uuid_String id) key sha))) w o in
  final x = w /\ exists e, result x = Err e /\ status_Code e = PermissionDenied.
Proof.
  intros HI Ho Hc HT Hid Ha Hs Hq Hass x.
  refine (wp_run_calm _ (fun r w' => w' = w /\ exists e, r = Err e /\
            status_Code e = PermissionDenied) w o Hc _).
  unfold HandleShardResultReady. getters. rewrite uuid_Parse_String.
  apply wp_bindR. cbn [wp]. apply wp_bindR, wp_LoadValidatedShard; [done..| |].
  - intros s' (Hs' & [?|Hterm] & _) _; assert (s' = s) as -> by congruence; [congruence|].
    rewrite Hq in Hterm. unfold terminal_statuses in Hterm. statuses.
  - intros e [?|[He _]]; [done|]. split; [done|]. exists e. split; [done|].
    rewrite He. unfold refusal_code. by rewrite bool_decide_false, Hs.
Qed.

Lemma agents_stop_current a r : agents (stop_current a r) = agents r.
Proof. unfold stop_current. by destruct (timers r !! a). Qed.

Lemma wp_disconnect_keeps b a w :
  is_Some (agents (w_reg w) !! a) ->
  wp b (disconnect a) (fun _ w' => is_Some (agents (w_reg w') !! a)) w.
Proof.
  intros [x Hx]. unfold disconnect, drop_stream, BeginGrace, DisconnectAgent. cbn. intros t Ht.
  rewrite agents_stop_current, Hx. cbn. rewrite lookup_insert_eq. by eexists.
Qed.

(** What [open_registered] does for a new stream before it serves it. *)
Definition reopen (a : string) (T : uuid) (B : string) : prog (res unit * nat) :=
  r <- RegisterAgent a T B ;;
  CancelTimer a ;;
  ResetHeartbeat a ;;
  s <- open_stream a ;;
  Ret (r, s).

(** C33: The end of an old stream tears down its successor.  When an UNRESPONSIVE
    agent comes back on a second stream before the first one has ended, the second
    is registered and becomes the agent's stream; the clean-up of the first, which
    goes by the agent's identifier, then removes the second stream from the table
    and marks the agent DISCONNECTED, although the second session is being
    served. *)
Theorem stale_stream_drops_successor a x w o o' :
  agents (w_reg w) !! a = Some x -> ag_Status x = AgentStatusUnresponsive ->
  let y := run (reopen a (ag_TenantID x) (ag_BackendName x)) w o in
  let z := run (disconnect a) (final y) o' in
  is_ok (result y).1 = true /\ w_streams (final y) !! a = Some (result y).2 /\
  w_streams (final z) !! a = None /\
  exists x', agents (w_reg (final z)) !! a = Some x' /\ ag_Status x' = AgentStatusDisconnected.
Proof.
  intros Hx Hst y z.
  assert (is_ok (result y).1 = true /\ w_streams (final y) !! a = Some (result y).2 /\
          is_Some (agents (w_reg (final y)) !! a)) as (Hok & Hs & Ha).
  { apply (wp_run _ (fun r w' => is_ok r.1 = true /\ w_streams w' !! a = Some r.2 /\
             is_Some (agents (w_reg w') !! a))).
    unfold reopen, RegisterAgent, CancelTimer, ResetHeartbeat, open_stream. cbn. intros t Ht.
    unfold register_section. rewrite Hx, bool_decide_true by done.
    rewrite Hst. cbn. intros t' Ht'. rewrite eqs_refl. cbn -[ins].
    change (ins AgentStatusUnresponsive _) with true. cbn.
    split; [done|]. split; [apply lookup_insert_eq|]. rewrite agents_stop_current.
    destruct (timers (w_reg w) !! a); cbn; rewrite ?agents_stop_current; cbn;
      rewrite lookup_insert_eq; by eexists. }
  split; [done|]. split; [done|].
  destruct (wp_run _ _ (final y) o' (wp_and true _ _ _ _ (wp_disconnect true a (final y))
              (wp_disconnect_keeps true a (final y) Ha))) as [(Hdrop & Hdis & _) [x' Hx']].
  split; [exact Hdrop|]. exists x'. split; [exact Hx'|]. by apply Hdis.
Qed.

(** A goroutine that reports a running shard's end, up to the line after the
    report. *)
Lemma psteps_report {A} params wrap (k : unit -> prog (res A)) s w :
  Inv (w_db w) -> w_db_open w = true ->
  rp_ShardStatus params ∈ [ShardStatusSucceeded; ShardStatusFailed] ->
  task_shards (w_db w) !! rp_ShardID params = Some s -> sh_Status s = ShardStatusRunning ->
  exists w' a n1 n2,
    psteps (bindR (ReportShardStatus params) wrap k, w) (k tt, w') /\
    task_shards (w_db w') !! rp_ShardID params = Some (touch n2 (finished_shard params a n1 s)).
Proof.
  intros HI Ho Hp Hs Hst. set (y := run (ReportShardStatus params) w quiet).
  destruct (wp_run_calm _ _ w quiet (Forall_nil_2 _) (wp_final_report params s w HI Ho Hp Hs Hst))
    as (Hy & t & a & n1 & n2 & payload & d1 & _ & _ & -> & _ & Hd).
  exists (final y), a, n1, n2. split.
  - pose proof (psteps_bind (ReportShardStatus params)
      (fun r => match r with Ok a => k a | Err e => Ret (Err (wrap e)) end) w quiet) as H.
    by rewrite Hy in H.
  - unfold y. rewrite Hd. apply lookup_insert_eq.
Qed.

(** C34: A failure report can hit the shard's next holder.  [HandleShardFailed]
    checks who the shard is assigned to before the transaction that records the
    report, and that transaction checks the shard's status only.  A goroutine that
    handles the report of the agent running the shard can be interrupted between
    the two; when it goes on, in any state in which the shard is RUNNING again,
    whoever holds it now, it marks that run FAILED with the first agent's message,
    leaves the shard assigned to its holder, and continues as after an accepted
    report. *)
Theorem stale_failure_accepted db_set sess id s msg w :
  Inv (w_db w) -> w_db_open w = true -> tenantID sess <> uuid_Nil -> id <> uuid_Nil ->
  may_report id (agentID sess) (tenantID sess) (backend sess) (w_db w) s ->
  sh_Status s = ShardStatusRunning ->
  exists p,
    psteps (HandleShardFailed db_set sess (Some (mkShardFailed (uuid_String id) msg)), w) (p, w) /\
    forall w1 s1, Inv (w_db w1) -> w_db_open w1 = true ->
      task_shards (w_db w1) !! id = Some s1 -> sh_Status s1 = ShardStatusRunning ->
      exists w2 s2,
        psteps (p, w1) (resetAgentAndAssign db_set sess, w2) /\
        task_shards (w_db w2) !! id = Some s2 /\ sh_Status s2 = ShardStatusFailed /\
        sh_LastError s2 = msg /\ sh_assigned_agent_id s2 = sh_assigned_agent_id s1.
Proof.
  intros HI Ho HT Hid Hm Hst.
  pose (validate := LoadValidatedShard id (agentID sess) (tenantID sess) (backend sess)).
  assert (result (run validate w quiet) = Ok s /\ final (run validate w quiet) = w) as [Hr Hf].
  { apply (wp_run_calm (A := res TaskShard) validate (fun r w' => r = Ok s /\ w' = w) w quiet);
      [by apply Forall_nil_2|].
    apply wp_LoadValidatedShard; [done..| |].
    - intros s' [Hs' _] _. destruct Hm as [Hs _]. split; [congruence|done].
    - intros e [?|[_ [?|Hno]]]; [done..|]. by destruct (Hno s). }
  unfold HandleShardFailed. getters. rewrite uuid_Parse_String.
  cbn [bindR bind]. eexists. split.
  { pose proof (psteps_bind validate (fun r => match r with
      | Ok shard =>
        if sh_Status shard =s ShardStatusRunning then
          _ <-? ReportShardStatus (mkReport id ShardStatusFailed (Some msg) "" "")
              # statusf Internal "mark shard failed" ;;
          resetAgentAndAssign db_set sess
        else
          agent <- GetAgent (agentID sess) ;;
          if moved_on agent id then Ret (Ok tt) else resetAgentAndAssign db_set sess
      | Err e => Ret (Err e) end) w quiet) as H.
    rewrite Hr, Hf, Hst, eqs_refl in H. exact H. }
  intros w1 s1 HI1 Ho1 Hs1 Hst1.
  destruct (psteps_report (mkReport id ShardStatusFailed (Some msg) "" "")
    (statusf Internal "mark shard failed") (fun _ => resetAgentAndAssign db_set sess) s1 w1 HI1 Ho1
    ltac:(by apply ins_spec) Hs1 Hst1) as (w2 & a & n1 & n2 & Hsteps & Hs2).
  exists w2. eexists. split; [exact Hsteps|]. split; [exact Hs2|].
  unfold touch, finished_shard. cbn. done.
Qed.
End Sessions.

(** The theorems on variants of [demo]. *)
Definition with_agent (a : Agent) : World :=
  set_reg (set_agents (<["busy" := a]> (agents (w_reg demo))) (w_reg demo)) demo.
Definition demo_away : Agent :=
  demo_agent "busy" AgentStatusDisconnected (Some (@uuid_String toy_env 15)).
Definition demo_silent : Agent :=
  mkAgent "busy" 1 "kubernetes" AgentStatusUnresponsive "" (Some (@uuid_String toy_env 15)) None.

Lemma grace_expiry_requeues_witness :
  let E := toy_env in
  let w' := final (run (onGraceExpired HandleAgentTimeout "busy") (with_agent demo_away) quiet) in
  exists s', task_shards (w_db w') !! 15%N = Some s' /\ sh_Status s' = ShardStatusQueued.
Proof.
  cbn zeta.
  destruct (grace_expiry_requeues (E := toy_env) (L := toy_laws) "busy" demo_away 15
    (demo_shard 15 11 "a.sh" ShardStatusRunning (Some "busy") "" (Some 8%Z)) (with_agent demo_away)
    quiet demo_inv eq_refl eq_refl ltac:(vm_compute; reflexivity) eq_refl eq_refl
    ltac:(done) ltac:(done) ltac:(done)) as (_ & _ & _ & H).
  - split; [reflexivity|]. split; [by left|]. do 2 eexists. split; [vm_compute; reflexivity|].
    split; [reflexivity|]. split; [vm_compute; reflexivity|reflexivity].
  - by apply ins_spec.
  - destruct (H (Forall_nil_2 _)) as [now Hd]. eexists. rewrite Hd. cbn [task_shards set_task_shards].
    rewrite lookup_insert_eq. split; reflexivity.
Defined.

Lemma heartbeat_timeout_strands_shard_witness :
  let E := toy_env in
  let y := run (onHeartbeatTimeout HandleAgentTimeout "busy" ;;
                onGraceExpired HandleAgentTimeout "busy") (with_agent demo_silent) quiet in
  sh_Status <$> task_shards (w_db (final y)) !! 15%N = Some ShardStatusRunning /\
  w_db (final y) = demo_db.
Proof.
  cbn zeta.
  destruct (heartbeat_timeout_strands_shard (E := toy_env) "busy" demo_silent
              (with_agent demo_silent) quiet) as [H _];
    [vm_compute; reflexivity|reflexivity|done|].
  split; [rewrite H; vm_compute; reflexivity|exact H].
Defined.

Lemma late_result_rejected_witness :
  let E := toy_env in
  let x := run (HandleShardResultReady true demo_session
                  (Some (mkShardResultReady (uuid_String 13) "k" "h"))) demo quiet in
  final x = demo /\ exists e, result x = Err e /\ status_Code e = PermissionDenied.
Proof.
  apply (late_result_rejected (E := toy_env) (L := toy_laws) true demo_session 13
    (demo_shard 13 10 "a.sh" ShardStatusQueued (Some "") "" None) "k" "h" demo quiet
    demo_inv eq_refl (Forall_nil_2 _)); done.
Defined.

Lemma stale_stream_drops_successor_witness :
  let E := toy_env in
  let y := run (reopen "busy" 1 "kubernetes") (with_agent demo_silent) quiet in
  let z := run (disconnect "busy") (final y) quiet in
  w_streams (final y) !! "busy" = Some 1 /\ w_streams (final z) !! "busy" = None.
Proof.
  cbn zeta.
  destruct (stale_stream_drops_successor (E := toy_env) "busy" demo_silent (with_agent demo_silent)
              quiet quiet) as (_ & H1 & H2 & _); [vm_compute; reflexivity|reflexivity|].
  split; [exact H1|exact H2].
Defined.

(** While the report of agent "busy" on shard 15 is being handled, the agent, which
    was UNRESPONSIVE, opens a second stream and reports itself IDLE there: its shard
    is taken back, and "idle" gets it after another one. *)
Definition busy_session (stream : nat) : agentSession := mkSession stream "busy" 1 "kubernetes".
Definition takeover `{E : Env} : prog unit :=
  reopen "busy" 1 "kubernetes" ;;
  HandleHeartbeat true (busy_session 1) (Some (mkHeartbeat "busy" "IDLE" "")) ;;
  TryAssignShard true demo_session ;;
  HandleShardStarted demo_session (Some (mkShardStarted (uuid_String 18))) ;;
  HandleShardResultReady true demo_session (Some (mkShardResultReady (uuid_String 18) "k" "h")) ;;
  HandleShardStarted demo_session (Some (mkShardStarted (uuid_String 15))) ;;
  Ret tt.
Definition taken_over : World := final (run (takeover (E := toy_env)) (with_agent demo_silent) quiet).

Lemma taken_over_15 :
  exists s, task_shards (w_db taken_over) !! 15%N = Some s /\
            sh_Status s = ShardStatusRunning /\ sh_assigned_agent_id s = Some "idle".
Proof. vm_compute. eexists. repeat split. Qed.
Lemma taken_over_inv : Inv (w_db taken_over) /\ w_db_open taken_over = true.
Proof. split; [apply inv_check_sound|]; vm_compute; reflexivity. Qed.
Lemma busy_may_report :
  may_report 15 "busy" 1 "kubernetes" (w_db (with_agent demo_silent))
    (demo_shard 15 11 "a.sh" ShardStatusRunning (Some "busy") "" (Some 8%Z)).
Proof.
  split; [reflexivity|]. split; [by left|]. do 2 eexists.
  split; [vm_compute; reflexivity|]. split; [reflexivity|].
  split; [vm_compute; reflexivity|reflexivity].
Qed.

Lemma stale_failure_accepted_witness :
  let E := toy_env in
  exists p w2 s2,
    psteps (HandleShardFailed true (busy_session 0) (Some (mkShardFailed (uuid_String 15) "boom")),
            with_agent demo_silent) (p, with_agent demo_silent) /\
    psteps (p, taken_over) (resetAgentAndAssign true (busy_session 0), w2) /\
    task_shards (w_db w2) !! 15%N = Some s2 /\ sh_Status s2 = ShardStatusFailed /\
    sh_assigned_agent_id s2 = Some "idle".
Proof.
  cbn zeta.
  destruct (stale_failure_accepted (E := toy_env) (L := toy_laws) true (busy_session 0) 15
    (demo_shard 15 11 "a.sh" ShardStatusRunning (Some "busy") "" (Some 8%Z)) "boom"
    (with_agent demo_silent) demo_inv eq_refl ltac:(done) ltac:(done) busy_may_report eq_refl)
    as (p & H1 & H2).
  destruct taken_over_15 as (s1 & Hs1 & Hst & Hass). destruct taken_over_inv as [HI Ho].
  destruct (H2 taken_over s1 HI Ho Hs1 Hst) as (w2 & s2 & H3 & H4 & H5 & _ & H6).
  exists p, w2, s2. split_and!; [done..|]. by rewrite H6.
Defined.
