(* ===== verification/AgentWork.v ===== *)
(** * An agent at work

    A whole session of an agent that answers what it is assigned, as the agent of
    this repository does (agent/src/control_client.rs): every AssignShard is
    followed by ShardAccepted, ShardStarted, heartbeats and ShardResultReady.  One
    shard's way through the session, from QUEUED to SUCCEEDED, is a relation
    between two states of the database ([cycle]); a session is a sequence of such
    cycles that ends when no shard is left ([works]).  The theorems compose the
    control plane (Control.v), leasing (TaskLease.v), reports (TaskStatus.v) and the
    registry (AgentService.v). *)
From S2P Require Import Prelude Errors Model Env Proto World Effects Store StoreFacts.
From S2P Require Import Lifecycle Lawful Demo TaskOrm TaskShardOrm AgentService TaskHooks TaskStatus.
From S2P Require Import TaskLease Control ControlFacts.

(** ** The agent's side *)
(** What the agent sends for an assignment: [beats] is how many heartbeats fall
    into the execution, [sha] the digest of the output. *)
Definition agent_answer (agent_id : string) (beats : AssignShard -> nat)
    (sha : AssignShard -> string) (j : AssignShard) : list agent_payload :=
  [AgentMessage_ShardAccepted (mkShardAccepted (as_ShardId j));
   AgentMessage_ShardStarted (mkShardStarted (as_ShardId j))] ++
  repeat (AgentMessage_Heartbeat (mkHeartbeat agent_id "RUNNING" (as_ShardId j))) (beats j) ++
  [AgentMessage_ShardResultReady (mkShardResultReady (as_ShardId j) (as_OutputOssKey j) (sha j))].

(** What the server sends in the course of it. *)
Definition server_side (s : nat) (j : AssignShard) : list (nat * ServerMessage) :=
  [(s, ServerMessage_AssignShard j); (s, ServerMessage_ShardResultStored (mkShardResultStored (as_ShardId j)))].

Section Calm.
Context `{E : Env, L : !EnvLaws E}.
Implicit Types (d : DB) (w : World) (sess : agentSession).

(** ** The handlers when nothing fails *)
(** A state in which the session of agent [A] is being served. *)
Record served (A : string) w : Prop := mkServed {
  served_inv : Inv (w_db w);
  served_open : w_db_open w = true;
  served_known : is_Some (agents (w_reg w) !! A);
}.

(** A shard the agent of a session may report on, with its status. *)
Definition held sess (id : uuid) (st : string) d : Prop :=
  exists s, may_report id (agentID sess) (tenantID sess) (backend sess) d s /\
            AssignedAgentID s = agentID sess /\ sh_Status s = st.

Lemma held_not_refused sess id st d : held sess id st d -> id <> uuid_Nil ->
  (id = uuid_Nil \/ forall s,
     ~ may_report id (agentID sess) (tenantID sess) (backend sess) d s) -> False.
Proof. intros (s & Hs & _) Hid [?|Hno]; [done|]. by apply (Hno s). Qed.

Lemma wp_calm_Send sess m w Q :
  Q (Ok tt) (set_sent ((stream sess, m) :: w_sent w) w) -> wp false (Send sess m) Q w.
Proof. by split. Qed.

Lemma wp_calm_HeartbeatAgent A st sh w Q :
  is_Some (agents (w_reg w) !! A) ->
  (forall w', w_db w' = w_db w -> w_db_open w' = w_db_open w -> w_sent w' = w_sent w ->
     is_Some (agents (w_reg w') !! A) -> Q (Ok tt) w') ->
  wp false (HeartbeatAgent A st sh) Q w.
Proof.
  intros [x Hx] HQ. apply wp_HeartbeatAgent; [|intros; congruence].
  intros now y _. apply HQ; try done. cbn. rewrite lookup_insert_eq. by eexists.
Qed.

(** The assignment sent for a lease. *)
Definition job_for (r : Task * TaskShard) (j : AssignShard) : Prop :=
  exists u1 u2, assign_message r.1 r.2 u1 u2 = ServerMessage_AssignShard j.

(** What [TryAssignShard] achieves: nothing is left to lease, or one shard is
    leased and sent. *)
Inductive assigned sess w w' : option (uuid * AssignShard) -> Prop :=
| nothing_left :
    (forall s t, ~ eligible (tenantID sess) (backend sess) (w_db w) s t) ->
    w_db w' = w_db w -> w_sent w' = w_sent w -> assigned sess w w' None
| one_assigned r j :
    lease_done (tenantID sess) (backend sess) (agentID sess) (w_db w) r (w_db w') ->
    job_for r j -> w_sent w' = (stream sess, ServerMessage_AssignShard j) :: w_sent w ->
    assigned sess w w' (Some (rid r.2, j)).

Lemma wp_calm_assign_leased sess task shard w Q :
  is_Some (agents (w_reg w) !! agentID sess) ->
  (forall w' j, w_db w' = w_db w -> w_db_open w' = w_db_open w ->
     is_Some (agents (w_reg w') !! agentID sess) -> job_for (task, shard) j ->
     w_sent w' = (stream sess, ServerMessage_AssignShard j) :: w_sent w -> Q (Ok tt) w') ->
  wp false (assign_leased sess task shard) Q w.
Proof.
  intros Hk HQ. unfold assign_leased. apply wp_bindR, wp_calm_HeartbeatAgent; [done|].
  intros w1 Hd Ho Hs Hk1. do 3 (apply wp_bindR, wp_call; [|done]; cbn [fst snd]).
  apply wp_bindR, wp_calm_Send. cbn [wp]. unfold assign_message. eapply HQ; try done.
  - by do 2 eexists.
  - cbn. by rewrite Hs.
Qed.

Lemma wp_calm_TryAssignShard sess w :
  served (agentID sess) w -> active_session sess ->
  wp false (TryAssignShard true sess) (fun r w' =>
    r = Ok tt /\ served (agentID sess) w' /\ exists a, assigned sess w w' a) w.
Proof.
  intros [HI Ho Hk] (Ha & HT & HB). unfold TryAssignShard.
  apply eqs_neq in Ha, HB. rewrite Ha, HB, bool_decide_false by done. cbn [negb orb].
  apply wp_bind. eapply wp_mono; [|apply wp_framed; [apply framed_LeaseNextShard|by apply wp_LeaseNextShard]].
  intros [[task shard]|e] w1 [Hr [Hop Hrg _ Hst _ _ _ _]].
  - apply wp_bind, wp_calm_assign_leased; [by rewrite Hrg|]. intros w2 j Hd2 Ho2 Hk2 Hj Hs2.
    cbn [wp]. destruct (lease_done_lawful _ _ _ _ _ _ HI Hr) as [HI1 _]. split; [done|]. split.
    + split; [by rewrite Hd2|congruence|done].
    + eexists. eapply (one_assigned sess w w2 (task, shard) j); [by rewrite Hd2|done|congruence].
  - destruct Hr as [Hd [[? _]|[Hc He]]]; [done|]. rewrite He. cbn [wp]. split; [done|].
    split; [split; congruence|]. exists None. apply nothing_left; [|done..].
    intros s t Hel. apply candidate_eligible in Hel. rewrite Hc in Hel.
    by apply not_elem_of_nil in Hel.
Qed.

(** A report the shard is ready for. *)
Definition ready (params : ReportShardStatusParams) d : Prop :=
  exists s t q, task_shards d !! rp_ShardID params = Some s /\ tasks d !! sh_TaskID s = Some t /\
    Status t <> TaskStatusCancelled /\
    required_status (rp_ShardStatus params) = Some q /\ sh_Status s = q.

Lemma ready_not_refused params d : ready params d -> ~ refused params d.
Proof.
  intros (s & t & q & Hs & Ht & Hc & Hq & Hst) Href.
  destruct (Href s t Hs Ht) as [?|(q' & Hq' & Hne)]; [done|]. congruence.
Qed.

Lemma held_ready sess id st params d :
  Inv d -> held sess id st d -> rp_ShardID params = id ->
  st ∈ [ShardStatusLeased; ShardStatusRunning] ->
  required_status (rp_ShardStatus params) = Some st -> ready params d.
Proof.
  intros HI (s & (Hs & _) & _ & Hst) <- Hin Hreq.
  destruct (compat_parent _ _ _ HI Hs) as (t & Ht & _ & _ & Hts & Hc).
  exists s, t, st. split; [done|]. split; [done|]. split; [|done].
  intros Hcan. rewrite Hst, Hcan in Hc. clear -Hin Hc. statuses.
Qed.

Lemma wp_calm_Report sess params w Q :
  served (agentID sess) w -> ready params (w_db w) ->
  (forall w' at_ payload, report_done params at_ (w_db w) payload (w_db w') ->
     served (agentID sess) w' -> w_sent w' = w_sent w -> Q (Ok tt) w') ->
  wp false (ReportShardStatus params) Q w.
Proof.
  intros [HI Ho Hk] Hr HQ. eapply wp_mono; [|by apply wp_ReportShardStatus].
  intros [[]|e] w'.
  - intros (at_ & payload & Hd & _ & Hreg & Hop & Hs). eapply HQ; try done.
    split; [by eapply report_done_lawful|done|by rewrite Hreg].
  - intros (_ & _ & [?|Href]); [done|]. by destruct (ready_not_refused _ _ Hr).
Qed.

(** The session's validation of a shard it holds. *)
Lemma wp_calm_LoadValidated sess id st w Q :
  served (agentID sess) w -> active_session sess -> id <> uuid_Nil ->
  held sess id st (w_db w) ->
  (forall s, sh_Status s = st -> Q (Ok s) w) ->
  wp false (LoadValidatedShard id (agentID sess) (tenantID sess) (backend sess)) Q w.
Proof.
  intros [HI Ho _] (_ & HT & _) Hid Hh HQ. apply wp_LoadValidatedShard; [done..| |].
  - intros s [Hs _] _. apply HQ. destruct Hh as (s' & [Hs' _] & _ & Hst). congruence.
  - intros e [?|[_ Hno]]; [done|]. by destruct (held_not_refused _ _ _ _ Hh Hid).
Qed.

Definition started_report (id : uuid) : ReportShardStatusParams :=
  mkReport id ShardStatusRunning None "" "".
Definition result_report (id : uuid) (key sha : string) : ReportShardStatusParams :=
  mkReport id ShardStatusSucceeded None key sha.

Lemma wp_calm_HandleShardStarted sess id w :
  served (agentID sess) w -> active_session sess -> id <> uuid_Nil ->
  held sess id ShardStatusLeased (w_db w) ->
  wp false (HandleShardStarted sess (Some (mkShardStarted (uuid_String id)))) (fun r w' =>
    r = Ok tt /\ served (agentID sess) w' /\ w_sent w' = w_sent w /\
    exists at_ payload, report_done (started_report id) at_ (w_db w) payload (w_db w')) w.
Proof.
  intros Hw Hact Hid Hh. unfold HandleShardStarted. getters. rewrite uuid_Parse_String.
  apply wp_bindR. cbn [wp]. apply wp_bindR. unfold ValidateShardReport.
  apply wp_bindR, (wp_calm_LoadValidated sess id ShardStatusLeased); [done..|]. intros s ->.
  rewrite eqs_refl. cbn [negb wp]. apply wp_bindR, (wp_calm_Report sess); [done| |].
  { eapply held_ready; [apply Hw|done|done|by apply ins_spec|done]. }
  intros w1 at_ payload Hd [HI1 Ho1 Hk1] Hs1. cbn [wp].
  apply wp_bindR, wp_calm_HeartbeatAgent; [done|]. intros w2 Hd2 Ho2 Hs2 Hk2. cbn [wp].
  split; [done|]. split; [split; [by rewrite Hd2|congruence|done]|]. split; [congruence|].
  exists at_, payload. by rewrite Hd2.
Qed.

(** A result is recorded, acknowledged, and the next shard assigned. *)
Lemma wp_calm_HandleShardResultReady sess id key sha w :
  served (agentID sess) w -> active_session sess -> id <> uuid_Nil ->
  held sess id ShardStatusRunning (w_db w) ->
  wp false (HandleShardResultReady true sess (Some (mkShardResultReady (uuid_String id) key sha)))
    (fun r w' => r = Ok tt /\ served (agentID sess) w' /\ exists w1 at_ payload a,
       report_done (result_report id key sha) at_ (w_db w) payload (w_db w1) /\
       w_sent w1 = (stream sess, ServerMessage_ShardResultStored (mkShardResultStored (uuid_String id))) :: w_sent w /\
       assigned sess w1 w' a) w.
Proof.
  intros Hw Hact Hid Hh. unfold HandleShardResultReady. getters. rewrite uuid_Parse_String.
  apply wp_bindR. cbn [wp].
  apply wp_bindR, (wp_calm_LoadValidated sess id ShardStatusRunning); [done..|]. intros s ->.
  rewrite eqs_refl. apply wp_bindR, (wp_calm_Report sess); [done| |].
  { eapply held_ready; [apply Hw|done|done|by apply ins_spec|done]. }
  intros w1 at_ payload Hd [HI1 Ho1 Hk1] Hs1. apply wp_bindR, wp_calm_Send.
  unfold resetAgentAndAssign. apply wp_bindR, wp_calm_HeartbeatAgent; [done|].
  intros w2 Hd2 Ho2 Hs2 Hk2. cbn [w_db w_db_open w_sent set_sent] in *.
  eapply wp_mono; [|apply wp_calm_TryAssignShard; [|done]].
  - intros r w3 (-> & Hw3 & a & Ha). split; [done|]. split; [done|].
    exists w2, at_, payload, a. rewrite Hd2, Hs2, Hs1. by repeat split.
  - split; [by rewrite Hd2|congruence|done].
Qed.

(** A heartbeat of a busy agent changes neither the database nor the stream. *)
Lemma wp_calm_HandleHeartbeat sess sid w :
  served (agentID sess) w ->
  wp false (HandleHeartbeat true sess (Some (mkHeartbeat (agentID sess) "RUNNING" sid))) (fun r w' =>
    r = Ok tt /\ served (agentID sess) w' /\ w_db w' = w_db w /\ w_sent w' = w_sent w) w.
Proof.
  intros [HI Ho Hk]. unfold HandleHeartbeat. getters.
  rewrite eqs_refl, andb_false_r. cbn iota. apply wp_bindR. cbn [wp].
  apply wp_bindR, wp_calm_HeartbeatAgent; [done|]. intros w1 Hd Ho1 Hs1 Hk1.
  apply wp_bind. unfold ResetHeartbeat. cbn. intros t _. split; [done|].
  rewrite Hd, Hs1. split; [|done]. split; cbn; rewrite ?agents_stop_current; [by rewrite Hd|congruence|done].
Qed.
End Calm.

(** ** One shard, from QUEUED to SUCCEEDED *)
Section Cycle.
Context `{E : Env, L : !EnvLaws E}.
Implicit Types (d : DB) (s : TaskShard) (t : Task).

(** Only the shard [k] and its task [tid] change. *)
Definition row_change (k : uuid) s' (tid : uuid) t' d d' : Prop :=
  task_shards d' = <[k := s']> (task_shards d) /\ tasks d' = <[tid := t']> (tasks d) /\
  tenants d' = tenants d.

Lemma row_change_trans k s1 s2 tid t1 t2 d d1 d2 :
  row_change k s1 tid t1 d d1 -> row_change k s2 tid t2 d1 d2 -> row_change k s2 tid t2 d d2.
Proof.
  intros (Hs1 & Ht1 & Hn1) (Hs2 & Ht2 & Hn2).
  split; [by rewrite Hs2, Hs1, insert_insert_eq|]. split; [by rewrite Ht2, Ht1, insert_insert_eq|].
  congruence.
Qed.

(** The shard and its task keep their place when the row becomes [s'] and the
    task [t']. *)
Definition stays s s' t t' : Prop :=
  sh_TaskID s' = sh_TaskID s /\ AssignedAgentID s' = AssignedAgentID s /\ TenantID t' = TenantID t.

Lemma lease_effect T B A d r da :
  Inv d -> lease_done T B A d r da ->
  exists s t s1 t1, eligible T B d s t /\ task_shards d !! rid s = Some s /\ rid r.2 = rid s /\
    row_change (rid s) s1 (sh_TaskID s) t1 d da /\ sh_TaskID s1 = sh_TaskID s /\
    TenantID t1 = T /\ sh_Status s1 = ShardStatusLeased /\ AssignedAgentID s1 = A.
Proof.
  intros HI (s & t & rest & n1 & n2 & Hc & -> & Ht & Hs & Hn & _).
  pose proof (candidate_spec T B d s t ltac:(rewrite Hc; left)) as He.
  pose proof He as ([k Hk] & _ & _ & Htk & HT & _).
  exists s, t, (touch n2 (leased A s)),
    (if Status t =s TaskStatusWaitingForAgents then touch n1 (promoted t) else t).
  split; [done|]. split; [by eapply lease_shard_row|]. split; [done|].
  split; [split; [done|split; [|done]]|].
  - rewrite Ht. destruct (_ =s _); [done|]. by rewrite insert_id.
  - split; [done|]. split; [|done]. unfold promoted. by destruct (_ =s _).
Qed.

Lemma started_effect id at_ d payload d' s :
  report_done (started_report id) at_ d payload d' -> task_shards d !! id = Some s ->
  exists t s1 t1, tasks d !! sh_TaskID s = Some t /\ row_change id s1 (sh_TaskID s) t1 d d' /\
    stays s s1 t t1 /\ sh_Status s1 = ShardStatusRunning.
Proof.
  intros Hd Hs. inversion Hd as [? Hp|Hreq|s0 t a n1 n2 _ Hs0 Ht|? ? ? ? ? ? ? ? Hp]; subst.
  - done.
  - done.
  - cbn in Hs0. assert (s0 = s) as -> by congruence. exists t. do 2 eexists.
    split; [done|]. split; [split; [reflexivity|split; reflexivity]|].
    split; [|done]. split; [done|]. split; [done|].
    cbn. unfold started_task. by destruct (StartedAt t).
  - cbn in Hp. statuses.
Qed.

(** A task all of whose shards have succeeded has succeeded. *)
Definition settled (tid : uuid) d : Prop :=
  forall t, tasks d !! tid = Some t ->
    (forall k s, task_shards d !! k = Some s -> sh_TaskID s = tid ->
                 sh_Status s = ShardStatusSucceeded) -> Status t = TaskStatusSucceeded.

Lemma aggregate_all_succeeded l :
  (forall x, x ∈ l -> x = ShardStatusSucceeded) -> aggregate l = Some TaskStatusSucceeded.
Proof.
  intros Hl. assert (forall p, p ShardStatusSucceeded = false -> existsb p l = false) as Hp.
  { intros p Hps. apply not_true_is_false. intros Hex. apply existsb_exists in Hex as (x & Hx & Hpx).
    apply list_elem_of_In, Hl in Hx. congruence. }
  unfold aggregate. by rewrite !Hp.
Qed.

Lemma elem_shards_of tid d s :
  s ∈ shards_of tid d -> (exists k, task_shards d !! k = Some s) /\ sh_TaskID s = tid.
Proof. intros Hs. apply elem_matching in Hs as (Hk & _ & Hp). by clean. Qed.

Lemma finished_effect id key sha at_ d payload d' s :
  Inv d -> report_done (result_report id key sha) at_ d payload d' ->
  task_shards d !! id = Some s -> sh_Status s = ShardStatusRunning ->
  exists t s1 t1, tasks d !! sh_TaskID s = Some t /\ row_change id s1 (sh_TaskID s) t1 d d' /\
    stays s s1 t t1 /\ sh_Status s1 = ShardStatusSucceeded /\ OutputOSSKey s1 = key /\
    settled (sh_TaskID s) d' /\
    (Status t1 = TaskStatusRunning \/ forall k x, task_shards d' !! k = Some x ->
       sh_TaskID x = sh_TaskID s -> sh_Status x ∈ terminal_statuses).
Proof.
  intros HI Hd Hs Hst.
  inversion Hd as [s0 _ Hs0 Hst0|Hreq|? ? ? ? ? Hp|s0 t a n1 n2 p d1 d2 _ Hs0 Ht _ Hrun Hd1 Hrec]; subst.
  - cbn in Hs0. assert (s0 = s) as -> by congruence. by rewrite Hst in Hst0.
  - done.
  - done.
  - cbn [rp_ShardID result_report] in Hs0. assert (s0 = s) as -> by congruence.
    set (s1 := touch n2 (finished_shard (result_report id key sha) a n1 s)) in *.
    cbn [rp_ShardID result_report] in Hrec. fold s1 in Hrec.
    set (d1 := set_task_shards (<[id := s1]> (task_shards d)) d) in *.
    assert (forall x, x ∈ sh_Status <$> shards_of (sh_TaskID s) d1 <-> exists k y,
              task_shards d1 !! k = Some y /\ sh_TaskID y = sh_TaskID s /\ sh_Status y = x) as Hel.
    { intros x. rewrite list_elem_of_fmap. split.
      - intros (y & -> & Hy). apply elem_shards_of in Hy as [[k Hk] Hy]. by exists k, y.
      - intros (k & y & Hk & Hy & <-). exists y. split; [done|]. apply elem_matching.
        split; [by exists k|]. rewrite bool_decide_true by done. split; [|done].
        assert (sane (task_shards d1)) as Hsane; [|by apply (Hsane k)].
        destruct (inv_shard _ HI id s Hs). apply sane_insert; [by apply inv_sane_shards|done..]. }
    unfold recomputed in Hrec. destruct (aggregate _) as [st|] eqn:Hagg.
    + destruct Hrec as (fin & now & err & _ & _ & ->). exists t. do 2 eexists.
      split; [done|]. split; [split; [reflexivity|split; reflexivity]|].
      split; [by repeat split|]. split; [done|]. split; [done|]. split.
      * intros t' Ht' Hall. cbn in Ht'. rewrite lookup_insert_eq in Ht'.
        injection Ht' as <-. cbn. rewrite aggregate_all_succeeded in Hagg; [by injection Hagg|].
        intros x Hx. apply Hel in Hx as (k & y & Hk & Hy & <-). by eapply Hall.
      * right. intros k x Hk Hx. destruct (aggregate_sound _ _ Hagg) as [_ Hterm].
        apply Hterm, Hel. by exists k, x.
    + destruct Hrec as [_ ->]. exists t, s1, t.
      split; [done|]. split; [split; [done|split; [by cbn; rewrite insert_id|done]]|].
      split; [by repeat split|]. split; [done|]. split; [done|]. split; [|by left].
      intros t' Ht' Hall. rewrite aggregate_all_succeeded in Hagg; [done|].
      intros x Hx. apply Hel in Hx as (k & y & Hk & Hy & <-). by eapply Hall.
Qed.

(** The way of one assignment. *)
Inductive cycle T B A (sha : AssignShard -> string) (j : AssignShard) d d' : Prop :=
| cycle_intro r da at1 p1 db at2 p2 :
    lease_done T B A d r da -> job_for r j ->
    report_done (started_report (rid r.2)) at1 da p1 db ->
    report_done (result_report (rid r.2) (as_OutputOssKey j) (sha j)) at2 db p2 d' ->
    cycle T B A sha j d d'.

(** What it achieves: the shard [s], which was eligible, has succeeded with its
    output where the assignment said; nothing else changes but its task, which is
    still running unless no shard of it is left to do, and is settled. *)
Record advanced T B (j : AssignShard) d d' s t : Prop := mkAdvanced {
  adv_inv : Inv d';
  adv_life : life d d';
  adv_eligible : eligible T B d s t;
  adv_id : as_ShardId j = uuid_String (rid s);
  adv_row : task_shards d !! rid s = Some s;
  adv_tenants : tenants d' = tenants d;
  adv_shard : exists s', task_shards d' = <[rid s := s']> (task_shards d) /\
    sh_Status s' = ShardStatusSucceeded /\ sh_TaskID s' = sh_TaskID s /\
    OutputOSSKey s' = as_OutputOssKey j;
  adv_task : exists t', tasks d' = <[sh_TaskID s := t']> (tasks d) /\ TenantID t' = T /\
    (Status t' = TaskStatusRunning \/ forall k x, task_shards d' !! k = Some x ->
       sh_TaskID x = sh_TaskID s -> sh_Status x ∈ terminal_statuses);
  adv_settled : settled (sh_TaskID s) d';
}.

Lemma job_id r j : job_for r j -> as_ShardId j = uuid_String (rid r.2).
Proof. intros (u1 & u2 & [= <-]). done. Qed.

Lemma cycle_advanced T B A sha j d d' :
  Inv d -> cycle T B A sha j d d' -> exists s t, advanced T B j d d' s t.
Proof.
  intros HI [r da at1 p1 db at2 p2 Hl Hj Hst Hfin].
  destruct (lease_effect _ _ _ _ _ _ HI Hl)
    as (s & t & s1 & t1 & He & Hrow & Hid & C1 & I1 & T1 & _ & _).
  destruct (lease_done_lawful _ _ _ _ _ _ HI Hl) as [HIa La].
  rewrite Hid in Hst, Hfin.
  assert (task_shards da !! rid s = Some s1) as R1 by (destruct C1 as [-> _]; apply lookup_insert_eq).
  destruct (started_effect _ _ _ _ _ _ Hst R1) as (ta & s2 & t2 & Ha & C2 & (I2 & _ & T2) & Q2).
  destruct (report_done_lawful _ _ _ _ _ HIa Hst) as [HIb Lb].
  assert (task_shards db !! rid s = Some s2) as R2 by (destruct C2 as [-> _]; apply lookup_insert_eq).
  destruct (finished_effect _ _ _ _ _ _ _ _ HIb Hfin R2 Q2)
    as (tb & s3 & t3 & Hb & C3 & (I3 & _ & T3) & Q3 & K3 & Hset & Hterm).
  destruct (report_done_lawful _ _ _ _ _ HIb Hfin) as [HId Ld].
  rewrite I2, I1 in Hb, C3, Hset, Hterm. rewrite I1 in Ha, C2.
  assert (ta = t1) as -> by (destruct C1 as (_ & C1 & _); rewrite C1, lookup_insert_eq in Ha; congruence).
  assert (tb = t2) as -> by (destruct C2 as (_ & C2 & _); rewrite C2, lookup_insert_eq in Hb; congruence).
  destruct (row_change_trans _ _ _ _ _ _ _ _ _ (row_change_trans _ _ _ _ _ _ _ _ _ C1 C2) C3)
    as (Cs & Ct & Cn).
  exists s, t. split; try done.
  - etrans; [exact La|]. by etrans.
  - by rewrite (job_id _ _ Hj), Hid.
  - exists s3. split; [done|]. split; [done|]. split; [congruence|done].
  - exists t3. split; [done|]. split; [congruence|done].
Qed.

(** What is left to lease afterwards is what was left before, less the shard. *)
Lemma advanced_eligible T B j d d' s t :
  Inv d -> advanced T B j d d' s t ->
  forall x, (exists y, eligible T B d' x y) <-> (exists y, eligible T B d x y) /\ rid x <> rid s.
Proof.
  intros HI [HI' _ (Hk & Hl & Hq & Ht & HT & Hqs & n & Hn & HB) _ Hrow Hten
             (s' & Hs' & Hst' & Hid' & _) (t' & Ht' & HT' & Hrun) _] x. split.
  - intros (y & [k Hx] & Hlx & Hqx & Hy & HTy & Hqy & n' & Hn' & HB').
    pose proof (lease_shard_row _ _ _ HI' Hx) as Hrx. rewrite Hs' in Hrx.
    apply lookup_insert_Some in Hrx as [[_ <-]|[Hne Hrx]]; [by rewrite Hst' in Hqx|].
    split; [|congruence]. rewrite Hten in Hn'. rewrite Ht' in Hy.
    apply lookup_insert_Some in Hy as [[Heq <-]|[_ Hy]].
    + exists t. split; [by exists (rid x)|]. rewrite <-Heq. by eauto 10.
    + exists y. split; [by exists (rid x)|]. by eauto 10.
  - intros [(y & [k Hx] & Hlx & Hqx & Hy & HTy & Hqy & n' & Hn' & HB') Hne].
    pose proof (lease_shard_row _ _ _ HI Hx) as Hrx.
    assert (task_shards d' !! rid x = Some x) as Hrx'
      by (by rewrite Hs', lookup_insert_ne by done).
    destruct (decide (sh_TaskID x = sh_TaskID s)) as [Heq|Hneq].
    + exists t'. split; [by exists (rid x)|]. split; [done|]. split; [done|].
      split; [by rewrite Ht', Heq, lookup_insert_eq|]. split; [done|].
      rewrite Hten. split; [|by exists n].
      destruct Hrun as [->|Hall]; [by apply ins_spec|].
      specialize (Hall _ x Hrx' Heq). rewrite Hqx in Hall. unfold terminal_statuses in Hall. statuses.
    + exists y. split; [by exists (rid x)|]. rewrite Ht', lookup_insert_ne, Hten by done.
      by eauto 10.
Qed.

(** Another task's being settled is not disturbed. *)
Lemma advanced_settles T B j d d' s t tid :
  Inv d -> advanced T B j d d' s t -> settled tid d -> settled tid d'.
Proof.
  intros HI [HI' _ _ _ Hrow _ (s' & Hs' & Hst' & Hid' & _) (t' & Ht' & _) Hset] Hold.
  destruct (decide (tid = sh_TaskID s)) as [->|Hne]; [done|].
  intros y Hy Hall. rewrite Ht', lookup_insert_ne in Hy by done. apply (Hold y Hy).
  intros k x Hk Hx. apply (Hall k); [|done]. rewrite Hs', lookup_insert_ne; [done|].
  intros <-. congruence.
Qed.

(** ** A whole session *)
Inductive works T B A sha : list AssignShard -> DB -> DB -> Prop :=
| works_done d : (forall s t, ~ eligible T B d s t) -> works T B A sha [] d d
| works_more j js d d1 d' :
    cycle T B A sha j d d1 -> works T B A sha js d1 d' -> works T B A sha (j :: js) d d'.

Lemma uuid_String_inj (u v : uuid) : uuid_String u = uuid_String v -> u = v.
Proof. intros H. pose proof (uuid_Parse_String u) as Hu. rewrite H, uuid_Parse_String in Hu. congruence. Qed.

(** The shard [x] is done in [d'], by one of the assignments [js]. *)
Definition completed (js : list AssignShard) (x : TaskShard) d' : Prop :=
  exists j s', j ∈ js /\ as_ShardId j = uuid_String (rid x) /\
    task_shards d' !! rid x = Some s' /\ sh_Status s' = ShardStatusSucceeded /\
    OutputOSSKey s' = as_OutputOssKey j /\ settled (sh_TaskID x) d'.

Record accomplished T B js d d' : Prop := mkAccomplished {
  acc_inv : Inv d';
  acc_life : life d d';
  acc_left : forall s t, ~ eligible T B d' s t;
  acc_once : NoDup (as_ShardId <$> js);
  acc_only : forall j, j ∈ js -> exists x y, eligible T B d x y /\ as_ShardId j = uuid_String (rid x);
  acc_done : forall x y, eligible T B d x y -> completed js x d';
  acc_rest : forall k s, task_shards d !! k = Some s -> ~ (exists y, eligible T B d s y) ->
    task_shards d' !! k = Some s;
  acc_dom : forall k s', task_shards d' !! k = Some s' -> exists s,
    task_shards d !! k = Some s /\ sh_TaskID s' = sh_TaskID s;
  acc_settled : forall tid, settled tid d -> settled tid d';
}.

Lemma accomplished_more T B j js d d1 d' s t :
  Inv d -> advanced T B j d d1 s t -> accomplished T B js d1 d' -> accomplished T B (j :: js) d d'.
Proof.
  intros HI Ha [HI' HL Hleft Honce Honly Hdone Hrest Hdom Hset].
  pose proof (advanced_eligible _ _ _ _ _ _ _ HI Ha) as Hel.
  pose proof (fun tid => advanced_settles _ _ _ _ _ _ _ tid HI Ha) as Hst.
  destruct Ha as [HI1 HL1 He Hid Hrow _ (s1 & Hs1 & Hq1 & Htid1 & Hkey1) _ Hset1].
  assert (forall x, ~ (exists y, eligible T B d1 x y) -> (exists y, eligible T B d x y) ->
            rid x = rid s) as Hown.
  { intros x Hn Hx. destruct (decide (rid x = rid s)); [done|]. destruct Hn. by apply Hel. }
  assert (task_shards d1 !! rid s = Some s1) as Hrow1 by (rewrite Hs1; apply lookup_insert_eq).
  assert (task_shards d' !! rid s = Some s1) as Hrow'.
  { apply Hrest; [done|]. intros (y & _ & _ & Hqy & _). by rewrite Hq1 in Hqy. }
  split; [done|by etrans|done|..].
  - cbn. constructor; [|done]. intros Hin. apply list_elem_of_fmap in Hin as (j' & Heq & Hj').
    destruct (Honly j' Hj') as (x & y & Hx & Hidx).
    destruct (proj1 (Hel x) (ex_intro _ y Hx)) as [_ Hne]. apply Hne, uuid_String_inj. congruence.
  - intros j' Hj'. apply elem_of_cons in Hj' as [->|Hj']; [by exists s, t|].
    destruct (Honly j' Hj') as (x & y & Hx & Hidx).
    destruct (proj1 (Hel x) (ex_intro _ y Hx)) as [[y' Hy'] _]. by exists x, y'.
  - intros x y Hx. destruct (decide (rid x = rid s)) as [Heq|Hne].
    + assert (x = s) as -> by (destruct Hx as ([k Hk] & _); apply (lease_shard_row _ _ _ HI) in Hk;
        congruence).
      exists j, s1. split; [left|]. split_and!; try done. by apply Hset.
    + destruct (proj2 (Hel x) (conj (ex_intro _ y Hx) Hne)) as [y' Hy'].
      destruct (Hdone x y' Hy') as (j' & s' & Hj' & Hrem). exists j', s'. split; [by right|done].
  - intros k y Hk Hn. apply Hrest.
    + rewrite Hs1, lookup_insert_ne; [done|]. intros <-. apply Hn. exists t. congruence.
    + intros Hx. apply Hn. by apply Hel in Hx as [? _].
  - intros k s' Hk. destruct (Hdom k s' Hk) as (x & Hx & Hxt). rewrite Hs1 in Hx.
    apply lookup_insert_Some in Hx as [[<- <-]|[_ Hx]]; [|by exists x].
    exists s. split; [done|congruence].
  - intros tid Hold. by apply Hset, Hst.
Qed.

Lemma works_accomplished T B A sha js d d' :
  Inv d -> works T B A sha js d d' -> accomplished T B js d d'.
Proof.
  intros HI Hw. induction Hw as [d Hnone|j js d d1 d' Hc Hw IH].
  - split; try done; try by constructor.
    + intros j Hj. by apply not_elem_of_nil in Hj.
    + intros x y Hx. by destruct (Hnone x y).
    + intros k s Hk. by exists s.
  - destruct (cycle_advanced _ _ _ _ _ _ _ HI Hc) as (s & t & Ha).
    eapply accomplished_more; [done|exact Ha|]. apply IH, Ha.
Qed.

(** The tasks of the tenant are finished. *)
Lemma accomplished_task T B js d d' tid t n :
  Inv d -> accomplished T B js d d' ->
  tasks d !! tid = Some t -> TenantID t = T -> Status t ∈ shardQueryStatuses ->
  tenants d !! T = Some n -> PrimaryBackendName n = B ->
  (forall k s, task_shards d !! k = Some s -> sh_TaskID s = tid ->
     sh_Status s ∈ [ShardStatusQueued; ShardStatusSucceeded]) ->
  (exists k s, task_shards d !! k = Some s /\ sh_TaskID s = tid /\ sh_Status s = ShardStatusQueued) ->
  exists t', tasks d' !! tid = Some t' /\ Status t' = TaskStatusSucceeded.
Proof.
  intros HI [HI' HL _ _ _ Hdone Hrest Hdom _] Ht HT Hq Hn HB Hall (k0 & s0 & Hk0 & Hid0 & Hs0).
  destruct (life_task _ _ HL tid t Ht) as (t' & Ht' & _). exists t'. split; [done|].
  assert (forall k s, task_shards d !! k = Some s -> sh_TaskID s = tid ->
            sh_Status s = ShardStatusQueued -> eligible T B d s t) as Hel.
  { intros k s Hk Hid Hst. split; [by exists k|]. split; [by apply (inv_shard _ HI k)|].
    rewrite Hid. split; [done|]. split; [done|]. split; [done|]. split; [done|]. by exists n. }
  destruct (Hdone s0 t (Hel k0 s0 Hk0 Hid0 Hs0)) as (_ & _ & _ & _ & _ & _ & _ & Hset).
  rewrite Hid0 in Hset. apply (Hset t' Ht'). intros k s' Hk' Hid'.
  destruct (Hdom k s' Hk') as (s & Hk & Heq).
  destruct (inv_shard _ HI k s Hk) as [Hr _].
  specialize (Hall k s Hk ltac:(congruence)).
  apply elem_of_cons in Hall as [Hst|Hst].
  - destruct (Hdone s t (Hel k s Hk ltac:(congruence) Hst)) as (_ & x & _ & _ & Hx & Hx' & _).
    rewrite Hr in Hx. congruence.
  - assert (sh_Status s = ShardStatusSucceeded) as Hs by (statuses).
    assert (task_shards d' !! k = Some s) as Hsame; [|congruence].
    apply Hrest; [done|]. intros (y & _ & _ & Hy & _). by rewrite Hs in Hy.
Qed.
End Cycle.

(** ** The session *)
Section Session.
Context `{E : Env, L : !EnvLaws E}.
Context (sess : agentSession) (Hact : active_session sess).
Context (beats : AssignShard -> nat) (sha : AssignShard -> string).
Implicit Types (d : DB) (w : World).
Abbreviation A := (agentID sess).
Abbreviation T := (tenantID sess).
Abbreviation B := (backend sess).

Definition messages (l : list agent_payload) : list recv_result :=
  (fun m => RecvMsg (Some m)) <$> l.

Lemma held_leased d r da :
  Inv d -> lease_done T B A d r da -> held sess (rid r.2) ShardStatusLeased da.
Proof.
  intros HI Hl. destruct (lease_effect _ _ _ _ _ _ HI Hl)
    as (s & t & s1 & t1 & (_ & _ & _ & _ & _ & _ & n & Hn & HB) & _ & -> & (Hs & Ht & Hten) & Hid
        & HT & Hq & Ha).
  exists s1. split; [|done]. split; [rewrite Hs; apply lookup_insert_eq|]. split; [by left|].
  exists t1, n. rewrite Ht, Hid, lookup_insert_eq, Hten. by repeat split.
Qed.

Lemma held_started id at_ payload d d' :
  held sess id ShardStatusLeased d -> report_done (started_report id) at_ d payload d' ->
  held sess id ShardStatusRunning d'.
Proof.
  intros (s & (Hs & _ & t0 & n & Ht0 & HT & Hn & HB) & Ha & _) Hd.
  destruct (started_effect _ _ _ _ _ _ Hd Hs)
    as (t & s1 & t1 & Ht & (Hs1 & Ht1 & Hten) & (Hid & Ha1 & HT1) & Hq).
  assert (t0 = t) as -> by congruence.
  exists s1. split; [|split; [congruence|done]]. split; [rewrite Hs1; apply lookup_insert_eq|].
  split; [left; congruence|]. exists t1, n.
  rewrite Ht1, Hid, lookup_insert_eq, Hten. split; [done|]. split; [congruence|done].
Qed.

Lemma wp_heartbeats n sid rest Q w :
  served A w ->
  (forall w', served A w' -> w_db w' = w_db w -> w_sent w' = w_sent w ->
     wp false (recv_loop true sess (messages rest)) Q w') ->
  wp false (recv_loop true sess (messages
    (repeat (AgentMessage_Heartbeat (mkHeartbeat A "RUNNING" sid)) n ++ rest))) Q w.
Proof.
  revert w. induction n as [|n IH]; intros w Hw HQ; [by apply HQ|].
  cbn [repeat app messages fmap list_fmap recv_loop handle_message GetHeartbeat].
  apply wp_bindR. eapply wp_mono; [|by apply wp_calm_HandleHeartbeat].
  intros r w1 (-> & Hw1 & Hd1 & Hs1). apply IH; [done|]. intros w2 Hw2 Hd2 Hs2.
  apply HQ; [done|congruence..].
Qed.

(** The answer to one assignment completes its cycle and ends with the next one. *)
Lemma wp_answer w0 w id j :
  Inv (w_db w0) -> served A w -> id <> uuid_Nil -> assigned sess w0 w (Some (id, j)) ->
  wp false (recv_loop true sess (messages (agent_answer A beats sha j))) (fun r w' =>
    r = Ok tt /\ served A w' /\ exists w1 a,
      cycle T B A sha j (w_db w0) (w_db w1) /\
      w_sent w1 = (rev (server_side (stream sess) j) ++ w_sent w0)%list /\
      assigned sess w1 w' a) w.
Proof.
  intros HI Hw Hid Ha. inversion Ha as [|r j' Hl Hj Hsent]; subst.
  pose proof (held_leased _ _ _ HI Hl) as Hh. pose proof (job_id _ _ Hj) as Hjid.
  unfold agent_answer. rewrite Hjid.
  cbn [app messages fmap list_fmap recv_loop handle_message GetHeartbeat GetShardAccepted
       GetShardStarted]. apply wp_bindR. cbn [wp]. apply wp_bindR.
  eapply wp_mono; [|by apply wp_calm_HandleShardStarted].
  intros r1 w1 (-> & Hw1 & Hs1 & at1 & p1 & Hd1). apply wp_heartbeats; [done|].
  intros w2 Hw2 Hd2 Hs2. cbn [messages fmap list_fmap recv_loop handle_message GetHeartbeat
    GetShardAccepted GetShardStarted GetShardResultReady]. apply wp_bindR.
  pose proof (held_started _ _ _ _ _ Hh Hd1) as Hh2. rewrite <-Hd2 in Hh2.
  eapply wp_mono; [|by apply wp_calm_HandleShardResultReady].
  intros r3 w3 (-> & Hw3 & w4 & at2 & p2 & a & Hd4 & Hs4 & Ha4). cbn [wp].
  split; [done|]. split; [done|]. exists w4, a. split; [|split; [|done]].
  - rewrite Hd2 in Hd4. by econstructor.
  - rewrite Hs4, Hs2, Hs1, Hsent. unfold server_side. cbn. by rewrite Hjid.
Qed.

(** Receiving goes on after a prefix that was handled. *)
Lemma run_recv_loop_app l1 l2 w o :
  result (run (recv_loop true sess (messages l1)) w o) = Ok tt ->
  run (recv_loop true sess (messages (l1 ++ l2))) w o =
  let x := run (recv_loop true sess (messages l1)) w o in
  run (recv_loop true sess (messages l2)) (final x) x.2.
Proof.
  revert w o. induction l1 as [|m l1 IH]; intros w o; [done|].
  cbn [app messages fmap list_fmap recv_loop]. unfold bindR. rewrite !run_bind. cbv zeta.
  destruct (result (run (handle_message true sess (Some m)) w o)) as [u|e]; [apply IH|done].
Qed.

(** The shards still waiting: the measure of a session. *)
Definition queue d : gmap uuid TaskShard :=
  filter (fun ks => sh_Status ks.2 = ShardStatusQueued) (task_shards d).

Lemma advanced_queue j d d' s t :
  advanced T B j d d' s t -> size (queue d') < size (queue d).
Proof.
  intros [_ _ (_ & _ & Hq & _) _ Hrow _ (s' & Hs' & Hst' & _) _ _]. unfold queue.
  rewrite Hs', map_filter_insert_False by (cbn; by rewrite Hst').
  assert (filter (fun ks : uuid * TaskShard => sh_Status ks.2 = ShardStatusQueued)
            (task_shards d) !! rid s = Some s) as Hin by (by apply map_lookup_filter_Some_2).
  rewrite map_filter_delete, map_size_delete_Some by (by eexists).
  destruct (size _) eqn:Hz; [|lia]. apply map_size_empty_inv in Hz. by rewrite Hz in Hin.
Qed.

Lemma cycle_nil j d d' : Inv d -> cycle T B A sha j d d' ->
  task_shards d !! uuid_Nil = None -> task_shards d' !! uuid_Nil = None.
Proof.
  intros HI Hc Hnil. destruct (cycle_advanced _ _ _ _ _ _ _ HI Hc)
    as (s & t & [_ _ _ _ Hrow _ (s' & Hs' & _) _ _]).
  rewrite Hs', lookup_insert_ne; [done|]. congruence.
Qed.

(** What the agent sends for the assignments of a session, and what it is sent. *)
Definition session_inputs (js : list AssignShard) : list agent_payload :=
  js ≫= agent_answer A beats sha.
Definition transcript (js : list AssignShard) : list (nat * ServerMessage) :=
  js ≫= server_side (stream sess).

(** From an assignment, or the finding that there is none, to the end. *)
Lemma drain n w0 w a o :
  Inv (w_db w0) -> task_shards (w_db w0) !! uuid_Nil = None -> size (queue (w_db w0)) = n ->
  served A w -> assigned sess w0 w a -> calm o ->
  exists js, let y := run (recv_loop true sess (messages (session_inputs js))) w o in
    result y = Ok tt /\ works T B A sha js (w_db w0) (w_db (final y)) /\
    w_sent (final y) = (rev (transcript js) ++ w_sent w0)%list.
Proof.
  revert w0 w a o. induction (lt_wf n) as [n _ IH]. intros w0 w a o HI Hnil Hn Hw Ha Ho.
  destruct a as [[id j]|].
  2:{ inversion Ha as [Hnone Hd Hs|]. exists []. cbv zeta. split; [done|].
      cbn. split; [|done]. unfold final. cbn. rewrite Hd. by constructor. }
  assert (id <> uuid_Nil) as Hid.
  { inversion Ha as [|r j' Hl _ _]; subst.
    destruct (lease_effect _ _ _ _ _ _ HI Hl) as (s & _ & _ & _ & _ & Hrow & -> & _). congruence. }
  destruct (wp_sound false _ _ w o Ho (wp_answer w0 w id j HI Hw Hid Ha))
    as [(Hr & Hw1 & w1 & a1 & Hc & Hs1 & Ha1) Ho1].
  set (x := run _ w o) in *. pose proof (cycle_nil _ _ _ HI Hc Hnil) as Hnil1.
  destruct (cycle_advanced _ _ _ _ _ _ _ HI Hc) as (s & t & Hadv).
  destruct (IH (size (queue (w_db w1)))) with (w0 := w1) (w := final x) (a := a1) (o := x.2)
    as (js & Hy & Hworks & Hsent); try done.
  { subst n. by eapply advanced_queue. }
  { apply Hadv. }
  exists (j :: js). cbv zeta. unfold session_inputs in *. cbn [mbind list_bind].
  rewrite run_recv_loop_app by exact Hr. cbv zeta. fold x. split; [exact Hy|].
  split; [by econstructor|]. rewrite Hsent, Hs1. unfold transcript. cbn [mbind list_bind].
  by rewrite rev_app_distr, <-app_assoc.
Qed.
End Session.

(** ** From the connection to the end of the stream *)
Section Connection.
Context `{E : Env, L : !EnvLaws E}.
Implicit Types (d : DB) (w : World).

(** A step that nothing fails in, whatever comes after it. *)
Lemma run_bind_calm {X} (p : prog X) Q w o :
  calm o -> wp false p Q w ->
  exists a w1 o1, Q a w1 /\ calm o1 /\
    forall Y (k : X -> prog Y), run (bind p k) w o = run (k a) w1 o1.
Proof.
  intros Ho HQ. destruct (wp_sound false p Q w o Ho HQ) as [HQ1 Ho1].
  exists (result (run p w o)), (final (run p w o)), (run p w o).2.
  split; [done|]. split; [done|]. intros Y k. by rewrite run_bind.
Qed.

Lemma run_bindR_calm {X} (p : prog (res X)) Q w o :
  calm o -> wp false p (fun r w' => exists v, r = Ok v /\ Q v w') w ->
  exists v w1 o1, Q v w1 /\ calm o1 /\
    forall Y f (k : X -> prog (res Y)), run (bindR p f k) w o = run (k v) w1 o1.
Proof.
  intros Ho HQ.
  destruct (run_bind_calm p _ w o Ho HQ) as (r & w1 & o1 & (v & -> & Hv) & Ho1 & Hk).
  exists v, w1, o1. split; [done|]. split; [done|]. intros Y f k. apply Hk.
Qed.

(** The agent is registered as IDLE and nothing else has happened. *)
Record admitted (A : string) (n : nat) w w' : Prop := mkAdmitted {
  adm_db : w_db w' = w_db w;
  adm_open : w_db_open w' = w_db_open w;
  adm_sent : w_sent w' = w_sent w;
  adm_streams : w_nstreams w' = n;
  adm_agent : exists x, agents (w_reg w') !! A = Some x /\ ag_Status x = AgentStatusIdle;
}.

Lemma wp_admit_new A T B w :
  agents (w_reg w) !! A = None ->
  wp false (RegisterAgent A T B) (fun r w' => r = Ok tt /\ admitted A (w_nstreams w) w w') w.
Proof.
  intros Hno. unfold RegisterAgent. cbn. intros t _. unfold register_section. rewrite Hno. cbn.
  split; [done|]. split; try done. eexists. cbn. rewrite lookup_insert_eq. by split.
Qed.

Lemma wp_admitted_CancelTimer A n w w0 :
  admitted A n w0 w -> wp false (CancelTimer A) (fun _ w' => admitted A n w0 w') w.
Proof.
  intros [Hd Ho Hs Hn (x & Hx & Hi)]. cbn. destruct (timers (w_reg w) !! A); cbn;
    (split; try done; exists x; split; [|done]); cbn; by rewrite ?agents_stop_current.
Qed.

Lemma wp_admitted_ResetHeartbeat A n w w0 :
  admitted A n w0 w -> wp false (ResetHeartbeat A) (fun _ w' => admitted A n w0 w') w.
Proof.
  intros [Hd Ho Hs Hn (x & Hx & Hi)]. cbn. intros t _. split; try done. exists x.
  split; [|done]. cbn. by rewrite agents_stop_current.
Qed.

(** The first assignment of a session. *)
Lemma run_serve_new sess n w0 w o :
  active_session sess -> Inv (w_db w0) -> w_db_open w0 = true -> calm o ->
  admitted (agentID sess) n w0 w ->
  exists w1 o1 a, served (agentID sess) w1 /\ assigned sess w w1 a /\ calm o1 /\
    forall inputs, run (serve_session true sess inputs) w o = run (recv_loop true sess inputs) w1 o1.
Proof.
  intros Hact HI Hop Ho [Hd Hop1 Hs _ (x & Hx & Hidle)].
  destruct (run_bindR_calm (GetAgent (agentID sess)) (fun v w' => v = x /\ w' = w) w o Ho)
    as (v & v1 & o1 & [-> ->] & Ho1 & H1); [cbn; rewrite Hx; by exists x|].
  destruct (run_bindR_calm (HandleReconnectedAgent true sess x) (fun (_ : Agent) w' =>
      served (agentID sess) w' /\ exists a, assigned sess w w' a) w o1 Ho1)
    as (v & w2 & o2 & (Hw2 & a & Ha) & Ho2 & H2).
  - unfold HandleReconnectedAgent. rewrite Hidle.
    change (AgentStatusIdle =s AgentStatusRunning) with false. cbn iota. apply wp_bindR. cbn [wp].
    rewrite Hidle, eqs_refl. cbn [negb]. apply wp_bindR.
    eapply wp_mono; [|apply wp_calm_TryAssignShard; [|done]].
    + intros r w2 (-> & Hw2 & Ha). cbn [wp]. by exists x.
    + split; [by rewrite Hd|congruence|by exists x].
  - exists w2, o2, a. split; [done|]. split; [done|]. split; [done|].
    intros inputs. unfold serve_session. by rewrite H1, H2.
Qed.

Lemma wp_disconnect_quiet A w :
  wp false (disconnect A) (fun _ w' => w_db w' = w_db w /\ w_sent w' = w_sent w) w.
Proof. by unfold disconnect, drop_stream, BeginGrace, DisconnectAgent; cbn. Qed.

(** The first message of a new agent of the tenant [T]. *)
Record new_agent (token : string) (register : Register) (T : uuid) w : Prop := mkNewAgent {
  na_id : reg_AgentId register <> "";
  na_unknown : agents (w_reg w) !! reg_AgentId register = None;
  na_tenant : uuid_Parse (reg_TenantId register) = Ok T;
  na_tenant_set : T <> uuid_Nil;
  na_backend : reg_BackendName register <> "";
  na_token : reg_Token register = token;
}.

(** The session it opens, and what it sends in it. *)
Definition session_of (register : Register) (T : uuid) w : agentSession :=
  mkSession (w_nstreams w) (reg_AgentId register) T (reg_BackendName register).
Definition conversation (register : Register) beats sha (js : list AssignShard) (T : uuid) w
    : list recv_result :=
  messages (AgentMessage_Register register :: session_inputs (session_of register T w) beats sha js).

(** The session from its registration to its first message. *)
Lemma run_open_new token register T w o :
  calm o -> new_agent token register T w ->
  exists w1 o1, admitted (reg_AgentId register) (S (w_nstreams w)) w w1 /\ calm o1 /\
    forall inputs, run (open_registered true (Some register) T inputs) w o =
      run (r <- serve_session true (session_of register T w) inputs ;;
           disconnect (reg_AgentId register) ;; Ret r) w1 o1.
Proof.
  intros Ho [_ Hnew _ _ _ _].
  destruct (run_bindR_calm (RegisterAgent (reg_AgentId register) T (reg_BackendName register))
      (fun _ w' => admitted (reg_AgentId register) (w_nstreams w) w w') w o Ho)
    as (u & w1 & o1 & Ha1 & Ho1 & H1).
  { eapply wp_mono; [|by apply wp_admit_new]. intros r w' [-> ?]. by exists tt. }
  destruct (run_bind_calm (CancelTimer (reg_AgentId register)) _ w1 o1 Ho1
              (wp_admitted_CancelTimer _ _ _ _ Ha1)) as (u2 & w2 & o2 & Ha2 & Ho2 & H2).
  destruct (run_bind_calm (ResetHeartbeat (reg_AgentId register)) _ w2 o2 Ho2
              (wp_admitted_ResetHeartbeat _ _ _ _ Ha2)) as (u3 & w3 & o3 & Ha3 & Ho3 & H3).
  set (w4 := set_streams (<[reg_AgentId register := w_nstreams w3]> (w_streams w3))
               (set_nstreams (S (w_nstreams w3)) w3)).
  exists w4, o3. split; [by destruct Ha3 as [? ? ? <-]|]. split; [done|]. intros inputs.
  unfold open_registered. getters. rewrite H1, H2, H3. cbn [open_stream act bind run]. cbv zeta. fold w4.
  destruct Ha3 as [_ _ _ Hn _]. by rewrite Hn.
Qed.

Lemma run_session token register T beats sha w o :
  Inv (w_db w) -> w_db_open w = true -> calm o -> task_shards (w_db w) !! uuid_Nil = None ->
  new_agent token register T w ->
  exists js, let x := run (OpenControlStream true token (conversation register beats sha js T w)) w o in
    result x = Ok tt /\
    works T (reg_BackendName register) (reg_AgentId register) sha js (w_db w) (w_db (final x)) /\
    w_sent (final x) = (rev (transcript (session_of register T w) js) ++ w_sent w)%list.
Proof.
  intros HI Hop Ho Hnil Hna. destruct (run_open_new _ _ _ _ _ Ho Hna) as (w1 & o1 & Ha & Ho1 & Hopen).
  destruct Hna as [Hid Hnew HT HTn HB Htok]. set (sess := session_of register T w) in *.
  assert (active_session sess) as Hact by done.
  destruct (run_serve_new sess _ w w1 o1 Hact HI Hop Ho1 Ha) as (w2 & o2 & a & Hw2 & Ha2 & Ho2 & H2).
  destruct Ha as [Hd1 _ Hs1 _ _].
  destruct (drain sess Hact beats sha (size (queue (w_db w))) w1 w2 a o2) as (js & Hy & Hworks & Hsent);
    rewrite ?Hd1; try done.
  rewrite Hd1, Hs1 in *. exists js. cbv zeta.
  assert (calm (run (recv_loop true sess (messages (session_inputs sess beats sha js))) w2 o2).2)
    as Ho5.
  { apply (wp_sound false _ (fun _ _ => True) w2 o2 Ho2). by apply wp_any_fault, wp_always. }
  unfold OpenControlStream, conversation. cbn [messages fmap list_fmap GetRegister].
  getters. apply eqs_neq in Hid. rewrite Hid, HT. cbn [bindR bind]. rewrite Htok, eqs_refl. cbn [negb].
  rewrite Hopen, run_bind. cbv zeta. rewrite H2.
  change (list_fmap _ _ (fun m => RecvMsg (Some m)) ?l) with (messages l).
  set (y := run (recv_loop true sess (messages _)) w2 o2) in *.
  destruct (run_bind_calm (disconnect (reg_AgentId register)) _ (final y) y.2 Ho5
              (wp_disconnect_quiet _ _)) as (u & w3 & o3 & [Hd3 Hs3] & _ & H3).
  rewrite H3. cbn [run]. change (final (?r, w3, o3)) with w3. change (result (?r, w3, o3)) with r.
  split; [exact Hy|]. by rewrite Hd3, Hs3.
Qed.

(** C6: One agent drains its tenant's queue.  Without external failures, a new agent
    that registers for a tenant and answers every AssignShard it is sent with
    ShardAccepted, ShardStarted, any number of RUNNING heartbeats and
    ShardResultReady has a session that ends well: it is sent exactly one
    assignment for every shard that was waiting, each acknowledged before the next;
    afterwards no shard of the tenant is waiting, each of them has SUCCEEDED with
    its output where the assignment said, and every task whose shards were all
    queued or done has SUCCEEDED. *)
Theorem agent_drains_queue token register T beats sha w o :
  Inv (w_db w) -> w_db_open w = true -> calm o -> task_shards (w_db w) !! uuid_Nil = None ->
  new_agent token register T w ->
  exists js,
  let x := run (OpenControlStream true token (conversation register beats sha js T w)) w o in
  let B := reg_BackendName register in let d := w_db w in let d' := w_db (final x) in
  result x = Ok tt /\
  w_sent (final x) = (rev (transcript (session_of register T w) js) ++ w_sent w)%list /\
  NoDup (as_ShardId <$> js) /\
  (forall j, j ∈ js -> exists s t, eligible T B d s t /\ as_ShardId j = uuid_String (rid s)) /\
  (forall s t, eligible T B d s t -> exists j s', j ∈ js /\ as_ShardId j = uuid_String (rid s) /\
     task_shards d' !! rid s = Some s' /\ sh_Status s' = ShardStatusSucceeded /\
     OutputOSSKey s' = as_OutputOssKey j) /\
  (forall s t, ~ eligible T B d' s t) /\
  (forall id t n, tasks d !! id = Some t -> TenantID t = T -> Status t ∈ shardQueryStatuses ->
     tenants d !! T = Some n -> PrimaryBackendName n = B ->
     (forall k s, task_shards d !! k = Some s -> sh_TaskID s = id ->
        sh_Status s ∈ [ShardStatusQueued; ShardStatusSucceeded]) ->
     (exists k s, task_shards d !! k = Some s /\ sh_TaskID s = id /\
        sh_Status s = ShardStatusQueued) ->
     exists t', tasks d' !! id = Some t' /\ Status t' = TaskStatusSucceeded).
Proof.
  intros HI Hop Ho Hnil Hna.
  destruct (run_session token register T beats sha w o HI Hop Ho Hnil Hna) as (js & Hr & Hw & Hs).
  exists js. intros x B d d'. pose proof (works_accomplished _ _ _ _ _ _ _ HI Hw) as Hacc.
  split; [exact Hr|]. split; [exact Hs|].
  pose proof Hacc as [_ _ Hleft Honce Honly Hdone _ _ _].
  split; [done|]. split; [done|]. split; [|split; [done|]].
  - intros s t He. destruct (Hdone s t He) as (j & s' & ? & ? & ? & ? & ? & _). by exists j, s'.
  - intros id t n Ht HT Hq Hn HB. exact (accomplished_task _ _ _ _ _ _ _ _ HI Hacc Ht HT Hq Hn HB).
Qed.
End Connection.

(** ** An IDLE heartbeat that crosses an assignment *)
Section Crossing.
Context `{E : Env, L : !EnvLaws E}.
Implicit Types (d : DB) (w : World) (sess : agentSession).

Lemma wp_lawful b {A} (p : prog A) w :
  lawful p -> Inv (w_db w) -> wp b p (fun _ w' => Inv (w_db w')) w.
Proof.
  intros Hp HI. apply wp_any_fault. eapply wp_mono; [|exact (lawful_wp _ _ w Hp HI)].
  by intros a w' (_ & ? & _).
Qed.

(** A leased shard that is put back may be leased again. *)
Lemma requeued_eligible T B A d r d1 d2 :
  Inv d -> lease_done T B A d r d1 -> tasks d2 = tasks d1 -> tenants d2 = tenants d1 ->
  (forall k s, task_shards d1 !! k = Some s ->
     holds A s -> exists now, task_shards d2 !! k = Some (touch now (requeued s))) ->
  exists s t, eligible T B d2 s t.
Proof.
  intros HI Hl Ht2 Hn2 Hback. destruct (lease_done_lawful _ _ _ _ _ _ HI Hl) as [HI1 _].
  destruct Hl as (s & t & rest & n1 & n2 & Hc & -> & Ht & Hs & Hn & _).
  destruct (candidate_spec T B d s t ltac:(rewrite Hc; left))
    as ([k Hk] & Hlive & _ & Htk & HT & _ & n & Hten & HB).
  assert (task_shards d1 !! rid s = Some (touch n2 (leased A s))) as Hrow
    by (rewrite Hs; apply lookup_insert_eq).
  destruct (Hback _ _ Hrow) as [now Hrow2]; [by split; [|apply ins_spec]|].
  destruct (compat_parent _ _ _ HI1 Hrow) as (t1 & Ht1 & _ & _ & Hst & Hcp).
  assert (TenantID t1 = T) as HT1.
  { change (sh_TaskID (touch n2 (leased A s))) with (sh_TaskID s) in Ht1. rewrite Ht in Ht1.
    destruct (_ =s _) eqn:Hw; [rewrite lookup_insert_eq in Ht1|congruence].
    injection Ht1 as <-. unfold promoted. by rewrite Hw. }
  exists (touch now (requeued (touch n2 (leased A s)))), t1.
  split; [by exists (rid s)|]. split; [done|]. split; [done|].
  split; [by rewrite Ht2|]. split; [done|]. split; [by apply leased_parent|].
  exists n. by rewrite Hn2, Hn.
Qed.

(** C31: An IDLE heartbeat takes back the assignment it crosses.  Without external
    failures, for an agent with a shard to take, when the server handles an IDLE
    heartbeat right after an assignment, it puts the assigned shard back and assigns
    again: the agent is sent two assignments in a row, none of them answered, and holds
    at most the second.  (The agent of agent/src sends such a heartbeat when it
    connects, before it can have received the shard assigned on its registration; what
    it does with the second assignment is not modelled.) *)
Theorem idle_heartbeat_reassigns sess w o :
  Inv (w_db w) -> w_db_open w = true -> calm o -> active_session sess ->
  is_Some (agents (w_reg w) !! agentID sess) ->
  (exists s t, eligible (tenantID sess) (backend sess) (w_db w) s t) ->
  let x := run (_ <-? TryAssignShard true sess ;;
                HandleHeartbeat true sess (Some (mkHeartbeat (agentID sess) "IDLE" ""))) w o in
  result x = Ok tt /\
  exists j1 j2, w_sent (final x) = ([(stream sess, ServerMessage_AssignShard j2);
                                     (stream sess, ServerMessage_AssignShard j1)] ++ w_sent w)%list /\
    forall k s, task_shards (w_db (final x)) !! k = Some s -> holds (agentID sess) s ->
      uuid_String k = as_ShardId j2.
Proof.
  intros HI Ho Hc Hact Hk (s0 & t0 & Hel) x.
  refine (wp_run_calm _ (fun r w' => r = Ok tt /\ exists j1 j2,
    w_sent w' = ([(stream sess, ServerMessage_AssignShard j2);
                  (stream sess, ServerMessage_AssignShard j1)] ++ w_sent w)%list /\
    forall k s, task_shards (w_db w') !! k = Some s -> holds (agentID sess) s ->
      uuid_String k = as_ShardId j2) w o Hc _).
  apply wp_bindR. eapply wp_mono; [|by apply wp_calm_TryAssignShard].
  intros r w1 (-> & [HI1 Ho1 Hk1] & a & Ha).
  inversion Ha as [Hnone|r j1 Hl Hj Hs1]; subst; [by destruct (Hnone s0 t0)|].
  unfold HandleHeartbeat. getters.
  rewrite eqs_refl, andb_false_r. cbn iota. apply wp_bindR.
  pose proof (wp_lawful false _ w1 (lawful_RollbackOrphanShardsForAgent (agentID sess)) HI1) as Hinv.
  eapply wp_mono; [|exact (wp_and _ _ _ _ _ Hinv (wp_RollbackOrphanShardsForAgent _ w1 HI1 Ho1))].
  intros [n|e] w2 (HI2 & Hok & Hb & Hrel); [|done]. pose proof (but_shards_tables _ _ Hb) as [Ht2 Hn2].
  destruct Hb as [[Ho2 Hr2 _ Hs2 _ _ _ _] _].
  apply wp_bindR, wp_calm_HeartbeatAgent; [by rewrite Hr2|]. intros w3 Hd3 Ho3 Hs3 Hk3.
  apply wp_bind. unfold ResetHeartbeat. cbn [wp bind now modify act fst snd]. intros c _.
  rewrite eqs_refl. eapply wp_mono; [|apply wp_calm_TryAssignShard; [|done]].
  2:{ split; cbn; rewrite ?agents_stop_current; [by rewrite Hd3|congruence|done]. }
  intros r' w4 (-> & _ & a2 & Ha2). split; [done|].
  inversion Ha2 as [Hnone|r2 j2 Hl2 Hj2 Hs4]; subst; cbn in *; rewrite Hd3 in *.
  - destruct (requeued_eligible _ _ _ _ _ _ _ HI Hl Ht2 Hn2) as (s & t & He); [|by destruct (Hnone s t)].
    intros k s Hk' Hh. by apply (proj1 Hrel).
  - exists j1, j2. split; [congruence|]. intros k s Hs Hh.
    destruct (lease_effect _ _ _ _ _ _ HI2 Hl2) as (s' & _ & s1 & _ & _ & _ & Hid & (Hrow & _) & _).
    rewrite Hrow in Hs. apply lookup_insert_Some in Hs as [[<- _]|[_ Hs]].
    + by rewrite (job_id _ _ Hj2), Hid.
    + by destruct (released_nothing_held _ _ _ _ _ Hrel Hs).
Qed.
End Crossing.

(** The theorems on variants of [demo]: all three shards of task 10 are waiting. *)
Definition demo_waiting : World :=
  set_db (set_task_shards (<[14%N := demo_shard 14 10 "b.sh" ShardStatusQueued (Some "") "" None]>
                             demo_shards) demo_db) demo.
Definition demo_register : Register :=
  mkRegister "fresh" (@uuid_String toy_env 1) "kubernetes" "secret" "1.0".

Lemma demo_waiting_inv : Inv (w_db demo_waiting).
Proof. apply inv_check_sound. vm_compute. reflexivity. Qed.

Lemma agent_drains_queue_witness :
  let E := toy_env in
  exists js, let x := run (OpenControlStream true "secret"
      (conversation demo_register (fun _ => 2) (fun _ => "sha") js 1 demo_waiting)) demo_waiting quiet in
    result x = Ok tt /\ (exists s, task_shards (w_db (final x)) !! 13%N = Some s /\
                                   sh_Status s = ShardStatusSucceeded) /\
    exists t, tasks (w_db (final x)) !! 10%N = Some t /\ Status t = TaskStatusSucceeded.
Proof.
  cbn zeta.
  destruct (agent_drains_queue (E := toy_env) (L := toy_laws) "secret" demo_register 1 (fun _ => 2)
              (fun _ => "sha") demo_waiting quiet demo_waiting_inv eq_refl (Forall_nil_2 _))
    as (js & Hr & _ & _ & _ & Hdone & _ & Htask);
    [vm_compute; reflexivity|by split|].
  exists js. split; [exact Hr|]. split.
  - destruct (Hdone (demo_shard 13 10 "a.sh" ShardStatusQueued (Some "") "" None)
      (mkTask (at_ 10 5) 1 TaskStatusWaitingForAgents "" 2 None None None "" ""))
      as (j & s & _ & _ & Hs & Hst & _); [|exists s; split; [exact Hs|exact Hst]].
    split; [exists 13%N; vm_compute; reflexivity|]. do 3 (split; [vm_compute; reflexivity|]).
    split; [reflexivity|]. split; [by apply ins_spec|]. eexists. split; vm_compute; reflexivity.
  - apply (Htask 10%N (mkTask (at_ 10 5) 1 TaskStatusWaitingForAgents "" 2 None None None "" "")
             (mkTenant (at_ 1 1) "acme" "kubernetes" 2));
      [vm_compute; reflexivity|reflexivity|by apply ins_spec|vm_compute; reflexivity|reflexivity| |].
    + apply (map_Forall_lookup (fun _ s => sh_TaskID s = 10%N ->
               sh_Status s ∈ [ShardStatusQueued; ShardStatusSucceeded])).
      apply (bool_decide_unpack _). vm_compute. exact I.
    + exists 13%N. eexists. split; [vm_compute; reflexivity|]. split; reflexivity.
Defined.

Lemma idle_heartbeat_reassigns_witness :
  let E := toy_env in
  let x := run (_ <-? TryAssignShard true demo_session ;;
                HandleHeartbeat true demo_session (Some (mkHeartbeat "idle" "IDLE" ""))) demo quiet in
  result x = Ok tt /\ length (w_sent (final x)) = 2 /\
  exists j1 j2, w_sent (final x) = [(0, ServerMessage_AssignShard j2);
                                    (0, ServerMessage_AssignShard j1)].
Proof.
  cbn zeta.
  destruct (idle_heartbeat_reassigns (E := toy_env) (L := toy_laws) demo_session demo quiet
              demo_inv eq_refl (Forall_nil_2 _) ltac:(by repeat split)) as (Hr & j1 & j2 & Hs & _).
  - eexists. vm_compute. reflexivity.
  - exists (demo_shard 13 10 "a.sh" ShardStatusQueued (Some "") "" None),
      (mkTask (at_ 10 5) 1 TaskStatusWaitingForAgents "" 2 None None None "" "").
    split; [exists 13%N; vm_compute; reflexivity|]. do 3 (split; [vm_compute; reflexivity|]).
    split; [reflexivity|]. split; [by apply ins_spec|]. eexists. split; vm_compute; reflexivity.
  - split; [exact Hr|]. split; [exact (f_equal length Hs)|]. exists j1, j2. exact Hs.
Defined.
