(* ===== verification/K8sBackend.v ===== *)
(** * The Kubernetes backend (internal/service/cluster_service/backend/k8)

    The client-go interface is the record [KubeClient]: what the provider calls,
    with the three outcomes it tells apart.  [api_server] is a concrete client,
    an API server that keeps namespaces and StatefulSets by name. *)
From S2P Require Import Prelude Errors Model Env Proto World Effects StoreFacts Lifecycle Lawful Demo.
From S2P Require Import ClusterService ClusterFacts.

Inductive kube_result :=
| KubeOk
| KubeNotFound (e : error)
| KubeAlreadyExists (e : error)
| KubeError (e : error).

Record KubeClient := mkKube {
  GetNamespace : string -> prog kube_result;
  CreateNamespace : string -> prog kube_result;
  GetStatefulSet : string -> string -> prog kube_result;
  CreateStatefulSet : string -> StatefulSet -> prog kube_result;
  PatchStatefulSet : string -> string -> string -> prog kube_result;
  DeleteStatefulSet : string -> string -> prog kube_result;
}.

(** What start-up uses of client-go and of the operating system: [rest_Config]
    is [*rest.Config]. *)
Record KubeLib := mkKubeLib {
  rest_Config : Type;
  BuildConfigFromFlags : string -> prog (res rest_Config);
  InClusterConfig : prog (res rest_Config);
  UserHomeDir : prog (res string);
  filepath_Join : list string -> string;
  os_Stat : string -> prog (res unit);
  NewForConfig : rest_Config -> prog (res unit);
}.

(** ** provider.go *)
Definition labelApp := "r-orchestrator-agent".
Definition labelTenant := "r-orchestrator-tenant".

Record K8sConfig := mkK8sConfig {
  kc_Namespace : string;
  kc_AgentImage : string;
  kc_ImagePullSecrets : list string;
  kc_ServerGRPCAddr : string;
  kc_AgentToken : string;
  kc_ServerPublicURL : string;
  kc_KubeConfigPath : string;
  kc_AgentLogLevel : string;
}.

Fixpoint takes (n : nat) (s : string) : string :=
  match n, s with
  | S n', String c s' => String c (takes n' s')
  | _, _ => ""
  end.

Section K8sBackend.
Context `{Env}.

(** [fmt.Sprintf("r-orch-%s-agents", tenantID.String()[:8])] *)
Definition clusterName (tenant_id : uuid) : string :=
  "r-orch-" +:+ takes 8 (uuid_String tenant_id) +:+ "-agents".

Context (client : KubeClient) (cfg : K8sConfig).

(** ** ensure_cluster.go *)
Definition agent_env (tenant : Tenant) : list (string * string) :=
  [("RORCHESTRATOR_TENANT_ID", uuid_String (rid tenant));
   ("RORCHESTRATOR_SERVER_GRPC_ADDR", kc_ServerGRPCAddr cfg);
   ("RORCHESTRATOR_AGENT_TOKEN", kc_AgentToken cfg);
   ("RORCHESTRATOR_BACKEND_NAME", "kubernetes");
   ("RORCHESTRATOR_HEALTH_PORT", "9091");
   ("RUST_LOG", kc_AgentLogLevel cfg)] ++
  (if kc_ServerPublicURL cfg <>s "" then
     [("RORCHESTRATOR_SERVER_URL", kc_ServerPublicURL cfg)] else []).

Definition initial_replicas (tenant : Tenant) : Z :=
  let replicas := wrap32 (MaxAgents tenant) in
  if (replicas <? 1)%Z then 1 else replicas.

Definition tenant_labels (tenant : Tenant) : list (string * string) :=
  [(labelApp, "true"); (labelTenant, uuid_String (rid tenant))].

Definition statefulset (tenant : Tenant) : StatefulSet :=
  let name := clusterName (rid tenant) in
  mkSts name (kc_Namespace cfg) (tenant_labels tenant) (initial_replicas tenant)
    (tenant_labels tenant) name (tenant_labels tenant) (kc_ImagePullSecrets cfg)
    "agent" (kc_AgentImage cfg) "IfNotPresent" (agent_env tenant) 9091 5 10 "Always".

Definition ensure_namespace : prog (res unit) :=
  let ns := kc_Namespace cfg in
  r <- GetNamespace client ns ;;
  match r with
  | KubeOk => Ret (Ok tt)
  | KubeNotFound _ =>
    r' <- CreateNamespace client ns ;;
    match r' with
    | KubeOk | KubeAlreadyExists _ => Ret (Ok tt)
    | KubeNotFound e | KubeError e => Ret (Err (wrapf ("create namespace " +:+ ns) e))
    end
  | KubeAlreadyExists e | KubeError e => Ret (Err (wrapf ("get namespace " +:+ ns) e))
  end.

Definition K8s_ProvisionCluster (tenant : Tenant) : prog (res unit) :=
  _ <-? ensure_namespace ;;
  let sts := statefulset tenant in
  r <- GetStatefulSet client (kc_Namespace cfg) (sts_Name sts) ;;
  match r with
  | KubeOk => Ret (Ok tt)
  | KubeNotFound _ =>
    r' <- CreateStatefulSet client (kc_Namespace cfg) sts ;;
    match r' with
    | KubeOk | KubeAlreadyExists _ => Ret (Ok tt)
    | KubeNotFound e | KubeError e =>
      Ret (Err (wrapf ("create statefulset " +:+ sts_Name sts) e))
    end
  | KubeAlreadyExists e | KubeError e => Ret (Err (wrapf ("get statefulset " +:+ sts_Name sts) e))
  end.

(** ** scale_cluster.go: the strategic merge patch, and what it asks for *)
Definition replicas_patch (replicas : Z) : string :=
  "{" +:+ dquote +:+ "spec" +:+ dquote +:+ ":{" +:+ dquote +:+ "replicas" +:+ dquote +:+ ":"
  +:+ pretty replicas +:+ "}}".

Definition K8s_ScaleCluster (tenant : Tenant) (replicas : Z) : prog (res unit) :=
  let name := clusterName (rid tenant) in
  r <- PatchStatefulSet client (kc_Namespace cfg) name (replicas_patch replicas) ;;
  match r with
  | KubeOk => Ret (Ok tt)
  | KubeNotFound e | KubeAlreadyExists e | KubeError e =>
    Ret (Err (wrapf ("scale statefulset " +:+ name +:+ " to " +:+ pretty replicas) e))
  end.

(** ** destroy_cluster.go *)
Definition K8s_DestroyCluster (tenant : Tenant) : prog (res unit) :=
  r <- DeleteStatefulSet client (kc_Namespace cfg) (clusterName (rid tenant)) ;;
  match r with
  | KubeOk | KubeNotFound _ => Ret (Ok tt)
  | KubeAlreadyExists e | KubeError e => Ret (Err e)
  end.

Definition K8sProvider : Provider :=
  mkProvider K8s_ProvisionCluster K8s_ScaleCluster K8s_DestroyCluster.

(** ** build_kube_config.go, NewK8sProvider *)
Definition BuildKubeConfig (lib : KubeLib) (kubeConfigPath : string)
    : prog (res (rest_Config lib)) :=
  if kubeConfigPath <>s "" then BuildConfigFromFlags lib kubeConfigPath
  else
  in_cluster <- InClusterConfig lib ;;
  match in_cluster with
  | Ok c => Ret (Ok c)
  | Err _ =>
    home <-? UserHomeDir lib # wrapf "get home dir" ;;
    let defaultPath := filepath_Join lib [home; ".kube"; "config"] in
    st <- os_Stat lib defaultPath ;;
    match st with
    | Ok _ => BuildConfigFromFlags lib defaultPath
    | Err _ =>
      Ret (Err (ENew "no kubeconfig found: set CLUSTER_K8S_KUBECONFIG_PATH or run in-cluster"))
    end
  end.

(** [client] is the clientset [kubernetes.NewForConfig] returns. *)
Definition NewK8sProvider (lib : KubeLib) : prog (res Provider) :=
  kubeConfig <-? BuildKubeConfig lib (kc_KubeConfigPath cfg) # wrapf "build kube config" ;;
  _ <-? NewForConfig lib kubeConfig # wrapf "create kubernetes client" ;;
  Ret (Ok K8sProvider).
End K8sBackend.

(** ** A concrete API server *)
Definition kube_call (f : K8s -> kube_result * K8s) : prog kube_result :=
  Ext (fun x => match x with
                | Some m => Ret (KubeError (EExternal m))
                | None => act (fun w => let rk := f (w_k8s w) in (fst rk, set_k8s (snd rk) w))
                end).

Definition set_replicas (n : Z) (s : StatefulSet) : StatefulSet :=
  mkSts (sts_Name s) (sts_Namespace s) (sts_Labels s) n (sts_MatchLabels s) (sts_ServiceName s)
        (sts_PodLabels s) (sts_ImagePullSecrets s) (sts_ContainerName s) (sts_Image s)
        (sts_ImagePullPolicy s) (sts_Env s) (sts_ReadinessPort s) (sts_InitialDelaySeconds s)
        (sts_PeriodSeconds s) (sts_RestartPolicy s).

Definition api_server (parse_patch : string -> option Z) : KubeClient := {|
  GetNamespace ns := kube_call (fun k =>
    (if bool_decide (ns ∈ namespaces k) then KubeOk else KubeNotFound (EExternal "not found"), k));
  CreateNamespace ns := kube_call (fun k =>
    if bool_decide (ns ∈ namespaces k) then (KubeAlreadyExists (EExternal "exists"), k)
    else (KubeOk, mkK8s ({[ns]} ∪ namespaces k) (statefulsets k)));
  GetStatefulSet ns name := kube_call (fun k =>
    (if bool_decide (is_Some (statefulsets k !! (ns, name))) then KubeOk
     else KubeNotFound (EExternal "not found"), k));
  CreateStatefulSet ns sts := kube_call (fun k =>
    if bool_decide (is_Some (statefulsets k !! (ns, sts_Name sts)))
    then (KubeAlreadyExists (EExternal "exists"), k)
    else (KubeOk, mkK8s (namespaces k) (<[(ns, sts_Name sts) := sts]> (statefulsets k))));
  PatchStatefulSet ns name patch := kube_call (fun k =>
    match statefulsets k !! (ns, name) with
    | None => (KubeNotFound (EExternal "not found"), k)
    | Some sts =>
      match parse_patch patch with
      | None => (KubeError (EExternal "bad patch"), k)
      | Some n => (KubeOk, mkK8s (namespaces k)
                     (<[(ns, name) := set_replicas n sts]> (statefulsets k)))
      end
    end);
  DeleteStatefulSet ns name := kube_call (fun k =>
    if bool_decide (is_Some (statefulsets k !! (ns, name)))
    then (KubeOk, mkK8s (namespaces k) (delete (ns, name) (statefulsets k)))
    else (KubeNotFound (EExternal "not found"), k));
|}.

(** ** The backend does not write the tables *)
Class LawfulKube (c : KubeClient) : Prop := {
  lawful_GetNamespace : forall ns, lawful (GetNamespace c ns);
  lawful_CreateNamespace : forall ns, lawful (CreateNamespace c ns);
  lawful_GetStatefulSet : forall ns n, lawful (GetStatefulSet c ns n);
  lawful_CreateStatefulSet : forall ns s, lawful (CreateStatefulSet c ns s);
  lawful_PatchStatefulSet : forall ns n p, lawful (PatchStatefulSet c ns n p);
  lawful_DeleteStatefulSet : forall ns n, lawful (DeleteStatefulSet c ns n);
}.
#[export] Hint Resolve lawful_GetNamespace lawful_CreateNamespace lawful_GetStatefulSet
  lawful_CreateStatefulSet lawful_PatchStatefulSet lawful_DeleteStatefulSet : prog.

Class LawfulKubeLib (l : KubeLib) : Prop := {
  lawful_BuildConfigFromFlags : forall path, lawful (BuildConfigFromFlags l path);
  lawful_InClusterConfig : lawful (InClusterConfig l);
  lawful_UserHomeDir : lawful (UserHomeDir l);
  lawful_os_Stat : forall path, lawful (os_Stat l path);
  lawful_NewForConfig : forall c, lawful (NewForConfig l c);
}.
#[export] Hint Resolve lawful_BuildConfigFromFlags lawful_InClusterConfig lawful_UserHomeDir
  lawful_os_Stat lawful_NewForConfig : prog.

Lemma lawful_kube_call f : lawful (kube_call f).
Proof. unfold kube_call. lawful_all. Qed.
#[export] Instance api_server_lawful parse : LawfulKube (api_server parse).
Proof. split; intros; apply lawful_kube_call. Qed.

#[export] Instance K8sProvider_lawful `{Env} client cfg :
  LawfulKube client -> LawfulProvider (K8sProvider client cfg).
Proof.
  intros Hc. split; intros; cbn [K8sProvider ProvisionCluster ScaleCluster DestroyCluster].
  - unfold K8s_ProvisionCluster, ensure_namespace. lawful_all.
  - lawful K8s_ScaleCluster.
  - lawful K8s_DestroyCluster.
Qed.

Lemma lawful_NewK8sProvider `{Env} client cfg lib :
  LawfulKubeLib lib -> lawful (NewK8sProvider client cfg lib).
Proof. intros Hl. unfold NewK8sProvider, BuildKubeConfig. lawful_all. Qed.
#[export] Hint Resolve lawful_NewK8sProvider : prog.

(** ** What the provider relies on of the API server *)
(** The database is untouched and the API server holds [k]. *)
Definition k8s_at (k : K8s) (w w' : World) : Prop := w_k8s w' = k /\ w_db w' = w_db w.
Abbreviation kept w w' := (k8s_at (w_k8s w) w w').
Definition with_namespace (ns : string) (k : K8s) : K8s :=
  mkK8s ({[ns]} ∪ namespaces k) (statefulsets k).
Definition with_sts (key : string * string) (s : StatefulSet) (k : K8s) : K8s :=
  mkK8s (namespaces k) (<[key := s]> (statefulsets k)).
Definition without_sts (key : string * string) (k : K8s) : K8s :=
  mkK8s (namespaces k) (delete key (statefulsets k)).

(** Reads tell the truth and writes happen or are refused; a call that fails
    ([b = true]) may or may not have taken effect. *)
Class KubeLaws (c : KubeClient) : Prop := {
  kube_get_ns : forall b ns w, wp b (GetNamespace c ns) (fun r w' => kept w w' /\
    match r with
    | KubeOk => ns ∈ namespaces (w_k8s w)
    | KubeNotFound _ => ns ∉ namespaces (w_k8s w)
    | _ => b = true
    end) w;
  kube_create_ns : forall b ns w, wp b (CreateNamespace c ns) (fun r w' =>
    match r with
    | KubeOk => k8s_at (with_namespace ns (w_k8s w)) w w'
    | KubeAlreadyExists _ => kept w w' /\ ns ∈ namespaces (w_k8s w)
    | _ => b = true /\ (kept w w' \/ k8s_at (with_namespace ns (w_k8s w)) w w')
    end) w;
  kube_get_sts : forall b ns n w, wp b (GetStatefulSet c ns n) (fun r w' => kept w w' /\
    match r with
    | KubeOk => is_Some (statefulsets (w_k8s w) !! (ns, n))
    | KubeNotFound _ => statefulsets (w_k8s w) !! (ns, n) = None
    | _ => b = true
    end) w;
  kube_create_sts : forall b ns s w, ns ∈ namespaces (w_k8s w) ->
    wp b (CreateStatefulSet c ns s) (fun r w' =>
    match r with
    | KubeOk => statefulsets (w_k8s w) !! (ns, sts_Name s) = None /\
                k8s_at (with_sts (ns, sts_Name s) s (w_k8s w)) w w'
    | KubeAlreadyExists _ => kept w w' /\ is_Some (statefulsets (w_k8s w) !! (ns, sts_Name s))
    | _ => b = true /\ (kept w w' \/ statefulsets (w_k8s w) !! (ns, sts_Name s) = None /\
                        k8s_at (with_sts (ns, sts_Name s) s (w_k8s w)) w w')
    end) w;
  kube_delete_sts : forall b ns n w, wp b (DeleteStatefulSet c ns n) (fun r w' =>
    match r with
    | KubeOk => k8s_at (without_sts (ns, n) (w_k8s w)) w w'
    | KubeNotFound _ => kept w w' /\ statefulsets (w_k8s w) !! (ns, n) = None
    | _ => b = true /\ (kept w w' \/ k8s_at (without_sts (ns, n) (w_k8s w)) w w')
    end) w;
}.

Lemma wp_kube_call b f w (Q : kube_result -> World -> Prop) :
  (b = true -> forall m, Q (KubeError (EExternal m)) w) ->
  Q (f (w_k8s w)).1 (set_k8s (f (w_k8s w)).2 w) -> wp b (kube_call f) Q w.
Proof. intros H1 H2. split; [exact H2|exact H1]. Qed.

#[export] Instance api_server_laws parse : KubeLaws (api_server parse).
Proof.
  split; intros; apply wp_kube_call; cbn; try (intros Hb msg; by repeat split; try left);
    case_bool_decide as Hd; cbn; try done.
  - split; [done|]. by apply eq_None_not_Some.
  - split; [|done]. by apply eq_None_not_Some.
  - split; [done|]. by apply eq_None_not_Some.
Qed.

(** ** The provider's promises *)
Section Provider.
Context `{E : Env} (client : KubeClient) (cfg : K8sConfig) {KL : KubeLaws client}.

Definition sts_key (tenant : Tenant) : string * string :=
  (kc_Namespace cfg, clusterName (rid tenant)).

Lemma wp_ensure_namespace b w :
  wp b (ensure_namespace client cfg) (fun r w' =>
    w_db w' = w_db w /\ statefulsets (w_k8s w') = statefulsets (w_k8s w) /\
    match r with
    | Ok _ => kc_Namespace cfg ∈ namespaces (w_k8s w')
    | Err _ => b = true
    end) w.
Proof.
  unfold ensure_namespace. apply wp_bind. eapply wp_mono; [|apply kube_get_ns].
  intros r w1 [[Hk Hd] Hr].
  destruct r as [|e|e|e]; cbn [wp]; [by rewrite Hk| |by rewrite Hk|by rewrite Hk].
  apply wp_bind. eapply wp_mono; [|apply kube_create_ns].
  intros [|e'|e'|e'] w2; cbn [wp].
  - intros [-> ->]. rewrite Hk, Hd. repeat split; [done..|]. cbn. set_solver.
  - intros [Hb [[-> ->]|[-> ->]]]; by rewrite Hk, Hd.
  - intros [[-> ->] Hin]. rewrite Hk in *. by rewrite Hd.
  - intros [Hb [[-> ->]|[-> ->]]]; by rewrite Hk, Hd.
Qed.

(** What a provisioning of [tenant] leaves: its StatefulSet, the one already
    there if there is one. *)
Definition provisioned (tenant : Tenant) (k k' : K8s) : Prop :=
  (forall key, key <> sts_key tenant -> statefulsets k' !! key = statefulsets k !! key) /\
  match statefulsets k !! sts_key tenant with
  | Some s => statefulsets k' !! sts_key tenant = Some s
  | None => statefulsets k' !! sts_key tenant = None \/
            statefulsets k' !! sts_key tenant = Some (statefulset cfg tenant)
  end.

Lemma provisioned_same tenant k k' : statefulsets k' = statefulsets k -> provisioned tenant k k'.
Proof. intros H. unfold provisioned. rewrite H. split; [done|]. destruct (_ !! _); auto. Qed.
Lemma provisioned_new tenant k k' :
  statefulsets k !! sts_key tenant = None ->
  statefulsets k' = <[sts_key tenant := statefulset cfg tenant]> (statefulsets k) ->
  provisioned tenant k k'.
Proof.
  intros Hn Hk. unfold provisioned. rewrite Hk, Hn. split.
  - intros key Hne. by apply lookup_insert_ne.
  - right. apply lookup_insert_eq.
Qed.

Lemma wp_Provision b tenant w :
  wp b (K8s_ProvisionCluster client cfg tenant) (fun r w' =>
    w_db w' = w_db w /\ provisioned tenant (w_k8s w) (w_k8s w') /\
    match r with
    | Ok _ => kc_Namespace cfg ∈ namespaces (w_k8s w') /\
              is_Some (statefulsets (w_k8s w') !! sts_key tenant)
    | Err _ => b = true
    end) w.
Proof.
  unfold K8s_ProvisionCluster. apply wp_bindR. eapply wp_mono; [|apply wp_ensure_namespace].
  intros [[]|e] w1 (Hd & Hs & Hns).
  2:{ split; [done|]. split; [by apply provisioned_same|done]. }
  apply wp_bind. eapply wp_mono; [|apply kube_get_sts].
  intros r w2 [[Hk2 Hd2] Hr]. rewrite Hs in Hr. rewrite <-Hk2 in Hns, Hs.
  change (kc_Namespace cfg, sts_Name (statefulset cfg tenant)) with (sts_key tenant) in Hr.
  assert (provisioned tenant (w_k8s w) (w_k8s w2)) as Hsame by by apply provisioned_same.
  assert (w_db w2 = w_db w) as Hdw by congruence.
  destruct r as [|e|e|e]; cbn [wp]; rewrite ?Hs; [done| |done|done].
  apply wp_bind. eapply wp_mono; [|by apply kube_create_sts].
  change (kc_Namespace cfg, sts_Name (statefulset cfg tenant)) with (sts_key tenant).
  assert (forall w3, k8s_at (with_sts (sts_key tenant) (statefulset cfg tenant) (w_k8s w2)) w2 w3 ->
    w_db w3 = w_db w /\ provisioned tenant (w_k8s w) (w_k8s w3) /\
    kc_Namespace cfg ∈ namespaces (w_k8s w3) /\
    is_Some (statefulsets (w_k8s w3) !! sts_key tenant)) as Hnew.
  { intros w3 [H3 Hd3]. rewrite H3, Hd3. split; [done|]. split; [|split; [done|]].
    - apply provisioned_new; [done|]. cbn. by rewrite Hs.
    - cbn. rewrite lookup_insert_eq. by eexists. }
  intros [|e'|e'|e'] w3; cbn [wp].
  - intros [_ H3]. by apply Hnew.
  - intros [Hb [[H3 Hd3]|[_ H3]]]; [by rewrite H3, Hd3|].
    by destruct (Hnew w3 H3) as (? & ? & _).
  - intros [[H3 Hd3] Hin]. rewrite Hs, Hr in Hin. by destruct Hin.
  - intros [Hb [[H3 Hd3]|[_ H3]]]; [by rewrite H3, Hd3|].
    by destruct (Hnew w3 H3) as (? & ? & _).
Qed.

Lemma wp_Destroy_sts b tenant w :
  wp b (K8s_DestroyCluster client cfg tenant) (fun r w' =>
    w_db w' = w_db w /\
    (forall key, key <> sts_key tenant ->
       statefulsets (w_k8s w') !! key = statefulsets (w_k8s w) !! key) /\
    match r with
    | Ok _ => statefulsets (w_k8s w') !! sts_key tenant = None
    | Err _ => b = true
    end) w.
Proof.
  unfold K8s_DestroyCluster. apply wp_bind. eapply wp_mono; [|apply kube_delete_sts].
  change (kc_Namespace cfg, clusterName (rid tenant)) with (sts_key tenant).
  assert (forall w1 key, k8s_at (without_sts (sts_key tenant) (w_k8s w)) w w1 ->
    key <> sts_key tenant ->
    statefulsets (w_k8s w1) !! key = statefulsets (w_k8s w) !! key) as Hother.
  { intros w1 key [-> _] Hne. cbn. by apply lookup_delete_ne. }
  intros [|e|e|e] w1; cbn [wp].
  - intros H1. split; [by destruct H1|]. split; [by intros; apply Hother|].
    destruct H1 as [-> _]. apply lookup_delete_eq.
  - intros [[-> ->] Hn]. done.
  - intros [Hb [[-> ->]|H1]]; [done|]. split; [by destruct H1|]. by split; [intros; apply Hother|].
  - intros [Hb [[-> ->]|H1]]; [done|]. split; [by destruct H1|]. by split; [intros; apply Hother|].
Qed.

(** The recycler may rely on the provider's clean-up. *)
Lemma K8sProvider_destroys : destroys (K8sProvider client cfg).
Proof.
  intros t w. eapply wp_mono; [|apply wp_Destroy_sts]. intros [[]|e] w' (_ & _ & H); [done|].
  discriminate H.
Qed.

(** C27: Provisioning is idempotent and confined to the tenant's StatefulSet.
    Whatever fails, an existing StatefulSet of the tenant's name is left as it is,
    a missing one is created from the configuration or stays missing, and every
    other StatefulSet and the database are untouched; if the call succeeds the
    namespace and the StatefulSet exist; and without external failures it
    succeeds. *)
Theorem K8s_ProvisionCluster_spec tenant w o :
  let x := run (K8s_ProvisionCluster client cfg tenant) w o in
  w_db (final x) = w_db w /\ provisioned tenant (w_k8s w) (w_k8s (final x)) /\
  (is_ok (result x) = true ->
     kc_Namespace cfg ∈ namespaces (w_k8s (final x)) /\
     is_Some (statefulsets (w_k8s (final x)) !! sts_key tenant)) /\
  (calm o -> is_ok (result x) = true).
Proof.
  intros x. destruct (wp_run _ _ w o (wp_Provision true tenant w)) as (Hd & Hp & Hr). fold x in Hd, Hp, Hr.
  split; [done|]. split; [done|]. split.
  - intros Hok. by destruct (result x).
  - intros Ho. destruct (wp_run_calm _ _ w o Ho (wp_Provision false tenant w)) as (_ & _ & Hc).
    fold x in Hc. by destruct (result x).
Qed.

(** Two tenants whose identifiers agree on their first eight characters share
    a StatefulSet.  Provisioning the second reports success although the agents
    that run carry the first tenant's identifier, and destroying the second's
    cluster deletes the first's. *)
Theorem clusterName_collision t1 t2 w o1 o2 o3 :
  takes 8 (uuid_String (rid t1)) = takes 8 (uuid_String (rid t2)) ->
  statefulsets (w_k8s w) !! sts_key t1 = None -> calm o1 -> calm o2 -> calm o3 ->
  let x1 := run (K8s_ProvisionCluster client cfg t1) w o1 in
  let x2 := run (K8s_ProvisionCluster client cfg t2) (final x1) o2 in
  let x3 := run (K8s_DestroyCluster client cfg t2) (final x2) o3 in
  is_ok (result x2) = true /\
  statefulsets (w_k8s (final x2)) !! sts_key t2 = Some (statefulset cfg t1) /\
  statefulsets (w_k8s (final x3)) !! sts_key t1 = None.
Proof.
  intros Heq Hn H1 H2 H3 x1 x2 x3.
  assert (sts_key t2 = sts_key t1) as Hkey by (unfold sts_key, clusterName; by rewrite Heq).
  destruct (wp_run_calm _ _ w o1 H1 (wp_Provision false t1 w)) as (_ & [_ Hp1] & Hr1).
  destruct (wp_run_calm _ _ _ o2 H2 (wp_Provision false t2 (final x1))) as (_ & [_ Hp2] & Hr2).
  destruct (wp_run_calm _ _ _ o3 H3 (wp_Destroy_sts false t2 (final x2))) as (_ & _ & Hr3).
  fold x1 in Hp1, Hr1. fold x2 in Hp2, Hr2. fold x3 in Hr3. rewrite Hkey in *.
  assert (statefulsets (w_k8s (final x1)) !! sts_key t1 = Some (statefulset cfg t1)) as Hs1.
  { rewrite Hn in Hp1. destruct Hp1 as [Hp1|Hp1]; [|done].
    destruct (result x1); [|done]. destruct Hr1 as [_ [s Hs]]. congruence. }
  rewrite Hs1 in Hp2. split; [by destruct (result x2)|]. split; [done|]. by destruct (result x3).
Qed.
End Provider.

(** The API server and the provider are remote. *)
Class RemoteKube (c : KubeClient) : Prop := {
  remote_GetNamespace : forall ns, remote (GetNamespace c ns);
  remote_CreateNamespace : forall ns, remote (CreateNamespace c ns);
  remote_GetStatefulSet : forall ns n, remote (GetStatefulSet c ns n);
  remote_CreateStatefulSet : forall ns s, remote (CreateStatefulSet c ns s);
  remote_PatchStatefulSet : forall ns n p, remote (PatchStatefulSet c ns n p);
  remote_DeleteStatefulSet : forall ns n, remote (DeleteStatefulSet c ns n);
}.
#[export] Hint Resolve remote_GetNamespace remote_CreateNamespace remote_GetStatefulSet
  remote_CreateStatefulSet remote_PatchStatefulSet remote_DeleteStatefulSet : prog.

Lemma remote_kube_call f : remote (kube_call f).
Proof.
  intros [m|]; [done|]. apply safe_act. intros w _. split; [done|]. split; [done|cbn; lia].
Qed.
#[export] Instance api_server_remote parse : RemoteKube (api_server parse).
Proof. split; intros; apply remote_kube_call. Qed.

#[export] Instance K8sProvider_remote `{Env} client cfg :
  RemoteKube client -> RemoteProvider (K8sProvider client cfg).
Proof.
  intros Hc. split; intros; cbn [K8sProvider ProvisionCluster ScaleCluster DestroyCluster].
  - apply remote_bindR.
    + apply remote_bind; [eauto with prog|]. intros []; [done| |done|done].
      apply remote_bind; [eauto with prog|]. by intros [].
    + intros _. apply remote_bind; [eauto with prog|]. intros []; [done| |done|done].
      apply remote_bind; [eauto with prog|]. by intros [].
  - apply remote_bind; [eauto with prog|]. by intros [].
  - apply remote_bind; [eauto with prog|]. by intros [].
Qed.

(** ** Two tenants with the same prefix *)
Definition demo_kube : KubeClient := api_server (fun _ => Some 1%Z).
Definition demo_kube_config : K8sConfig :=
  mkK8sConfig "r-agents" "agent:latest" [] "grpc:9090" "token" "" "" "info".
Definition demo_tenant (id : Z) : Tenant := mkTenant (at_ id 1) "acme" "kubernetes" 2.

Lemma K8s_ProvisionCluster_spec_witness :
  is_ok (result (run (@K8s_ProvisionCluster toy_env demo_kube demo_kube_config (demo_tenant 1))
                     demo quiet)) = true.
Proof.
  destruct (@K8s_ProvisionCluster_spec toy_env demo_kube demo_kube_config _ (demo_tenant 1)
              demo quiet) as (_ & _ & _ & H).
  exact (H (Forall_nil_2 _)).
Defined.

Lemma clusterName_collision_witness :
  let E := toy_env in
  let x1 := run (K8s_ProvisionCluster demo_kube demo_kube_config (demo_tenant 8)) demo quiet in
  let x2 := run (K8s_ProvisionCluster demo_kube demo_kube_config (demo_tenant 9)) (final x1) quiet in
  demo_tenant 8 <> demo_tenant 9 /\
  statefulsets (w_k8s (final x2)) !! sts_key demo_kube_config (demo_tenant 9)
  = Some (statefulset demo_kube_config (demo_tenant 8)).
Proof.
  cbv zeta. split; [discriminate|].
  destruct (@clusterName_collision toy_env demo_kube demo_kube_config _ (demo_tenant 8)
              (demo_tenant 9) demo quiet quiet quiet eq_refl eq_refl (Forall_nil_2 _)
              (Forall_nil_2 _) (Forall_nil_2 _)) as (_ & H & _).
  exact H.
Defined.
