(* ===== verification/Config.v ===== *)
(** * Configuration and token checks (internal/config, internal/auth)

    The process environment is a function from names to values, [""] when unset.
    [time.ParseDuration], the JSON decoder, [URL.String] of the database URL,
    godotenv and zap are parameters. *)
From Stdlib Require Import Ascii.
From S2P Require Import Prelude Errors GoText.

(** ** config.go *)
Record ServerConfig := mkServerConfig {
  HTTPAddr : string; GRPCAddr : string; GRPCPublicAddr : string; PublicURL : string;
  LogLevel : string;
}.
Record DatabaseConfig := mkDatabaseConfig {
  Host : string; Port : string; DBName : string; Username : string; Password : string;
  DatabaseURL : string;
}.
Record KubernetesBackendConfig := mkKubernetesConfig {
  Namespace : string; ImagePullSecrets : list string; KubeConfigPath : string;
}.
Record ClusterConfig := mkClusterConfig {
  cfg_BillingCycleSeconds : Z; BillingAdvanceSeconds : Z; IdleThresholdSeconds : Z;
  AgentToken : string; AgentImage : string; AgentLogLevel : string;
  AgentHeartbeatTimeout : Z; AgentDisconnectGrace : Z; Kubernetes : KubernetesBackendConfig;
}.
Record Config := mkConfig {
  Server : ServerConfig; Database : DatabaseConfig; ClusterCfg : ClusterConfig;
}.

Section Config.
Context (getenv : string -> string).
Context (ParseDuration : string -> res Z).
Context (json_names : string -> option (list string)).
Context (postgres_url : string -> string -> string -> string -> string).

Definition envOr (key fallback : string) : string :=
  if getenv key <>s "" then getenv key else fallback.

(** [for _, c := range s]: [None] at the first character that is no digit;
    [int] arithmetic wraps. *)
Definition is_digit (c : ascii) : bool :=
  (48 <=? nat_of_ascii c)%nat && (nat_of_ascii c <=? 57)%nat.
Fixpoint parse_digits (s : string) (v : Z) : option Z :=
  match s with
  | EmptyString => Some v
  | String c s' =>
    if is_digit c
    then parse_digits s' (wrap64 (wrap64 (v * 10) + (Z.of_nat (nat_of_ascii c) - 48)))
    else None
  end.
Definition envOrInt (key : string) (fallback : Z) : Z :=
  if getenv key =s "" then fallback
  else match parse_digits (getenv key) 0 with
       | None => fallback
       | Some v => if (v =? 0)%Z then fallback else v
       end.

Definition parseImagePullSecrets (raw : string) : list string :=
  if raw =s "" then [] else
  match json_names raw with
  | None => []
  | Some items => List.filter (fun n => n <>s "") items
  end.

Definition envOrDuration (key : string) (fallback : Z) : Z :=
  if getenv key <>s "" then
    match ParseDuration (getenv key) with
    | Ok d => if (0 <? d)%Z then d else fallback
    | Err _ => fallback
    end
  else fallback.

(** The required variables, in the order they are checked. *)
Definition required : list string :=
  ["DB_HOST"; "DB_PORT"; "DB_USER"; "DB_PASSWORD"; "DB_NAME"; "CLUSTER_AGENT_TOKEN"].
Definition missing (keys : list string) : option string :=
  List.find (fun k => getenv k =s "") keys.

Definition positive_or (v fallback : Z) : Z := if (v <=? 0)%Z then fallback else v.

Definition LoadFromEnv : res Config :=
  match missing required with
  | Some k => Err (ENew (k +:+ " is required"))
  | None =>
    let dbURL := postgres_url (getenv "DB_USER") (getenv "DB_PASSWORD")
                   (getenv "DB_HOST" +:+ ":" +:+ getenv "DB_PORT") (getenv "DB_NAME") in
    Ok (mkConfig
      (mkServerConfig (envOr "SERVER_HTTP_ADDR" ":8089") (envOr "SERVER_GRPC_ADDR" ":9090")
         (getenv "SERVER_GRPC_PUBLIC_ADDR") (getenv "SERVER_PUBLIC_URL")
         (envOr "LOG_LEVEL" "info"))
      (mkDatabaseConfig (getenv "DB_HOST") (getenv "DB_PORT") (getenv "DB_NAME")
         (getenv "DB_USER") (getenv "DB_PASSWORD") dbURL)
      (mkClusterConfig
         (positive_or (envOrInt "CLUSTER_BILLING_CYCLE_SECONDS" 3600) 3600)
         (positive_or (envOrInt "CLUSTER_BILLING_ADVANCE_SECONDS" 180) 180)
         (envOrInt "CLUSTER_IDLE_THRESHOLD_SECONDS" 600)
         (getenv "CLUSTER_AGENT_TOKEN")
         (envOr "CLUSTER_AGENT_IMAGE" "r-orchestrator/agent:latest")
         (envOr "CLUSTER_AGENT_LOG_LEVEL" "info")
         (envOrDuration "CLUSTER_AGENT_HEARTBEAT_TIMEOUT" (90 * Second))
         (envOrDuration "CLUSTER_AGENT_DISCONNECT_GRACE" (5 * Minute))
         (mkKubernetesConfig (envOr "CLUSTER_KUBERNETES_NAMESPACE" "r-agents")
            (parseImagePullSecrets (getenv "CLUSTER_KUBERNETES_IMAGE_PULL_SECRETS"))
            (getenv "CLUSTER_KUBERNETES_KUBECONFIG_PATH"))))
  end.

(** [GlobalConfig] with its [globalConfigInitialized] flag: [None] before the
    first successful call. *)
Definition InitGlobalConfig (global : option Config) : res unit * option Config :=
  match global with
  | Some _ => (Err (ENew "global config already initialized"), global)
  | None =>
    match LoadFromEnv with
    | Err e => (Err e, None)
    | Ok cfg => (Ok tt, Some cfg)
    end
  end.
End Config.

(** ** load_env.go: the search for .env up to ten directories above *)
Fixpoint env_path (exists_file : string -> bool) (tries : nat) (path : string) : string :=
  match tries with
  | O => path
  | S n => if exists_file path then path else env_path exists_file n ("../" +:+ path)
  end.
Definition LoadEnvVariable (env : string) (exists_file : string -> bool)
    (godotenv_Load : string -> res unit) (isNotExist : error -> bool) : res unit :=
  if env =s "prod" then Ok tt
  else match godotenv_Load (env_path exists_file 10 ".env") with
       | Ok _ => Ok tt
       | Err e => if isNotExist e then Ok tt else Err e
       end.

(** ** logger.go: [strings.ToLower] as far as it can produce ASCII letters
    (U+0130 lower-cases to i) *)
Inductive Level := DebugLevel | InfoLevel | WarnLevel | ErrorLevel.
Definition lower_ascii (c : ascii) : ascii :=
  let n := nat_of_ascii c in
  if (65 <=? n)%nat && (n <=? 90)%nat then ascii_of_nat (n + 32) else c.
Fixpoint ToLower (s : string) : string :=
  match s with
  | EmptyString => ""
  | String a s1 =>
    match s1 with
    | String b s2 =>
      if (nat_of_ascii a =? 196)%nat && (nat_of_ascii b =? 176)%nat
      then String "i"%char (ToLower s2)
      else String (lower_ascii a) (ToLower s1)
    | EmptyString => String (lower_ascii a) ""
    end
  end.
Definition parseLogLevel (env s : string) : Level :=
  let l := ToLower (TrimSpace s) in
  if l =s "debug" then DebugLevel
  else if l =s "info" then InfoLevel
  else if (l =s "warn") || (l =s "warning") then WarnLevel
  else if l =s "error" then ErrorLevel
  else if env =s "production" then InfoLevel else DebugLevel.

(** [InitLogger], on what zap makes of a level; without a logger [log.Fatalf] ends
    the process. *)
Definition InitLogger {Logger : Type} (NewProduction NewDevelopment : Level -> res Logger)
    (getenv : string -> string) : option Logger :=
  let env := getenv "ENV" in
  let level := parseLogLevel env (getenv "LOG_LEVEL") in
  match (if env =s "production" then NewProduction level else NewDevelopment level) with
  | Ok l => Some l
  | Err _ => None
  end.

(** ** auth/token.go: [md] is the incoming metadata, if any, by lower-case key *)
Fixpoint bearer_check (want : string) (values : list string) : option (res unit) :=
  match values with
  | [] => None
  | value :: rest =>
    match cut_prefix "Bearer " value with
    | Some token =>
      if token <>s "" then
        Some (if token <>s want then Err (ENew "agent token mismatch") else Ok tt)
      else bearer_check want rest
    | None => bearer_check want rest
    end
  end.
Fixpoint header_check (want : string) (get : string -> list string) (keys : list string)
    : option (res unit) :=
  match keys with
  | [] => None
  | key :: rest =>
    match get key with
    | v :: _ =>
      if v <>s "" then Some (if v <>s want then Err (ENew "agent token mismatch") else Ok tt)
      else header_check want get rest
    | [] => header_check want get rest
    end
  end.
Definition ValidateToken (md : option (string -> list string)) (want : string) : res unit :=
  let required_err := Err (ENew "authorization metadata is required") in
  match md with
  | None => required_err
  | Some get =>
    match bearer_check want (get "authorization") with
    | Some r => r
    | None =>
      match header_check want get ["x-agent-token"; "agent-token"] with
      | Some r => r
      | None => required_err
      end
    end
  end.

(** ** Decimal values *)
Lemma parse_digits_char x s v :
  (x < 10)%N ->
  parse_digits (String (pretty_N_char x) s) v = parse_digits s (wrap64 (wrap64 (v * 10) + Z.of_N x)).
Proof.
  intros Hx. assert (x = 0 \/ x = 1 \/ x = 2 \/ x = 3 \/ x = 4 \/ x = 5 \/ x = 6 \/ x = 7 \/ x = 8
    \/ x = 9)%N as Hcases by lia.
  by repeat (destruct Hcases as [->|Hcases]; [reflexivity|]); subst x.
Qed.

Lemma parse_digits_go x s : parse_digits (pretty_N_go x s) 0 = parse_digits s (wrap64 (Z.of_N x)).
Proof.
  revert s. induction (N.lt_wf_0 x) as [x _ IH]. intros s.
  destruct (decide (x = 0%N)) as [->|Hx]; [done|].
  rewrite pretty_N_go_step by lia. rewrite IH by (apply N.div_lt; lia).
  rewrite parse_digits_char by (apply N.mod_lt; lia). f_equal.
  rewrite wrap64_add, wrap64_mul. f_equal.
  rewrite N2Z.inj_div, N2Z.inj_mod. pose proof (Z.div_mod (Z.of_N x) 10). lia.
Qed.

Lemma pretty_N_go_nonempty x s : s <> "" -> pretty_N_go x s <> "".
Proof.
  revert s. induction (N.lt_wf_0 x) as [x _ IH]. intros s Hs.
  destruct (decide (x = 0%N)) as [->|Hx]; [done|].
  rewrite pretty_N_go_step by lia. apply IH; [apply N.div_lt; lia|done].
Qed.
Lemma pretty_N_nonempty (n : N) : pretty n <> "".
Proof.
  unfold pretty, pretty_N. case_decide; [done|]. rewrite pretty_N_go_step by lia.
  by apply pretty_N_go_nonempty.
Qed.

Section ConfigClaims.
Context (getenv : string -> string).

(** C30: A decimal integer in the environment is read back: [envOrInt] returns the
    number written in the variable reduced to a 64-bit [int], and the fallback
    when that is zero.  Below 2^63 the value is the number itself; above it wraps
    and can be negative. *)
Theorem envOrInt_decimal key fallback (n : N) :
  getenv key = pretty n ->
  envOrInt getenv key fallback =
    (if wrap64 (Z.of_N n) =? 0 then fallback else wrap64 (Z.of_N n))%Z /\
  ((0 < Z.of_N n < 2 ^ 63)%Z -> envOrInt getenv key fallback = Z.of_N n).
Proof.
  intros Hkey.
  assert (parse_digits (pretty n) 0 = Some (wrap64 (Z.of_N n))) as Hp.
  { unfold pretty, pretty_N. case_decide as Hn; [by subst n|]. by rewrite parse_digits_go. }
  assert (envOrInt getenv key fallback =
    (if wrap64 (Z.of_N n) =? 0 then fallback else wrap64 (Z.of_N n))%Z) as Hv.
  { unfold envOrInt. rewrite Hkey, Hp.
    destruct (pretty n =s "") eqn:He; [|done]. apply eqs_spec in He. by destruct (pretty_N_nonempty n). }
  split; [done|]. intros Hn. rewrite Hv. unfold wrap64. rewrite wrap_small by lia.
  destruct (Z.eqb_spec (Z.of_N n) 0); [lia|done].
Qed.

Context (ParseDuration : string -> res Z).
Context (json_names : string -> option (list string)).
Context (postgres_url : string -> string -> string -> string -> string).

Lemma positive_or_pos v f : (0 < f)%Z -> (0 < positive_or v f)%Z.
Proof. unfold positive_or. destruct (Z.leb_spec v 0); lia. Qed.
Lemma envOrDuration_pos key f : (0 < f)%Z -> (0 < envOrDuration getenv ParseDuration key f)%Z.
Proof.
  intros Hf. unfold envOrDuration. destruct (_ <>s _); [|done].
  destruct (ParseDuration _) as [d|]; [|done]. by destruct (Z.ltb_spec 0 d).
Qed.

(** The first variable that is not set. *)
Lemma missing_spec l :
  match missing getenv l with
  | None => Forall (fun k => getenv k <> "") l
  | Some k => exists i, l !! i = Some k /\ getenv k = "" /\
      forall j x, j < i -> l !! j = Some x -> getenv x <> ""
  end.
Proof.
  induction l as [|x l IH]; cbn; [done|]. destruct (getenv x =s "") eqn:Hx; clean.
  - exists 0. split_and!; try done. lia.
  - unfold missing in IH. destruct (find _ l) as [k|].
    + destruct IH as (i & Hi & Hk & Hb). exists (S i). split_and!; try done.
      intros [|j] y Hj Hy; cbn in Hy; [by simplify_eq|]. apply (Hb j); [lia|done].
    + by constructor.
Qed.

End ConfigClaims.

Lemma envOrInt_decimal_witness :
  envOrInt (fun _ => "7200") "CLUSTER_BILLING_CYCLE_SECONDS" 3600 = 7200%Z.
Proof.
  refine (proj2 (envOrInt_decimal (fun _ => "7200") "CLUSTER_BILLING_CYCLE_SECONDS" 3600 7200 _) _).
  - reflexivity.
  - lia.
Defined.

(** ** Tokens *)
Lemma cut_prefix_app pre s t : cut_prefix pre s = Some t <-> s = pre +:+ t.
Proof.
  revert s. induction pre as [|a pre IH]; intros s; cbn.
  - split; [by intros [= ->]|by intros ->].
  - destruct s as [|b s]; [done|]. destruct (Ascii.eqb_spec a b) as [->|Hne].
    + rewrite IH. split; [by intros ->|by intros [= ->]].
    + split; [done|]. intros [= -> _]. done.
Qed.

(** Only a caller that presents the expected token is let in.  If
    [ValidateToken] succeeds the expected token is not empty and stands in an
    Authorization header as a bearer token or first in one of the two token
    headers; and a single bearer header with a non-empty expected token is
    enough. *)
Theorem ValidateToken_sound md want :
  (ValidateToken md want = Ok tt ->
     want <> "" /\ exists get, md = Some get /\
       (("Bearer " +:+ want) ∈ get "authorization" \/
        head (get "x-agent-token") = Some want \/ head (get "agent-token") = Some want)) /\
  (forall get, md = Some get -> want <> "" -> get "authorization" = ["Bearer " +:+ want] ->
     ValidateToken md want = Ok tt).
Proof.
  split.
  - unfold ValidateToken. destruct md as [get|]; [|done]. intros Hv.
    assert (forall l, bearer_check want l = Some (Ok tt) ->
      want <> "" /\ ("Bearer " +:+ want) ∈ l) as Hb.
    { induction l as [|v l IH]; cbn [bearer_check]; [done|].
      destruct (cut_prefix "Bearer " v) as [t|] eqn:Hc.
      - apply cut_prefix_app in Hc. destruct (t <>s "") eqn:Ht; clean.
        + destruct (t <>s want) eqn:Hw; clean; [done|]. subst t v. intros _. split; [done|left].
        + intros Hl. destruct (IH Hl). split; [done|by right].
      - intros Hl. destruct (IH Hl). split; [done|by right]. }
    assert (forall l, header_check want get l = Some (Ok tt) ->
      want <> "" /\ exists key, key ∈ l /\ head (get key) = Some want) as Hh.
    { induction l as [|key l IH]; cbn [header_check]; [done|].
      assert (header_check want get l = Some (Ok tt) ->
        want <> "" /\ exists key0, key0 ∈ key :: l /\ head (get key0) = Some want) as Hrest.
      { intros Hl. destruct (IH Hl) as (? & k & ? & ?). split; [done|]. exists k. split; [by right|done]. }
      destruct (get key) as [|v vs] eqn:Hk; [done|]. destruct (v <>s "") eqn:Hv'; [|done]. clean.
      destruct (v <>s want) eqn:Hw; clean; [done|]. subst v. intros _. split; [done|].
      exists key. split; [left|by rewrite Hk]. }
    destruct (bearer_check want _) as [r|] eqn:Hbc.
    + subst r. destruct (Hb _ Hbc) as [? ?]. split; [done|]. exists get. split; [done|by left].
    + destruct (header_check want get _) as [r|] eqn:Hhc; [|done]. subst r.
      destruct (Hh _ Hhc) as (? & k & Hk & Hhd). split; [done|]. exists get. split; [done|]. right.
      apply elem_of_cons in Hk as [->|Hk]; [by left|]. apply list_elem_of_singleton in Hk as ->.
      by right.
  - intros get -> Hw Hg. unfold ValidateToken. rewrite Hg. cbn [bearer_check].
    destruct (cut_prefix "Bearer " ("Bearer " +:+ want)) as [t|] eqn:Hc.
    + apply cut_prefix_app in Hc. apply (inj (String.append "Bearer ")) in Hc as <-.
      destruct (want <>s "") eqn:Hne; clean; [|done]. destruct (want <>s want) eqn:Hs; clean; done.
    + exfalso. assert (cut_prefix "Bearer " ("Bearer " +:+ want) = Some want) as Hx
        by by apply cut_prefix_app. congruence.
Qed.

Lemma ValidateToken_sound_witness :
  ValidateToken (Some (fun k => if k =s "authorization" then ["Bearer secret"] else [])) "secret"
  = Ok tt.
Proof.
  refine (proj2 (ValidateToken_sound _ "secret") _ eq_refl _ _).
  - discriminate.
  - reflexivity.
Defined.
