(* ===== verification/GqlModel.v ===== *)
(** * The records of the API (graph/model/models_gen.go)

    Pointers are options, [time.Time] is an instant, with [0] for Go's zero time. *)
From S2P Require Import Prelude Errors.

(** [graphql.Upload]: only its [File] is read, once, with [io.ReadAll]; it is kept
    as what that call returns. *)
Definition Upload : Type := res string.
(** The zero [Upload]: reading its nil file panics, which the caller of the
    resolver turns into an error of the field. *)
Definition zero_Upload : Upload :=
  Err (EExternal "invalid memory address or nil pointer dereference").

Record SubmitTaskInput := mkSubmitInput {
  in_TenantName : string;
  in_BundleZip : Upload;
  in_CompletionHookURL : option string;
}.

Record CreateTenantInput := mkTenantInput {
  ct_Name : string;
  ct_PrimaryBackendName : string;
  ct_MaxAgents : Z;
}.

Record SubmitTaskResponse := mkSubmitTaskResponse { sr_TaskID : uuid }.

Record CancelTaskPayload := mkCancelTaskPayload {
  cp_TaskID : uuid;
  cp_Status : string;
}.

Record ApiShard := mkApiShard {
  as_ID : uuid;
  as_ScriptName : string;
  as_Status : string;
  as_OutputOssKey : option string;
  as_OutputSha256 : option string;
  as_LastError : option string;
  as_StartedAt : option Z;
  as_FinishedAt : option Z;
}.

Record ApiTask := mkApiTask {
  at_ID : uuid;
  at_Status : string;
  at_LastError : string;
  at_CreatedAt : Z;
  at_StartedAt : option Z;
  at_FinishedAt : option Z;
  at_ShardCount : Z;
  at_Shards : list (option ApiShard);
}.

Record ApiTenant := mkApiTenant {
  an_ID : uuid;
  an_Name : string;
  an_PrimaryBackendName : string;
  an_MaxAgents : Z;
}.
