(* ===== verification/Graph.v ===== *)
(** * The GraphQL resolvers (graph/task.resolvers.go, graph/tenant.resolvers.go)

    [utils.CopyObj] (hopebox) copies the fields of a persistent record into the
    API record of the same names; [CopyTask] and [CopyTenant] stand for it. *)
From S2P Require Import Prelude Errors Model Env Proto World Effects Store StoreFacts.
From S2P Require Import Lifecycle Lawful TaskOrm TenantOrm TaskHooks TaskApi GoText GqlModel.

Section Graph.
Context `{Env}.

(** ** graph/model/uuid.go

    gqlgen's scalars: [MarshalString] makes the marshaler of a JSON string,
    [UnmarshalString] reads the decoded JSON value [v]. *)
Section Scalar.
Context {value marshaler : Type} (graphql_MarshalString : string -> marshaler).
Context (graphql_UnmarshalString : value -> res string).

Definition MarshalUUID (id : uuid) : marshaler := graphql_MarshalString (uuid_String id).

Definition UnmarshalUUID (v : value) : res uuid :=
  match graphql_UnmarshalString v with
  | Err e => Err e
  | Ok text =>
    match uuid_Parse text with
    | Err e => Err (wrapf "parse uuid" e)
    | Ok id => Ok id
    end
  end.
End Scalar.

Definition Resolver_SubmitTask (input : SubmitTaskInput) : prog (res SubmitTaskResponse) :=
  if TrimSpace (in_TenantName input) =s "" then Ret (Err (ENew "tenant name is required"))
  else
  zipBytes <-? Ret (in_BundleZip input) ;;
  if zipBytes =s "" then Ret (Err (ENew "bundle zip is required"))
  else
  taskID <-? SubmitTask (mkSubmit (in_TenantName input) zipBytes
                           (default "" (in_CompletionHookURL input))) ;;
  Ret (Ok (mkSubmitTaskResponse taskID)).

Definition Resolver_CancelTask (notify : string -> uuid -> prog (res unit))
    (tenantName : string) (taskID : uuid) : prog (res CancelTaskPayload) :=
  _ <-? CancelTask notify tenantName taskID ;;
  Ret (Ok (mkCancelTaskPayload taskID TaskStatusCancelled)).

Section Copy.
Context {GqlTask GqlTenant : Type}.
Context (CopyTask : Task * list TaskShard -> prog (res GqlTask)).
Context (CopyTenant : Tenant -> prog (res GqlTenant)).

Definition Resolver_GetTaskByID (tenantName : string) (taskID : uuid) : prog (res GqlTask) :=
  task <-? GetTask tenantName taskID ;;
  CopyTask task.

Fixpoint copy_all (l : list (Task * list TaskShard)) : prog (res (list GqlTask)) :=
  match l with
  | [] => Ret (Ok [])
  | t :: l' =>
    x <-? CopyTask t ;;
    xs <-? copy_all l' ;;
    Ret (Ok (x :: xs))
  end.

Definition Resolver_GetTaskList (tenantName : string) (status : option string)
    : prog (res (list GqlTask)) :=
  found <-? ListTasks tenantName (default "" status) ;;
  copy_all found.

Definition Resolver_CreateTenant (input : CreateTenantInput) : prog (res GqlTenant) :=
  _ <-? GetDB ;;
  if (ct_MaxAgents input <=? 0)%Z then Ret (Err (ENew "max_agents must be positive"))
  else
  tenant <-? TenantOrm.Create (mkTenant (mkBase uuid_Nil 0 0 None) (ct_Name input)
                                 (ct_PrimaryBackendName input) (ct_MaxAgents input)) ;;
  CopyTenant tenant.
End Copy.
End Graph.

(** ** The resolvers keep the life cycle *)
Section GraphLaws.
Context `{E : Env, L : !EnvLaws E}.
Context {GqlTask GqlTenant : Type}.
Context (CopyTask : Task * list TaskShard -> prog (res GqlTask)).
Context (CopyTenant : Tenant -> prog (res GqlTenant)).
Context (HcT : forall t, lawful (CopyTask t)) (HcN : forall t, lawful (CopyTenant t)).

Lemma lawful_Resolver_SubmitTask input : lawful (Resolver_SubmitTask input).
Proof. lawful Resolver_SubmitTask. Qed.
Lemma lawful_Resolver_CancelTask notify tenantName id :
  (forall a s, lawful (notify a s)) -> lawful (Resolver_CancelTask notify tenantName id).
Proof. lawful Resolver_CancelTask. Qed.
Lemma lawful_Resolver_GetTaskByID tenantName id :
  lawful (Resolver_GetTaskByID CopyTask tenantName id).
Proof. lawful Resolver_GetTaskByID. Qed.
Lemma lawful_copy_all l : lawful (copy_all CopyTask l).
Proof. induction l as [|t l IH]; cbn [copy_all]; lawful_all. Qed.
#[local] Hint Resolve lawful_copy_all : prog.
Lemma lawful_Resolver_GetTaskList tenantName status :
  lawful (Resolver_GetTaskList CopyTask tenantName status).
Proof. lawful Resolver_GetTaskList. Qed.
Lemma lawful_Resolver_CreateTenant input : lawful (Resolver_CreateTenant CopyTenant input).
Proof. lawful Resolver_CreateTenant. Qed.
End GraphLaws.
#[export] Hint Resolve lawful_Resolver_SubmitTask lawful_Resolver_CancelTask
  lawful_Resolver_GetTaskByID lawful_Resolver_GetTaskList lawful_Resolver_CreateTenant : prog.
