(* ===== verification/GqlRuntime.v ===== *)
(** * The GraphQL runtime the generated code runs on

    gqlgen (github.com/99designs/gqlgen/graphql) is not part of the repository:
    its functions are the operations of the class [Gql], and what the generated
    code relies on are the laws [GqlLaws], met by [toy_gql].  The values the
    generated code builds and tests ([graphql.Marshaler], [any], field contexts)
    are data types; a function that takes a [ctx] takes the path of the response
    it works on.

    A function of the executor is a [G]: it threads the errors of the response
    ([graphql.AddError]) and may panic. *)
From S2P Require Import Prelude Errors Model Env World Effects GqlModel.

(** ** Values *)

(** [graphql.Marshaler]: [graphql.Null], a scalar by the JSON it writes,
    [graphql.Array], a [FieldSet] by response keys; [GNil] is a nil interface,
    the initial value of a field. *)
Inductive gval :=
| GNil
| GNull
| GScalar (json : string)
| GList (l : list gval)
| GObj (l : list (string * gval)).

(** [v == graphql.Null]. *)
Definition is_Null (v : gval) : bool := match v with GNull => true | _ => false end.

(** The types of the library that the generated code only passes on: selection
    sets of the parsed query, response paths, the scalars of the decoded variables
    and the reflected schema. *)
Class GqlTypes := {
  SelectionSet : Type;
  Path : Type;
  Scalar : Type;
  (** graphql/introspection *)
  IDirective : Type;
  IEnumValue : Type;
  IField : Type;
  IInputValue : Type;
  ISchema : Type;
  IType : Type;
}.

Section Types.
Context {GT : GqlTypes}.

(** [any], as the variables of a request are decoded. *)
Inductive any :=
| ANil
| AMap (m : list (string * any))
| AScalar (x : Scalar).

(** [v, ok := m[k]]. *)
Fixpoint map_get {A} (k : string) (m : list (string * A)) : option A :=
  match m with
  | [] => None
  | (j, v) :: m' => if j =s k then Some v else map_get k m'
  end.

(** [graphql.CollectedField]; [cf_ArgumentMap] is
    [field.ArgumentMap(ec.Variables)]. *)
Record CollectedField := mkField {
  cf_Name : string;
  cf_Alias : string;
  cf_ArgumentMap : list (string * any);
  cf_Selections : SelectionSet;
}.

(** The dynamic types of the arguments in [fc.Args]. *)
Inductive argval :=
| VString (s : string)
| VStringPtr (s : option string)
| VUUID (u : uuid)
| VBool (b : bool)
| VBoolPtr (b : option bool)
| VSubmitTaskInput (i : SubmitTaskInput)
| VCreateTenantInput (i : CreateTenantInput).

(** [graphql.FieldContext]; its function [Child] is named by the object type whose
    [childFields] function it calls. *)
Inductive child := NilChild | ChildrenOf (type : string).
Record FieldContext := mkFC {
  fc_Object : string;
  fc_Field : option CollectedField;
  fc_IsMethod : bool;
  fc_IsResolver : bool;
  fc_Args : list (string * argval);
  fc_Child : child;
}.
Definition with_Args (args : list (string * argval)) (fc : FieldContext) : FieldContext :=
  mkFC (fc_Object fc) (fc_Field fc) (fc_IsMethod fc) (fc_IsResolver fc) args (fc_Child fc).

(** ** Executor functions *)
Inductive out (A : Type) : Type :=
| Val (a : A)
| Panic (msg : string).
#[global] Arguments Val {_} _.
#[global] Arguments Panic {_} _.

Definition Reported : Type := list (Path * error).
Definition G (A : Type) : Type := Reported -> prog (out A * Reported).

Definition gret {A} (a : A) : G A := fun es => Ret (Val a, es).
Definition gpanic {A} (msg : string) : G A := fun es => Ret (Panic msg, es).
Definition gbind {A B} (p : G A) (k : A -> G B) : G B := fun es =>
  x <- p es ;;
  match x with
  | (Val a, es') => k a es'
  | (Panic m, es') => Ret (Panic m, es')
  end.
(** [graphql.AddError]. *)
Definition AddError (ctx : Path) (e : error) : G unit := fun es => Ret (Val tt, (es ++ [(ctx, e)])%list).
Definition glift {A} (p : prog A) : G A := fun es => x <- p ;; Ret (Val x, es).
(** The value of a type assertion or of a pure function that may panic. *)
Definition gout {A} (x : out A) : G A := fun es => Ret (x, es).
(** [defer func() { if r := recover(); r != nil { h(r) } }()] with the value the
    deferred function leaves in the named result. *)
Definition recovering {A} (p : G A) (h : string -> G A) : G A := fun es =>
  x <- p es ;;
  match x with
  | (Val a, es') => Ret (Val a, es')
  | (Panic m, es') => h m es'
  end.

(** Pure functions that may panic or fail. *)
Definition obind {A B} (x : out (res A)) (k : A -> out (res B)) : out (res B) :=
  match x with
  | Val (Ok a) => k a
  | Val (Err e) => Val (Err e)
  | Panic m => Panic m
  end.
End Types.

Notation "x <~ p ;; k" := (gbind p (fun x => k))
  (at level 100, p at next level, right associativity) : go_scope.
Notation "p ~;; k" := (gbind p (fun _ => k)) (at level 100, right associativity) : go_scope.
Notation "x <~? p ;; k" := (obind p (fun x => k))
  (at level 100, p at next level, right associativity) : go_scope.

(** ** The library *)
Class Gql {GT : GqlTypes} := {
  (** [graphql.CollectFields(opCtx, sel, implementors)]: the fields selected on
      an object, with fragments expanded and fields of one key merged. *)
  CollectFields : SelectionSet -> list string -> list CollectedField;
  (** How deep the braces of a selection set are nested. *)
  selection_depth : SelectionSet -> nat;
  WithFieldContext : Path -> FieldContext -> Path;
  WithRootFieldContext : Path -> CollectedField -> Path;
  WithPathField : Path -> string -> Path;
  WithIndex : Path -> nat -> Path;
  (** [NewScalarFieldContext(object, field, isMethod, isResolver, childErr)]. *)
  NewScalarFieldContext : string -> CollectedField -> bool -> bool -> error -> res FieldContext;
  ErrorOnPath : Path -> error -> error;
  HasFieldError : Reported -> Path -> bool;
  Recover : string -> error;
  MarshalString : string -> gval;
  MarshalInt : Z -> gval;
  MarshalBoolean : bool -> gval;
  MarshalTime : Z -> gval;
  UnmarshalString : any -> res string;
  UnmarshalInt : any -> res Z;
  UnmarshalBoolean : any -> res bool;
  UnmarshalUpload : any -> res Upload;
  (** [ProcessArgField(ctx, rawArgs, name, unmarshal)], with the zero value of
      the argument's type. *)
  ProcessArgField : forall {A : Type}, Path -> list (string * any) -> string -> A ->
    (Path -> any -> out (res A)) -> out (res A);
  (** [ResolveField(ctx, opCtx, field, fieldContext, resolver, nil, marshal,
      recoverFromPanic, nonNull)]. *)
  ResolveField : forall {A : Type}, Path -> CollectedField ->
    (Path -> CollectedField -> G (res FieldContext)) -> (FieldContext -> G (res A)) ->
    (Path -> SelectionSet -> A -> G gval) -> bool -> bool -> G gval;
  (** The count of invalid fields that the function leaves in its field set is
      part of its result. *)
  RootResolverMiddleware : forall {A : Type}, Path -> (Path -> G A) -> G A;
  (** [MarshalSliceConcurrently(ctx, len, 0, false, f)]. *)
  MarshalSliceConcurrently : Path -> nat -> (Path -> nat -> G gval) -> G (list gval);
  (** [FieldSet.Dispatch]: runs the functions given to [Concurrently], by the
      index of their field. *)
  Dispatch : list (nat * G (gval * nat)) -> G (list (nat * (gval * nat)));
  (** The text [MarshalGQL] writes. *)
  MarshalGQL : gval -> string;
}.

Section Runs.
Context {GT : GqlTypes}.

(** Labelled functions one after another. *)
Fixpoint run_list {A} (l : list (nat * G A)) : G (list (nat * A)) :=
  match l with
  | [] => gret []
  | (i, p) :: l' => a <~ p ;; rs <~ run_list l' ;; gret ((i, a) :: rs)
  end.
Definition at_index {A} (d : A) (rs : list (nat * A)) (i : nat) : A :=
  default d ((list_to_map rs : gmap nat A) !! i).
End Runs.

(** What the generated code relies on.  [CollectFields_depth]: a query is a finite
    tree.  [ResolveField_eq]: the field context, the
    resolver and the marshaller run one after the other; a resolver's error and a
    recovered panic are reported and make the field null.
    [MarshalSlice_order], [Dispatch_order]: every function runs once, in an order
    of the runtime's.  [ProcessArgField_eq]: a missing argument is the zero value.
    [RootResolverMiddleware_eq]: no extension is installed.  [HasFieldError_some]: there
    is an error if a field has one.  The scalars: only the zero time is written as
    null. *)
Class GqlLaws {GT : GqlTypes} (GQ : Gql) : Prop := {
  CollectFields_depth : forall sel types f, f ∈ CollectFields sel types ->
    selection_depth (cf_Selections f) < selection_depth sel;
  ResolveField_eq : forall (A : Type) ctx field init (resolver : FieldContext -> G (res A)) marshal nn es,
    ResolveField ctx field init resolver marshal true nn es =
    (r <~ init ctx field ;;
     match r with
     | Err _ => gret GNull
     | Ok fc =>
       let ctx := WithFieldContext ctx fc in
       recovering
         (v <~ resolver fc ;;
          match v with
          | Err e => AddError ctx e ~;; gret GNull
          | Ok a => marshal ctx (cf_Selections field) a
          end)
         (fun m => AddError ctx (Recover m) ~;; gret GNull)
     end) es;
  RootResolverMiddleware_eq : forall (A : Type) ctx (f : Path -> G A) es,
    RootResolverMiddleware ctx f es = f ctx es;
  NewScalarFieldContext_ok : forall object field m r e, exists fc,
    NewScalarFieldContext object field m r e = Ok fc;
  MarshalSlice_order : forall ctx n f, exists order, order ≡ₚ seq 0 n /\ forall es,
    MarshalSliceConcurrently ctx n f es =
    (rs <~ run_list (map (fun i => (i, f (WithIndex ctx i) i)) order) ;;
     gret (map (at_index GNil rs) (seq 0 n))) es;
  Dispatch_order : forall ds, exists ds', ds' ≡ₚ ds /\ forall es, Dispatch ds es = run_list ds' es;
  ProcessArgField_eq : forall (A : Type) ctx raw name zero (f : Path -> any -> out (res A)),
    ProcessArgField ctx raw name zero f =
    match map_get name raw with
    | None => Val (Ok zero)
    | Some v => f (WithPathField ctx name) v
    end;
  HasFieldError_some : forall es ctx, HasFieldError es ctx = true -> es <> [];
  MarshalString_scalar : forall s, exists j, MarshalString s = GScalar j;
  MarshalInt_scalar : forall n, exists j, MarshalInt n = GScalar j;
  MarshalBoolean_scalar : forall b, exists j, MarshalBoolean b = GScalar j;
  MarshalTime_zero : MarshalTime 0 = GNull;
  MarshalTime_scalar : forall t, t <> 0%Z -> exists j, MarshalTime t = GScalar j;
}.
