(* ===== verification/GqlMarshal.v ===== *)
(** * Objects and scalars of the GraphQL executor

    The loop that every generated object function runs over its selected fields
    (the object.gotpl region of graph/generated/generated.go), and the marshalling
    of scalars and lists (the type.gotpl region, graph/generated/uuid.go). *)
From S2P Require Import Prelude Errors Model Env World Effects GqlModel Graph GqlRuntime.

Section Marshal.
Context `{E : Env} {GT : GqlTypes} {GQ : Gql}.

(** ** Objects *)

(** What a case of the [switch field.Name] does: sets the value, also counts a
    null as invalid, or leaves the field to [out.Concurrently]. *)
Inductive slot :=
| Plain (p : G gval)
| Required (p : G gval)
| Concurrently (p : G (gval * nat)).

Definition unknown_field (field : CollectedField) : slot :=
  Plain (gpanic ("unknown field " +:+ quoted (cf_Name field))).

Definition invalids (v : gval) : nat := if is_Null v then 1 else 0.

(** The loop: the values set, the invalid ones counted, and the functions given to
    [Concurrently], by field index. *)
Fixpoint set_fields (i : nat) (fields : list CollectedField) (case : CollectedField -> slot)
    : G (list (gval * nat) * list (nat * G (gval * nat))) :=
  match fields with
  | [] => gret ([], [])
  | field :: fields' =>
    x <~ match case field with
         | Plain p => v <~ p ;; gret ((v, 0), [])
         | Required p => v <~ p ;; gret ((v, invalids v), [])
         | Concurrently p => gret ((GNil, 0), [(i, p)])
         end ;;
    rest <~ set_fields (S i) fields' case ;;
    gret (x.1 :: rest.1, (x.2 ++ rest.2)%list)
  end.

(** [out.Values] once the concurrent functions have returned. *)
Definition dispatched (values : list (gval * nat)) (ds : list (nat * (gval * nat)))
    : list (gval * nat) :=
  imap (fun i v => at_index v ds i) values.

Definition object_of (fields : list CollectedField) (values : list (gval * nat)) : gval :=
  if (0 <? list_sum values.*2)%nat then GNull
  else GObj (zip (map cf_Alias fields) values.*1).

(** The body of an object function.  [@defer] groups are never made: the map of
    deferred field sets stays empty. *)
Definition exec_object (fields : list CollectedField) (case : CollectedField -> slot) : G gval :=
  x <~ set_fields 0 fields case ;;
  ds <~ Dispatch x.2 ;;
  gret (object_of fields (dispatched x.1 ds)).

(** ** Non-null values *)
Definition null_not_allowed : error :=
  ENew "the requested element is null which the schema does not allow".

Definition report_null (ctx : Path) : G unit := fun es =>
  if HasFieldError es ctx then Ret (Val tt, es) else AddError ctx null_not_allowed es.

(** A non-null scalar. *)
Definition not_null (ctx : Path) (res : gval) : G gval :=
  if is_Null res then report_null ctx ~;; gret res else gret res.

Definition marshalNBoolean2bool (ctx : Path) (sel : SelectionSet) (v : bool) : G gval :=
  not_null ctx (MarshalBoolean v).
Definition marshalNInt2int (ctx : Path) (sel : SelectionSet) (v : Z) : G gval :=
  not_null ctx (MarshalInt v).
Definition marshalNString2string (ctx : Path) (sel : SelectionSet) (v : string) : G gval :=
  not_null ctx (MarshalString v).
Definition marshalNTime2Time (ctx : Path) (sel : SelectionSet) (v : Z) : G gval :=
  not_null ctx (MarshalTime v).

(** graph/generated/uuid.go *)
Definition _UUID (ctx : Path) (sel : SelectionSet) (v : option uuid) : G gval :=
  match v with
  | None => gret GNull
  | Some id => gret (MarshalUUID MarshalString id)
  end.
Definition marshalNUUID2UUID (ctx : Path) (sel : SelectionSet) (v : uuid) : G gval :=
  _UUID ctx sel (Some v).

(** A non-null pointer to an object. *)
Definition non_nil {A} (object : Path -> SelectionSet -> A -> G gval)
    (ctx : Path) (sel : SelectionSet) (v : option A) : G gval :=
  match v with
  | None => report_null ctx ~;; gret GNull
  | Some x => object ctx sel x
  end.

(** A list of non-null elements.  The panic of an element passes to the field
    ([MarshalSlice_order]), where its recovery is reported; the runtime may already
    recover it at the element ([omitPanicHandler] is false). *)
Definition marshal_list {A} (element : Path -> SelectionSet -> A -> G gval)
    (ctx : Path) (sel : SelectionSet) (v : list A) : G gval :=
  ret <~ MarshalSliceConcurrently ctx (length v) (fun ctx i =>
           match v !! i with
           | Some x => element ctx sel x
           | None => gpanic "index out of range"
           end) ;;
  gret (if existsb is_Null ret then GNull else GList ret).

(** ** Nullable values *)
Definition marshalOBoolean2bool (ctx : Path) (sel : SelectionSet) (v : bool) : G gval :=
  gret (MarshalBoolean v).
Definition marshalOBoolean2ptr_bool (ctx : Path) (sel : SelectionSet) (v : option bool) : G gval :=
  gret (match v with None => GNull | Some b => MarshalBoolean b end).
Definition marshalOString2ptr_string (ctx : Path) (sel : SelectionSet) (v : option string) : G gval :=
  gret (match v with None => GNull | Some s => MarshalString s end).
Definition marshalOTime2ptr_Time (ctx : Path) (sel : SelectionSet) (v : option Z) : G gval :=
  gret (match v with None => GNull | Some t => MarshalTime t end).

(** A nullable list of non-null elements. *)
Definition marshal_optional_list {A} (element : Path -> SelectionSet -> A -> G gval)
    (ctx : Path) (sel : SelectionSet) (v : option (list A)) : G gval :=
  match v with
  | None => gret GNull
  | Some l => marshal_list element ctx sel l
  end.

(** ** Input scalars *)
Definition on_path {A} (ctx : Path) (r : res A) : out (res A) :=
  Val (match r with Ok a => Ok a | Err e => Err (ErrorOnPath ctx e) end).

(** The same around an input function. *)
Definition input_on_path {A} (ctx : Path) (r : out (res A)) : out (res A) :=
  match r with
  | Val r => on_path ctx r
  | Panic m => Panic m
  end.

Definition unmarshalNString2string (ctx : Path) (v : any) : out (res string) :=
  on_path ctx (UnmarshalString v).
Definition unmarshalNInt2int (ctx : Path) (v : any) : out (res Z) :=
  on_path ctx (UnmarshalInt v).
Definition unmarshalNBoolean2bool (ctx : Path) (v : any) : out (res bool) :=
  on_path ctx (UnmarshalBoolean v).
Definition unmarshalOBoolean2bool (ctx : Path) (v : any) : out (res bool) :=
  on_path ctx (UnmarshalBoolean v).
Definition unmarshalNUpload2Upload (ctx : Path) (v : any) : out (res Upload) :=
  on_path ctx (UnmarshalUpload v).

Definition unmarshalInputUUID (ctx : Path) (v : any) : out (res uuid) :=
  on_path ctx (UnmarshalUUID UnmarshalString v).
Definition unmarshalNUUID2UUID (ctx : Path) (v : any) : out (res uuid) :=
  input_on_path ctx (unmarshalInputUUID ctx v).

Definition unmarshalOString2ptr_string (ctx : Path) (v : any) : out (res (option string)) :=
  match v with
  | ANil => Val (Ok None)
  | _ => s <~? on_path ctx (UnmarshalString v) ;; Val (Ok (Some s))
  end.
Definition unmarshalOBoolean2ptr_bool (ctx : Path) (v : any) : out (res (option bool)) :=
  match v with
  | ANil => Val (Ok None)
  | _ => b <~? on_path ctx (UnmarshalBoolean v) ;; Val (Ok (Some b))
  end.

(** One field of an input object: [v, ok := asMap[k]; if !ok { continue }]. *)
Definition input_field {A B} (asMap : list (string * any)) (k : string) (ctx : Path)
    (unmarshal : Path -> any -> out (res B)) (set : B -> A -> A) (it : A) : out (res A) :=
  match map_get k asMap with
  | None => Val (Ok it)
  | Some v => data <~? unmarshal (WithPathField ctx k) v ;; Val (Ok (set data it))
  end.

(** ** Field contexts *)
Definition object_context (object : string) (field : CollectedField) (isMethod isResolver : bool)
    (children : string) : FieldContext :=
  mkFC object (Some field) isMethod isResolver [] (ChildrenOf children).

(** The end of the [fieldContext] function of a field with arguments. *)
Definition with_arguments (ctx : Path) (fc : FieldContext)
    (args : Path -> list (string * any) -> out (res (list (string * argval))))
    (field : CollectedField) : G (res FieldContext) :=
  let ctx := WithFieldContext ctx fc in
  recovering
    (r <~ gout (args ctx (cf_ArgumentMap field)) ;;
     match r with
     | Err e => AddError ctx e ~;; gret (Err e)
     | Ok a => gret (Ok (with_Args a fc))
     end)
    (fun m => AddError ctx (Recover m) ~;; gret (Err (Recover m))).

(** The default case of a [childFields] function. *)
Definition no_field (field : CollectedField) (type : string) : error :=
  ENew ("no field named " +:+ quoted (cf_Name field) +:+ " was found under type " +:+ type).

(** [fc.Args[name].(T)]. *)
Definition arg {A} (as_type : argval -> option A) (name : string) (fc : FieldContext) : G A :=
  match map_get name (fc_Args fc) ≫= as_type with
  | Some a => gret a
  | None => gpanic "interface conversion"
  end.
Definition as_string v := match v with VString s => Some s | _ => None end.
Definition as_string_ptr v := match v with VStringPtr s => Some s | _ => None end.
Definition as_uuid v := match v with VUUID u => Some u | _ => None end.
Definition as_bool v := match v with VBool b => Some b | _ => None end.
Definition as_SubmitTaskInput v := match v with VSubmitTaskInput i => Some i | _ => None end.
Definition as_CreateTenantInput v := match v with VCreateTenantInput i => Some i | _ => None end.
End Marshal.
