(* ===== verification/GqlIntrospect.v ===== *)
(** * Introspection (graph/generated/generated.go)

    The generated executor of the types [__Schema], [__Type], [__Field],
    [__InputValue], [__EnumValue] and [__Directive].  The reflected schema is a
    value of gqlgen's introspection package, read through the class
    [Introspection].  The object functions recurse through the types that fields,
    arguments and wrappers refer to; each call goes one level down the query, and
    [___Type] is cut at the depth of the query, which no call reaches: it is the only
    solution of the recursion [___Type_step] (theorem introspection_terminates of
    GqlQueries.v). *)
From S2P Require Import Prelude Errors Model Env World Effects GqlModel Graph.
From S2P Require Import GqlRuntime GqlMarshal.

(** graphql/introspection; a Go slice marshalled as a nullable list may be nil. *)
Class Introspection {GT : GqlTypes} := {
  IDirective_Name : IDirective -> string;
  IDirective_Description : IDirective -> option string;
  IDirective_IsRepeatable : IDirective -> bool;
  IDirective_Locations : IDirective -> list string;
  IDirective_Args : IDirective -> list IInputValue;
  IEnumValue_Name : IEnumValue -> string;
  IEnumValue_Description : IEnumValue -> option string;
  IEnumValue_IsDeprecated : IEnumValue -> bool;
  IEnumValue_DeprecationReason : IEnumValue -> option string;
  IField_Name : IField -> string;
  IField_Description : IField -> option string;
  IField_Args : IField -> list IInputValue;
  IField_Type : IField -> option IType;
  IField_IsDeprecated : IField -> bool;
  IField_DeprecationReason : IField -> option string;
  IInputValue_Name : IInputValue -> string;
  IInputValue_Description : IInputValue -> option string;
  IInputValue_Type : IInputValue -> option IType;
  IInputValue_DefaultValue : IInputValue -> option string;
  IInputValue_IsDeprecated : IInputValue -> bool;
  IInputValue_DeprecationReason : IInputValue -> option string;
  ISchema_Description : ISchema -> option string;
  ISchema_Types : ISchema -> list IType;
  ISchema_QueryType : ISchema -> option IType;
  ISchema_MutationType : ISchema -> option IType;
  ISchema_SubscriptionType : ISchema -> option IType;
  ISchema_Directives : ISchema -> list IDirective;
  IType_Kind : IType -> string;
  IType_Name : IType -> option string;
  IType_Description : IType -> option string;
  IType_SpecifiedByURL : IType -> option string;
  IType_Fields : IType -> bool -> option (list IField);
  IType_Interfaces : IType -> option (list IType);
  IType_PossibleTypes : IType -> option (list IType);
  IType_EnumValues : IType -> bool -> option (list IEnumValue);
  IType_InputFields : IType -> option (list IInputValue);
  IType_OfType : IType -> option IType;
  IType_IsOneOf : IType -> bool;
  IntrospectType : string -> res (option IType);
  IntrospectSchema : res (option ISchema);
}.

Section Introspect.
Context `{E : Env} {GT : GqlTypes} {GQ : Gql} {IS : Introspection}.

Definition marshalN__TypeKind2string (ctx : Path) (sel : SelectionSet) (v : string) : G gval :=
  not_null ctx (MarshalString v).
Definition marshalN__DirectiveLocation2string (ctx : Path) (sel : SelectionSet) (v : string) : G gval :=
  not_null ctx (MarshalString v).
Definition marshalN__DirectiveLocation2slice_string : Path -> SelectionSet -> list string -> G gval :=
  marshal_list marshalN__DirectiveLocation2string.

(** Input functions of the introspection enums: no field has such an argument. *)
Definition unmarshalN__TypeKind2string (ctx : Path) (v : any) : out (res string) :=
  on_path ctx (UnmarshalString v).
Definition unmarshalN__DirectiveLocation2string (ctx : Path) (v : any) : out (res string) :=
  on_path ctx (UnmarshalString v).

(** ** __EnumValue *)
Definition fieldContext___EnumValue_name (ctx : Path) (field : CollectedField) : G (res FieldContext) :=
  gret (NewScalarFieldContext "__EnumValue" field false false
          (ENew "field of type String does not have child fields")).
Definition ___EnumValue_name (ctx : Path) (field : CollectedField) (obj : IEnumValue) : G gval :=
  ResolveField ctx field fieldContext___EnumValue_name (fun _ => gret (Ok (IEnumValue_Name obj)))
    marshalNString2string true true.
Definition fieldContext___EnumValue_description (ctx : Path) (field : CollectedField) : G (res FieldContext) :=
  gret (NewScalarFieldContext "__EnumValue" field true false
          (ENew "field of type String does not have child fields")).
Definition ___EnumValue_description (ctx : Path) (field : CollectedField) (obj : IEnumValue) : G gval :=
  ResolveField ctx field fieldContext___EnumValue_description (fun _ => gret (Ok (IEnumValue_Description obj)))
    marshalOString2ptr_string true false.
Definition fieldContext___EnumValue_isDeprecated (ctx : Path) (field : CollectedField) : G (res FieldContext) :=
  gret (NewScalarFieldContext "__EnumValue" field true false
          (ENew "field of type Boolean does not have child fields")).
Definition ___EnumValue_isDeprecated (ctx : Path) (field : CollectedField) (obj : IEnumValue) : G gval :=
  ResolveField ctx field fieldContext___EnumValue_isDeprecated (fun _ => gret (Ok (IEnumValue_IsDeprecated obj)))
    marshalNBoolean2bool true true.
Definition fieldContext___EnumValue_deprecationReason (ctx : Path) (field : CollectedField) : G (res FieldContext) :=
  gret (NewScalarFieldContext "__EnumValue" field true false
          (ENew "field of type String does not have child fields")).
Definition ___EnumValue_deprecationReason (ctx : Path) (field : CollectedField) (obj : IEnumValue) : G gval :=
  ResolveField ctx field fieldContext___EnumValue_deprecationReason (fun _ => gret (Ok (IEnumValue_DeprecationReason obj)))
    marshalOString2ptr_string true false.
Definition __EnumValueImplementors : list string := ["__EnumValue"].
Definition ___EnumValue (ctx : Path) (sel : SelectionSet) (obj : IEnumValue) : G gval :=
  exec_object (CollectFields sel __EnumValueImplementors) (fun field =>
    if cf_Name field =s "__typename" then Plain (gret (MarshalString "__EnumValue"))
    else if cf_Name field =s "name" then Required (___EnumValue_name ctx field obj)
    else if cf_Name field =s "description" then Plain (___EnumValue_description ctx field obj)
    else if cf_Name field =s "isDeprecated" then Required (___EnumValue_isDeprecated ctx field obj)
    else if cf_Name field =s "deprecationReason" then Plain (___EnumValue_deprecationReason ctx field obj)
    else unknown_field field).
Definition marshalN__EnumValue2EnumValue : Path -> SelectionSet -> IEnumValue -> G gval := ___EnumValue.
Definition marshalO__EnumValue2slice_EnumValue
    : Path -> SelectionSet -> option (list IEnumValue) -> G gval :=
  marshal_optional_list marshalN__EnumValue2EnumValue.

(** ** The functions that refer to [___Type] *)
Section Types.
Context (___Type : Path -> SelectionSet -> IType -> G gval).

Definition marshalN__Type2Type : Path -> SelectionSet -> IType -> G gval := ___Type.
Definition marshalN__Type2ptr_Type : Path -> SelectionSet -> option IType -> G gval :=
  non_nil ___Type.
Definition marshalN__Type2slice_Type : Path -> SelectionSet -> list IType -> G gval :=
  marshal_list marshalN__Type2Type.
Definition marshalO__Type2ptr_Type (ctx : Path) (sel : SelectionSet) (v : option IType) : G gval :=
  match v with
  | None => gret GNull
  | Some x => ___Type ctx sel x
  end.
Definition marshalO__Type2slice_Type : Path -> SelectionSet -> option (list IType) -> G gval :=
  marshal_optional_list marshalN__Type2Type.

(** ** __InputValue *)
Definition fieldContext___InputValue_name (ctx : Path) (field : CollectedField) : G (res FieldContext) :=
  gret (NewScalarFieldContext "__InputValue" field false false
          (ENew "field of type String does not have child fields")).
Definition ___InputValue_name (ctx : Path) (field : CollectedField) (obj : IInputValue) : G gval :=
  ResolveField ctx field fieldContext___InputValue_name (fun _ => gret (Ok (IInputValue_Name obj)))
    marshalNString2string true true.
Definition fieldContext___InputValue_description (ctx : Path) (field : CollectedField) : G (res FieldContext) :=
  gret (NewScalarFieldContext "__InputValue" field true false
          (ENew "field of type String does not have child fields")).
Definition ___InputValue_description (ctx : Path) (field : CollectedField) (obj : IInputValue) : G gval :=
  ResolveField ctx field fieldContext___InputValue_description (fun _ => gret (Ok (IInputValue_Description obj)))
    marshalOString2ptr_string true false.
Definition fieldContext___InputValue_type (ctx : Path) (field : CollectedField) : G (res FieldContext) :=
  gret (Ok (object_context "__InputValue" field false false "__Type")).
Definition ___InputValue_type (ctx : Path) (field : CollectedField) (obj : IInputValue) : G gval :=
  ResolveField ctx field fieldContext___InputValue_type (fun _ => gret (Ok (IInputValue_Type obj)))
    marshalN__Type2ptr_Type true true.
Definition fieldContext___InputValue_defaultValue (ctx : Path) (field : CollectedField) : G (res FieldContext) :=
  gret (NewScalarFieldContext "__InputValue" field false false
          (ENew "field of type String does not have child fields")).
Definition ___InputValue_defaultValue (ctx : Path) (field : CollectedField) (obj : IInputValue) : G gval :=
  ResolveField ctx field fieldContext___InputValue_defaultValue (fun _ => gret (Ok (IInputValue_DefaultValue obj)))
    marshalOString2ptr_string true false.
Definition fieldContext___InputValue_isDeprecated (ctx : Path) (field : CollectedField) : G (res FieldContext) :=
  gret (NewScalarFieldContext "__InputValue" field true false
          (ENew "field of type Boolean does not have child fields")).
Definition ___InputValue_isDeprecated (ctx : Path) (field : CollectedField) (obj : IInputValue) : G gval :=
  ResolveField ctx field fieldContext___InputValue_isDeprecated (fun _ => gret (Ok (IInputValue_IsDeprecated obj)))
    marshalNBoolean2bool true true.
Definition fieldContext___InputValue_deprecationReason (ctx : Path) (field : CollectedField) : G (res FieldContext) :=
  gret (NewScalarFieldContext "__InputValue" field true false
          (ENew "field of type String does not have child fields")).
Definition ___InputValue_deprecationReason (ctx : Path) (field : CollectedField) (obj : IInputValue) : G gval :=
  ResolveField ctx field fieldContext___InputValue_deprecationReason (fun _ => gret (Ok (IInputValue_DeprecationReason obj)))
    marshalOString2ptr_string true false.
Definition __InputValueImplementors : list string := ["__InputValue"].
Definition ___InputValue (ctx : Path) (sel : SelectionSet) (obj : IInputValue) : G gval :=
  exec_object (CollectFields sel __InputValueImplementors) (fun field =>
    if cf_Name field =s "__typename" then Plain (gret (MarshalString "__InputValue"))
    else if cf_Name field =s "name" then Required (___InputValue_name ctx field obj)
    else if cf_Name field =s "description" then Plain (___InputValue_description ctx field obj)
    else if cf_Name field =s "type" then Required (___InputValue_type ctx field obj)
    else if cf_Name field =s "defaultValue" then Plain (___InputValue_defaultValue ctx field obj)
    else if cf_Name field =s "isDeprecated" then Required (___InputValue_isDeprecated ctx field obj)
    else if cf_Name field =s "deprecationReason" then Plain (___InputValue_deprecationReason ctx field obj)
    else unknown_field field).
Definition marshalN__InputValue2InputValue : Path -> SelectionSet -> IInputValue -> G gval :=
  ___InputValue.
Definition marshalN__InputValue2slice_InputValue
    : Path -> SelectionSet -> list IInputValue -> G gval :=
  marshal_list marshalN__InputValue2InputValue.
Definition marshalO__InputValue2slice_InputValue
    : Path -> SelectionSet -> option (list IInputValue) -> G gval :=
  marshal_optional_list marshalN__InputValue2InputValue.

(** ** __Field *)
Definition fieldContext___Field_name (ctx : Path) (field : CollectedField) : G (res FieldContext) :=
  gret (NewScalarFieldContext "__Field" field false false
          (ENew "field of type String does not have child fields")).
Definition ___Field_name (ctx : Path) (field : CollectedField) (obj : IField) : G gval :=
  ResolveField ctx field fieldContext___Field_name (fun _ => gret (Ok (IField_Name obj)))
    marshalNString2string true true.
Definition fieldContext___Field_description (ctx : Path) (field : CollectedField) : G (res FieldContext) :=
  gret (NewScalarFieldContext "__Field" field true false
          (ENew "field of type String does not have child fields")).
Definition ___Field_description (ctx : Path) (field : CollectedField) (obj : IField) : G gval :=
  ResolveField ctx field fieldContext___Field_description (fun _ => gret (Ok (IField_Description obj)))
    marshalOString2ptr_string true false.
Definition field___Field_args_args (ctx : Path) (rawArgs : list (string * any))
    : out (res (list (string * argval))) :=
  arg0 <~? ProcessArgField ctx rawArgs "includeDeprecated" None unmarshalOBoolean2ptr_bool ;;
  Val (Ok [("includeDeprecated", VBoolPtr arg0)]).
Definition fieldContext___Field_args (ctx : Path) (field : CollectedField) : G (res FieldContext) :=
  with_arguments ctx (object_context "__Field" field false false "__InputValue")
    field___Field_args_args field.
Definition ___Field_args (ctx : Path) (field : CollectedField) (obj : IField) : G gval :=
  ResolveField ctx field fieldContext___Field_args (fun _ => gret (Ok (IField_Args obj)))
    marshalN__InputValue2slice_InputValue true true.
Definition fieldContext___Field_type (ctx : Path) (field : CollectedField) : G (res FieldContext) :=
  gret (Ok (object_context "__Field" field false false "__Type")).
Definition ___Field_type (ctx : Path) (field : CollectedField) (obj : IField) : G gval :=
  ResolveField ctx field fieldContext___Field_type (fun _ => gret (Ok (IField_Type obj)))
    marshalN__Type2ptr_Type true true.
Definition fieldContext___Field_isDeprecated (ctx : Path) (field : CollectedField) : G (res FieldContext) :=
  gret (NewScalarFieldContext "__Field" field true false
          (ENew "field of type Boolean does not have child fields")).
Definition ___Field_isDeprecated (ctx : Path) (field : CollectedField) (obj : IField) : G gval :=
  ResolveField ctx field fieldContext___Field_isDeprecated (fun _ => gret (Ok (IField_IsDeprecated obj)))
    marshalNBoolean2bool true true.
Definition fieldContext___Field_deprecationReason (ctx : Path) (field : CollectedField) : G (res FieldContext) :=
  gret (NewScalarFieldContext "__Field" field true false
          (ENew "field of type String does not have child fields")).
Definition ___Field_deprecationReason (ctx : Path) (field : CollectedField) (obj : IField) : G gval :=
  ResolveField ctx field fieldContext___Field_deprecationReason (fun _ => gret (Ok (IField_DeprecationReason obj)))
    marshalOString2ptr_string true false.
Definition __FieldImplementors : list string := ["__Field"].
Definition ___Field (ctx : Path) (sel : SelectionSet) (obj : IField) : G gval :=
  exec_object (CollectFields sel __FieldImplementors) (fun field =>
    if cf_Name field =s "__typename" then Plain (gret (MarshalString "__Field"))
    else if cf_Name field =s "name" then Required (___Field_name ctx field obj)
    else if cf_Name field =s "description" then Plain (___Field_description ctx field obj)
    else if cf_Name field =s "args" then Required (___Field_args ctx field obj)
    else if cf_Name field =s "type" then Required (___Field_type ctx field obj)
    else if cf_Name field =s "isDeprecated" then Required (___Field_isDeprecated ctx field obj)
    else if cf_Name field =s "deprecationReason" then Plain (___Field_deprecationReason ctx field obj)
    else unknown_field field).
Definition marshalN__Field2Field : Path -> SelectionSet -> IField -> G gval := ___Field.
Definition marshalO__Field2slice_Field : Path -> SelectionSet -> option (list IField) -> G gval :=
  marshal_optional_list marshalN__Field2Field.

(** ** __Type *)
Definition fieldContext___Type_kind (ctx : Path) (field : CollectedField) : G (res FieldContext) :=
  gret (NewScalarFieldContext "__Type" field true false
          (ENew "field of type __TypeKind does not have child fields")).
Definition ___Type_kind (ctx : Path) (field : CollectedField) (obj : IType) : G gval :=
  ResolveField ctx field fieldContext___Type_kind (fun _ => gret (Ok (IType_Kind obj)))
    marshalN__TypeKind2string true true.
Definition fieldContext___Type_name (ctx : Path) (field : CollectedField) : G (res FieldContext) :=
  gret (NewScalarFieldContext "__Type" field true false
          (ENew "field of type String does not have child fields")).
Definition ___Type_name (ctx : Path) (field : CollectedField) (obj : IType) : G gval :=
  ResolveField ctx field fieldContext___Type_name (fun _ => gret (Ok (IType_Name obj)))
    marshalOString2ptr_string true false.
Definition fieldContext___Type_description (ctx : Path) (field : CollectedField) : G (res FieldContext) :=
  gret (NewScalarFieldContext "__Type" field true false
          (ENew "field of type String does not have child fields")).
Definition ___Type_description (ctx : Path) (field : CollectedField) (obj : IType) : G gval :=
  ResolveField ctx field fieldContext___Type_description (fun _ => gret (Ok (IType_Description obj)))
    marshalOString2ptr_string true false.
Definition fieldContext___Type_specifiedByURL (ctx : Path) (field : CollectedField) : G (res FieldContext) :=
  gret (NewScalarFieldContext "__Type" field true false
          (ENew "field of type String does not have child fields")).
Definition ___Type_specifiedByURL (ctx : Path) (field : CollectedField) (obj : IType) : G gval :=
  ResolveField ctx field fieldContext___Type_specifiedByURL (fun _ => gret (Ok (IType_SpecifiedByURL obj)))
    marshalOString2ptr_string true false.
Definition field___Type_fields_args (ctx : Path) (rawArgs : list (string * any))
    : out (res (list (string * argval))) :=
  arg0 <~? ProcessArgField ctx rawArgs "includeDeprecated" false unmarshalOBoolean2bool ;;
  Val (Ok [("includeDeprecated", VBool arg0)]).
Definition fieldContext___Type_fields (ctx : Path) (field : CollectedField) : G (res FieldContext) :=
  with_arguments ctx (object_context "__Type" field true false "__Field")
    field___Type_fields_args field.
Definition ___Type_fields (ctx : Path) (field : CollectedField) (obj : IType) : G gval :=
  ResolveField ctx field fieldContext___Type_fields (fun fc => b <~ arg as_bool "includeDeprecated" fc ;; gret (Ok (IType_Fields obj b)))
    marshalO__Field2slice_Field true false.
Definition fieldContext___Type_interfaces (ctx : Path) (field : CollectedField) : G (res FieldContext) :=
  gret (Ok (object_context "__Type" field true false "__Type")).
Definition ___Type_interfaces (ctx : Path) (field : CollectedField) (obj : IType) : G gval :=
  ResolveField ctx field fieldContext___Type_interfaces (fun _ => gret (Ok (IType_Interfaces obj)))
    marshalO__Type2slice_Type true false.
Definition fieldContext___Type_possibleTypes (ctx : Path) (field : CollectedField) : G (res FieldContext) :=
  gret (Ok (object_context "__Type" field true false "__Type")).
Definition ___Type_possibleTypes (ctx : Path) (field : CollectedField) (obj : IType) : G gval :=
  ResolveField ctx field fieldContext___Type_possibleTypes (fun _ => gret (Ok (IType_PossibleTypes obj)))
    marshalO__Type2slice_Type true false.
Definition field___Type_enumValues_args (ctx : Path) (rawArgs : list (string * any))
    : out (res (list (string * argval))) :=
  arg0 <~? ProcessArgField ctx rawArgs "includeDeprecated" false unmarshalOBoolean2bool ;;
  Val (Ok [("includeDeprecated", VBool arg0)]).
Definition fieldContext___Type_enumValues (ctx : Path) (field : CollectedField) : G (res FieldContext) :=
  with_arguments ctx (object_context "__Type" field true false "__EnumValue")
    field___Type_enumValues_args field.
Definition ___Type_enumValues (ctx : Path) (field : CollectedField) (obj : IType) : G gval :=
  ResolveField ctx field fieldContext___Type_enumValues (fun fc => b <~ arg as_bool "includeDeprecated" fc ;; gret (Ok (IType_EnumValues obj b)))
    marshalO__EnumValue2slice_EnumValue true false.
Definition fieldContext___Type_inputFields (ctx : Path) (field : CollectedField) : G (res FieldContext) :=
  gret (Ok (object_context "__Type" field true false "__InputValue")).
Definition ___Type_inputFields (ctx : Path) (field : CollectedField) (obj : IType) : G gval :=
  ResolveField ctx field fieldContext___Type_inputFields (fun _ => gret (Ok (IType_InputFields obj)))
    marshalO__InputValue2slice_InputValue true false.
Definition fieldContext___Type_ofType (ctx : Path) (field : CollectedField) : G (res FieldContext) :=
  gret (Ok (object_context "__Type" field true false "__Type")).
Definition ___Type_ofType (ctx : Path) (field : CollectedField) (obj : IType) : G gval :=
  ResolveField ctx field fieldContext___Type_ofType (fun _ => gret (Ok (IType_OfType obj)))
    marshalO__Type2ptr_Type true false.
Definition fieldContext___Type_isOneOf (ctx : Path) (field : CollectedField) : G (res FieldContext) :=
  gret (NewScalarFieldContext "__Type" field true false
          (ENew "field of type Boolean does not have child fields")).
Definition ___Type_isOneOf (ctx : Path) (field : CollectedField) (obj : IType) : G gval :=
  ResolveField ctx field fieldContext___Type_isOneOf (fun _ => gret (Ok (IType_IsOneOf obj)))
    marshalOBoolean2bool true false.
Definition __TypeImplementors : list string := ["__Type"].
Definition ___Type_step (ctx : Path) (sel : SelectionSet) (obj : IType) : G gval :=
  exec_object (CollectFields sel __TypeImplementors) (fun field =>
    if cf_Name field =s "__typename" then Plain (gret (MarshalString "__Type"))
    else if cf_Name field =s "kind" then Required (___Type_kind ctx field obj)
    else if cf_Name field =s "name" then Plain (___Type_name ctx field obj)
    else if cf_Name field =s "description" then Plain (___Type_description ctx field obj)
    else if cf_Name field =s "specifiedByURL" then Plain (___Type_specifiedByURL ctx field obj)
    else if cf_Name field =s "fields" then Plain (___Type_fields ctx field obj)
    else if cf_Name field =s "interfaces" then Plain (___Type_interfaces ctx field obj)
    else if cf_Name field =s "possibleTypes" then Plain (___Type_possibleTypes ctx field obj)
    else if cf_Name field =s "enumValues" then Plain (___Type_enumValues ctx field obj)
    else if cf_Name field =s "inputFields" then Plain (___Type_inputFields ctx field obj)
    else if cf_Name field =s "ofType" then Plain (___Type_ofType ctx field obj)
    else if cf_Name field =s "isOneOf" then Plain (___Type_isOneOf ctx field obj)
    else unknown_field field).

(** ** __Directive *)
Definition fieldContext___Directive_name (ctx : Path) (field : CollectedField) : G (res FieldContext) :=
  gret (NewScalarFieldContext "__Directive" field false false
          (ENew "field of type String does not have child fields")).
Definition ___Directive_name (ctx : Path) (field : CollectedField) (obj : IDirective) : G gval :=
  ResolveField ctx field fieldContext___Directive_name (fun _ => gret (Ok (IDirective_Name obj)))
    marshalNString2string true true.
Definition fieldContext___Directive_description (ctx : Path) (field : CollectedField) : G (res FieldContext) :=
  gret (NewScalarFieldContext "__Directive" field true false
          (ENew "field of type String does not have child fields")).
Definition ___Directive_description (ctx : Path) (field : CollectedField) (obj : IDirective) : G gval :=
  ResolveField ctx field fieldContext___Directive_description (fun _ => gret (Ok (IDirective_Description obj)))
    marshalOString2ptr_string true false.
Definition fieldContext___Directive_isRepeatable (ctx : Path) (field : CollectedField) : G (res FieldContext) :=
  gret (NewScalarFieldContext "__Directive" field false false
          (ENew "field of type Boolean does not have child fields")).
Definition ___Directive_isRepeatable (ctx : Path) (field : CollectedField) (obj : IDirective) : G gval :=
  ResolveField ctx field fieldContext___Directive_isRepeatable (fun _ => gret (Ok (IDirective_IsRepeatable obj)))
    marshalNBoolean2bool true true.
Definition fieldContext___Directive_locations (ctx : Path) (field : CollectedField) : G (res FieldContext) :=
  gret (NewScalarFieldContext "__Directive" field false false
          (ENew "field of type __DirectiveLocation does not have child fields")).
Definition ___Directive_locations (ctx : Path) (field : CollectedField) (obj : IDirective) : G gval :=
  ResolveField ctx field fieldContext___Directive_locations (fun _ => gret (Ok (IDirective_Locations obj)))
    marshalN__DirectiveLocation2slice_string true true.
Definition field___Directive_args_args (ctx : Path) (rawArgs : list (string * any))
    : out (res (list (string * argval))) :=
  arg0 <~? ProcessArgField ctx rawArgs "includeDeprecated" None unmarshalOBoolean2ptr_bool ;;
  Val (Ok [("includeDeprecated", VBoolPtr arg0)]).
Definition fieldContext___Directive_args (ctx : Path) (field : CollectedField) : G (res FieldContext) :=
  with_arguments ctx (object_context "__Directive" field false false "__InputValue")
    field___Directive_args_args field.
Definition ___Directive_args (ctx : Path) (field : CollectedField) (obj : IDirective) : G gval :=
  ResolveField ctx field fieldContext___Directive_args (fun _ => gret (Ok (IDirective_Args obj)))
    marshalN__InputValue2slice_InputValue true true.
Definition __DirectiveImplementors : list string := ["__Directive"].
Definition ___Directive (ctx : Path) (sel : SelectionSet) (obj : IDirective) : G gval :=
  exec_object (CollectFields sel __DirectiveImplementors) (fun field =>
    if cf_Name field =s "__typename" then Plain (gret (MarshalString "__Directive"))
    else if cf_Name field =s "name" then Required (___Directive_name ctx field obj)
    else if cf_Name field =s "description" then Plain (___Directive_description ctx field obj)
    else if cf_Name field =s "isRepeatable" then Required (___Directive_isRepeatable ctx field obj)
    else if cf_Name field =s "locations" then Required (___Directive_locations ctx field obj)
    else if cf_Name field =s "args" then Required (___Directive_args ctx field obj)
    else unknown_field field).
Definition marshalN__Directive2Directive : Path -> SelectionSet -> IDirective -> G gval :=
  ___Directive.
Definition marshalN__Directive2slice_Directive
    : Path -> SelectionSet -> list IDirective -> G gval :=
  marshal_list marshalN__Directive2Directive.

(** ** __Schema *)
Definition fieldContext___Schema_description (ctx : Path) (field : CollectedField) : G (res FieldContext) :=
  gret (NewScalarFieldContext "__Schema" field true false
          (ENew "field of type String does not have child fields")).
Definition ___Schema_description (ctx : Path) (field : CollectedField) (obj : ISchema) : G gval :=
  ResolveField ctx field fieldContext___Schema_description (fun _ => gret (Ok (ISchema_Description obj)))
    marshalOString2ptr_string true false.
Definition fieldContext___Schema_types (ctx : Path) (field : CollectedField) : G (res FieldContext) :=
  gret (Ok (object_context "__Schema" field true false "__Type")).
Definition ___Schema_types (ctx : Path) (field : CollectedField) (obj : ISchema) : G gval :=
  ResolveField ctx field fieldContext___Schema_types (fun _ => gret (Ok (ISchema_Types obj)))
    marshalN__Type2slice_Type true true.
Definition fieldContext___Schema_queryType (ctx : Path) (field : CollectedField) : G (res FieldContext) :=
  gret (Ok (object_context "__Schema" field true false "__Type")).
Definition ___Schema_queryType (ctx : Path) (field : CollectedField) (obj : ISchema) : G gval :=
  ResolveField ctx field fieldContext___Schema_queryType (fun _ => gret (Ok (ISchema_QueryType obj)))
    marshalN__Type2ptr_Type true true.
Definition fieldContext___Schema_mutationType (ctx : Path) (field : CollectedField) : G (res FieldContext) :=
  gret (Ok (object_context "__Schema" field true false "__Type")).
Definition ___Schema_mutationType (ctx : Path) (field : CollectedField) (obj : ISchema) : G gval :=
  ResolveField ctx field fieldContext___Schema_mutationType (fun _ => gret (Ok (ISchema_MutationType obj)))
    marshalO__Type2ptr_Type true false.
Definition fieldContext___Schema_subscriptionType (ctx : Path) (field : CollectedField) : G (res FieldContext) :=
  gret (Ok (object_context "__Schema" field true false "__Type")).
Definition ___Schema_subscriptionType (ctx : Path) (field : CollectedField) (obj : ISchema) : G gval :=
  ResolveField ctx field fieldContext___Schema_subscriptionType (fun _ => gret (Ok (ISchema_SubscriptionType obj)))
    marshalO__Type2ptr_Type true false.
Definition fieldContext___Schema_directives (ctx : Path) (field : CollectedField) : G (res FieldContext) :=
  gret (Ok (object_context "__Schema" field true false "__Directive")).
Definition ___Schema_directives (ctx : Path) (field : CollectedField) (obj : ISchema) : G gval :=
  ResolveField ctx field fieldContext___Schema_directives (fun _ => gret (Ok (ISchema_Directives obj)))
    marshalN__Directive2slice_Directive true true.
Definition __SchemaImplementors : list string := ["__Schema"].
Definition ___Schema (ctx : Path) (sel : SelectionSet) (obj : ISchema) : G gval :=
  exec_object (CollectFields sel __SchemaImplementors) (fun field =>
    if cf_Name field =s "__typename" then Plain (gret (MarshalString "__Schema"))
    else if cf_Name field =s "description" then Plain (___Schema_description ctx field obj)
    else if cf_Name field =s "types" then Required (___Schema_types ctx field obj)
    else if cf_Name field =s "queryType" then Required (___Schema_queryType ctx field obj)
    else if cf_Name field =s "mutationType" then Plain (___Schema_mutationType ctx field obj)
    else if cf_Name field =s "subscriptionType" then Plain (___Schema_subscriptionType ctx field obj)
    else if cf_Name field =s "directives" then Required (___Schema_directives ctx field obj)
    else unknown_field field).
Definition marshalO__Schema2ptr_Schema (ctx : Path) (sel : SelectionSet) (v : option ISchema)
    : G gval :=
  match v with
  | None => gret GNull
  | Some x => ___Schema ctx sel x
  end.

End Types.

(** The recursion of [___Type], cut at the depth of the query.  What [bottom] does
    below the cut makes no difference, because it is never called. *)
Fixpoint ___Type_fuel (bottom : Path -> SelectionSet -> IType -> G gval) (fuel : nat)
    (ctx : Path) (sel : SelectionSet) (obj : IType) : G gval :=
  match fuel with
  | O => bottom ctx sel obj
  | S fuel' => ___Type_step (___Type_fuel bottom fuel') ctx sel obj
  end.
Definition ___Type (ctx : Path) (sel : SelectionSet) (obj : IType) : G gval :=
  ___Type_fuel (fun _ _ _ => gpanic "out of fuel") (S (selection_depth sel)) ctx sel obj.

(** ** Child fields *)
Definition childFields___Directive (ctx : Path) (field : CollectedField) : G (res FieldContext) :=
  if cf_Name field =s "name" then fieldContext___Directive_name ctx field
  else if cf_Name field =s "description" then fieldContext___Directive_description ctx field
  else if cf_Name field =s "isRepeatable" then fieldContext___Directive_isRepeatable ctx field
  else if cf_Name field =s "locations" then fieldContext___Directive_locations ctx field
  else if cf_Name field =s "args" then fieldContext___Directive_args ctx field
  else gret (Err (no_field field "__Directive")).
Definition childFields___EnumValue (ctx : Path) (field : CollectedField) : G (res FieldContext) :=
  if cf_Name field =s "name" then fieldContext___EnumValue_name ctx field
  else if cf_Name field =s "description" then fieldContext___EnumValue_description ctx field
  else if cf_Name field =s "isDeprecated" then fieldContext___EnumValue_isDeprecated ctx field
  else if cf_Name field =s "deprecationReason" then fieldContext___EnumValue_deprecationReason ctx field
  else gret (Err (no_field field "__EnumValue")).
Definition childFields___Field (ctx : Path) (field : CollectedField) : G (res FieldContext) :=
  if cf_Name field =s "name" then fieldContext___Field_name ctx field
  else if cf_Name field =s "description" then fieldContext___Field_description ctx field
  else if cf_Name field =s "args" then fieldContext___Field_args ctx field
  else if cf_Name field =s "type" then fieldContext___Field_type ctx field
  else if cf_Name field =s "isDeprecated" then fieldContext___Field_isDeprecated ctx field
  else if cf_Name field =s "deprecationReason" then fieldContext___Field_deprecationReason ctx field
  else gret (Err (no_field field "__Field")).
Definition childFields___InputValue (ctx : Path) (field : CollectedField) : G (res FieldContext) :=
  if cf_Name field =s "name" then fieldContext___InputValue_name ctx field
  else if cf_Name field =s "description" then fieldContext___InputValue_description ctx field
  else if cf_Name field =s "type" then fieldContext___InputValue_type ctx field
  else if cf_Name field =s "defaultValue" then fieldContext___InputValue_defaultValue ctx field
  else if cf_Name field =s "isDeprecated" then fieldContext___InputValue_isDeprecated ctx field
  else if cf_Name field =s "deprecationReason" then fieldContext___InputValue_deprecationReason ctx field
  else gret (Err (no_field field "__InputValue")).
Definition childFields___Schema (ctx : Path) (field : CollectedField) : G (res FieldContext) :=
  if cf_Name field =s "description" then fieldContext___Schema_description ctx field
  else if cf_Name field =s "types" then fieldContext___Schema_types ctx field
  else if cf_Name field =s "queryType" then fieldContext___Schema_queryType ctx field
  else if cf_Name field =s "mutationType" then fieldContext___Schema_mutationType ctx field
  else if cf_Name field =s "subscriptionType" then fieldContext___Schema_subscriptionType ctx field
  else if cf_Name field =s "directives" then fieldContext___Schema_directives ctx field
  else gret (Err (no_field field "__Schema")).
Definition childFields___Type (ctx : Path) (field : CollectedField) : G (res FieldContext) :=
  if cf_Name field =s "kind" then fieldContext___Type_kind ctx field
  else if cf_Name field =s "name" then fieldContext___Type_name ctx field
  else if cf_Name field =s "description" then fieldContext___Type_description ctx field
  else if cf_Name field =s "specifiedByURL" then fieldContext___Type_specifiedByURL ctx field
  else if cf_Name field =s "fields" then fieldContext___Type_fields ctx field
  else if cf_Name field =s "interfaces" then fieldContext___Type_interfaces ctx field
  else if cf_Name field =s "possibleTypes" then fieldContext___Type_possibleTypes ctx field
  else if cf_Name field =s "enumValues" then fieldContext___Type_enumValues ctx field
  else if cf_Name field =s "inputFields" then fieldContext___Type_inputFields ctx field
  else if cf_Name field =s "ofType" then fieldContext___Type_ofType ctx field
  else if cf_Name field =s "isOneOf" then fieldContext___Type_isOneOf ctx field
  else gret (Err (no_field field "__Type")).
End Introspect.
