(* ===== verification/GqlExec.v ===== *)
(** * The generated executor (graph/generated/generated.go)

    One definition per generated function, in the order types use each other: the
    fields and the object function of each type of the schema, its marshallers, the
    arguments and inputs, the root fields that call the resolvers of Graph.v, and
    [Exec]. *)
From S2P Require Import Prelude Errors Model Env World Effects GqlModel TaskApi Graph.
From S2P Require Import GqlRuntime GqlMarshal GqlIntrospect.

(** ** MutationResolver, QueryResolver *)
Record MutationResolver := mkMutationResolver {
  mr_SubmitTask : SubmitTaskInput -> prog (res (option SubmitTaskResponse));
  mr_CancelTask : string -> uuid -> prog (res (option CancelTaskPayload));
  mr_CreateTenant : CreateTenantInput -> prog (res (option ApiTenant));
}.
Record QueryResolver := mkQueryResolver {
  qr_GetTaskByID : string -> uuid -> prog (res (option ApiTask));
  qr_GetTaskList : string -> option string -> prog (res (list (option ApiTask)));
}.
Record ResolverRoot := mkResolverRoot {
  rr_Mutation : MutationResolver;
  rr_Query : QueryResolver;
}.

Section Exec.
Context `{E : Env} {GT : GqlTypes} {GQ : Gql} {IS : Introspection}.

(** ** TaskShard *)
Definition fieldContext_TaskShard_id (ctx : Path) (field : CollectedField) : G (res FieldContext) :=
  gret (NewScalarFieldContext "TaskShard" field false false
          (ENew "field of type UUID does not have child fields")).
Definition _TaskShard_id (ctx : Path) (field : CollectedField) (obj : ApiShard) : G gval :=
  ResolveField ctx field fieldContext_TaskShard_id (fun _ => gret (Ok (as_ID obj)))
    marshalNUUID2UUID true true.
Definition fieldContext_TaskShard_script_name (ctx : Path) (field : CollectedField) : G (res FieldContext) :=
  gret (NewScalarFieldContext "TaskShard" field false false
          (ENew "field of type String does not have child fields")).
Definition _TaskShard_script_name (ctx : Path) (field : CollectedField) (obj : ApiShard) : G gval :=
  ResolveField ctx field fieldContext_TaskShard_script_name (fun _ => gret (Ok (as_ScriptName obj)))
    marshalNString2string true true.
Definition fieldContext_TaskShard_status (ctx : Path) (field : CollectedField) : G (res FieldContext) :=
  gret (NewScalarFieldContext "TaskShard" field false false
          (ENew "field of type String does not have child fields")).
Definition _TaskShard_status (ctx : Path) (field : CollectedField) (obj : ApiShard) : G gval :=
  ResolveField ctx field fieldContext_TaskShard_status (fun _ => gret (Ok (as_Status obj)))
    marshalNString2string true true.
Definition fieldContext_TaskShard_output_oss_key (ctx : Path) (field : CollectedField) : G (res FieldContext) :=
  gret (NewScalarFieldContext "TaskShard" field false false
          (ENew "field of type String does not have child fields")).
Definition _TaskShard_output_oss_key (ctx : Path) (field : CollectedField) (obj : ApiShard) : G gval :=
  ResolveField ctx field fieldContext_TaskShard_output_oss_key (fun _ => gret (Ok (as_OutputOssKey obj)))
    marshalOString2ptr_string true false.
Definition fieldContext_TaskShard_output_sha256 (ctx : Path) (field : CollectedField) : G (res FieldContext) :=
  gret (NewScalarFieldContext "TaskShard" field false false
          (ENew "field of type String does not have child fields")).
Definition _TaskShard_output_sha256 (ctx : Path) (field : CollectedField) (obj : ApiShard) : G gval :=
  ResolveField ctx field fieldContext_TaskShard_output_sha256 (fun _ => gret (Ok (as_OutputSha256 obj)))
    marshalOString2ptr_string true false.
Definition fieldContext_TaskShard_last_error (ctx : Path) (field : CollectedField) : G (res FieldContext) :=
  gret (NewScalarFieldContext "TaskShard" field false false
          (ENew "field of type String does not have child fields")).
Definition _TaskShard_last_error (ctx : Path) (field : CollectedField) (obj : ApiShard) : G gval :=
  ResolveField ctx field fieldContext_TaskShard_last_error (fun _ => gret (Ok (as_LastError obj)))
    marshalOString2ptr_string true false.
Definition fieldContext_TaskShard_started_at (ctx : Path) (field : CollectedField) : G (res FieldContext) :=
  gret (NewScalarFieldContext "TaskShard" field false false
          (ENew "field of type Time does not have child fields")).
Definition _TaskShard_started_at (ctx : Path) (field : CollectedField) (obj : ApiShard) : G gval :=
  ResolveField ctx field fieldContext_TaskShard_started_at (fun _ => gret (Ok (as_StartedAt obj)))
    marshalOTime2ptr_Time true false.
Definition fieldContext_TaskShard_finished_at (ctx : Path) (field : CollectedField) : G (res FieldContext) :=
  gret (NewScalarFieldContext "TaskShard" field false false
          (ENew "field of type Time does not have child fields")).
Definition _TaskShard_finished_at (ctx : Path) (field : CollectedField) (obj : ApiShard) : G gval :=
  ResolveField ctx field fieldContext_TaskShard_finished_at (fun _ => gret (Ok (as_FinishedAt obj)))
    marshalOTime2ptr_Time true false.
Definition taskShardImplementors : list string := ["TaskShard"].
Definition _TaskShard (ctx : Path) (sel : SelectionSet) (obj : ApiShard) : G gval :=
  exec_object (CollectFields sel taskShardImplementors) (fun field =>
    if cf_Name field =s "__typename" then Plain (gret (MarshalString "TaskShard"))
    else if cf_Name field =s "id" then Required (_TaskShard_id ctx field obj)
    else if cf_Name field =s "script_name" then Required (_TaskShard_script_name ctx field obj)
    else if cf_Name field =s "status" then Required (_TaskShard_status ctx field obj)
    else if cf_Name field =s "output_oss_key" then Plain (_TaskShard_output_oss_key ctx field obj)
    else if cf_Name field =s "output_sha256" then Plain (_TaskShard_output_sha256 ctx field obj)
    else if cf_Name field =s "last_error" then Plain (_TaskShard_last_error ctx field obj)
    else if cf_Name field =s "started_at" then Plain (_TaskShard_started_at ctx field obj)
    else if cf_Name field =s "finished_at" then Plain (_TaskShard_finished_at ctx field obj)
    else unknown_field field).
Definition marshalNTaskShard2ptr_TaskShard : Path -> SelectionSet -> option ApiShard -> G gval :=
  non_nil _TaskShard.
Definition marshalNTaskShard2slice_ptr_TaskShard
    : Path -> SelectionSet -> list (option ApiShard) -> G gval :=
  marshal_list marshalNTaskShard2ptr_TaskShard.

(** ** Task *)
Definition fieldContext_Task_id (ctx : Path) (field : CollectedField) : G (res FieldContext) :=
  gret (NewScalarFieldContext "Task" field false false
          (ENew "field of type UUID does not have child fields")).
Definition _Task_id (ctx : Path) (field : CollectedField) (obj : ApiTask) : G gval :=
  ResolveField ctx field fieldContext_Task_id (fun _ => gret (Ok (at_ID obj)))
    marshalNUUID2UUID true true.
Definition fieldContext_Task_status (ctx : Path) (field : CollectedField) : G (res FieldContext) :=
  gret (NewScalarFieldContext "Task" field false false
          (ENew "field of type String does not have child fields")).
Definition _Task_status (ctx : Path) (field : CollectedField) (obj : ApiTask) : G gval :=
  ResolveField ctx field fieldContext_Task_status (fun _ => gret (Ok (at_Status obj)))
    marshalNString2string true true.
Definition fieldContext_Task_last_error (ctx : Path) (field : CollectedField) : G (res FieldContext) :=
  gret (NewScalarFieldContext "Task" field false false
          (ENew "field of type String does not have child fields")).
Definition _Task_last_error (ctx : Path) (field : CollectedField) (obj : ApiTask) : G gval :=
  ResolveField ctx field fieldContext_Task_last_error (fun _ => gret (Ok (at_LastError obj)))
    marshalNString2string true true.
Definition fieldContext_Task_created_at (ctx : Path) (field : CollectedField) : G (res FieldContext) :=
  gret (NewScalarFieldContext "Task" field false false
          (ENew "field of type Time does not have child fields")).
Definition _Task_created_at (ctx : Path) (field : CollectedField) (obj : ApiTask) : G gval :=
  ResolveField ctx field fieldContext_Task_created_at (fun _ => gret (Ok (at_CreatedAt obj)))
    marshalNTime2Time true true.
Definition fieldContext_Task_started_at (ctx : Path) (field : CollectedField) : G (res FieldContext) :=
  gret (NewScalarFieldContext "Task" field false false
          (ENew "field of type Time does not have child fields")).
Definition _Task_started_at (ctx : Path) (field : CollectedField) (obj : ApiTask) : G gval :=
  ResolveField ctx field fieldContext_Task_started_at (fun _ => gret (Ok (at_StartedAt obj)))
    marshalOTime2ptr_Time true false.
Definition fieldContext_Task_finished_at (ctx : Path) (field : CollectedField) : G (res FieldContext) :=
  gret (NewScalarFieldContext "Task" field false false
          (ENew "field of type Time does not have child fields")).
Definition _Task_finished_at (ctx : Path) (field : CollectedField) (obj : ApiTask) : G gval :=
  ResolveField ctx field fieldContext_Task_finished_at (fun _ => gret (Ok (at_FinishedAt obj)))
    marshalOTime2ptr_Time true false.
Definition fieldContext_Task_shard_count (ctx : Path) (field : CollectedField) : G (res FieldContext) :=
  gret (NewScalarFieldContext "Task" field false false
          (ENew "field of type Int does not have child fields")).
Definition _Task_shard_count (ctx : Path) (field : CollectedField) (obj : ApiTask) : G gval :=
  ResolveField ctx field fieldContext_Task_shard_count (fun _ => gret (Ok (at_ShardCount obj)))
    marshalNInt2int true true.
Definition fieldContext_Task_shards (ctx : Path) (field : CollectedField) : G (res FieldContext) :=
  gret (Ok (object_context "Task" field false false "TaskShard")).
Definition _Task_shards (ctx : Path) (field : CollectedField) (obj : ApiTask) : G gval :=
  ResolveField ctx field fieldContext_Task_shards (fun _ => gret (Ok (at_Shards obj)))
    marshalNTaskShard2slice_ptr_TaskShard true true.
Definition taskImplementors : list string := ["Task"].
Definition _Task (ctx : Path) (sel : SelectionSet) (obj : ApiTask) : G gval :=
  exec_object (CollectFields sel taskImplementors) (fun field =>
    if cf_Name field =s "__typename" then Plain (gret (MarshalString "Task"))
    else if cf_Name field =s "id" then Required (_Task_id ctx field obj)
    else if cf_Name field =s "status" then Required (_Task_status ctx field obj)
    else if cf_Name field =s "last_error" then Required (_Task_last_error ctx field obj)
    else if cf_Name field =s "created_at" then Required (_Task_created_at ctx field obj)
    else if cf_Name field =s "started_at" then Plain (_Task_started_at ctx field obj)
    else if cf_Name field =s "finished_at" then Plain (_Task_finished_at ctx field obj)
    else if cf_Name field =s "shard_count" then Required (_Task_shard_count ctx field obj)
    else if cf_Name field =s "shards" then Required (_Task_shards ctx field obj)
    else unknown_field field).
Definition marshalNTask2Task : Path -> SelectionSet -> ApiTask -> G gval := _Task.
Definition marshalNTask2ptr_Task : Path -> SelectionSet -> option ApiTask -> G gval :=
  non_nil _Task.
Definition marshalNTask2slice_ptr_Task
    : Path -> SelectionSet -> list (option ApiTask) -> G gval :=
  marshal_list marshalNTask2ptr_Task.

(** ** CancelTaskPayload *)
Definition fieldContext_CancelTaskPayload_task_id (ctx : Path) (field : CollectedField) : G (res FieldContext) :=
  gret (NewScalarFieldContext "CancelTaskPayload" field false false
          (ENew "field of type UUID does not have child fields")).
Definition _CancelTaskPayload_task_id (ctx : Path) (field : CollectedField) (obj : CancelTaskPayload) : G gval :=
  ResolveField ctx field fieldContext_CancelTaskPayload_task_id (fun _ => gret (Ok (cp_TaskID obj)))
    marshalNUUID2UUID true true.
Definition fieldContext_CancelTaskPayload_status (ctx : Path) (field : CollectedField) : G (res FieldContext) :=
  gret (NewScalarFieldContext "CancelTaskPayload" field false false
          (ENew "field of type String does not have child fields")).
Definition _CancelTaskPayload_status (ctx : Path) (field : CollectedField) (obj : CancelTaskPayload) : G gval :=
  ResolveField ctx field fieldContext_CancelTaskPayload_status (fun _ => gret (Ok (cp_Status obj)))
    marshalNString2string true true.
Definition cancelTaskPayloadImplementors : list string := ["CancelTaskPayload"].
Definition _CancelTaskPayload (ctx : Path) (sel : SelectionSet) (obj : CancelTaskPayload) : G gval :=
  exec_object (CollectFields sel cancelTaskPayloadImplementors) (fun field =>
    if cf_Name field =s "__typename" then Plain (gret (MarshalString "CancelTaskPayload"))
    else if cf_Name field =s "task_id" then Required (_CancelTaskPayload_task_id ctx field obj)
    else if cf_Name field =s "status" then Required (_CancelTaskPayload_status ctx field obj)
    else unknown_field field).
Definition marshalNCancelTaskPayload2CancelTaskPayload : Path -> SelectionSet -> CancelTaskPayload -> G gval := _CancelTaskPayload.
Definition marshalNCancelTaskPayload2ptr_CancelTaskPayload : Path -> SelectionSet -> option CancelTaskPayload -> G gval :=
  non_nil _CancelTaskPayload.

(** ** SubmitTaskResponse *)
Definition fieldContext_SubmitTaskResponse_task_id (ctx : Path) (field : CollectedField) : G (res FieldContext) :=
  gret (NewScalarFieldContext "SubmitTaskResponse" field false false
          (ENew "field of type UUID does not have child fields")).
Definition _SubmitTaskResponse_task_id (ctx : Path) (field : CollectedField) (obj : SubmitTaskResponse) : G gval :=
  ResolveField ctx field fieldContext_SubmitTaskResponse_task_id (fun _ => gret (Ok (sr_TaskID obj)))
    marshalNUUID2UUID true true.
Definition submitTaskResponseImplementors : list string := ["SubmitTaskResponse"].
Definition _SubmitTaskResponse (ctx : Path) (sel : SelectionSet) (obj : SubmitTaskResponse) : G gval :=
  exec_object (CollectFields sel submitTaskResponseImplementors) (fun field =>
    if cf_Name field =s "__typename" then Plain (gret (MarshalString "SubmitTaskResponse"))
    else if cf_Name field =s "task_id" then Required (_SubmitTaskResponse_task_id ctx field obj)
    else unknown_field field).
Definition marshalNSubmitTaskResponse2SubmitTaskResponse : Path -> SelectionSet -> SubmitTaskResponse -> G gval := _SubmitTaskResponse.
Definition marshalNSubmitTaskResponse2ptr_SubmitTaskResponse : Path -> SelectionSet -> option SubmitTaskResponse -> G gval :=
  non_nil _SubmitTaskResponse.

(** ** Tenant *)
Definition fieldContext_Tenant_id (ctx : Path) (field : CollectedField) : G (res FieldContext) :=
  gret (NewScalarFieldContext "Tenant" field false false
          (ENew "field of type UUID does not have child fields")).
Definition _Tenant_id (ctx : Path) (field : CollectedField) (obj : ApiTenant) : G gval :=
  ResolveField ctx field fieldContext_Tenant_id (fun _ => gret (Ok (an_ID obj)))
    marshalNUUID2UUID true true.
Definition fieldContext_Tenant_name (ctx : Path) (field : CollectedField) : G (res FieldContext) :=
  gret (NewScalarFieldContext "Tenant" field false false
          (ENew "field of type String does not have child fields")).
Definition _Tenant_name (ctx : Path) (field : CollectedField) (obj : ApiTenant) : G gval :=
  ResolveField ctx field fieldContext_Tenant_name (fun _ => gret (Ok (an_Name obj)))
    marshalNString2string true true.
Definition fieldContext_Tenant_primary_backend_name (ctx : Path) (field : CollectedField) : G (res FieldContext) :=
  gret (NewScalarFieldContext "Tenant" field false false
          (ENew "field of type String does not have child fields")).
Definition _Tenant_primary_backend_name (ctx : Path) (field : CollectedField) (obj : ApiTenant) : G gval :=
  ResolveField ctx field fieldContext_Tenant_primary_backend_name (fun _ => gret (Ok (an_PrimaryBackendName obj)))
    marshalNString2string true true.
Definition fieldContext_Tenant_max_agents (ctx : Path) (field : CollectedField) : G (res FieldContext) :=
  gret (NewScalarFieldContext "Tenant" field false false
          (ENew "field of type Int does not have child fields")).
Definition _Tenant_max_agents (ctx : Path) (field : CollectedField) (obj : ApiTenant) : G gval :=
  ResolveField ctx field fieldContext_Tenant_max_agents (fun _ => gret (Ok (an_MaxAgents obj)))
    marshalNInt2int true true.
Definition tenantImplementors : list string := ["Tenant"].
Definition _Tenant (ctx : Path) (sel : SelectionSet) (obj : ApiTenant) : G gval :=
  exec_object (CollectFields sel tenantImplementors) (fun field =>
    if cf_Name field =s "__typename" then Plain (gret (MarshalString "Tenant"))
    else if cf_Name field =s "id" then Required (_Tenant_id ctx field obj)
    else if cf_Name field =s "name" then Required (_Tenant_name ctx field obj)
    else if cf_Name field =s "primary_backend_name" then Required (_Tenant_primary_backend_name ctx field obj)
    else if cf_Name field =s "max_agents" then Required (_Tenant_max_agents ctx field obj)
    else unknown_field field).
Definition marshalNTenant2Tenant : Path -> SelectionSet -> ApiTenant -> G gval := _Tenant.
Definition marshalNTenant2ptr_Tenant : Path -> SelectionSet -> option ApiTenant -> G gval :=
  non_nil _Tenant.

(** ** Inputs *)
Definition zero_CreateTenantInput : CreateTenantInput := mkTenantInput "" "" 0.
Definition unmarshalInputCreateTenantInput (ctx : Path) (obj : any) : out (res CreateTenantInput) :=
  match obj with
  | ANil => Val (Ok zero_CreateTenantInput)
  | AScalar _ => Panic "interface conversion"
  | AMap asMap =>
    it <~? input_field asMap "name" ctx unmarshalNString2string
             (fun data it => mkTenantInput data (ct_PrimaryBackendName it) (ct_MaxAgents it))
             zero_CreateTenantInput ;;
    it <~? input_field asMap "primary_backend_name" ctx unmarshalNString2string
             (fun data it => mkTenantInput (ct_Name it) data (ct_MaxAgents it)) it ;;
    input_field asMap "max_agents" ctx unmarshalNInt2int
             (fun data it => mkTenantInput (ct_Name it) (ct_PrimaryBackendName it) data) it
  end.

Definition zero_SubmitTaskInput : SubmitTaskInput := mkSubmitInput "" zero_Upload None.
Definition unmarshalInputSubmitTaskInput (ctx : Path) (obj : any) : out (res SubmitTaskInput) :=
  match obj with
  | ANil => Val (Ok zero_SubmitTaskInput)
  | AScalar _ => Panic "interface conversion"
  | AMap asMap =>
    it <~? input_field asMap "tenant_name" ctx unmarshalNString2string
             (fun data it => mkSubmitInput data (in_BundleZip it) (in_CompletionHookURL it))
             zero_SubmitTaskInput ;;
    it <~? input_field asMap "bundle_zip" ctx unmarshalNUpload2Upload
             (fun data it => mkSubmitInput (in_TenantName it) data (in_CompletionHookURL it)) it ;;
    input_field asMap "completion_hook_url" ctx unmarshalOString2ptr_string
             (fun data it => mkSubmitInput (in_TenantName it) (in_BundleZip it) data) it
  end.

Definition unmarshalNCreateTenantInput2CreateTenantInput (ctx : Path) (v : any)
    : out (res CreateTenantInput) :=
  input_on_path ctx (unmarshalInputCreateTenantInput ctx v).
Definition unmarshalNSubmitTaskInput2SubmitTaskInput (ctx : Path) (v : any)
    : out (res SubmitTaskInput) :=
  input_on_path ctx (unmarshalInputSubmitTaskInput ctx v).

(** ** Arguments *)
Definition field_Mutation_CancelTask_args (ctx : Path) (rawArgs : list (string * any))
    : out (res (list (string * argval))) :=
  arg0 <~? ProcessArgField ctx rawArgs "tenant_name" "" unmarshalNString2string ;;
  arg1 <~? ProcessArgField ctx rawArgs "task_id" uuid_Nil unmarshalNUUID2UUID ;;
  Val (Ok [("tenant_name", VString arg0); ("task_id", VUUID arg1)]).
Definition field_Mutation_CreateTenant_args (ctx : Path) (rawArgs : list (string * any))
    : out (res (list (string * argval))) :=
  arg0 <~? ProcessArgField ctx rawArgs "input" zero_CreateTenantInput
            unmarshalNCreateTenantInput2CreateTenantInput ;;
  Val (Ok [("input", VCreateTenantInput arg0)]).
Definition field_Mutation_SubmitTask_args (ctx : Path) (rawArgs : list (string * any))
    : out (res (list (string * argval))) :=
  arg0 <~? ProcessArgField ctx rawArgs "input" zero_SubmitTaskInput
            unmarshalNSubmitTaskInput2SubmitTaskInput ;;
  Val (Ok [("input", VSubmitTaskInput arg0)]).
Definition field_Query_GetTaskByID_args (ctx : Path) (rawArgs : list (string * any))
    : out (res (list (string * argval))) :=
  arg0 <~? ProcessArgField ctx rawArgs "tenant_name" "" unmarshalNString2string ;;
  arg1 <~? ProcessArgField ctx rawArgs "task_id" uuid_Nil unmarshalNUUID2UUID ;;
  Val (Ok [("tenant_name", VString arg0); ("task_id", VUUID arg1)]).
Definition field_Query_GetTaskList_args (ctx : Path) (rawArgs : list (string * any))
    : out (res (list (string * argval))) :=
  arg0 <~? ProcessArgField ctx rawArgs "tenant_name" "" unmarshalNString2string ;;
  arg1 <~? ProcessArgField ctx rawArgs "status" None unmarshalOString2ptr_string ;;
  Val (Ok [("tenant_name", VString arg0); ("status", VStringPtr arg1)]).
Definition field_Query___type_args (ctx : Path) (rawArgs : list (string * any))
    : out (res (list (string * argval))) :=
  arg0 <~? ProcessArgField ctx rawArgs "name" "" unmarshalNString2string ;;
  Val (Ok [("name", VString arg0)]).

(** ** Root fields *)
Section Root.
Context (resolvers : ResolverRoot).

Definition fieldContext_Mutation_SubmitTask (ctx : Path) (field : CollectedField) : G (res FieldContext) :=
  with_arguments ctx (object_context "Mutation" field true true "SubmitTaskResponse")
    field_Mutation_SubmitTask_args field.
Definition _Mutation_SubmitTask (ctx : Path) (field : CollectedField) : G gval :=
  ResolveField ctx field fieldContext_Mutation_SubmitTask (fun fc =>
     input <~ arg as_SubmitTaskInput "input" fc ;;
     glift (mr_SubmitTask (rr_Mutation resolvers) input))
    marshalNSubmitTaskResponse2ptr_SubmitTaskResponse true true.
Definition fieldContext_Mutation_CancelTask (ctx : Path) (field : CollectedField) : G (res FieldContext) :=
  with_arguments ctx (object_context "Mutation" field true true "CancelTaskPayload")
    field_Mutation_CancelTask_args field.
Definition _Mutation_CancelTask (ctx : Path) (field : CollectedField) : G gval :=
  ResolveField ctx field fieldContext_Mutation_CancelTask (fun fc =>
     tenant_name <~ arg as_string "tenant_name" fc ;;
     task_id <~ arg as_uuid "task_id" fc ;;
     glift (mr_CancelTask (rr_Mutation resolvers) tenant_name task_id))
    marshalNCancelTaskPayload2ptr_CancelTaskPayload true true.
Definition fieldContext_Mutation_CreateTenant (ctx : Path) (field : CollectedField) : G (res FieldContext) :=
  with_arguments ctx (object_context "Mutation" field true true "Tenant")
    field_Mutation_CreateTenant_args field.
Definition _Mutation_CreateTenant (ctx : Path) (field : CollectedField) : G gval :=
  ResolveField ctx field fieldContext_Mutation_CreateTenant (fun fc =>
     input <~ arg as_CreateTenantInput "input" fc ;;
     glift (mr_CreateTenant (rr_Mutation resolvers) input))
    marshalNTenant2ptr_Tenant true true.
Definition fieldContext_Query_GetTaskByID (ctx : Path) (field : CollectedField) : G (res FieldContext) :=
  with_arguments ctx (object_context "Query" field true true "Task")
    field_Query_GetTaskByID_args field.
Definition _Query_GetTaskByID (ctx : Path) (field : CollectedField) : G gval :=
  ResolveField ctx field fieldContext_Query_GetTaskByID (fun fc =>
     tenant_name <~ arg as_string "tenant_name" fc ;;
     task_id <~ arg as_uuid "task_id" fc ;;
     glift (qr_GetTaskByID (rr_Query resolvers) tenant_name task_id))
    marshalNTask2ptr_Task true true.
Definition fieldContext_Query_GetTaskList (ctx : Path) (field : CollectedField) : G (res FieldContext) :=
  with_arguments ctx (object_context "Query" field true true "Task")
    field_Query_GetTaskList_args field.
Definition _Query_GetTaskList (ctx : Path) (field : CollectedField) : G gval :=
  ResolveField ctx field fieldContext_Query_GetTaskList (fun fc =>
     tenant_name <~ arg as_string "tenant_name" fc ;;
     status <~ arg as_string_ptr "status" fc ;;
     glift (qr_GetTaskList (rr_Query resolvers) tenant_name status))
    marshalNTask2slice_ptr_Task true true.
Definition fieldContext_Query___type (ctx : Path) (field : CollectedField) : G (res FieldContext) :=
  with_arguments ctx (object_context "Query" field true false "__Type")
    field_Query___type_args field.
Definition _Query___type (ctx : Path) (field : CollectedField) : G gval :=
  ResolveField ctx field fieldContext_Query___type (fun fc =>
     name <~ arg as_string "name" fc ;;
     gret (IntrospectType name))
    (marshalO__Type2ptr_Type ___Type) true false.
Definition fieldContext_Query___schema (ctx : Path) (field : CollectedField) : G (res FieldContext) :=
  gret (Ok (object_context "Query" field true false "__Schema")).
Definition _Query___schema (ctx : Path) (field : CollectedField) : G gval :=
  ResolveField ctx field fieldContext_Query___schema (fun _ => gret IntrospectSchema)
    (marshalO__Schema2ptr_Schema ___Type) true false.

Definition mutationImplementors : list string := ["Mutation"].
Definition queryImplementors : list string := ["Query"].

(** The context of the fields of a root object. *)
Definition root_context (object : string) : FieldContext :=
  mkFC object None false false [] NilChild.

(** A field of [Mutation] runs in the loop, under the middleware. *)
Definition root_field (ctx : Path) (field : CollectedField)
    (resolve : Path -> CollectedField -> G gval) : G gval :=
  RootResolverMiddleware (WithRootFieldContext ctx field) (fun ctx => resolve ctx field).

(** A field of [Query] is given to [out.Concurrently]: [innerFunc] under [rrm]. *)
Definition concurrent_field (ctx : Path) (field : CollectedField)
    (resolve : Path -> CollectedField -> G gval) : G (gval * nat) :=
  RootResolverMiddleware (WithRootFieldContext ctx field) (fun ctx =>
    recovering
      (res <~ resolve ctx field ;;
       gret (res, invalids res))
      (fun r => AddError ctx (Recover r) ~;; gret (GNil, 0))).

Definition _Mutation (ctx : Path) (sel : SelectionSet) : G gval :=
  let ctx := WithFieldContext ctx (root_context "Mutation") in
  exec_object (CollectFields sel mutationImplementors) (fun field =>
    if cf_Name field =s "__typename" then Plain (gret (MarshalString "Mutation"))
    else if cf_Name field =s "SubmitTask" then Required (root_field ctx field _Mutation_SubmitTask)
    else if cf_Name field =s "CancelTask" then Required (root_field ctx field _Mutation_CancelTask)
    else if cf_Name field =s "CreateTenant" then
      Required (root_field ctx field _Mutation_CreateTenant)
    else unknown_field field).

Definition _Query (ctx : Path) (sel : SelectionSet) : G gval :=
  let ctx := WithFieldContext ctx (root_context "Query") in
  exec_object (CollectFields sel queryImplementors) (fun field =>
    if cf_Name field =s "__typename" then Plain (gret (MarshalString "Query"))
    else if cf_Name field =s "GetTaskByID" then
      Concurrently (concurrent_field ctx field _Query_GetTaskByID)
    else if cf_Name field =s "GetTaskList" then
      Concurrently (concurrent_field ctx field _Query_GetTaskList)
    else if cf_Name field =s "__type" then Plain (root_field ctx field _Query___type)
    else if cf_Name field =s "__schema" then Plain (root_field ctx field _Query___schema)
    else unknown_field field).

(** ** Exec *)
Inductive operation := OpQuery | OpMutation | OpOther.

(** One call of the response handler: [None] ends the response.  No field set is
    ever deferred, so a query has one response too.  The state is [first]. *)
Definition Exec (op : operation) (ctx : Path) (sel : SelectionSet) (first : bool)
    : G (option string * bool) :=
  match op with
  | OpQuery =>
    if first then
      data <~ _Query ctx sel ;;
      gret (Some (MarshalGQL data), false)
    else gret (None, first)
  | OpMutation =>
    if negb first then gret (None, first)
    else
      data <~ _Mutation ctx sel ;;
      gret (Some (MarshalGQL data), false)
  | OpOther =>
    if first then
      AddError ctx (ENew "unsupported GraphQL operation") ~;;
      gret (Some (MarshalGQL GNull), false)
    else gret (None, first)
  end.
End Root.

(** ** Child fields *)
Definition childFields_CancelTaskPayload (ctx : Path) (field : CollectedField) : G (res FieldContext) :=
  if cf_Name field =s "task_id" then fieldContext_CancelTaskPayload_task_id ctx field
  else if cf_Name field =s "status" then fieldContext_CancelTaskPayload_status ctx field
  else gret (Err (no_field field "CancelTaskPayload")).
Definition childFields_SubmitTaskResponse (ctx : Path) (field : CollectedField) : G (res FieldContext) :=
  if cf_Name field =s "task_id" then fieldContext_SubmitTaskResponse_task_id ctx field
  else gret (Err (no_field field "SubmitTaskResponse")).
Definition childFields_Task (ctx : Path) (field : CollectedField) : G (res FieldContext) :=
  if cf_Name field =s "id" then fieldContext_Task_id ctx field
  else if cf_Name field =s "status" then fieldContext_Task_status ctx field
  else if cf_Name field =s "last_error" then fieldContext_Task_last_error ctx field
  else if cf_Name field =s "created_at" then fieldContext_Task_created_at ctx field
  else if cf_Name field =s "started_at" then fieldContext_Task_started_at ctx field
  else if cf_Name field =s "finished_at" then fieldContext_Task_finished_at ctx field
  else if cf_Name field =s "shard_count" then fieldContext_Task_shard_count ctx field
  else if cf_Name field =s "shards" then fieldContext_Task_shards ctx field
  else gret (Err (no_field field "Task")).
Definition childFields_TaskShard (ctx : Path) (field : CollectedField) : G (res FieldContext) :=
  if cf_Name field =s "id" then fieldContext_TaskShard_id ctx field
  else if cf_Name field =s "script_name" then fieldContext_TaskShard_script_name ctx field
  else if cf_Name field =s "status" then fieldContext_TaskShard_status ctx field
  else if cf_Name field =s "output_oss_key" then fieldContext_TaskShard_output_oss_key ctx field
  else if cf_Name field =s "output_sha256" then fieldContext_TaskShard_output_sha256 ctx field
  else if cf_Name field =s "last_error" then fieldContext_TaskShard_last_error ctx field
  else if cf_Name field =s "started_at" then fieldContext_TaskShard_started_at ctx field
  else if cf_Name field =s "finished_at" then fieldContext_TaskShard_finished_at ctx field
  else gret (Err (no_field field "TaskShard")).
Definition childFields_Tenant (ctx : Path) (field : CollectedField) : G (res FieldContext) :=
  if cf_Name field =s "id" then fieldContext_Tenant_id ctx field
  else if cf_Name field =s "name" then fieldContext_Tenant_name ctx field
  else if cf_Name field =s "primary_backend_name" then fieldContext_Tenant_primary_backend_name ctx field
  else if cf_Name field =s "max_agents" then fieldContext_Tenant_max_agents ctx field
  else gret (Err (no_field field "Tenant")).
End Exec.
