(* ===== verification/GqlComplexity.v ===== *)
(** * Query complexity (graph/generated/generated.go)

    The customisable cost of each field, which gqlgen's complexity limit asks for:
    [None] is Go's [(0, false)], gqlgen's own estimate. *)
From S2P Require Import Prelude Errors Model Env World Effects GqlModel Graph.
From S2P Require Import GqlRuntime GqlMarshal GqlIntrospect GqlExec.

Record ComplexityRoot := mkComplexityRoot {
  cr_CancelTaskPayload_Status : option (Z -> Z);
  cr_CancelTaskPayload_TaskID : option (Z -> Z);
  cr_Mutation_CancelTask : option (Z -> string -> uuid -> Z);
  cr_Mutation_CreateTenant : option (Z -> CreateTenantInput -> Z);
  cr_Mutation_SubmitTask : option (Z -> SubmitTaskInput -> Z);
  cr_Query_GetTaskByID : option (Z -> string -> uuid -> Z);
  cr_Query_GetTaskList : option (Z -> string -> option string -> Z);
  cr_SubmitTaskResponse_TaskID : option (Z -> Z);
  cr_Task_CreatedAt : option (Z -> Z);
  cr_Task_FinishedAt : option (Z -> Z);
  cr_Task_ID : option (Z -> Z);
  cr_Task_LastError : option (Z -> Z);
  cr_Task_ShardCount : option (Z -> Z);
  cr_Task_Shards : option (Z -> Z);
  cr_Task_StartedAt : option (Z -> Z);
  cr_Task_Status : option (Z -> Z);
  cr_TaskShard_FinishedAt : option (Z -> Z);
  cr_TaskShard_ID : option (Z -> Z);
  cr_TaskShard_LastError : option (Z -> Z);
  cr_TaskShard_OutputOssKey : option (Z -> Z);
  cr_TaskShard_OutputSha256 : option (Z -> Z);
  cr_TaskShard_ScriptName : option (Z -> Z);
  cr_TaskShard_StartedAt : option (Z -> Z);
  cr_TaskShard_Status : option (Z -> Z);
  cr_Tenant_ID : option (Z -> Z);
  cr_Tenant_MaxAgents : option (Z -> Z);
  cr_Tenant_Name : option (Z -> Z);
  cr_Tenant_PrimaryBackendName : option (Z -> Z);
}.

Section Complexity.
Context `{E : Env} {GT : GqlTypes} {GQ : Gql} {IS : Introspection}.

Definition custom (f : option (Z -> Z)) (childComplexity : Z) : out (option Z) :=
  Val (match f with None => None | Some f => Some (f childComplexity) end).

(** [args[name].(T)]. *)
Definition arg_of {A} (as_type : argval -> option A) (name : string)
    (args : list (string * argval)) : out A :=
  match map_get name args ≫= as_type with
  | Some a => Val a
  | None => Panic "interface conversion"
  end.
#[local] Notation "x <~! p ;; k" :=
  (match p with Val x => k | Panic m => Panic m end)
  (at level 100, p at next level, right associativity).

Definition Complexity (root : ComplexityRoot) (ctx : Path) (typeName field : string)
    (childComplexity : Z) (rawArgs : list (string * any)) : out (option Z) :=
  let key := typeName +:+ "." +:+ field in
  if key =s "CancelTaskPayload.status" then custom (cr_CancelTaskPayload_Status root) childComplexity
  else if key =s "CancelTaskPayload.task_id" then custom (cr_CancelTaskPayload_TaskID root) childComplexity
  else if key =s "Mutation.CancelTask" then
    match cr_Mutation_CancelTask root with
    | None => Val None
    | Some f =>
      match field_Mutation_CancelTask_args ctx rawArgs with
      | Panic m => Panic m
      | Val (Err _) => Val None
      | Val (Ok args) =>
        a0 <~! arg_of as_string "tenant_name" args ;;
        a1 <~! arg_of as_uuid "task_id" args ;;
        Val (Some (f childComplexity a0 a1))
      end
    end
  else if key =s "Mutation.CreateTenant" then
    match cr_Mutation_CreateTenant root with
    | None => Val None
    | Some f =>
      match field_Mutation_CreateTenant_args ctx rawArgs with
      | Panic m => Panic m
      | Val (Err _) => Val None
      | Val (Ok args) =>
        a0 <~! arg_of as_CreateTenantInput "input" args ;;
        Val (Some (f childComplexity a0))
      end
    end
  else if key =s "Mutation.SubmitTask" then
    match cr_Mutation_SubmitTask root with
    | None => Val None
    | Some f =>
      match field_Mutation_SubmitTask_args ctx rawArgs with
      | Panic m => Panic m
      | Val (Err _) => Val None
      | Val (Ok args) =>
        a0 <~! arg_of as_SubmitTaskInput "input" args ;;
        Val (Some (f childComplexity a0))
      end
    end
  else if key =s "Query.GetTaskByID" then
    match cr_Query_GetTaskByID root with
    | None => Val None
    | Some f =>
      match field_Query_GetTaskByID_args ctx rawArgs with
      | Panic m => Panic m
      | Val (Err _) => Val None
      | Val (Ok args) =>
        a0 <~! arg_of as_string "tenant_name" args ;;
        a1 <~! arg_of as_uuid "task_id" args ;;
        Val (Some (f childComplexity a0 a1))
      end
    end
  else if key =s "Query.GetTaskList" then
    match cr_Query_GetTaskList root with
    | None => Val None
    | Some f =>
      match field_Query_GetTaskList_args ctx rawArgs with
      | Panic m => Panic m
      | Val (Err _) => Val None
      | Val (Ok args) =>
        a0 <~! arg_of as_string "tenant_name" args ;;
        a1 <~! arg_of as_string_ptr "status" args ;;
        Val (Some (f childComplexity a0 a1))
      end
    end
  else if key =s "SubmitTaskResponse.task_id" then custom (cr_SubmitTaskResponse_TaskID root) childComplexity
  else if key =s "Task.created_at" then custom (cr_Task_CreatedAt root) childComplexity
  else if key =s "Task.finished_at" then custom (cr_Task_FinishedAt root) childComplexity
  else if key =s "Task.id" then custom (cr_Task_ID root) childComplexity
  else if key =s "Task.last_error" then custom (cr_Task_LastError root) childComplexity
  else if key =s "Task.shard_count" then custom (cr_Task_ShardCount root) childComplexity
  else if key =s "Task.shards" then custom (cr_Task_Shards root) childComplexity
  else if key =s "Task.started_at" then custom (cr_Task_StartedAt root) childComplexity
  else if key =s "Task.status" then custom (cr_Task_Status root) childComplexity
  else if key =s "TaskShard.finished_at" then custom (cr_TaskShard_FinishedAt root) childComplexity
  else if key =s "TaskShard.id" then custom (cr_TaskShard_ID root) childComplexity
  else if key =s "TaskShard.last_error" then custom (cr_TaskShard_LastError root) childComplexity
  else if key =s "TaskShard.output_oss_key" then custom (cr_TaskShard_OutputOssKey root) childComplexity
  else if key =s "TaskShard.output_sha256" then custom (cr_TaskShard_OutputSha256 root) childComplexity
  else if key =s "TaskShard.script_name" then custom (cr_TaskShard_ScriptName root) childComplexity
  else if key =s "TaskShard.started_at" then custom (cr_TaskShard_StartedAt root) childComplexity
  else if key =s "TaskShard.status" then custom (cr_TaskShard_Status root) childComplexity
  else if key =s "Tenant.id" then custom (cr_Tenant_ID root) childComplexity
  else if key =s "Tenant.max_agents" then custom (cr_Tenant_MaxAgents root) childComplexity
  else if key =s "Tenant.name" then custom (cr_Tenant_Name root) childComplexity
  else if key =s "Tenant.primary_backend_name" then custom (cr_Tenant_PrimaryBackendName root) childComplexity
  else Val None.
End Complexity.
