(* ===== verification/GqlEffects.v ===== *)
(** * What a request may do

    A property of programs that is closed under sequencing, such as keeping the
    life cycle or leaving the database alone, holds of a request as soon as it
    holds of the resolvers: the executor itself has no effect. *)
From S2P Require Import Prelude Errors Model Env Proto World Effects Store StoreFacts Lifecycle Lawful.
From S2P Require Import GqlModel Graph.
From S2P Require Import GqlRuntime GqlMarshal GqlIntrospect GqlExec.

(** [P p Q]: the program [p] has the property and its value satisfies [Q]. *)
Class Modality (P : forall A, prog A -> (A -> Prop) -> Prop) : Prop := {
  modality_ret : forall A (a : A) (Q : A -> Prop), Q a -> P A (Ret a) Q;
  modality_bind : forall A B (p : prog A) (k : A -> prog B) (Q : A -> Prop) (R : B -> Prop),
    P A p Q -> (forall a, Q a -> P B (k a) R) -> P B (bind p k) R;
  modality_mono : forall A (p : prog A) (Q R : A -> Prop),
    (forall a, Q a -> R a) -> P A p Q -> P A p R;
}.

Section Within.
Context `{E : Env} {GT : GqlTypes} {GQ : Gql} {GL : GqlLaws GQ} {IS : Introspection}.
Context (P : forall A, prog A -> (A -> Prop) -> Prop) {MP : Modality P}.

Definition within_to {A} (p : G A) (Q : A -> Prop) : Prop :=
  forall es, P _ (p es) (fun x => match x.1 with Val a => Q a | Panic _ => True end).
Definition within {A} (p : G A) : Prop := within_to p (fun _ => True).

Lemma within_to_ret {A} (a : A) (Q : A -> Prop) : Q a -> within_to (gret a) Q.
Proof. intros H es. by apply modality_ret. Qed.
Lemma within_to_bind {A B} (p : G A) (k : A -> G B) Q R :
  within_to p Q -> (forall a, Q a -> within_to (k a) R) -> within_to (gbind p k) R.
Proof.
  intros Hp Hk es. eapply modality_bind; [apply Hp|].
  intros [[a|m] es'] Ha; [by apply Hk|by apply modality_ret].
Qed.
Lemma within_of_to {A} (p : G A) Q : within_to p Q -> within p.
Proof. intros H es. eapply modality_mono; [|apply H]. by intros [[a|m] es'] _. Qed.

Lemma within_ret {A} (a : A) : within (gret a).
Proof. by apply within_to_ret. Qed.
Lemma within_panic {A} m : within (gpanic (A := A) m).
Proof. intros es. by apply modality_ret. Qed.
Lemma within_bind {A B} (p : G A) (k : A -> G B) :
  within p -> (forall a, within (k a)) -> within (gbind p k).
Proof. intros Hp Hk. apply (within_to_bind _ _ (fun _ => True)); [exact Hp|]. intros a _. apply Hk. Qed.
Lemma within_AddError ctx e : within (AddError ctx e).
Proof. intros es. by apply modality_ret. Qed.
Lemma within_report_null ctx : within (report_null ctx).
Proof. intros es. unfold report_null. destruct (HasFieldError es ctx); by apply modality_ret. Qed.
Lemma within_lift {A} (p : prog A) : P A p (fun _ => True) -> within (glift p).
Proof. intros Hp es. eapply modality_bind; [exact Hp|]. intros a _. by apply modality_ret. Qed.
Lemma within_out {A} (x : out A) : within (gout x).
Proof. intros es. apply modality_ret. by destruct x. Qed.
Lemma within_recovering {A} (p : G A) h :
  within p -> (forall m, within (h m)) -> within (recovering p h).
Proof.
  intros Hp Hh es. eapply modality_bind; [apply Hp|].
  intros [[a|m] es'] _; [by apply modality_ret|apply Hh].
Qed.

Lemma within_run_list {A} (l : list (nat * G A)) :
  (forall i p, (i, p) ∈ l -> within p) -> within (run_list l).
Proof.
  induction l as [|[i p] l IH]; intros H; cbn [run_list]; [apply within_ret|].
  apply within_bind; [apply (H i); left|]. intros a.
  apply within_bind; [apply IH; intros j q Hj; apply (H j); by right|]. intros rs.
  apply within_ret.
Qed.
Lemma within_ResolveField {A} ctx field init (resolver : FieldContext -> G (res A)) marshal nn :
  within (init ctx field) -> (forall fc, within (resolver fc)) ->
  (forall ctx sel a, within (marshal ctx sel a)) ->
  within (ResolveField ctx field init resolver marshal true nn).
Proof.
  intros Hi Hr Hm es. rewrite ResolveField_eq. revert es.
  apply within_bind; [exact Hi|]. intros [fc|e]; [|apply within_ret].
  apply within_recovering.
  - apply within_bind; [apply Hr|]. intros [a|e]; [apply Hm|].
    apply within_bind; [apply within_AddError|]. intros _. apply within_ret.
  - intros m. apply within_bind; [apply within_AddError|]. intros _. apply within_ret.
Qed.
Lemma within_MarshalSlice ctx n f :
  (forall ctx i, within (f ctx i)) -> within (MarshalSliceConcurrently ctx n f).
Proof.
  intros Hf es. destruct (MarshalSlice_order ctx n f) as (order & _ & ->). revert es.
  apply within_bind; [|intros rs; apply within_ret]. apply within_run_list.
  intros i p (j & [= -> ->] & _)%list_elem_of_fmap. apply Hf.
Qed.
Lemma within_Dispatch ds : (forall i p, (i, p) ∈ ds -> within p) -> within (Dispatch ds).
Proof.
  intros H es. destruct (Dispatch_order ds) as (ds' & Hp & ->). revert es.
  apply within_run_list. intros i p Hi. apply (H i). by rewrite <-Hp.
Qed.
Lemma within_middleware {A} ctx (f : Path -> G A) :
  (forall ctx, within (f ctx)) -> within (RootResolverMiddleware ctx f).
Proof. intros Hf es. rewrite RootResolverMiddleware_eq. apply Hf. Qed.

Definition slot_within (s : slot) : Prop :=
  match s with
  | Plain p | Required p => within p
  | Concurrently p => within p
  end.

Lemma within_set_fields i fields case :
  (forall f, slot_within (case f)) ->
  within_to (set_fields i fields case) (fun x => forall j p, (j, p) ∈ x.2 -> within p).
Proof.
  intros Hc. revert i. induction fields as [|f fields IH]; intros i; cbn [set_fields].
  { apply within_to_ret. by intros j p ?%not_elem_of_nil. }
  apply (within_to_bind _ _ (fun x => forall j p, (j, p) ∈ x.2 -> within p)).
  - specialize (Hc f). destruct (case f) as [p|p|p]; cbn in Hc;
      try (eapply within_to_bind; [exact Hc|intros v _]);
      apply within_to_ret; cbn.
    + by intros j q ?%not_elem_of_nil.
    + by intros j q ?%not_elem_of_nil.
    + intros j q [[= -> ->]|?%not_elem_of_nil]%elem_of_cons; done.
  - intros x Hx. apply (within_to_bind _ _ _ _ (IH (S i))). intros y Hy.
    apply within_to_ret. cbn. intros j p [?|?]%elem_of_app; eauto.
Qed.
Lemma within_exec_object fields case :
  (forall f, slot_within (case f)) -> within (exec_object fields case).
Proof.
  intros Hc. apply (within_of_to _ (fun _ => True)).
  eapply within_to_bind; [by apply within_set_fields|]. intros x Hx.
  eapply within_to_bind; [by apply within_Dispatch|].
  intros ds _. by apply within_to_ret.
Qed.
Lemma within_not_null ctx v : within (not_null ctx v).
Proof.
  unfold not_null. destruct (is_Null v); [|apply within_ret].
  apply within_bind; [apply within_report_null|]. intros _. apply within_ret.
Qed.
Lemma within_non_nil {A} (object : Path -> SelectionSet -> A -> G gval) ctx sel v :
  (forall ctx sel x, within (object ctx sel x)) -> within (non_nil object ctx sel v).
Proof.
  intros Ho. destruct v; [apply Ho|].
  apply within_bind; [apply within_report_null|]. intros _. apply within_ret.
Qed.
Lemma within_list {A} (element : Path -> SelectionSet -> A -> G gval) ctx sel l :
  (forall ctx sel x, within (element ctx sel x)) -> within (marshal_list element ctx sel l).
Proof.
  intros He. apply within_bind; [|intros r; apply within_ret].
  apply within_MarshalSlice. intros ctx' i. destruct (l !! i); [apply He|apply within_panic].
Qed.
Lemma within_optional_list {A} (element : Path -> SelectionSet -> A -> G gval) ctx sel l :
  (forall ctx sel x, within (element ctx sel x)) ->
  within (marshal_optional_list element ctx sel l).
Proof. intros He. destruct l; [by apply within_list|apply within_ret]. Qed.
Lemma within_arguments ctx fc args field : within (with_arguments ctx fc args field).
Proof.
  apply within_recovering.
  - apply within_bind; [apply within_out|]. intros [a|e]; [apply within_ret|].
    apply within_bind; [apply within_AddError|]. intros _. apply within_ret.
  - intros m. apply within_bind; [apply within_AddError|]. intros _. apply within_ret.
Qed.
Lemma within_arg {A} (as_type : argval -> option A) name fc : within (arg as_type name fc).
Proof. unfold arg. destruct (_ ≫= _); [apply within_ret|apply within_panic]. Qed.

(** The root fields, which run in a middleware and, for queries, concurrently. *)
Lemma within_root_field ctx f resolve :
  (forall ctx f, within (resolve ctx f)) -> within (root_field ctx f resolve).
Proof. intros H. apply within_middleware. intros ctx'. apply H. Qed.
Lemma within_concurrent_field ctx f resolve :
  (forall ctx f, within (resolve ctx f)) -> within (concurrent_field ctx f resolve).
Proof.
  intros H. apply within_middleware. intros ctx'. apply within_recovering.
  - apply within_bind; [apply H|]. intros v. apply within_ret.
  - intros m. apply within_bind; [apply within_AddError|]. intros _. apply within_ret.
Qed.
End Within.

(** Walks down an object function: its cases, the field contexts, the accesses and
    the marshallers. *)
Ltac head_of p :=
  match p with
  | ?f _ => head_of f
  | _ => p
  end.
Ltac walk_step :=
  match goal with
  | |- slot_within _ (if ?b then _ else _) => destruct b
  | |- slot_within _ _ => cbn [slot_within unknown_field]
  | |- within ?P (gret _) => apply (within_ret P)
  | |- within ?P (gpanic _) => apply (within_panic P)
  | |- within ?P (exec_object _ _) => apply (within_exec_object P); intros ?
  | |- within ?P (ResolveField _ _ _ _ _ _ _) => apply (within_ResolveField P); intros
  | |- within ?P (gbind _ _) => apply (within_bind P); intros
  | |- within ?P (not_null _ _) => apply (within_not_null P)
  | |- within ?P (non_nil _ _ _ _) => apply (within_non_nil P); intros
  | |- within ?P (marshal_list _ _ _ _) => apply (within_list P); intros
  | |- within ?P (marshal_optional_list _ _ _ _) => apply (within_optional_list P); intros
  | |- within ?P (with_arguments _ _ _ _) => apply (within_arguments P)
  | |- within ?P (arg _ _ _) => apply (within_arg P)
  | |- within ?P (glift _) =>
      apply (within_lift P);
      auto with gql
  | |- within _ (match ?x with _ => _ end) => destruct x
  | |- within _ _ => solve [auto with gql]
  | |- within _ ?p => let f := head_of p in unfold f
  end.
Ltac walk := repeat walk_step.


Section Objects.
Context `{E : Env} {GT : GqlTypes} {GQ : Gql} {GL : GqlLaws GQ} {IS : Introspection}.
Context (P : forall A, prog A -> (A -> Prop) -> Prop) {MP : Modality P}.
#[local] Abbreviation within := (within P).

Lemma within_TaskShard ctx sel s : within (_TaskShard ctx sel s).
Proof. walk. Qed.
Lemma within_Task ctx sel s : within (_Task ctx sel s).
Proof. walk. Qed.
Lemma within_CancelTaskPayload ctx sel s : within (_CancelTaskPayload ctx sel s).
Proof. walk. Qed.
Lemma within_SubmitTaskResponse ctx sel s : within (_SubmitTaskResponse ctx sel s).
Proof. walk. Qed.
Lemma within_Tenant ctx sel s : within (_Tenant ctx sel s).
Proof. walk. Qed.

Section Types.
Context (rec : Path -> SelectionSet -> IType -> G gval).
Context (Hrec : forall ctx sel t, within (rec ctx sel t)).
#[local] Hint Resolve Hrec : gql.
Lemma within_EnumValue ctx sel v : within (___EnumValue ctx sel v).
Proof. walk. Qed.
Lemma within_InputValue ctx sel v : within (___InputValue rec ctx sel v).
Proof. walk. Qed.
#[local] Hint Resolve within_EnumValue within_InputValue : gql.
Lemma within_Field ctx sel v : within (___Field rec ctx sel v).
Proof. walk. Qed.
#[local] Hint Resolve within_Field : gql.
Lemma within_Type_step ctx sel v : within (___Type_step rec ctx sel v).
Proof. walk. Qed.
Lemma within_Directive ctx sel v : within (___Directive rec ctx sel v).
Proof. walk. Qed.
#[local] Hint Resolve within_Directive : gql.
Lemma within_Schema ctx sel v : within (___Schema rec ctx sel v).
Proof. walk. Qed.
End Types.
Lemma within_Type_fuel bottom n ctx sel t : (forall ctx sel t, within (bottom ctx sel t)) ->
  within (___Type_fuel bottom n ctx sel t).
Proof.
  intros Hb. revert ctx sel t. induction n as [|n IH]; intros ctx sel t; [apply Hb|].
  exact (within_Type_step _ IH ctx sel t).
Qed.
Lemma within_Type ctx sel t : within (___Type ctx sel t).
Proof. apply within_Type_fuel. intros. apply (within_panic P). Qed.
Lemma within_Schema_Type ctx sel v : within (___Schema ___Type ctx sel v).
Proof. apply within_Schema. intros. apply within_Type. Qed.


#[local] Hint Resolve within_TaskShard within_Task within_CancelTaskPayload
  within_SubmitTaskResponse within_Tenant within_Type within_Schema_Type
  within_root_field within_concurrent_field : gql.

(** ** Requests *)
Context (resolvers : ResolverRoot).
Section Mutation.
Context (Hs : forall i, P _ (mr_SubmitTask (rr_Mutation resolvers) i) (fun _ => True)).
Context (Hc : forall n u, P _ (mr_CancelTask (rr_Mutation resolvers) n u) (fun _ => True)).
Context (Ht : forall i, P _ (mr_CreateTenant (rr_Mutation resolvers) i) (fun _ => True)).
Lemma within_SubmitTask ctx f : within (_Mutation_SubmitTask resolvers ctx f).
Proof. walk. Qed.
Lemma within_CancelTask ctx f : within (_Mutation_CancelTask resolvers ctx f).
Proof. walk. Qed.
Lemma within_CreateTenant ctx f : within (_Mutation_CreateTenant resolvers ctx f).
Proof. walk. Qed.
#[local] Hint Resolve within_SubmitTask within_CancelTask within_CreateTenant : gql.
Lemma within_Mutation ctx sel : within (_Mutation resolvers ctx sel).
Proof. unfold _Mutation. cbv zeta. walk. Qed.
End Mutation.

Section Query.
Context (Hg : forall n u, P _ (qr_GetTaskByID (rr_Query resolvers) n u) (fun _ => True)).
Context (Hl : forall n s, P _ (qr_GetTaskList (rr_Query resolvers) n s) (fun _ => True)).
Lemma within_GetTaskByID ctx f : within (_Query_GetTaskByID resolvers ctx f).
Proof. walk. Qed.
Lemma within_GetTaskList ctx f : within (_Query_GetTaskList resolvers ctx f).
Proof. walk. Qed.
Lemma within_type ctx f : within (_Query___type ctx f).
Proof. walk. Qed.
Lemma within_schema ctx f : within (_Query___schema ctx f).
Proof. walk. Qed.
#[local] Hint Resolve within_GetTaskByID within_GetTaskList within_type within_schema : gql.
Lemma within_Query ctx sel : within (_Query resolvers ctx sel).
Proof. unfold _Query. cbv zeta. walk. Qed.
End Query.

Lemma within_Exec op ctx sel first :
  (forall i, P _ (mr_SubmitTask (rr_Mutation resolvers) i) (fun _ => True)) ->
  (forall n u, P _ (mr_CancelTask (rr_Mutation resolvers) n u) (fun _ => True)) ->
  (forall i, P _ (mr_CreateTenant (rr_Mutation resolvers) i) (fun _ => True)) ->
  (forall n u, P _ (qr_GetTaskByID (rr_Query resolvers) n u) (fun _ => True)) ->
  (forall n s, P _ (qr_GetTaskList (rr_Query resolvers) n s) (fun _ => True)) ->
  within (Exec resolvers op ctx sel first).
Proof.
  intros. unfold Exec. destruct op, first; cbn [negb]; try apply (within_ret P);
    apply (within_bind P); intros;
    first [by apply within_Query|by apply within_Mutation|apply (within_AddError P)|apply (within_ret P)].
Qed.
End Objects.

(** ** Three such properties *)
#[export] Instance lawful_modality : Modality (fun A => lawful_to (A := A)).
Proof.
  split; [done| |].
  - intros A B p k Q R. apply lawful_bind_to.
  - intros A p Q R. apply lawful_to_mono.
Qed.
(** The program leaves the world as it is, or the database. *)
Definition effect_free {A} (p : prog A) (Q : A -> Prop) : Prop :=
  forall w, wp true p (fun a w' => Q a /\ w' = w) w.
Definition read_only {A} (p : prog A) (Q : A -> Prop) : Prop :=
  forall w, wp true p (fun a w' => Q a /\ w_db w' = w_db w) w.
#[export] Instance effect_free_modality : Modality (@effect_free).
Proof.
  split; [done| |].
  - intros A B p k Q R Hp Hk w. apply wp_bind. eapply wp_mono; [|apply Hp].
    intros a w' [Ha ->]. by apply Hk.
  - intros A p Q R HQ Hp w. eapply wp_mono; [|apply Hp]. intros a w' [Ha ->]. eauto.
Qed.
#[export] Instance read_only_modality : Modality (@read_only).
Proof.
  split; [done| |].
  - intros A B p k Q R Hp Hk w. apply wp_bind. eapply wp_mono; [|apply Hp].
    intros a w' [Ha Hw]. rewrite <-Hw. by apply Hk.
  - intros A p Q R HQ Hp w. eapply wp_mono; [|apply Hp]. intros a w' [Ha ?]. eauto.
Qed.
