(* ===== verification/GqlApi.v ===== *)
(** * The API: the executor with the resolvers of graph/

    The resolvers of Graph.v as the executor's [ResolverRoot], and the proof that
    every request keeps the life cycle of tasks and shards. *)
From S2P Require Import Prelude Errors Model Env Proto World Effects Store StoreFacts Lifecycle Lawful.
From S2P Require Import TaskApi Control GqlModel Graph GqlRuntime GqlMarshal GqlIntrospect GqlExec GqlEffects.

(** What [utils.CopyObj] makes of a record: the fields of the same JSON names. *)
Definition copied_shard (s : TaskShard) : ApiShard :=
  mkApiShard (rid s) (ScriptName s) (sh_Status s) (Some (OutputOSSKey s)) (Some (OutputSHA256 s))
    (Some (sh_LastError s)) (sh_StartedAt s) (sh_FinishedAt s).
Definition copied_task (t : Task * list TaskShard) : ApiTask :=
  mkApiTask (rid t.1) (Status t.1) (LastError t.1) (CreatedAt (base t.1)) (StartedAt t.1)
    (FinishedAt t.1) (ShardCount t.1) (map (fun s => Some (copied_shard s)) t.2).
Definition copied_tenant (n : Tenant) : ApiTenant :=
  mkApiTenant (rid n) (Name n) (PrimaryBackendName n) (MaxAgents n).
(** A copy that succeeds. *)
Definition copies {A B} (copied : A -> B) (x : A) : prog (res B) := Ret (Ok (copied x)).

Section Api.
Context `{E : Env} {GT : GqlTypes} {GQ : Gql} {IS : Introspection}.
Context (notify : string -> uuid -> prog (res unit)).
Context (CopyTask : Task * list TaskShard -> prog (res ApiTask)).
Context (CopyTenant : Tenant -> prog (res ApiTenant)).

(** [return &result, nil]. *)
Definition address_of {A} (p : prog (res A)) : prog (res (option A)) :=
  x <-? p ;; Ret (Ok (Some x)).
Definition addresses_of {A} (p : prog (res (list A))) : prog (res (list (option A))) :=
  l <-? p ;; Ret (Ok (map Some l)).

Definition mutationResolver : MutationResolver :=
  mkMutationResolver
    (fun input => address_of (Resolver_SubmitTask input))
    (fun tenantName taskID => address_of (Resolver_CancelTask notify tenantName taskID))
    (fun input => address_of (Resolver_CreateTenant CopyTenant input)).
Definition queryResolver : QueryResolver :=
  mkQueryResolver
    (fun tenantName taskID => address_of (Resolver_GetTaskByID CopyTask tenantName taskID))
    (fun tenantName status => addresses_of (Resolver_GetTaskList CopyTask tenantName status)).
Definition Resolver : ResolverRoot := mkResolverRoot mutationResolver queryResolver.

(** ** Requests keep the life cycle *)
Context {L : EnvLaws E} {GL : GqlLaws GQ}.
Context (Hn : forall a s, lawful (notify a s)).
Context (HcT : forall t, lawful (CopyTask t)) (HcN : forall t, lawful (CopyTenant t)).

Lemma lawful_address_of {A} (p : prog (res A)) : lawful p -> lawful (address_of p).
Proof. intros Hp. apply lawful_bindR; [done|]. intros x. apply lawful_ret. Qed.
Lemma lawful_addresses_of {A} (p : prog (res (list A))) : lawful p -> lawful (addresses_of p).
Proof. intros Hp. apply lawful_bindR; [done|]. intros x. apply lawful_ret. Qed.

Lemma lawful_Exec op ctx sel first es : lawful (Exec Resolver op ctx sel first es).
Proof.
  eapply lawful_to_any, (within_Exec (fun A => lawful_to (A := A)));
    intros; first [apply lawful_address_of|apply lawful_addresses_of]; eauto with prog.
Qed.
End Api.
