(* ===== verification/GqlSpec.v ===== *)
(** * A program logic for the GraphQL executor

    [hoare p Q]: whatever fails, [p] returns (it neither panics nor forgets an
    error reported before) with a value and errors that satisfy [Q].  [partial]
    also lets [p] panic.  The rules for [ResolveField], for lists and for the loop
    of an object function rest on the laws of the runtime. *)
From S2P Require Import Prelude Errors Model Env World Effects GqlModel Graph.
From S2P Require Import GqlRuntime GqlMarshal.

Section Spec.
Context `{E : Env} {GT : GqlTypes} {GQ : Gql} {GL : GqlLaws GQ}.

Definition outcome {A} (partial : bool) (Q : A -> Reported -> Prop) (es : Reported)
    (x : out A * Reported) : Prop :=
  es `prefix_of` x.2 /\
  match x.1 with
  | Val a => Q a x.2
  | Panic _ => partial = true
  end.
Definition spec (partial : bool) {A} (p : G A) (Q : A -> Reported -> Prop) : Prop :=
  forall es w, wp true (p es) (fun x _ => outcome partial Q es x) w.
Definition hoare {A} : G A -> (A -> Reported -> Prop) -> Prop := spec false.
Definition partial {A} : G A -> (A -> Reported -> Prop) -> Prop := spec true.

(** A null value has been reported. *)
Definition excused (v : gval) (es : Reported) : Prop := v = GNull -> es <> [].

Lemma prefix_nonempty (es es' : Reported) : es `prefix_of` es' -> es <> [] -> es' <> [].
Proof. intros [l ->] H [? ?]%app_eq_nil. done. Qed.
Lemma excused_prefix v es es' : es `prefix_of` es' -> excused v es -> excused v es'.
Proof. intros Hp He Hv. by eapply prefix_nonempty, He. Qed.
Lemma excused_value v es : is_Null v = false -> excused v es.
Proof. intros Hv ->. done. Qed.

Lemma spec_mono b {A} (p : G A) (Q Q' : A -> Reported -> Prop) :
  (forall a es, Q a es -> Q' a es) -> spec b p Q -> spec b p Q'.
Proof.
  intros HQ Hp es w. eapply wp_mono; [|exact (Hp es w)].
  intros [[a|m] es'] w' [He H]; (split; [exact He|]); cbn in *; auto.
Qed.
Lemma hoare_partial {A} (p : G A) Q : hoare p Q -> partial p Q.
Proof.
  intros Hp es w. eapply wp_mono; [|exact (Hp es w)].
  by intros [[a|m] es'] w' [He H]; (split; [exact He|]); cbn in *.
Qed.
Lemma spec_ret b {A} (a : A) (Q : A -> Reported -> Prop) :
  (forall es, Q a es) -> spec b (gret a) Q.
Proof. intros H es w. split; cbn; [reflexivity|apply H]. Qed.
Lemma spec_panic {A} m (Q : A -> Reported -> Prop) : partial (gpanic m) Q.
Proof. intros es w. split; cbn; reflexivity. Qed.

Lemma spec_bind b {A B} (p : G A) (k : A -> G B) (R : A -> Reported -> Prop) Q :
  spec b p R ->
  (forall a es w, R a es -> wp true (k a es) (fun x _ => outcome b Q es x) w) ->
  spec b (gbind p k) Q.
Proof.
  intros Hp Hk es w. apply wp_bind. eapply wp_mono; [|exact (Hp es w)].
  intros [[a|m] es'] w' [He H]; cbn in *; [|by split].
  eapply wp_mono; [|exact (Hk a es' w' H)].
  intros [o es''] w'' [He' H']. split; [by etrans|done].
Qed.
(** The same when what follows does not look at the errors. *)
Lemma spec_bind_pure b {A B} (p : G A) (k : A -> G B) (R : A -> Prop) Q :
  spec b p (fun a _ => R a) -> (forall a, R a -> spec b (k a) Q) -> spec b (gbind p k) Q.
Proof. intros Hp Hk. eapply spec_bind; [exact Hp|]. intros a es w Ha. by apply Hk. Qed.

Lemma spec_AddError b ctx e : spec b (AddError ctx e) (fun _ es => es <> []).
Proof.
  intros es w. split; cbn; [by eexists|]. intros H. by apply app_eq_nil in H as [_ H].
Qed.
Lemma spec_fail b {A} ctx e (a : A) (Q : A -> Reported -> Prop) :
  (forall es, es <> [] -> Q a es) -> spec b (AddError ctx e ~;; gret a) Q.
Proof.
  intros HQ. eapply spec_bind; [apply spec_AddError|]. intros [] es w Hes. split; cbn; [reflexivity|].
  by apply HQ.
Qed.

Lemma spec_glift b {A} (p : prog A) (Q : A -> Prop) :
  (forall w, wp true p (fun a _ => Q a) w) -> spec b (glift p) (fun a _ => Q a).
Proof.
  intros Hp es w. apply wp_bind. eapply wp_mono; [|exact (Hp w)].
  intros a w' Ha. split; cbn; [reflexivity|exact Ha].
Qed.
Lemma partial_gout {A} (x : out A) (Q : A -> Prop) :
  (forall a, x = Val a -> Q a) -> partial (gout x) (fun a _ => Q a).
Proof. intros H es w. split; cbn; [reflexivity|]. destruct x; cbn; eauto. Qed.

Lemma hoare_report_null ctx {A} (a : A) (Q : A -> Reported -> Prop) :
  (forall es, es <> [] -> Q a es) -> hoare (report_null ctx ~;; gret a) Q.
Proof.
  intros HQ es w. unfold gbind, report_null. destruct (HasFieldError es ctx) eqn:Hf; cbn.
  - split; cbn; [reflexivity|]. by eapply HQ, HasFieldError_some.
  - split; cbn; [by eexists|]. apply HQ. by intros [_ ?]%app_eq_nil.
Qed.

Lemma hoare_recovering {A} (p : G A) (h : string -> G A) Q :
  partial p Q -> (forall m, hoare (h m) Q) -> hoare (recovering p h) Q.
Proof.
  intros Hp Hh es w. apply wp_bind. eapply wp_mono; [|exact (Hp es w)].
  intros [[a|m] es'] w' [He H]; cbn in *; [by split|].
  eapply wp_mono; [|exact (Hh m es' w')].
  intros [o es''] w'' [He' H']. split; [by etrans|done].
Qed.

(** ** Errors only accumulate *)
Definition persists (P : Reported -> Prop) : Prop :=
  forall es es', es `prefix_of` es' -> P es -> P es'.
Lemma persists_excused v : persists (excused v).
Proof. intros es es' Hp. by apply excused_prefix. Qed.

Lemma spec_bind_keep b {A B} (p : G A) (k : A -> G B) (R : A -> Reported -> Prop) Q :
  (forall a, persists (R a)) -> spec b p R ->
  (forall a, spec b (k a) (fun x es => R a es -> Q x es)) -> spec b (gbind p k) Q.
Proof.
  intros HR Hp Hk. eapply spec_bind; [exact Hp|]. intros a es w Ha.
  eapply wp_mono; [|exact (Hk a es w)]. intros [[x|m] es'] w' [He H]; split; try exact He.
  - cbn in *. apply H. by eapply HR.
  - exact H.
Qed.

(** ** Running labelled functions *)
Lemma run_list_spec {A} (l : list (nat * G A)) (Q : nat -> A -> Reported -> Prop) :
  (forall i a, persists (Q i a)) ->
  (forall i p, (i, p) ∈ l -> hoare p (Q i)) ->
  hoare (run_list l) (fun rs es => rs.*1 = l.*1 /\ forall i a, (i, a) ∈ rs -> Q i a es).
Proof.
  intros HQ. induction l as [|[i p] l IH]; intros Hl; cbn [run_list].
  - apply spec_ret. intros es. split; [done|]. by intros i a ?%not_elem_of_nil.
  - eapply (spec_bind_keep _ _ _ (Q i)); [apply HQ| |].
    { apply Hl. left. }
    intros a. eapply (spec_bind_keep _ _ _ (fun rs es => rs.*1 = l.*1 /\ forall i a, (i, a) ∈ rs -> Q i a es)).
    { intros rs es es' Hp [H1 H2]. split; [done|]. intros j b Hj. eapply HQ; eauto. }
    { apply IH. intros j q Hj. apply Hl. by right. }
    intros rs. apply spec_ret. intros es [H1 H2] Ha. split; [cbn; by f_equal|].
    intros j b [[= -> ->]|Hj]%elem_of_cons; auto.
Qed.

Lemma at_index_some {A} (d : A) (rs : list (nat * A)) i a :
  NoDup rs.*1 -> (i, a) ∈ rs -> at_index d rs i = a.
Proof. intros Hn Hi. unfold at_index. by rewrite (elem_of_list_to_map_1 rs i a Hn Hi). Qed.
Lemma at_index_none {A} (d : A) (rs : list (nat * A)) i : i ∉ rs.*1 -> at_index d rs i = d.
Proof. intros Hi. unfold at_index. by rewrite not_elem_of_list_to_map_1. Qed.

(** ** Lists *)
Lemma excused_all_persists {A} (R : A -> gval -> Prop) l vs :
  persists (fun es => Forall2 (fun x v => R x v /\ excused v es) l vs).
Proof.
  intros es es' Hp H. eapply Forall2_impl; [exact H|]. intros x v [? ?]. split; [done|].
  by eapply excused_prefix.
Qed.

Lemma MarshalSlice_spec {A} (element : Path -> nat -> G gval) ctx (l : list A)
    (R : A -> gval -> Prop) :
  (forall ctx i x, l !! i = Some x -> hoare (element ctx i) (fun v es => R x v /\ excused v es)) ->
  hoare (MarshalSliceConcurrently ctx (length l) element)
    (fun vs es => Forall2 (fun x v => R x v /\ excused v es) l vs).
Proof.
  intros Hl. destruct (MarshalSlice_order ctx (length l) element) as (order & Hperm & Heq).
  intros es w. rewrite Heq. revert es w.
  eapply (spec_bind_keep _ _ _ (fun rs es => rs.*1 = order /\
    forall i v, (i, v) ∈ rs -> forall x, l !! i = Some x -> R x v /\ excused v es)).
  { intros rs es es' Hp [H1 H2]. split; [done|]. intros i v Hi x Hx.
    destruct (H2 i v Hi x Hx) as [? ?]. split; [done|]. by eapply excused_prefix. }
  { eapply spec_mono; [|apply (run_list_spec _ (fun i v es =>
      forall x, l !! i = Some x -> R x v /\ excused v es))].
    - intros rs es [H1 H2]. split; [|exact H2]. rewrite H1. clear.
      induction order as [|i o IH]; [done|]. cbn. by f_equal.
    - intros i v es es' Hp H x Hx. destruct (H x Hx). split; [done|]. by eapply excused_prefix.
    - intros i p (j & [= -> ->] & Hj)%list_elem_of_fmap.
      rewrite Hperm in Hj. apply elem_of_seq in Hj.
      destruct (lookup_lt_is_Some_2 l j) as [x Hx]; [lia|].
      eapply spec_mono; [|by apply Hl]. intros v es Hv y Hy.
      assert (y = x) as -> by congruence. exact Hv. }
  intros rs. apply spec_ret. intros es [H1 H2].
  assert (NoDup rs.*1) as Hnd by (rewrite H1, Hperm; apply NoDup_seq).
  apply Forall2_same_length_lookup. split; [by rewrite length_map, length_seq|].
  intros i x v Hx Hv. rewrite list_lookup_fmap, fmap_Some in Hv.
  destruct Hv as (j & [-> Hlt]%lookup_seq & ->). cbn.
  assert (i ∈ rs.*1) as Hj.
  { rewrite H1, Hperm. apply elem_of_seq. lia. }
  apply list_elem_of_fmap in Hj as ([j' u] & -> & Hu). cbn in *.
  rewrite (at_index_some _ _ _ u) by done. by apply (H2 _ _ Hu).
Qed.

Lemma marshal_list_spec {A} (element : Path -> SelectionSet -> A -> G gval) ctx sel (l : list A)
    (R : A -> gval -> Prop) :
  (forall ctx x, x ∈ l -> hoare (element ctx sel x) (fun v es => R x v /\ excused v es)) ->
  hoare (marshal_list element ctx sel l) (fun v es =>
    (exists vs, Forall2 R l vs /\ v = if existsb is_Null vs then GNull else GList vs) /\
    excused v es).
Proof.
  intros Hl. eapply spec_bind_keep; [apply excused_all_persists with (R := R)| |].
  { apply MarshalSlice_spec. intros ctx' i x Hx. rewrite Hx. apply Hl.
    by eapply list_elem_of_lookup_2. }
  intros vs. apply spec_ret. intros es H. split.
  - exists vs. split; [|done]. eapply Forall2_impl; [exact H|]. by intros x v [? _].
  - destruct (existsb is_Null vs) eqn:Hn; [|by apply excused_value]. intros _.
    apply existsb_exists in Hn as (v & Hv & Hnull). apply list_elem_of_In in Hv.
    apply list_elem_of_lookup in Hv as [i Hi].
    destruct (Forall2_lookup_r _ _ _ _ _ H Hi) as (x & _ & _ & He). apply He.
    by destruct v.
Qed.

(** ** Fields *)

(** A field context is made, or the error has been reported. *)
Definition made (r : res FieldContext) (es : Reported) : Prop :=
  match r with
  | Ok _ => True
  | Err _ => es <> []
  end.
Lemma scalar_context_made object field m r e :
  hoare (gret (NewScalarFieldContext object field m r e)) made.
Proof.
  apply spec_ret. intros es. by destruct (NewScalarFieldContext_ok object field m r e) as [fc ->].
Qed.
Lemma object_context_made fc : hoare (gret (Ok fc)) made.
Proof. by apply spec_ret. Qed.
Lemma with_arguments_made ctx fc args field : hoare (with_arguments ctx fc args field) made.
Proof.
  apply hoare_recovering; [|intros m; by apply spec_fail].
  eapply spec_bind_pure; [apply (partial_gout _ (fun _ => True)); done|].
  intros [a|e] _; [by apply spec_ret|by apply spec_fail].
Qed.

Lemma ResolveField_spec {A} ctx field init (resolver : FieldContext -> G (res A)) marshal nn
    (Q : gval -> Reported -> Prop) :
  (forall es, es <> [] -> Q GNull es) ->
  hoare (init ctx field) made ->
  (forall fc, partial (resolver fc) (fun r _ => match r with
     | Ok a => forall ctx, partial (marshal ctx (cf_Selections field) a) Q
     | Err _ => True end)) ->
  hoare (ResolveField ctx field init resolver marshal true nn) Q.
Proof.
  intros HN Hi Hr es w. rewrite ResolveField_eq. revert es w.
  eapply spec_bind; [apply Hi|]. intros [fc|e] es w He.
  - revert es w He. enough (hoare (recovering
      (v <~ resolver fc ;;
       match v with
       | Ok a => marshal (WithFieldContext ctx fc) (cf_Selections field) a
       | Err e => AddError (WithFieldContext ctx fc) e ~;; gret GNull
       end)
      (fun m => AddError (WithFieldContext ctx fc) (Recover m) ~;; gret GNull)) Q) as H
      by (intros es w _; apply H).
    apply hoare_recovering; [|intros m; by apply spec_fail].
    eapply spec_bind_pure; [apply Hr|]. intros [a|e]; [intros Ha; apply Ha|]. intros _.
    by apply spec_fail.
  - split; cbn; [reflexivity|]. by apply HN.
Qed.

(** ** Objects *)
Section Object.
Context (case : CollectedField -> slot).
Context (R : CollectedField -> gval -> Prop) (req : CollectedField -> bool).

Definition field_done (f : CollectedField) (x : gval * nat) (es : Reported) : Prop :=
  R f x.1 /\ x.2 = (if req f then invalids x.1 else 0) /\ (req f = true -> excused x.1 es).

(** A case computes its field's value, and counts it as the schema asks. *)
Definition case_ok (f : CollectedField) : Prop :=
  match case f with
  | Plain p => req f = false /\ hoare p (fun v _ => R f v)
  | Required p => req f = true /\ hoare p (fun v es => R f v /\ excused v es)
  | Concurrently p =>
      req f = true /\ hoare p (fun x es => R f x.1 /\ x.2 = invalids x.1 /\ excused x.1 es)
  end.

Lemma field_done_persists f x : persists (field_done f x).
Proof.
  intros es es' Hp (H1 & H2 & H3). split; [done|]. split; [done|]. intros Hr.
  eapply excused_prefix; eauto.
Qed.

(** What the loop leaves: a value for every field that is not concurrent, and the
    functions of those that are. *)
Inductive loop_ok (es : Reported) :
    nat -> list CollectedField -> list (gval * nat) -> list (nat * G (gval * nat)) -> Prop :=
| loop_nil i : loop_ok es i [] [] []
| loop_value i f fs x vs ds :
    field_done f x es -> loop_ok es (S i) fs vs ds -> loop_ok es i (f :: fs) (x :: vs) ds
| loop_concurrent i f fs p vs ds :
    case f = Concurrently p -> loop_ok es (S i) fs vs ds ->
    loop_ok es i (f :: fs) ((GNil, 0) :: vs) ((i, p) :: ds).

Lemma loop_ok_persists i fs vs ds es es' :
  es `prefix_of` es' -> loop_ok es i fs vs ds -> loop_ok es' i fs vs ds.
Proof.
  intros Hp H. induction H; [constructor| |by constructor].
  constructor; [by eapply field_done_persists|done].
Qed.

Lemma set_fields_spec i fs :
  (forall f, f ∈ fs -> case_ok f) ->
  hoare (set_fields i fs case) (fun x es => loop_ok es i fs x.1 x.2).
Proof.
  revert i. induction fs as [|f fs IH]; intros i Hok; cbn [set_fields].
  { apply spec_ret. intros es. constructor. }
  assert (case_ok f) as Hf by (apply Hok; left). unfold case_ok in Hf.
  eapply (spec_bind_keep _ _ _ (fun x es =>
    (exists p, case f = Concurrently p /\ x = ((GNil, 0), [(i, p)])) \/
    (field_done f x.1 es /\ x.2 = []))).
  { intros x es es' Hp [H|[H1 H2]]; [by left|right]. split; [by eapply field_done_persists|done]. }
  { destruct (case f) as [p|p|p]; destruct Hf as [Hr Hp].
    - eapply spec_bind_keep; [|exact Hp|]; [by intros a es es' _|].
      intros v. apply spec_ret. intros es Hv. right. split; [|done]. unfold field_done; by rewrite Hr.
    - eapply spec_bind_keep; [|exact Hp|].
      { intros a es es' Hp' [? ?]. split; [done|]. by eapply excused_prefix. }
      intros v. apply spec_ret. intros es [Hv He]. right. split; [|done].
      unfold field_done; by rewrite Hr.
    - apply spec_ret. intros es. left. eauto. }
  intros x. eapply (spec_bind_keep _ _ _ (fun y es => loop_ok es (S i) fs y.1 y.2)).
  { intros y es es' Hp. by apply loop_ok_persists. }
  { apply IH. intros g Hg. apply Hok. by right. }
  intros y. apply spec_ret. intros es Hy [(p & Hc & ->)|[Hx Hnil]]; cbn.
  - by constructor.
  - rewrite Hnil. by constructor.
Qed.

Lemma loop_ok_keys es i fs vs ds k p : loop_ok es i fs vs ds -> (k, p) ∈ ds -> i <= k.
Proof.
  intros H. induction H as [|i f fs x vs ds _ _ IH|i f fs q vs ds _ _ IH]; intros Hk.
  - by apply not_elem_of_nil in Hk.
  - specialize (IH Hk). lia.
  - apply elem_of_cons in Hk as [[= -> ->]|Hk]; [lia|]. specialize (IH Hk). lia.
Qed.
Lemma loop_ok_NoDup es i fs vs ds : loop_ok es i fs vs ds -> NoDup ds.*1.
Proof.
  intros H. induction H as [|i f fs x vs ds _ _ IH|i f fs q vs ds _ H IH]; cbn; [constructor|done|].
  constructor; [|done]. intros Hi. apply list_elem_of_fmap in Hi as ([k p] & -> & Hk).
  pose proof (loop_ok_keys _ _ _ _ _ _ _ H Hk). cbn in *. lia.
Qed.
Lemma loop_ok_case es i fs vs ds k p :
  loop_ok es i fs vs ds -> (k, p) ∈ ds ->
  exists f, fs !! (k - i) = Some f /\ case f = Concurrently p.
Proof.
  intros H. induction H as [|i f fs x vs ds _ H IH|i f fs q vs ds Hc H IH]; intros Hk.
  - by apply not_elem_of_nil in Hk.
  - destruct (IH Hk) as (g & Hg & ?). pose proof (loop_ok_keys _ _ _ _ _ _ _ H Hk).
    exists g. by replace (k - i) with (S (k - S i)) by lia.
  - apply elem_of_cons in Hk as [[= -> ->]|Hk]; [exists f; by rewrite Nat.sub_diag|].
    destruct (IH Hk) as (g & Hg & ?). pose proof (loop_ok_keys _ _ _ _ _ _ _ H Hk).
    exists g. by replace (k - i) with (S (k - S i)) by lia.
Qed.

(** Filling in the concurrent fields. *)
Lemma dispatched_done es i fs vs ds (rs : list (nat * (gval * nat))) :
  loop_ok es i fs vs ds -> NoDup rs.*1 -> (forall k, k ∈ rs.*1 -> i <= k -> k ∈ ds.*1) ->
  (forall k, k ∈ ds.*1 -> k ∈ rs.*1) ->
  (forall k x f, (k, x) ∈ rs -> i <= k -> fs !! (k - i) = Some f -> field_done f x es) ->
  Forall2 (fun f x => field_done f x es) fs
    (imap (fun j v => at_index v rs (i + j)) vs).
Proof.
  intros H Hnd. induction H as [|i f fs x vs ds Hx H IH|i f fs q vs ds Hc H IH];
    intros Hrs Hds Hdone; cbn [imap]; [constructor| |].
  - constructor.
    + rewrite Nat.add_0_r, at_index_none; [done|]. intros Hi.
      apply Hrs in Hi; [|lia]. apply list_elem_of_fmap in Hi as ([k p] & -> & Hk).
      pose proof (loop_ok_keys _ _ _ _ _ _ _ H Hk). cbn in *. lia.
    + rewrite (imap_ext _ (fun j v => at_index v rs (S i + j))).
      { apply IH; [|done|].
        - intros k Hk Hle. apply Hrs; [done|lia].
        - intros k y g Hk Hle Hg. apply (Hdone k); [done|lia|].
          by replace (k - i) with (S (k - S i)) by lia. }
      intros j v _. cbn. f_equal. lia.
  - constructor.
    + rewrite Nat.add_0_r. assert (i ∈ rs.*1) as Hi by (apply Hds; left).
      apply list_elem_of_fmap in Hi as ([k y] & -> & Hk). cbn in *.
      rewrite (at_index_some _ _ _ y) by done.
      eapply Hdone; [exact Hk|lia|]. by rewrite Nat.sub_diag.
    + rewrite (imap_ext _ (fun j v => at_index v rs (S i + j))).
      { apply IH.
        - intros k Hk Hle. destruct (proj1 (elem_of_cons _ _ _) (Hrs k Hk ltac:(lia))) as [Heq|?];
            [cbn in Heq; lia|done].
        - intros k Hk. apply Hds. by right.
        - intros k y g Hk Hle Hg. apply (Hdone k); [done|lia|].
          by replace (k - i) with (S (k - S i)) by lia. }
      intros j v _. cbn. f_equal. lia.
Qed.

(** The fields of an object when they are all done. *)
Definition object_done (fs : list CollectedField) (v : gval) : Prop :=
  exists vs, Forall2 R fs vs /\
    v = if existsb (fun fv : CollectedField * gval => req fv.1 && is_Null fv.2) (zip fs vs)
        then GNull else GObj (zip (map cf_Alias fs) vs).

Lemma object_of_done es fs xs :
  Forall2 (fun f x => field_done f x es) fs xs ->
  object_done fs (object_of fs xs) /\ excused (object_of fs xs) es.
Proof.
  intros H.
  assert (Forall2 R fs xs.*1 /\
    (0 <? list_sum xs.*2)%nat =
      existsb (fun fv : CollectedField * gval => req fv.1 && is_Null fv.2) (zip fs xs.*1) /\
    ((0 <? list_sum xs.*2)%nat = true -> es <> [])) as (H1 & H2 & H3).
  { induction H as [|f [v n] fs xs (HR & Hn & He) _ (IH1 & IH2 & IH3)]; [done|]. cbn in *.
    split; [by constructor|]. rewrite <-IH2. subst n. unfold invalids.
    destruct (req f); cbn; [|done]. destruct (is_Null v) eqn:Hv; cbn; [|done].
    split; [done|]. intros _. apply (He eq_refl). by destruct v. }
  unfold object_of. split.
  - exists xs.*1. split; [done|]. by rewrite H2.
  - destruct (0 <? list_sum xs.*2)%nat eqn:Hs; [intros _; auto|by apply excused_value].
Qed.

Lemma exec_object_spec fs :
  (forall f, f ∈ fs -> case_ok f) ->
  hoare (exec_object fs case) (fun v es => object_done fs v /\ excused v es).
Proof.
  intros Hok. eapply spec_bind; [by apply set_fields_spec|]. intros [vs ds] es w Hl; cbn [fst snd] in *.
  destruct (Dispatch_order ds) as (ds' & Hperm & Heq). unfold gbind. rewrite Heq.
  change (wp true ((rs <~ run_list ds' ;; gret (object_of fs (dispatched vs rs))) es)
    (fun x _ => outcome false (fun v es => object_done fs v /\ excused v es) es x) w).
  pose proof (loop_ok_NoDup _ _ _ _ _ Hl) as Hnd.
  assert (hoare (run_list ds') (fun rs es => rs.*1 = ds'.*1 /\
    forall k x, (k, x) ∈ rs -> forall f, fs !! k = Some f -> field_done f x es)) as Hrun.
  { apply (run_list_spec ds' (fun k x es => forall f, fs !! k = Some f -> field_done f x es)).
    - intros k x es1 es2 Hp H f Hf. by eapply field_done_persists, H.
    - intros k p Hk. rewrite Hperm in Hk.
      destruct (loop_ok_case _ _ _ _ _ _ _ Hl Hk) as (f & Hf & Hc). rewrite Nat.sub_0_r in Hf.
      pose proof (Hok f (list_elem_of_lookup_2 _ _ _ Hf)) as Hfk. unfold case_ok in Hfk.
      rewrite Hc in Hfk. destruct Hfk as [Hr Hp]. eapply spec_mono; [|exact Hp].
      intros x es1 (? & ? & ?) g Hg. assert (g = f) as -> by congruence.
      split; [done|]. by rewrite Hr. }
  apply wp_bind. eapply wp_mono; [|exact (Hrun es w)].
  intros [[rs|m] es'] w' [He H]; [|done]. cbn in *. destruct H as [Hk Hx].
  split; cbn; [exact He|]. apply object_of_done, (dispatched_done es' 0 fs vs ds).
  - by eapply loop_ok_persists.
  - rewrite Hk. by rewrite Hperm.
  - intros k. rewrite Hk, Hperm. done.
  - intros k. by rewrite Hk, Hperm.
  - intros k x f Hk' _. rewrite Nat.sub_0_r. eauto.
Qed.
End Object.
End Spec.
