(* ===== verification/GqlSchema.v ===== *)
(** * The schema and its reference semantics (graph/schema, the SDL in [sources])

    The object types of the API as data, the typing judgement [conforms] on
    response values, and [complete], the schema-directed execution of the GraphQL
    specification on untyped data: what the generated executor has to compute. *)
From S2P Require Import Prelude Errors Model Env World Effects GqlModel Graph.
From S2P Require Import GqlRuntime GqlMarshal GqlSpec.

(** ** Types *)

(** [n], [n!], [[t]] and [[t]!]. *)
Inductive gtype :=
| Named (nn : bool) (n : string)
| ListOf (nn : bool) (t : gtype).
Definition opt : string -> gtype := Named false.
Definition req : string -> gtype := Named true.
Definition nonnull (t : gtype) : bool := match t with Named b _ | ListOf b _ => b end.

(** ** The SDL of [sources] *)
Definition Query_type : list (string * gtype) :=
  [("GetTaskByID", req "Task"); ("GetTaskList", ListOf true (req "Task"));
   (* the meta-fields of the root, nullable in gqlgen *)
   ("__type", opt "__Type"); ("__schema", opt "__Schema")].
Definition Mutation_type : list (string * gtype) :=
  [("SubmitTask", req "SubmitTaskResponse"); ("CancelTask", req "CancelTaskPayload");
   ("CreateTenant", req "Tenant")].
Definition TaskShard_type : list (string * gtype) :=
  [("id", req "UUID"); ("script_name", req "String"); ("status", req "String");
   ("output_oss_key", opt "String"); ("output_sha256", opt "String");
   ("last_error", opt "String"); ("started_at", opt "Time"); ("finished_at", opt "Time")].
Definition Task_type : list (string * gtype) :=
  [("id", req "UUID"); ("status", req "String"); ("last_error", req "String");
   ("created_at", req "Time"); ("started_at", opt "Time"); ("finished_at", opt "Time");
   ("shard_count", req "Int"); ("shards", ListOf true (req "TaskShard"))].
Definition CancelTaskPayload_type : list (string * gtype) :=
  [("task_id", req "UUID"); ("status", req "String")].
Definition SubmitTaskResponse_type : list (string * gtype) := [("task_id", req "UUID")].
Definition Tenant_type : list (string * gtype) :=
  [("id", req "UUID"); ("name", req "String"); ("primary_backend_name", req "String");
   ("max_agents", req "Int")].

(** The introspection types of the GraphQL specification. *)
Definition Schema_type : list (string * gtype) :=
  [("description", opt "String"); ("types", ListOf true (req "__Type"));
   ("queryType", req "__Type"); ("mutationType", opt "__Type");
   ("subscriptionType", opt "__Type"); ("directives", ListOf true (req "__Directive"))].
Definition Type_type : list (string * gtype) :=
  [("kind", req "String"); ("name", opt "String"); ("description", opt "String");
   ("specifiedByURL", opt "String"); ("fields", ListOf false (req "__Field"));
   ("interfaces", ListOf false (req "__Type")); ("possibleTypes", ListOf false (req "__Type"));
   ("enumValues", ListOf false (req "__EnumValue"));
   ("inputFields", ListOf false (req "__InputValue")); ("ofType", opt "__Type");
   ("isOneOf", opt "Boolean")].
Definition Field_type : list (string * gtype) :=
  [("name", req "String"); ("description", opt "String");
   ("args", ListOf true (req "__InputValue")); ("type", req "__Type");
   ("isDeprecated", req "Boolean"); ("deprecationReason", opt "String")].
Definition InputValue_type : list (string * gtype) :=
  [("name", req "String"); ("description", opt "String"); ("type", req "__Type");
   ("defaultValue", opt "String"); ("isDeprecated", req "Boolean");
   ("deprecationReason", opt "String")].
Definition EnumValue_type : list (string * gtype) :=
  [("name", req "String"); ("description", opt "String"); ("isDeprecated", req "Boolean");
   ("deprecationReason", opt "String")].
Definition Directive_type : list (string * gtype) :=
  [("name", req "String"); ("description", opt "String"); ("isRepeatable", req "Boolean");
   ("locations", ListOf true (req "String")); ("args", ListOf true (req "__InputValue"))].

Definition schema : list (string * list (string * gtype)) :=
  [("Query", Query_type); ("Mutation", Mutation_type); ("TaskShard", TaskShard_type);
   ("Task", Task_type); ("CancelTaskPayload", CancelTaskPayload_type);
   ("SubmitTaskResponse", SubmitTaskResponse_type); ("Tenant", Tenant_type);
   ("__Schema", Schema_type); ("__Type", Type_type); ("__Field", Field_type);
   ("__InputValue", InputValue_type); ("__EnumValue", EnumValue_type);
   ("__Directive", Directive_type)].

Section Schema.
Context `{E : Env} {GT : GqlTypes} {GQ : Gql}.

(** ** Queries that validation lets through *)
Inductive valid : gtype -> SelectionSet -> Prop :=
| valid_list nn t sel : valid t sel -> valid (ListOf nn t) sel
| valid_scalar nn n sel : map_get n schema = None -> valid (Named nn n) sel
| valid_object nn n fs sel :
    map_get n schema = Some fs ->
    (forall f, f ∈ CollectFields sel [n] ->
       cf_Name f = "__typename" \/
       exists t, map_get (cf_Name f) fs = Some t /\ valid t (cf_Selections f)) ->
    valid (Named nn n) sel.

(** A check of [valid], by fuel. *)
Fixpoint valid_check (fuel : nat) (t : gtype) (sel : SelectionSet) : bool :=
  match fuel with
  | O => false
  | S fuel =>
    match t with
    | ListOf _ t => valid_check fuel t sel
    | Named _ n =>
      match map_get n schema with
      | None => true
      | Some fs =>
        forallb (fun f => (cf_Name f =s "__typename") ||
                   match map_get (cf_Name f) fs with
                   | Some t => valid_check fuel t (cf_Selections f)
                   | None => false
                   end) (CollectFields sel [n])
      end
    end
  end.

(** ** Typing of responses *)
Definition scalar_value (n : string) (v : gval) : Prop :=
  if n =s "String" then exists s, v = MarshalString s
  else if n =s "Int" then exists z, v = MarshalInt z
  else if n =s "Boolean" then exists b, v = MarshalBoolean b
  else if n =s "Time" then exists t, t <> 0%Z /\ v = MarshalTime t
  else if n =s "UUID" then exists u, v = MarshalUUID MarshalString u
  else False.

Definition field_type (fs : list (string * gtype)) (name : string) : option gtype :=
  if name =s "__typename" then Some (req "String") else map_get name fs.

(** [v] is a response to the selection [sel] on a value of type [t]: scalars are
    scalars of their type, an object has exactly the selected fields under their
    response keys, and null only appears where the type allows it. *)
Inductive conforms : gtype -> SelectionSet -> gval -> Prop :=
| conforms_null t sel : nonnull t = false -> conforms t sel GNull
| conforms_scalar nn n sel v : scalar_value n v -> conforms (Named nn n) sel v
| conforms_list nn t sel l : Forall (conforms t sel) l -> conforms (ListOf nn t) sel (GList l)
| conforms_object nn n fs sel l :
    map_get n schema = Some fs ->
    Forall2 (fun f kv => kv.1 = cf_Alias f /\
               exists t, field_type fs (cf_Name f) = Some t /\ conforms t (cf_Selections f) kv.2)
      (CollectFields sel [n]) l ->
    conforms (Named nn n) sel (GObj l).

(** A value completed at a type: conforming, or null in place of an error. *)
Definition fits (t : gtype) (sel : SelectionSet) (v : gval) (es : Reported) : Prop :=
  conforms t sel v \/ (v = GNull /\ es <> []).

(** ** Reference execution *)
Inductive pval :=
| PNil
| PString (s : string)
| PInt (n : Z)
| PTime (t : Z)
| PUUID (u : uuid)
| PList (l : list pval)
| PObj (l : list (string * pval)).

Definition required (fs : list (string * gtype)) (f : CollectedField) : bool :=
  match map_get (cf_Name f) fs with
  | Some t => negb (cf_Name f =s "__typename") && nonnull t
  | None => false
  end.

(** The specification's ExecuteSelectionSet: a null in a non-null field makes the
    object null. *)
Definition complete_object (n : string) (sel : SelectionSet)
    (field : CollectedField -> gtype -> gval) : gval :=
  let fs := default [] (map_get n schema) in
  let fields := CollectFields sel [n] in
  let vs := map (fun f => if cf_Name f =s "__typename" then MarshalString n
                          else match map_get (cf_Name f) fs with
                               | Some t => field f t
                               | None => GNil
                               end) fields in
  if existsb (fun fv : CollectedField * gval => required fs fv.1 && is_Null fv.2) (zip fields vs)
  then GNull else GObj (zip (map cf_Alias fields) vs).

(** CompleteValue. *)
Fixpoint complete (t : gtype) (sel : SelectionSet) (v : pval) : gval :=
  match v with
  | PNil => GNull
  | PString s => MarshalString s
  | PInt n => MarshalInt n
  | PTime t => MarshalTime t
  | PUUID u => MarshalUUID MarshalString u
  | PList l =>
    match t with
    | ListOf _ t' =>
      let vs := map (complete t' sel) l in
      if nonnull t' && existsb is_Null vs then GNull else GList vs
    | Named _ _ => GNil
    end
  | PObj l =>
    match t with
    | Named _ n =>
      let fields := map (fun kx => (kx.1, fun t sel => complete t sel kx.2)) l in
      complete_object n sel (fun f t =>
        match map_get (cf_Name f) fields with
        | Some field => field t (cf_Selections f)
        | None => GNil
        end)
    | ListOf _ _ => GNil
    end
  end.

(** ** Typing of data *)
Inductive data_of : gtype -> pval -> Prop :=
| data_nil t : data_of t PNil
| data_String nn s : data_of (Named nn "String") (PString s)
| data_Int nn n : data_of (Named nn "Int") (PInt n)
| data_Time nn t : data_of (Named nn "Time") (PTime t)
| data_UUID nn u : data_of (Named nn "UUID") (PUUID u)
| data_list nn t l : Forall (data_of t) l -> data_of (ListOf nn t) (PList l)
| data_object nn n fs l :
    map_get n schema = Some fs ->
    Forall2 (fun kt kx => kx.1 = kt.1 /\ data_of kt.2 kx.2) fs l ->
    data_of (Named nn n) (PObj l).
End Schema.

(** ** Facts *)
#[local] Arguments eqs : simpl never.
Section Pval.
Context (P : pval -> Prop).
Context (Hnil : P PNil) (Hs : forall s, P (PString s)) (Hi : forall n, P (PInt n)).
Context (Ht : forall t, P (PTime t)) (Hu : forall u, P (PUUID u)).
Context (Hl : forall l, Forall P l -> P (PList l)).
Context (Ho : forall l, Forall (fun kx => P kx.2) l -> P (PObj l)).
Fixpoint pval_nested_ind (v : pval) : P v :=
  match v with
  | PNil => Hnil
  | PString s => Hs s
  | PInt n => Hi n
  | PTime t => Ht t
  | PUUID u => Hu u
  | PList l =>
    Hl l ((fix go l := match l return Forall P l with
                       | [] => Forall_nil_2 _
                       | x :: l' => Forall_cons_2 _ _ _ (pval_nested_ind x) (go l')
                       end) l)
  | PObj l =>
    Ho l ((fix go l := match l return Forall (fun kx => P kx.2) l with
                       | [] => Forall_nil_2 _
                       | x :: l' => Forall_cons_2 _ _ _ (pval_nested_ind x.2) (go l')
                       end) l)
  end.
End Pval.

Section SchemaFacts.
Context `{E : Env} {GT : GqlTypes} {GQ : Gql} {GL : GqlLaws GQ}.

Lemma valid_check_sound fuel t sel : valid_check fuel t sel = true -> valid t sel.
Proof.
  revert t sel. induction fuel as [|fuel IH]; intros t sel; cbn [valid_check]; [done|].
  destruct t as [nn n|nn t]; [|intros H; constructor; auto].
  destruct (map_get n schema) as [fs|] eqn:Hn; [|by constructor].
  intros H. econstructor; [exact Hn|]. intros f Hf.
  rewrite forallb_forall in H. specialize (H f (proj1 (list_elem_of_In _ _) Hf)).
  apply orb_true_iff in H as [H|H]; [left; by clean|right].
  destruct (map_get (cf_Name f) fs) as [t|]; [|done]. eauto.
Qed.

Lemma scalar_value_not_null n : ~ scalar_value n GNull.
Proof.
  unfold scalar_value. intros H.
  repeat match goal with H : if ?b then _ else _ |- _ => destruct b end; try done.
  - destruct H as [s H]. destruct (MarshalString_scalar s). congruence.
  - destruct H as [z H]. destruct (MarshalInt_scalar z). congruence.
  - destruct H as [b H]. destruct (MarshalBoolean_scalar b). congruence.
  - destruct H as (t & Ht & H). destruct (MarshalTime_scalar t Ht). congruence.
  - destruct H as [u H]. unfold MarshalUUID in H.
    destruct (MarshalString_scalar (uuid_String u)). congruence.
Qed.
Lemma conforms_not_null t sel v : conforms t sel v -> nonnull t = true -> is_Null v = false.
Proof.
  intros H Ht. inversion H; subst; [congruence| |done|done].
  destruct v; try done. by destruct (scalar_value_not_null n).
Qed.
Lemma fits_excused t sel v es : fits t sel v es -> nonnull t = true -> excused v es.
Proof.
  intros [H|[-> H]] Ht; [|by intros _]. apply excused_value. by eapply conforms_not_null.
Qed.
Lemma fits_reported t sel es : es <> [] -> fits t sel GNull es.
Proof. by right. Qed.
Lemma fits_persists t sel v : persists (fits t sel v).
Proof. intros es es' Hp [H|[-> H]]; [by left|right]. split; [done|]. by eapply prefix_nonempty. Qed.
(** ** Objects *)
Definition field_fits (fs : list (string * gtype)) (f : CollectedField) (v : gval) : Prop :=
  exists t, field_type fs (cf_Name f) = Some t /\
    (conforms t (cf_Selections f) v \/ (v = GNull /\ cf_Name f <> "__typename")).

Lemma object_conforms nn n fs sel v :
  map_get n schema = Some fs ->
  object_done (field_fits fs) (required fs) (CollectFields sel [n]) v ->
  v = GNull \/ conforms (Named nn n) sel v.
Proof.
  intros Hn (vs & Hvs & ->). destruct (existsb _ _) eqn:Hx; [by left|right].
  econstructor; [exact Hn|].
  induction Hvs as [|f v fields vs (t & Ht & Hv) _ IH]; cbn in *; [constructor|].
  apply orb_false_iff in Hx as [Hr Hx]. constructor; [|by apply IH].
  split; [done|]. exists t. split; [done|]. destruct Hv as [Hv|[-> Hne]]; [done|].
  constructor. unfold required in Hr. unfold field_type in Ht. cbn in Hr.
  destruct (cf_Name f =s "__typename") eqn:Heq; [by clean|]. rewrite Ht in Hr. cbn in Hr.
  by rewrite andb_true_r in Hr.
Qed.

Lemma data_field fs l name t :
  Forall2 (fun (kt : string * gtype) kx => kx.1 = kt.1 /\ data_of kt.2 kx.2) fs l ->
  map_get name fs = Some t -> exists x, map_get name l = Some x /\ data_of t x /\ x ∈ l.*2.
Proof.
  intros H. induction H as [|[k u] [k' x] fs l [Hk Hd] _ IH]; cbn in *; [done|]. subst k'.
  destruct (k =s name).
  - intros [= ->]. exists x. split_and!; [done|done|by left].
  - intros Hm. destruct (IH Hm) as (y & ? & ? & ?). exists y. split_and!; [done|done|by right].
Qed.
Lemma map_get_map {A B} (g : A -> B) name (l : list (string * A)) :
  map_get name (map (fun kx => (kx.1, g kx.2)) l) = g <$> map_get name l.
Proof. induction l as [|[k x] l IH]; cbn; [done|]. by destruct (k =s name). Qed.

(** The reference execution is well typed: on data of the type a valid query gets a
    conforming response, or null. *)
Lemma complete_sound v : forall t sel,
  data_of t v -> valid t sel -> complete t sel v = GNull \/ conforms t sel (complete t sel v).
Proof.
  induction v as [|s|n|t0|u|l IH|l IH] using pval_nested_ind; intros t sel Hd Hv; [by left|..].
  - inversion Hd; subst. right. constructor. by exists s.
  - inversion Hd; subst. right. constructor. by exists n.
  - inversion Hd; subst. cbn. destruct (decide (t0 = 0%Z)) as [->|Ht]; [left; apply MarshalTime_zero|].
    right. constructor. by exists t0.
  - inversion Hd; subst. right. constructor. by exists u.
  - inversion Hd as [| | | | |nn t' l' Hl|]; subst. inversion Hv; subst. cbn.
    destruct (nonnull t' && existsb is_Null (map (complete t' sel) l)) eqn:Hx; [by left|right].
    constructor. apply Forall_forall. intros v (x & -> & Hx')%list_elem_of_fmap.
    rewrite Forall_forall in IH, Hl.
    destruct (IH x Hx' t' sel) as [Hn|?]; [by apply Hl|done| |done].
    rewrite Hn. constructor. destruct (nonnull t'); [|done]. cbn in Hx.
    assert (existsb is_Null (map (complete t' sel) l) = true) as Hc; [|congruence].
    apply existsb_exists. exists GNull. split; [|done]. apply in_map_iff. exists x.
    split; [done|]. by apply list_elem_of_In.
  - inversion Hd as [| | | | | |nn n fs l' Hn Hl]; subst. cbn.
    inversion Hv as [|? ? ? Hc|? ? fs' ? Hfs Hf]; subst; [congruence|].
    assert (fs' = fs) as -> by congruence. unfold complete_object. rewrite Hn. cbn.
    apply (object_conforms _ _ fs); [done|]. eexists. split; [|reflexivity].
    apply Forall2_same_length_lookup. split; [by rewrite length_map|].
    intros i f v Hi Hv'. rewrite list_lookup_fmap, Hi in Hv'. injection Hv' as <-.
    unfold field_fits, field_type. destruct (cf_Name f =s "__typename") eqn:Heq.
    + exists (req "String"). split; [done|]. left. constructor. by exists n.
    + destruct (Hf f) as [Hty|(t & Ht & Hvt)]; [by eapply list_elem_of_lookup_2|by clean|].
      rewrite Ht. exists t. split; [done|].
      destruct (data_field fs l _ _ Hl Ht) as (x & Hx & Hdx & Hin).
      rewrite (map_get_map (fun x t sel => complete t sel x)), Hx. cbn.
      rewrite Forall_forall in IH. apply list_elem_of_fmap in Hin as ([k y] & -> & Hin).
      destruct (IH _ Hin t (cf_Selections f) Hdx Hvt) as [Hnull|?]; [|by left].
      right. split; [done|]. by clean.
Qed.
End SchemaFacts.
