(* ===== verification/GqlFacts.v ===== *)
(** * The generated executor against the schema

    The object functions of GqlExec.v compute the reference execution of GqlSchema.v
    on the API records read as data; hence, and for introspection by induction on
    the depth of the query, every response conforms to the schema. *)
From S2P Require Import Prelude Errors Model Env World Effects GqlModel Graph.
From S2P Require Import GqlRuntime GqlMarshal GqlIntrospect GqlExec GqlSpec GqlSchema.

#[local] Arguments eqs : simpl never.

(** ** API records as data *)
Definition pointer {A} (data : A -> pval) (v : option A) : pval :=
  match v with
  | None => PNil
  | Some x => data x
  end.
Definition shard_data (s : ApiShard) : pval :=
  PObj [("id", PUUID (as_ID s)); ("script_name", PString (as_ScriptName s));
        ("status", PString (as_Status s));
        ("output_oss_key", pointer PString (as_OutputOssKey s));
        ("output_sha256", pointer PString (as_OutputSha256 s));
        ("last_error", pointer PString (as_LastError s));
        ("started_at", pointer PTime (as_StartedAt s));
        ("finished_at", pointer PTime (as_FinishedAt s))].
Definition task_data (t : ApiTask) : pval :=
  PObj [("id", PUUID (at_ID t)); ("status", PString (at_Status t));
        ("last_error", PString (at_LastError t)); ("created_at", PTime (at_CreatedAt t));
        ("started_at", pointer PTime (at_StartedAt t));
        ("finished_at", pointer PTime (at_FinishedAt t));
        ("shard_count", PInt (at_ShardCount t));
        ("shards", PList (map (pointer shard_data) (at_Shards t)))].
Definition cancel_data (p : CancelTaskPayload) : pval :=
  PObj [("task_id", PUUID (cp_TaskID p)); ("status", PString (cp_Status p))].
Definition submit_data (r : SubmitTaskResponse) : pval := PObj [("task_id", PUUID (sr_TaskID r))].
Definition tenant_data (n : ApiTenant) : pval :=
  PObj [("id", PUUID (an_ID n)); ("name", PString (an_Name n));
        ("primary_backend_name", PString (an_PrimaryBackendName n));
        ("max_agents", PInt (an_MaxAgents n))].

(** Goes through the fields of a type: one goal per field, with its name replaced. *)
Ltac each_name tac :=
  cbn [map_get Query_type Mutation_type TaskShard_type Task_type CancelTaskPayload_type
       SubmitTaskResponse_type Tenant_type Schema_type Type_type Field_type InputValue_type
       EnumValue_type Directive_type];
  repeat match goal with
  | |- context [?k =s ?name] =>
      is_var name;
      destruct (k =s name) eqn:?;
      [clean; subst name; intros [= <-]; tac ();
       lazy beta iota delta [eqs String.eqb Ascii.eqb Bool.eqb cf_Name]|]
  end; try (by intros).

Section Facts.
Context `{E : Env} {GT : GqlTypes} {GQ : Gql} {GL : GqlLaws GQ} {IS : Introspection}.

(** [p] computes the value [v], and reports it if it is null. *)
Definition computes (p : G gval) (v : gval) : Prop :=
  hoare p (fun r es => r = v /\ excused r es).
(** [p] computes a nullable value. *)
Definition computes_opt (p : G gval) (v : gval) : Prop := hoare p (fun r _ => r = v).

(** ** Fields that are struct accesses *)
Lemma hoare_recovering_total {A} (p : G A) h (Q : A -> Reported -> Prop) :
  hoare p Q -> hoare (recovering p h) Q.
Proof.
  intros Hp es w. apply wp_bind. eapply wp_mono; [|exact (Hp es w)].
  intros [[a|m] es'] w' [He H]; cbn in *; [by split|done].
Qed.
Lemma ResolveField_total {A} ctx field init (resolver : FieldContext -> G (res A)) marshal nn a
    (Q : gval -> Reported -> Prop) :
  hoare (init ctx field) (fun (r : res FieldContext) _ => is_ok r = true) ->
  (forall fc, hoare (resolver fc) (fun (r : res A) _ => r = Ok a)) ->
  (forall ctx, hoare (marshal ctx (cf_Selections field) a) Q) ->
  hoare (ResolveField ctx field init resolver marshal true nn) Q.
Proof.
  intros Hi Hr Hm es w. rewrite ResolveField_eq. revert es w.
  eapply spec_bind_pure; [apply Hi|]. intros [fc|e] Hok; [|done].
  apply hoare_recovering_total. eapply spec_bind_pure; [apply Hr|].
  intros r ->. apply Hm.
Qed.
Lemma scalar_context_ok object field m r e :
  hoare (gret (NewScalarFieldContext object field m r e)) (fun (r : res FieldContext) _ => is_ok r = true).
Proof. apply spec_ret. intros _. by destruct (NewScalarFieldContext_ok object field m r e) as [fc ->]. Qed.
Lemma object_context_ok fc : hoare (gret (Ok fc)) (fun (r : res FieldContext) _ => is_ok r = true).
Proof. by apply spec_ret. Qed.
Lemma access_ok {A} (a : A) : hoare (gret (Ok a)) (fun (r : res A) _ => r = Ok a).
Proof. by apply spec_ret. Qed.

(** ** Marshallers *)
Lemma not_null_computes ctx v : computes (not_null ctx v) v.
Proof.
  unfold not_null. destruct (is_Null v) eqn:Hv.
  - apply hoare_report_null. intros es He. by split; [|intros _].
  - apply spec_ret. intros es. split; [done|]. by apply excused_value.
Qed.
Lemma uuid_computes ctx sel u : computes (marshalNUUID2UUID ctx sel u) (MarshalUUID MarshalString u).
Proof.
  apply spec_ret. intros es. split; [done|]. apply excused_value. unfold MarshalUUID.
  by destruct (MarshalString_scalar (uuid_String u)) as [j ->].
Qed.
Lemma gret_computes_opt v : computes_opt (gret v) v.
Proof. by apply spec_ret. Qed.
Lemma non_nil_computes {A} (object : Path -> SelectionSet -> A -> G gval) ctx sel v n data :
  (forall ctx x, computes (object ctx sel x) (complete (req n) sel (data x))) ->
  computes (non_nil object ctx sel v) (complete (req n) sel (pointer data v)).
Proof.
  intros Ho. destruct v as [x|]; cbn; [apply Ho|]. apply hoare_report_null. intros es He.
  by split; [|intros _].
Qed.
Lemma marshal_list_computes {A} (element : Path -> SelectionSet -> A -> G gval) ctx sel l n data nn :
  (forall ctx x, computes (element ctx sel x) (complete (req n) sel (data x))) ->
  computes (marshal_list element ctx sel l) (complete (ListOf nn (req n)) sel (PList (map data l))).
Proof.
  intros He. eapply spec_mono; [|apply (marshal_list_spec element ctx sel l
    (fun x v => v = complete (req n) sel (data x)))].
  - intros v es [(vs & Hvs & ->) Hx]. split; [|done]. cbn.
    assert (vs = map (complete (req n) sel) (map data l)) as ->; [|done].
    clear Hx. induction Hvs as [|x v l vs -> _ IH]; [done|]. cbn. by f_equal.
  - intros ctx' x _. apply He.
Qed.

(** ** Objects *)
Definition case_computes (s : slot) (f : CollectedField) (t : gtype) (x : pval) : Prop :=
  match s with
  | Plain p => nonnull t = false /\ computes_opt p (complete t (cf_Selections f) x)
  | Required p => nonnull t = true /\ computes p (complete t (cf_Selections f) x)
  | Concurrently _ => False
  end.

Lemma object_computes n fs sel case (l : list (string * pval)) :
  map_get n schema = Some fs -> valid (req n) sel ->
  (forall f, cf_Name f = "__typename" -> case f = Plain (gret (MarshalString n))) ->
  (forall f t, map_get (cf_Name f) fs = Some t -> valid t (cf_Selections f) ->
     exists x, map_get (cf_Name f) l = Some x /\ case_computes (case f) f t x) ->
  computes (exec_object (CollectFields sel [n]) case) (complete (req n) sel (PObj l)).
Proof.
  intros Hn Hv Htn Hf. inversion Hv as [|? ? ? Hc|? ? fs' ? Hfs Hsel]; subst; [congruence|].
  assert (fs' = fs) as -> by congruence.
  pose (value := fun f : CollectedField => if cf_Name f =s "__typename" then MarshalString n
    else match map_get (cf_Name f) fs with
         | Some t => match map_get (cf_Name f) l with
                     | Some x => complete t (cf_Selections f) x
                     | None => GNil
                     end
         | None => GNil
         end).
  eapply spec_mono; [|apply (exec_object_spec case (fun f v => v = value f) (required fs))].
  - intros v es [(vs & Hvs & ->) Hx]. split; [|done]. cbn. unfold complete_object. rewrite Hn. cbn.
    assert (vs = map (fun f => if cf_Name f =s "__typename" then MarshalString n
      else match map_get (cf_Name f) fs with
           | Some t => match map_get (cf_Name f) (map (fun kx : string * pval =>
                               (kx.1, fun t sel => complete t sel kx.2)) l) with
                       | Some field => field t (cf_Selections f)
                       | None => GNil end
           | None => GNil end) (CollectFields sel [n])) as ->; [|done].
    clear Hx. transitivity (map value (CollectFields sel [n])).
    { clearbody value. clear -Hvs. by induction Hvs as [|f v fields vs -> _ ->]. }
    apply map_ext. intros f. unfold value. rewrite (map_get_map (fun x t sel => complete t sel x)).
    destruct (cf_Name f =s "__typename"); [done|].
    destruct (map_get (cf_Name f) fs); [|done]. by destruct (map_get (cf_Name f) l).
  - intros f Hin. unfold case_ok, required, value. destruct (cf_Name f =s "__typename") eqn:Heq.
    + clean. rewrite (Htn f) by done. split; [by destruct (map_get _ fs)|]. by apply spec_ret.
    + destruct (Hsel f Hin) as [?|(t & Ht & Hvt)]; [by clean|].
      destruct (Hf f t Ht Hvt) as (x & Hx & Hcase). rewrite Ht, Hx. cbn.
      unfold case_computes in Hcase. by destruct (case f) as [p|p|p].
Qed.

Ltac each_field :=
  let f := fresh "f" in let t := fresh "t" in let Ht := fresh "Ht" in let Hv := fresh "Hv" in
  intros f t Ht Hv; destruct f as [name alias args sels]; cbn [cf_Name cf_Selections] in *;
  revert Ht; each_name ltac:(fun _ => eexists; split; [reflexivity|]);
  unfold case_computes.
Lemma pointer_computes {A} (marshal : A -> gval) (data : A -> pval) t sel (v : option A) :
  (forall x, complete t sel (data x) = marshal x) ->
  computes_opt (gret (match v with None => GNull | Some x => marshal x end))
    (complete t sel (pointer data v)).
Proof. intros H. apply spec_ret. intros _. destruct v; cbn; by rewrite ?H. Qed.

(** A field that is a struct access. *)
Ltac access :=
  (split; [reflexivity|]);
  eapply ResolveField_total;
  [ first [apply scalar_context_ok|apply object_context_ok]
  | intros ?; apply access_ok
  | intros ?; first [apply not_null_computes|apply uuid_computes
                    |by apply (pointer_computes MarshalString PString)
                    |by apply (pointer_computes MarshalTime PTime)|idtac] ].

Lemma TaskShard_computes ctx sel s :
  valid (req "TaskShard") sel ->
  computes (_TaskShard ctx sel s) (complete (req "TaskShard") sel (shard_data s)).
Proof.
  intros Hv. apply (object_computes _ TaskShard_type); [done|done| |].
  { intros f ->. reflexivity. }
  each_field; access.
Qed.

Lemma Task_computes ctx sel t :
  valid (req "Task") sel ->
  computes (_Task ctx sel t) (complete (req "Task") sel (task_data t)).
Proof.
  intros Hv. apply (object_computes _ Task_type); [done|done| |].
  { intros f ->. reflexivity. }
  each_field; access.
  inversion Hv0; subst.
  apply marshal_list_computes. intros ctx' x. apply (non_nil_computes _TaskShard).
  intros ctx'' y. by apply TaskShard_computes.
Qed.

Lemma CancelTaskPayload_computes ctx sel p :
  valid (req "CancelTaskPayload") sel ->
  computes (_CancelTaskPayload ctx sel p) (complete (req "CancelTaskPayload") sel (cancel_data p)).
Proof.
  intros Hv. apply (object_computes _ CancelTaskPayload_type); [done|done| |].
  { intros f ->. reflexivity. }
  each_field; access.
Qed.

Lemma SubmitTaskResponse_computes ctx sel r :
  valid (req "SubmitTaskResponse") sel ->
  computes (_SubmitTaskResponse ctx sel r) (complete (req "SubmitTaskResponse") sel (submit_data r)).
Proof.
  intros Hv. apply (object_computes _ SubmitTaskResponse_type); [done|done| |].
  { intros f ->. reflexivity. }
  each_field; access.
Qed.

Lemma Tenant_computes ctx sel n :
  valid (req "Tenant") sel ->
  computes (_Tenant ctx sel n) (complete (req "Tenant") sel (tenant_data n)).
Proof.
  intros Hv. apply (object_computes _ Tenant_type); [done|done| |].
  { intros f ->. reflexivity. }
  each_field; access.
Qed.

(** ** The records are data of their types *)
Lemma pointer_data_of {A} (data : A -> pval) t (v : option A) :
  (forall x, data_of t (data x)) -> data_of t (pointer data v).
Proof. intros H. destruct v; cbn; [apply H|constructor]. Qed.
Ltac record_data :=
  econstructor; [reflexivity|]; repeat constructor; try (apply pointer_data_of; intros ?; constructor).

Lemma shard_data_of s : data_of (req "TaskShard") (shard_data s).
Proof. record_data. Qed.
Lemma task_data_of t : data_of (req "Task") (task_data t).
Proof.
  record_data. apply Forall_forall. intros v (x & -> & _)%list_elem_of_fmap.
  apply pointer_data_of, shard_data_of.
Qed.
Lemma cancel_data_of p : data_of (req "CancelTaskPayload") (cancel_data p).
Proof. record_data. Qed.
Lemma submit_data_of r : data_of (req "SubmitTaskResponse") (submit_data r).
Proof. record_data. Qed.
Lemma tenant_data_of n : data_of (req "Tenant") (tenant_data n).
Proof. record_data. Qed.

Lemma computes_fits p t sel v :
  data_of t v -> valid t sel -> computes p (complete t sel v) -> hoare p (fits t sel).
Proof.
  intros Hd Hv Hp. eapply spec_mono; [|exact Hp]. intros r es [-> He].
  destruct (complete_sound v t sel Hd Hv) as [Hn|?]; [right|by left]. split; [done|]. by apply He.
Qed.
End Facts.
