(* ===== verification/GqlTyping.v ===== *)
(** * Typing of the executor

    Whatever the resolvers do and whatever fails, executing a valid query neither
    panics nor returns anything but a conforming response or a reported null. *)
From S2P Require Import Prelude Errors Model Env World Effects GqlModel Graph.
From S2P Require Import GqlRuntime GqlMarshal GqlIntrospect GqlExec GqlSpec GqlSchema GqlFacts.

#[local] Arguments eqs : simpl never.

Section Typing.
Context `{E : Env} {GT : GqlTypes} {GQ : Gql} {GL : GqlLaws GQ} {IS : Introspection}.

Lemma conforms_nullable n sel v : conforms (req n) sel v -> conforms (opt n) sel v.
Proof. intros H. inversion H; subst; [done|by constructor|by econstructor]. Qed.
Lemma fits_nullable n sel v es : fits (req n) sel v es -> fits (opt n) sel v es.
Proof. intros [H|H]; [left|by right]. by apply conforms_nullable. Qed.
Lemma valid_named b b' n sel : valid (Named b n) sel -> valid (Named b' n) sel.
Proof. intros H. inversion H; subst; [by constructor|by econstructor]. Qed.

(** ** Values *)
Lemma hoare_scalar n sel ctx v :
  scalar_value n v \/ v = GNull -> hoare (not_null ctx v) (fits (req n) sel).
Proof.
  intros Hv. eapply spec_mono; [|apply not_null_computes]. intros r es [-> He].
  destruct Hv as [Hv| ->]; [left; by constructor|right]. split; [done|]. by apply He.
Qed.
Lemma hoare_null_scalar {A} n sel (marshal : A -> gval) v :
  (forall x, scalar_value n (marshal x)) ->
  hoare (gret (match v with None => GNull | Some x => marshal x end)) (fits (opt n) sel).
Proof. intros Hm. apply spec_ret. intros es. left. destruct v; by constructor. Qed.

Lemma hoare_non_nil {A} (object : Path -> SelectionSet -> A -> G gval) ctx sel v n :
  (forall ctx x, hoare (object ctx sel x) (fits (req n) sel)) ->
  hoare (non_nil object ctx sel v) (fits (req n) sel).
Proof.
  intros Ho. destruct v as [x|]; cbn; [apply Ho|]. apply hoare_report_null. by right.
Qed.
Lemma hoare_list {A} (element : Path -> SelectionSet -> A -> G gval) ctx sel l nn n :
  (forall ctx x, hoare (element ctx sel x) (fits (req n) sel)) ->
  hoare (marshal_list element ctx sel l) (fits (ListOf nn (req n)) sel).
Proof.
  intros He. eapply spec_mono; [|apply (marshal_list_spec element ctx sel l
    (fun _ v => conforms (req n) sel v \/ v = GNull))].
  - intros v es [(vs & Hvs & ->) Hx]. destruct (existsb is_Null vs) eqn:Hn.
    + right. split; [done|]. by apply Hx.
    + left. constructor. clear Hx. induction Hvs as [|x v l vs Hv _ IH]; [constructor|].
      cbn in Hn. apply orb_false_iff in Hn as [Hv' Hn]. constructor; [|by apply IH].
      destruct Hv as [Hv| ->]; done.
  - intros ctx' x _. eapply spec_mono; [|apply He]. intros v es Hv. split.
    + destruct Hv as [?|[-> _]]; [by left|by right].
    + by eapply fits_excused.
Qed.
Lemma hoare_optional_list {A} (element : Path -> SelectionSet -> A -> G gval) ctx sel l n :
  (forall ctx x, hoare (element ctx sel x) (fits (req n) sel)) ->
  hoare (marshal_optional_list element ctx sel l) (fits (ListOf false (req n)) sel).
Proof.
  intros He. destruct l as [l|]; cbn; [by apply hoare_list|]. apply spec_ret. intros es.
  left. by constructor.
Qed.

(** ** Objects *)
Definition case_fits (s : slot) (f : CollectedField) (t : gtype) : Prop :=
  match s with
  | Plain p => nonnull t = false /\ hoare p (fits t (cf_Selections f))
  | Required p => nonnull t = true /\ hoare p (fits t (cf_Selections f))
  | Concurrently p => nonnull t = true /\
      hoare p (fun x es => fits t (cf_Selections f) x.1 es /\ x.2 = invalids x.1)
  end.

Lemma object_fits nn n fs sel case :
  map_get n schema = Some fs -> valid (req n) sel ->
  (forall f, cf_Name f = "__typename" -> case f = Plain (gret (MarshalString n))) ->
  (forall f t, f ∈ CollectFields sel [n] -> map_get (cf_Name f) fs = Some t ->
     valid t (cf_Selections f) -> case_fits (case f) f t) ->
  hoare (exec_object (CollectFields sel [n]) case) (fits (Named nn n) sel).
Proof.
  intros Hn Hv Htn Hf. inversion Hv as [|? ? ? Hc|? ? fs' ? Hfs Hsel]; subst; [congruence|].
  assert (fs' = fs) as -> by congruence.
  eapply spec_mono; [|apply (exec_object_spec case (field_fits fs) (required fs))].
  - intros v es [Hdone Hx]. destruct (object_conforms nn n fs sel v Hn Hdone) as [->|?]; [right|by left].
    split; [done|]. by apply Hx.
  - intros f Hin. unfold case_ok, required. destruct (Hsel f Hin) as [Hty|(t & Ht & Hvt)].
    + rewrite (Htn f Hty), Hty. split; [by destruct (map_get _ fs)|]. apply spec_ret. intros es.
      exists (req "String"). unfold field_type. rewrite Hty. split; [done|]. left. constructor.
      by exists n.
    + destruct (cf_Name f =s "__typename") eqn:Heq.
      { clean. rewrite (Htn f Heq). split; [by destruct (map_get _ fs)|]. apply spec_ret. intros es.
        exists (req "String"). unfold field_type. rewrite Heq. split; [done|]. left. constructor.
        by exists n. }
      rewrite Ht. cbn. specialize (Hf f t Hin Ht Hvt). unfold case_fits in Hf.
      assert (forall v es, fits t (cf_Selections f) v es -> field_fits fs f v) as Hff.
      { intros v es Hfit. exists t. unfold field_type. rewrite Heq. split; [done|].
        destruct Hfit as [?|[-> _]]; [by left|right]. split; [done|]. by clean. }
      destruct (case f) as [p|p|p]; destruct Hf as [Hnn Hp]; (split; [done|]);
        (eapply spec_mono; [|exact Hp]).
      * eauto.
      * intros v es Hfit. split; [eauto|]. by eapply fits_excused.
      * intros x es [Hfit Hi]. split; [eauto|]. split; [done|]. by eapply fits_excused.
Qed.
End Typing.

(** ** Fields *)
Ltac each_case :=
  let f := fresh "f" in let t := fresh "t" in let Ht := fresh "Ht" in let Hv := fresh "Hv" in
  let Hin := fresh "Hin" in
  intros f t Hin Ht Hv; destruct f as [name alias args sels]; cbn [cf_Name cf_Selections] in *;
  revert Ht; each_name ltac:(fun _ => idtac);
  (split; [reflexivity|]); cbn [cf_Selections].
(** The field context is made, the resolver returns, and the value is marshalled. *)
Ltac resolve :=
  apply ResolveField_spec;
  [ intros ? ?; by apply fits_reported
  | first [apply scalar_context_made|apply object_context_made|apply with_arguments_made]
  | intros ?; first [apply spec_ret; intros _; intros ?; apply hoare_partial|idtac] ].
Ltac scalar :=
  first
  [ apply hoare_scalar; left; by eexists
  | apply (hoare_null_scalar _ _ MarshalString); intros ?; by eexists ].
