(* ===== verification/GqlIntrospectFacts.v ===== *)
(** * Introspection terminates and is well typed

    The object functions of introspection call each other through [___Type]; each
    call is one brace deeper in the query, so the query's depth bounds the
    recursion. *)
From S2P Require Import Prelude Errors Model Env World Effects GqlModel Graph.
From S2P Require Import GqlRuntime GqlMarshal GqlIntrospect GqlExec GqlSpec GqlSchema GqlFacts.
From S2P Require Import GqlTyping.
From Stdlib Require Import FunctionalExtensionality.

#[local] Arguments eqs : simpl never.

Section IntrospectFacts.
Context `{E : Env} {GT : GqlTypes} {GQ : Gql} {GL : GqlLaws GQ} {IS : Introspection}.

Lemma bool_fits ctx sel v : hoare (marshalNBoolean2bool ctx sel v) (fits (req "Boolean") sel).
Proof. apply hoare_scalar. left. by exists v. Qed.
Lemma opt_bool_fits ctx sel v : hoare (marshalOBoolean2bool ctx sel v) (fits (opt "Boolean") sel).
Proof. apply spec_ret. intros es. left. constructor. by exists v. Qed.
Lemma string_fits ctx sel v : hoare (not_null ctx (MarshalString v)) (fits (req "String") sel).
Proof. apply hoare_scalar. left. by exists v. Qed.
Lemma opt_string_fits ctx sel v : hoare (marshalOString2ptr_string ctx sel v) (fits (opt "String") sel).
Proof. apply (hoare_null_scalar _ _ MarshalString). intros x. by exists x. Qed.
#[local] Hint Resolve bool_fits opt_bool_fits string_fits opt_string_fits : gql.

Lemma EnumValue_fits ctx sel obj :
  valid (req "__EnumValue") sel -> hoare (___EnumValue ctx sel obj) (fits (req "__EnumValue") sel).
Proof.
  intros Hv. apply (object_fits _ _ EnumValue_type); [done|done|by intros f ->|].
  each_case; resolve; eauto with gql.
Qed.

Section Recursion.
Context (rec : Path -> SelectionSet -> IType -> G gval) (d : nat).
Context (Hrec : forall ctx sel obj, selection_depth sel < d -> valid (req "__Type") sel ->
  hoare (rec ctx sel obj) (fits (req "__Type") sel)).

Ltac deeper :=
  match goal with
  | H : _ ∈ CollectFields _ _ |- _ => apply CollectFields_depth in H; cbn in H; lia
  end.

Lemma type_ptr_fits ctx sel v : selection_depth sel < d -> valid (req "__Type") sel ->
  hoare (marshalN__Type2ptr_Type rec ctx sel v) (fits (req "__Type") sel).
Proof. intros Hd Hv. apply hoare_non_nil. intros ctx' x. by apply Hrec. Qed.
Lemma opt_type_fits ctx sel v : selection_depth sel < d -> valid (opt "__Type") sel ->
  hoare (marshalO__Type2ptr_Type rec ctx sel v) (fits (opt "__Type") sel).
Proof.
  intros Hd Hv. destruct v as [x|]; cbn.
  - eapply spec_mono; [|apply Hrec; [done|by eapply valid_named]].
    intros v es. apply fits_nullable.
  - apply spec_ret. intros es. left. by constructor.
Qed.
Lemma types_fits ctx sel v : selection_depth sel < d -> valid (ListOf true (req "__Type")) sel ->
  hoare (marshalN__Type2slice_Type rec ctx sel v) (fits (ListOf true (req "__Type")) sel).
Proof. intros Hd Hv. inversion Hv; subst. apply hoare_list. intros ctx' x. by apply Hrec. Qed.
Lemma opt_types_fits ctx sel v : selection_depth sel < d -> valid (ListOf false (req "__Type")) sel ->
  hoare (marshalO__Type2slice_Type rec ctx sel v) (fits (ListOf false (req "__Type")) sel).
Proof. intros Hd Hv. inversion Hv; subst. apply hoare_optional_list. intros ctx' x. by apply Hrec. Qed.

Lemma InputValue_fits ctx sel obj :
  selection_depth sel <= d -> valid (req "__InputValue") sel ->
  hoare (___InputValue rec ctx sel obj) (fits (req "__InputValue") sel).
Proof.
  intros Hd Hv. apply (object_fits _ _ InputValue_type); [done|done|by intros f ->|].
  each_case; resolve; eauto with gql. apply type_ptr_fits; [deeper|done].
Qed.
Lemma inputs_fits ctx sel v : selection_depth sel < d ->
  valid (ListOf true (req "__InputValue")) sel ->
  hoare (marshalN__InputValue2slice_InputValue rec ctx sel v)
    (fits (ListOf true (req "__InputValue")) sel).
Proof.
  intros Hd Hv. inversion Hv; subst. apply hoare_list. intros ctx' x.
  apply InputValue_fits; [lia|done].
Qed.
Lemma opt_inputs_fits ctx sel v : selection_depth sel < d ->
  valid (ListOf false (req "__InputValue")) sel ->
  hoare (marshalO__InputValue2slice_InputValue rec ctx sel v)
    (fits (ListOf false (req "__InputValue")) sel).
Proof.
  intros Hd Hv. inversion Hv; subst. apply hoare_optional_list. intros ctx' x.
  apply InputValue_fits; [lia|done].
Qed.

Lemma Field_fits ctx sel obj :
  selection_depth sel <= d -> valid (req "__Field") sel ->
  hoare (___Field rec ctx sel obj) (fits (req "__Field") sel).
Proof.
  intros Hd Hv. apply (object_fits _ _ Field_type); [done|done|by intros f ->|].
  each_case; resolve; eauto with gql.
  - apply inputs_fits; [deeper|done].
  - apply type_ptr_fits; [deeper|done].
Qed.
Lemma opt_fields_fits ctx sel v : selection_depth sel < d ->
  valid (ListOf false (req "__Field")) sel ->
  hoare (marshalO__Field2slice_Field rec ctx sel v) (fits (ListOf false (req "__Field")) sel).
Proof.
  intros Hd Hv. inversion Hv; subst. apply hoare_optional_list. intros ctx' x.
  apply Field_fits; [lia|done].
Qed.
Lemma opt_enums_fits ctx sel v : valid (ListOf false (req "__EnumValue")) sel ->
  hoare (marshalO__EnumValue2slice_EnumValue ctx sel v)
    (fits (ListOf false (req "__EnumValue")) sel).
Proof. intros Hv. inversion Hv; subst. apply hoare_optional_list. intros ctx' x. by apply EnumValue_fits. Qed.

(** A resolver that reads an argument. *)
Lemma with_bool_argument {A} (access : bool -> A) (Q : A -> Prop) fc :
  (forall b, Q (access b)) ->
  partial (b <~ arg as_bool "includeDeprecated" fc ;; gret (Ok (access b)))
    (fun r _ => match r with Ok a => Q a | Err _ => True end).
Proof.
  intros HQ. eapply (spec_bind_pure _ _ _ (fun _ => True)).
  - unfold arg. destruct (_ ≫= _); [by apply spec_ret|apply spec_panic].
  - intros b _. apply spec_ret. intros _. apply HQ.
Qed.

Lemma Type_step_fits ctx sel obj :
  selection_depth sel <= d -> valid (req "__Type") sel ->
  hoare (___Type_step rec ctx sel obj) (fits (req "__Type") sel).
Proof.
  intros Hd Hv. apply (object_fits _ _ Type_type); [done|done|by intros f ->|].
  each_case; resolve; eauto with gql.
  - apply (with_bool_argument (IType_Fields obj)). intros b ctx'. apply hoare_partial.
    apply opt_fields_fits; [deeper|done].
  - apply opt_types_fits; [deeper|done].
  - apply opt_types_fits; [deeper|done].
  - apply (with_bool_argument (IType_EnumValues obj)). intros b ctx'. apply hoare_partial.
    by apply opt_enums_fits.
  - apply opt_inputs_fits; [deeper|done].
  - apply opt_type_fits; [deeper|done].
Qed.

Lemma Directive_fits ctx sel obj :
  selection_depth sel <= d -> valid (req "__Directive") sel ->
  hoare (___Directive rec ctx sel obj) (fits (req "__Directive") sel).
Proof.
  intros Hd Hv. apply (object_fits _ _ Directive_type); [done|done|by intros f ->|].
  each_case; resolve; eauto with gql.
  - apply hoare_list. intros ctx' x. apply string_fits.
  - apply inputs_fits; [deeper|done].
Qed.

Lemma Schema_fits ctx sel obj :
  selection_depth sel <= d -> valid (req "__Schema") sel ->
  hoare (___Schema rec ctx sel obj) (fits (req "__Schema") sel).
Proof.
  intros Hd Hv. apply (object_fits _ _ Schema_type); [done|done|by intros f ->|].
  each_case; resolve; eauto with gql.
  - apply types_fits; [deeper|done].
  - apply type_ptr_fits; [deeper|done].
  - apply opt_type_fits; [deeper|done].
  - apply opt_type_fits; [deeper|done].
  - inversion Hv0; subst. apply hoare_list. intros ctx' x. apply Directive_fits; [|done].
    apply CollectFields_depth in Hin. cbn in Hin. lia.
Qed.
End Recursion.

(** ** The recursion is one brace deeper at every call

    Two functions that agree on the queries less deep than [sel] are the same
    argument of the step at [sel].  Executor functions are functions of the errors
    reported so far, and the runtime is handed closures, so functions that agree at
    every argument have to be equal. *)
Lemma ResolveField_ext {A} ctx field init (resolver : FieldContext -> G (res A)) m1 m2 nn :
  (forall ctx a, m1 ctx (cf_Selections field) a = m2 ctx (cf_Selections field) a) ->
  ResolveField ctx field init resolver m1 true nn = ResolveField ctx field init resolver m2 true nn.
Proof.
  intros Hm. extensionality es. rewrite !ResolveField_eq. f_equal.
  extensionality r. destruct r as [fc|e]; [|done]. cbv zeta. f_equal.
  f_equal. extensionality v. by destruct v.
Qed.
Lemma marshal_list_ext {A} (m1 m2 : Path -> SelectionSet -> A -> G gval) ctx sel v :
  (forall ctx x, m1 ctx sel x = m2 ctx sel x) ->
  marshal_list m1 ctx sel v = marshal_list m2 ctx sel v.
Proof.
  intros Hm. unfold marshal_list. f_equal. f_equal. extensionality ctx'. extensionality i.
  by destruct (v !! i).
Qed.
Lemma optional_list_ext {A} (m1 m2 : Path -> SelectionSet -> A -> G gval) ctx sel v :
  (forall ctx x, m1 ctx sel x = m2 ctx sel x) ->
  marshal_optional_list m1 ctx sel v = marshal_optional_list m2 ctx sel v.
Proof. intros Hm. destruct v as [l|]; [by apply marshal_list_ext|done]. Qed.
Lemma non_nil_ext {A} (m1 m2 : Path -> SelectionSet -> A -> G gval) ctx sel v :
  (forall ctx x, m1 ctx sel x = m2 ctx sel x) -> non_nil m1 ctx sel v = non_nil m2 ctx sel v.
Proof. intros Hm. destruct v as [x|]; [by apply Hm|done]. Qed.
Lemma set_fields_ext case1 case2 fields : forall i,
  (forall f, f ∈ fields -> case1 f = case2 f) -> set_fields i fields case1 = set_fields i fields case2.
Proof.
  induction fields as [|f fields IH]; intros i Hc; [done|]. cbn [set_fields].
  rewrite (Hc f) by left. f_equal. extensionality x. rewrite (IH (S i)); [done|].
  intros g Hg. apply Hc. by right.
Qed.
Lemma exec_object_ext case1 case2 sel types :
  (forall f, selection_depth (cf_Selections f) < selection_depth sel -> case1 f = case2 f) ->
  exec_object (CollectFields sel types) case1 = exec_object (CollectFields sel types) case2.
Proof.
  intros Hc. unfold exec_object. rewrite (set_fields_ext case1 case2); [done|].
  intros f Hf. by apply Hc, (CollectFields_depth _ types).
Qed.

Section Deeper.
Context (r1 r2 : Path -> SelectionSet -> IType -> G gval) (d : nat).
Context (Hr : forall ctx sel obj, selection_depth sel < d -> r1 ctx sel obj = r2 ctx sel obj).

Ltac unfold_head p :=
  match p with
  | ?f _ => unfold_head f
  | _ => unfold p
  end.
(** Goes through the cases of an object function, into the marshaller of each field. *)
Ltac same :=
  apply exec_object_ext; intros f Hf; cbv beta;
  repeat match goal with
  | |- (if ?b then _ else _) = (if ?b then _ else _) => destruct b
  | |- ?x = ?x => reflexivity
  | |- Plain _ = _ => f_equal
  | |- Required _ = _ => f_equal
  | |- ResolveField _ _ _ _ _ _ _ = ResolveField _ _ _ _ _ _ _ =>
      apply ResolveField_ext; intros ctx' a
  | |- marshal_list _ _ _ _ = _ => apply marshal_list_ext; intros
  | |- marshal_optional_list _ _ _ _ = _ => apply optional_list_ext; intros
  | |- non_nil _ _ _ _ = _ => apply non_nil_ext; intros
  | |- r1 _ _ _ = r2 _ _ _ => apply Hr; lia
  | |- match ?a with Some _ => _ | None => _ end = _ => destruct a
  | |- marshalN__InputValue2InputValue _ _ _ _ = _ => fail 1
  | |- marshalN__Field2Field _ _ _ _ = _ => fail 1
  | |- ?p = _ => unfold_head p
  end.

Lemma InputValue_ext ctx sel obj : selection_depth sel <= d ->
  ___InputValue r1 ctx sel obj = ___InputValue r2 ctx sel obj.
Proof. intros Hd. same. Qed.
Lemma Field_ext ctx sel obj : selection_depth sel <= d ->
  ___Field r1 ctx sel obj = ___Field r2 ctx sel obj.
Proof. intros Hd. same. apply InputValue_ext; lia. Qed.
Lemma Type_step_ext ctx sel obj : selection_depth sel <= d ->
  ___Type_step r1 ctx sel obj = ___Type_step r2 ctx sel obj.
Proof.
  intros Hd. same; [apply Field_ext|apply InputValue_ext]; lia.
Qed.
End Deeper.

(** Beyond the depth of the query the fuel makes no difference, and neither does what
    would happen without it. *)
Lemma Type_fuel_enough b1 b2 m : forall n ctx sel obj,
  selection_depth sel < m -> selection_depth sel < n ->
  ___Type_fuel b1 m ctx sel obj = ___Type_fuel b2 n ctx sel obj.
Proof.
  induction m as [|m IH]; intros [|n] ctx sel obj Hm Hn; [lia..|]. cbn [___Type_fuel].
  apply (Type_step_ext _ _ (selection_depth sel)); [|done]. intros ctx' sel' obj' Hd.
  apply IH; lia.
Qed.
(** A function with the recursion equation of the source is [___Type]. *)
Lemma Type_unique (T : Path -> SelectionSet -> IType -> G gval) :
  (forall ctx sel obj, T ctx sel obj = ___Type_step T ctx sel obj) ->
  forall n ctx sel obj, selection_depth sel < n -> T ctx sel obj = ___Type ctx sel obj.
Proof.
  intros HT. induction n as [|n IH]; intros ctx sel obj Hn; [lia|]. rewrite HT.
  unfold ___Type. cbn [___Type_fuel]. apply (Type_step_ext _ _ (selection_depth sel)); [|done].
  intros ctx' sel' obj' Hd. rewrite IH by lia. apply Type_fuel_enough; lia.
Qed.

(** Enough fuel for the depth of the query is enough. *)
Lemma Type_fuel_fits bottom fuel : forall ctx sel obj,
  selection_depth sel < fuel -> valid (req "__Type") sel ->
  hoare (___Type_fuel bottom fuel ctx sel obj) (fits (req "__Type") sel).
Proof.
  induction fuel as [|fuel IH]; intros ctx sel obj Hd Hv; [lia|]. cbn [___Type_fuel].
  apply (Type_step_fits _ fuel); [|lia|done]. intros ctx' sel' obj' Hd' Hv'. by apply IH.
Qed.
Lemma Type_fits ctx sel obj : valid (req "__Type") sel ->
  hoare (___Type ctx sel obj) (fits (req "__Type") sel).
Proof. apply Type_fuel_fits. lia. Qed.
End IntrospectFacts.
