(* ===== verification/GqlDemo.v ===== *)
(** * A concrete GraphQL runtime

    [toy_gql] runs the executor on selection sets that are plain trees: no
    fragments, arguments given as strings
    or objects of strings, paths of response keys, and an
    introspected schema of a single self-referring type. *)
From Stdlib Require Import Ascii.
From S2P Require Import Prelude Errors Model Env World Effects GqlModel Graph.
From S2P Require Import GqlRuntime GqlMarshal GqlIntrospect.

(** An argument: a string or an object of strings. *)
Inductive targ := TStr (s : string) | TObj (l : list (string * string)).
Coercion TStr : string >-> targ.
(** [(name, alias, arguments, selections)]. *)
Inductive tsel := TSel (fields : list (string * string * list (string * targ) * tsel)).

Fixpoint tsel_depth (s : tsel) : nat :=
  match s with
  | TSel l => fold_right (fun x n => Nat.max (S (tsel_depth x.2)) n) 0 l
  end.

#[export] Instance toy_types : GqlTypes := {
  SelectionSet := tsel;
  Path := list string;
  Scalar := string;
  IDirective := unit; IEnumValue := unit; IField := unit; IInputValue := unit;
  ISchema := unit; IType := unit;
}.

Definition toy_arg (a : targ) : any :=
  match a with
  | TStr s => AScalar s
  | TObj l => AMap (map (fun kv => (kv.1, AScalar kv.2)) l)
  end.
Definition toy_field (x : string * string * list (string * targ) * tsel) : CollectedField :=
  mkField x.1.1.1 x.1.1.2 (map (fun kv => (kv.1, toy_arg kv.2)) x.1.2) x.2.

Definition toy_string (v : any) : res string :=
  match v with
  | AScalar s => Ok s
  | _ => Err (EExternal "not a string")
  end.

#[export] Instance toy_gql : Gql := {
  CollectFields sel _ := match sel with TSel l => map toy_field l end;
  selection_depth := tsel_depth;
  WithFieldContext p fc := match fc_Field fc with Some f => (p ++ [cf_Alias f])%list | None => p end;
  WithRootFieldContext p _ := p;
  WithPathField p k := (p ++ [k])%list;
  WithIndex p i := (p ++ [pretty i])%list;
  NewScalarFieldContext object field m r e := Ok (mkFC object (Some field) m r [] NilChild);
  ErrorOnPath _ e := e;
  HasFieldError es p := existsb (fun x => bool_decide (x.1 = p)) es;
  Recover m := EExternal ("internal system error: " +:+ m);
  MarshalString s := GScalar (quoted s);
  MarshalInt n := GScalar (pretty n);
  MarshalBoolean b := GScalar (if b then "true" else "false");
  MarshalTime t := if (t =? 0)%Z then GNull else GScalar (quoted (pretty t));
  UnmarshalString := toy_string;
  UnmarshalInt v := match toy_string v with Ok s => Ok (Z.of_nat (String.length s)) | Err e => Err e end;
  UnmarshalBoolean v := match toy_string v with Ok s => Ok (s =s "true") | Err e => Err e end;
  UnmarshalUpload v := match toy_string v with Ok s => Ok (Ok s) | Err e => Err e end;
  ProcessArgField A ctx raw name zero f :=
    match map_get name raw with
    | None => Val (Ok zero)
    | Some v => f (ctx ++ [name])%list v
    end;
  ResolveField A ctx field init resolver marshal _ _ :=
    r <~ init ctx field ;;
    match r with
    | Err _ => gret GNull
    | Ok fc =>
      let ctx := match fc_Field fc with Some f => (ctx ++ [cf_Alias f])%list | None => ctx end in
      recovering
        (v <~ resolver fc ;;
         match v with
         | Err e => AddError ctx e ~;; gret GNull
         | Ok a => marshal ctx (cf_Selections field) a
         end)
        (fun m => AddError ctx (EExternal ("internal system error: " +:+ m)) ~;; gret GNull)
    end;
  RootResolverMiddleware A ctx f := f ctx;
  MarshalSliceConcurrently ctx n f :=
    rs <~ run_list (map (fun i => (i, f (ctx ++ [pretty i])%list i)) (seq 0 n)) ;;
    gret (map (at_index GNil rs) (seq 0 n));
  Dispatch ds := run_list (reverse ds);
  MarshalGQL v := "";
}.

Lemma tsel_depth_field sel f :
  f ∈ CollectFields sel [] -> tsel_depth (cf_Selections f) < tsel_depth sel.
Proof.
  destruct sel as [l]. cbn. intros (x & -> & Hx)%list_elem_of_fmap. cbn.
  induction l as [|y l IH]; [by apply not_elem_of_nil in Hx|]. cbn.
  apply elem_of_cons in Hx as [->|Hx]; [lia|]. specialize (IH Hx). lia.
Qed.

Lemma toy_gql_laws : GqlLaws toy_gql.
Proof.
  split; cbn.
  - intros sel _ f. apply tsel_depth_field.
  - done.
  - done.
  - intros object field m r e. by eexists.
  - intros ctx n f. exists (seq 0 n). by split.
  - intros ds. exists (reverse ds). split; [apply reverse_Permutation|done].
  - done.
  - intros es ctx He ->. done.
  - intros s. by eexists.
  - intros n. by eexists.
  - intros b. by eexists.
  - done.
  - intros t Ht. rewrite (proj2 (Z.eqb_neq t 0) Ht). by eexists.
Qed.

#[export] Instance toy_introspection : Introspection := {
  IDirective_Name _ := "deprecated"; IDirective_Description _ := None;
  IDirective_IsRepeatable _ := false; IDirective_Locations _ := ["FIELD_DEFINITION"];
  IDirective_Args _ := [];
  IEnumValue_Name _ := "FIELD_DEFINITION"; IEnumValue_Description _ := None;
  IEnumValue_IsDeprecated _ := false; IEnumValue_DeprecationReason _ := None;
  IField_Name _ := "self"; IField_Description _ := None; IField_Args _ := [];
  IField_Type _ := Some tt; IField_IsDeprecated _ := false; IField_DeprecationReason _ := None;
  IInputValue_Name _ := "x"; IInputValue_Description _ := None; IInputValue_Type _ := Some tt;
  IInputValue_DefaultValue _ := None; IInputValue_IsDeprecated _ := false;
  IInputValue_DeprecationReason _ := None;
  ISchema_Description _ := None; ISchema_Types _ := [tt]; ISchema_QueryType _ := Some tt;
  ISchema_MutationType _ := None; ISchema_SubscriptionType _ := None; ISchema_Directives _ := [tt];
  IType_Kind _ := "OBJECT"; IType_Name _ := Some "Self"; IType_Description _ := None;
  IType_SpecifiedByURL _ := None; IType_Fields _ _ := Some [tt]; IType_Interfaces _ := None;
  IType_PossibleTypes _ := None; IType_EnumValues _ _ := None; IType_InputFields _ := None;
  IType_OfType _ := Some tt; IType_IsOneOf _ := false;
  IntrospectType name := Ok (if name =s "Self" then Some tt else None);
  IntrospectSchema := Ok (Some tt);
}.

(** [mutation { CancelTask(tenant_name: tenant, task_id: id) { task_id status } }]. *)
Definition toy_leaf (name : string) : string * string * list (string * targ) * tsel :=
  (name, name, [], TSel []).
Definition cancel_request (tenant id : string) : tsel :=
  TSel [("CancelTask", "cancelled", [("tenant_name", TStr tenant); ("task_id", TStr id)],
         TSel [toy_leaf "task_id"; toy_leaf "status"])].
