(* ===== verification/GqlRoot.v ===== *)
(** * Requests against the generated executor

    The root fields and the whole execution of a query or a mutation: every response
    to a valid request conforms to the schema, whatever the resolvers do. *)
From S2P Require Import Prelude Errors Model Env World Effects GqlModel Graph.
From S2P Require Import GqlRuntime GqlMarshal GqlIntrospect GqlExec GqlSpec GqlSchema GqlFacts.
From S2P Require Import GqlTyping GqlIntrospectFacts.

#[local] Arguments eqs : simpl never.

Lemma wp_trivial b {A} (p : prog A) w : wp b p (fun _ _ => True) w.
Proof.
  revert w. induction p as [A a|A C f h IH|A h IH|A h IH|A C body IHb h IH]; intros w; cbn; auto.
  split; [auto|]. eapply wp_mono; [|apply IHb]. intros [v|e] w' _; [split|]; auto.
Qed.

Section Root.
Context `{E : Env} {GT : GqlTypes} {GQ : Gql} {GL : GqlLaws GQ} {IS : Introspection}.
Context (resolvers : ResolverRoot).

(** A resolver that reads its arguments and calls a program. *)
Lemma partial_arg {A} (as_type : argval -> option A) name fc : partial (arg as_type name fc) (fun _ _ => True).
Proof. unfold arg. destruct (_ ≫= _); [by apply spec_ret|apply spec_panic]. Qed.
Lemma partial_glift {A} (p : prog A) : partial (glift p) (fun _ _ => True).
Proof. apply (spec_glift _ _ (fun _ => True)). intros w. apply wp_trivial. Qed.
Lemma partial_any {A} (p : G (res A)) (Q : A -> Prop) :
  partial p (fun _ _ => True) -> (forall a, Q a) ->
  partial p (fun r _ => match r with Ok a => Q a | Err _ => True end).
Proof. intros Hp HQ. eapply spec_mono; [|exact Hp]. by intros [a|e]. Qed.

Ltac call :=
  apply ResolveField_spec;
  [ intros ? ?; by apply fits_reported
  | first [apply with_arguments_made|apply object_context_made]
  | intros fc; apply partial_any;
    [ repeat (eapply spec_bind_pure; [apply partial_arg|intros ? _]);
      first [apply partial_glift|by apply spec_ret]
    | intros a ctx'; apply hoare_partial ] ].

Lemma Mutation_SubmitTask_fits ctx f : valid (req "SubmitTaskResponse") (cf_Selections f) ->
  hoare (_Mutation_SubmitTask resolvers ctx f) (fits (req "SubmitTaskResponse") (cf_Selections f)).
Proof.
  intros Hv. call. apply hoare_non_nil. intros ctx'' x.
  eapply computes_fits; [apply submit_data_of|done|by apply SubmitTaskResponse_computes].
Qed.
Lemma Mutation_CancelTask_fits ctx f : valid (req "CancelTaskPayload") (cf_Selections f) ->
  hoare (_Mutation_CancelTask resolvers ctx f) (fits (req "CancelTaskPayload") (cf_Selections f)).
Proof.
  intros Hv. call. apply hoare_non_nil. intros ctx'' x.
  eapply computes_fits; [apply cancel_data_of|done|by apply CancelTaskPayload_computes].
Qed.
Lemma Mutation_CreateTenant_fits ctx f : valid (req "Tenant") (cf_Selections f) ->
  hoare (_Mutation_CreateTenant resolvers ctx f) (fits (req "Tenant") (cf_Selections f)).
Proof.
  intros Hv. call. apply hoare_non_nil. intros ctx'' x.
  eapply computes_fits; [apply tenant_data_of|done|by apply Tenant_computes].
Qed.
Lemma Task_ptr_fits ctx sel v : valid (req "Task") sel ->
  hoare (marshalNTask2ptr_Task ctx sel v) (fits (req "Task") sel).
Proof.
  intros Hv. apply hoare_non_nil. intros ctx'' x.
  eapply computes_fits; [apply task_data_of|done|by apply Task_computes].
Qed.
Lemma Query_GetTaskByID_fits ctx f : valid (req "Task") (cf_Selections f) ->
  hoare (_Query_GetTaskByID resolvers ctx f) (fits (req "Task") (cf_Selections f)).
Proof. intros Hv. call. by apply Task_ptr_fits. Qed.
Lemma Query_GetTaskList_fits ctx f : valid (ListOf true (req "Task")) (cf_Selections f) ->
  hoare (_Query_GetTaskList resolvers ctx f) (fits (ListOf true (req "Task")) (cf_Selections f)).
Proof.
  intros Hv. inversion Hv; subst. call. apply hoare_list. intros ctx'' x. by apply Task_ptr_fits.
Qed.
Lemma Query___type_fits ctx f : valid (opt "__Type") (cf_Selections f) ->
  hoare (_Query___type ctx f) (fits (opt "__Type") (cf_Selections f)).
Proof.
  intros Hv. call. destruct a as [x|]; cbn.
  - eapply spec_mono; [|apply Type_fits; by eapply valid_named]. intros v es. apply fits_nullable.
  - apply spec_ret. intros es. left. by constructor.
Qed.
Lemma Query___schema_fits ctx f : valid (opt "__Schema") (cf_Selections f) ->
  hoare (_Query___schema ctx f) (fits (opt "__Schema") (cf_Selections f)).
Proof.
  intros Hv. call. destruct a as [x|]; cbn.
  - eapply spec_mono; [|apply (Schema_fits _ (selection_depth (cf_Selections f)));
      [|done|by eapply valid_named]].
    + intros v es. apply fits_nullable.
    + intros ctx'' sel obj _ Hvt. by apply Type_fits.
  - apply spec_ret. intros es. left. by constructor.
Qed.

Lemma hoare_root_field ctx f resolve Q :
  (forall ctx, hoare (resolve ctx f) Q) -> hoare (root_field ctx f resolve) Q.
Proof. intros H es w. unfold root_field. rewrite RootResolverMiddleware_eq. apply H. Qed.
Lemma hoare_concurrent_field ctx f resolve Q :
  (forall ctx, hoare (resolve ctx f) Q) ->
  hoare (concurrent_field ctx f resolve) (fun x es => Q x.1 es /\ x.2 = invalids x.1).
Proof.
  intros H es w. unfold concurrent_field. rewrite RootResolverMiddleware_eq. revert es w.
  apply hoare_recovering_total. eapply spec_bind; [apply H|]. intros v es w Hv.
  split; cbn; [reflexivity|]. by split.
Qed.

Lemma Mutation_fits ctx sel : valid (req "Mutation") sel ->
  hoare (_Mutation resolvers ctx sel) (fits (req "Mutation") sel).
Proof.
  intros Hv. apply (object_fits _ _ Mutation_type); [done|done|by intros f ->|].
  each_case; apply hoare_root_field; intros ctx'.
  - by apply Mutation_SubmitTask_fits.
  - by apply Mutation_CancelTask_fits.
  - by apply Mutation_CreateTenant_fits.
Qed.
Lemma Query_fits ctx sel : valid (req "Query") sel ->
  hoare (_Query resolvers ctx sel) (fits (req "Query") sel).
Proof.
  intros Hv. apply (object_fits _ _ Query_type); [done|done|by intros f ->|].
  each_case.
  - apply hoare_concurrent_field. intros ctx'. by apply Query_GetTaskByID_fits.
  - apply hoare_concurrent_field. intros ctx'. by apply Query_GetTaskList_fits.
  - apply hoare_root_field. intros ctx'. by apply Query___type_fits.
  - apply hoare_root_field. intros ctx'. by apply Query___schema_fits.
Qed.

(** A run of the executor. *)
Definition executed (op : operation) (ctx : Path) (sel : SelectionSet) : G gval :=
  match op with
  | OpQuery => _Query resolvers ctx sel
  | OpMutation => _Mutation resolvers ctx sel
  | OpOther => gret GNull
  end.
Definition root_type (op : operation) : gtype :=
  req (match op with OpMutation => "Mutation" | _ => "Query" end).

(** C35: Every response conforms to the schema.  Whatever the resolvers do and
    whatever fails, executing a valid query or mutation does not panic, and returns
    an object with exactly the selected fields under their response keys, every
    scalar of its type and null only where the schema allows it, or null with an
    error reported; introspection included. *)
Theorem response_conforms op ctx sel w o :
  op <> OpOther -> valid (root_type op) sel ->
  let x := result (run (executed op ctx sel []) w o) in
  exists v, x.1 = Val v /\ (conforms (root_type op) sel v \/ (v = GNull /\ x.2 <> [])).
Proof.
  intros Hop Hv x.
  assert (hoare (executed op ctx sel) (fits (root_type op) sel)) as H.
  { destruct op; [by apply Query_fits|by apply Mutation_fits|done]. }
  pose proof (wp_run _ _ w o (H [] w)) as Hx. fold x in Hx. destruct Hx as [_ Hx].
  destruct x as [[v|m] es]; cbn in *; [|done]. by exists v.
Qed.
End Root.

(** A cancellation on [demo]. *)
From S2P Require Import Proto Demo GqlApi GqlDemo.
#[local] Existing Instances toy_env toy_laws toy_gql_laws.
#[local] Abbreviation top := ([] : list string).
Definition demo_resolvers : ResolverRoot :=
  Resolver (fun _ _ => Ret (Ok tt)) (copies copied_task) (copies copied_tenant).
Ltac checked := apply (valid_check_sound 9); vm_compute; reflexivity.

Lemma response_conforms_witness : exists v,
  (result (run (executed (GT := toy_types) demo_resolvers OpMutation top
      (cancel_request "acme" "u|||||||||||") []) demo quiet)).1 = Val v /\
  v = GObj [("cancelled", GObj [("task_id", GScalar (quoted "u|||||||||||"));
                                ("status", GScalar (quoted "CANCELLED"))])] /\
  conforms (req "Mutation") (cancel_request "acme" "u|||||||||||") v.
Proof.
  destruct (response_conforms (GT := toy_types) demo_resolvers OpMutation top
    (cancel_request "acme" "u|||||||||||") demo quiet) as (v & Hv & Hc); [done|checked|].
  exists v. split; [exact Hv|].
  assert (v = GObj [("cancelled", GObj [("task_id", GScalar (quoted "u|||||||||||"));
            ("status", GScalar (quoted "CANCELLED"))])]) as ->.
  { vm_compute in Hv. injection Hv as <-. reflexivity. }
  split; [reflexivity|]. destruct Hc as [Hc|[Hc _]]; [exact Hc|discriminate].
Defined.
