(* ===== verification/GqlQueries.v ===== *)
(** * Requests end to end

    The executor with the resolvers of graph/ on the database: the object functions
    are the schema's reference execution, introspection terminates, a query leaves
    the database alone, [GetTaskByID] answers with the tenant's task, and the mutations
    [CancelTask] and [SubmitTask] do what they answer. *)
From S2P Require Import Prelude Errors Model Env Proto World Effects Store StoreFacts Lifecycle Lawful.
From S2P Require Import TaskOrm TaskShardOrm TaskStatus GoText TaskApi Control GqlModel Graph GqlRuntime GqlMarshal GqlIntrospect GqlExec.
From S2P Require Import GqlEffects GqlApi GqlSpec GqlSchema GqlFacts GqlTyping GqlIntrospectFacts.
From S2P Require Import GqlRoot.

#[local] Arguments eqs : simpl never.

Section Queries.
Context `{E : Env} {L : EnvLaws E} {GT : GqlTypes} {GQ : Gql} {GL : GqlLaws GQ} {IS : Introspection}.

(** ** Object functions *)

(** [object] returns the reference execution of the schema on the record's data,
    without an effect, and reports a null. *)
Definition follows {A} (object : Path -> SelectionSet -> A -> G gval) (type : string)
    (data : A -> pval) : Prop :=
  forall ctx sel x w o, valid (req type) sel ->
    let r := run (object ctx sel x []) w o in
    exists es, result r = (Val (complete (req type) sel (data x)), es) /\ final r = w /\
               (complete (req type) sel (data x) = GNull -> es <> []).

Lemma wp_computes b p v es w :
  computes p v -> within (@effect_free) p ->
  wp b (p es) (fun x w' => x.1 = Val v /\ w' = w /\ es `prefix_of` x.2 /\ excused v x.2) w.
Proof.
  intros Hc He. apply wp_any_fault.
  eapply wp_mono; [|exact (wp_and true _ _ _ w (Hc es w) (He es w))].
  intros [[a|m] es'] w' [[Hp Hv] [_ ->]]; cbn in *; [|done]. by destruct Hv as [-> Hx].
Qed.
Lemma computes_follows {A} (object : Path -> SelectionSet -> A -> G gval) type data :
  (forall ctx sel x, valid (req type) sel ->
     computes (object ctx sel x) (complete (req type) sel (data x))) ->
  (forall ctx sel x, within (@effect_free) (object ctx sel x)) ->
  follows object type data.
Proof.
  intros Hc He ctx sel x w o Hv r.
  pose proof (wp_run _ _ w o (wp_computes true _ _ [] w (Hc ctx sel x Hv) (He ctx sel x))) as H.
  fold r in H. destruct H as (H1 & H2 & _ & H3). destruct (result r) as [out es]. cbn in *.
  subst out. by exists es.
Qed.

(** C36: The executor is the schema's reference execution.  For every object type
    of the API, on a valid selection the generated object function returns what
    GraphQL's execution rules give for the record's data (the selected fields under
    their response keys, a null wherever a non-null field below is null), has no
    effect, and reports an error if the object itself is null. *)
Theorem objects_follow_schema :
  follows _TaskShard "TaskShard" shard_data /\ follows _Task "Task" task_data /\
  follows _CancelTaskPayload "CancelTaskPayload" cancel_data /\
  follows _SubmitTaskResponse "SubmitTaskResponse" submit_data /\
  follows _Tenant "Tenant" tenant_data.
Proof.
  split_and!; apply computes_follows; intros;
    first [by apply TaskShard_computes|by apply Task_computes|by apply CancelTaskPayload_computes
          |by apply SubmitTaskResponse_computes|by apply Tenant_computes
          |apply (within_TaskShard _)|apply (within_Task _)|apply (within_CancelTaskPayload _)
          |apply (within_SubmitTaskResponse _)|apply (within_Tenant _)].
Qed.

(** ** Introspection *)

(** C37: Introspection terminates.  The types of a schema refer to each other in
    cycles, and [__Type] calls itself through their fields.  The recursion the source
    writes has one solution and [___Type] is it: it satisfies the source's equation,
    and every function that does is equal to it.  Fuel beyond the depth of the query
    is enough: the result is the same with any such fuel, whatever would happen
    without fuel, so the case without fuel is never reached.  On a valid query the
    recursion returns, without touching the database, a value that conforms to the
    schema, or a null with an error reported (as for a null in a non-null field of the
    reflected schema). *)
Theorem introspection_terminates :
  (forall ctx sel obj, ___Type ctx sel obj = ___Type_step ___Type ctx sel obj) /\
  (forall T : Path -> SelectionSet -> IType -> G gval,
     (forall ctx sel obj, T ctx sel obj = ___Type_step T ctx sel obj) ->
     forall ctx sel obj, T ctx sel obj = ___Type ctx sel obj) /\
  (forall bottom fuel ctx sel obj, selection_depth sel < fuel ->
     ___Type_fuel bottom fuel ctx sel obj = ___Type ctx sel obj) /\
  (forall ctx sel obj w o, valid (req "__Type") sel ->
     let r := run (___Type ctx sel obj []) w o in
     final r = w /\ exists v es, result r = (Val v, es) /\
       (conforms (req "__Type") sel v \/ (v = GNull /\ es <> []))).
Proof.
  split_and!.
  - intros ctx sel obj. unfold ___Type at 1. cbn [___Type_fuel].
    apply (Type_step_ext _ _ (selection_depth sel)); [|done]. intros. apply Type_fuel_enough; lia.
  - intros T HT ctx sel obj. apply (Type_unique T HT (S (selection_depth sel))). lia.
  - intros bottom fuel ctx sel obj Hf. apply Type_fuel_enough; lia.
  - intros ctx sel obj w o Hv r.
    pose proof (wp_run _ _ w o (wp_and true _ _ _ w (Type_fits ctx sel obj Hv [] w)
      (within_Type (@effect_free) ctx sel obj [] w))) as H.
    fold r in H. destruct H as [[_ H] [_ Hw]]. split; [done|].
    destruct (result r) as [[v|m] es]; cbn in *; [|done]. eauto.
Qed.

(** ** Queries read *)
Lemma read_only_ret {A} (a : A) : read_only (Ret a) (fun _ => True).
Proof. by intros w. Qed.
Lemma read_only_bindR {A B} (p : prog (res A)) wrap (k : A -> prog (res B)) :
  read_only p (fun _ => True) -> (forall a, read_only (k a) (fun _ => True)) ->
  read_only (bindR p wrap k) (fun _ => True).
Proof.
  intros Hp Hk. eapply (modality_bind (P := @read_only)); [exact Hp|].
  intros [a|e] _; [apply Hk|apply read_only_ret].
Qed.
Lemma read_only_GetDB : read_only GetDB (fun _ => True).
Proof. intros w. cbn. by destruct (w_db_open w). Qed.
Lemma read_only_Find `{Row R, Table R} (p : R -> bool) cs : read_only (Find p cs) (fun _ => True).
Proof. intros w. by apply wp_Find. Qed.
Lemma read_only_First `{Row R, Table R} (p : R -> bool) cs : read_only (First p cs) (fun _ => True).
Proof. intros w. by apply wp_First. Qed.
Ltac reads :=
  repeat first
  [ solve [eauto with gql] | apply read_only_bindR; intros | apply read_only_GetDB | apply read_only_Find
  | apply read_only_First | apply read_only_ret
  | match goal with |- read_only (if ?b then _ else _) _ => destruct b end
  | match goal with |- read_only (match ?x with _ => _ end) _ => destruct x end ].

Section Requests.
Context (notify : string -> uuid -> prog (res unit)).
Context (CopyTask : Task * list TaskShard -> prog (res ApiTask)).
Context (CopyTenant : Tenant -> prog (res ApiTenant)).
Context (HcT : forall t, read_only (CopyTask t) (fun _ => True)).

Lemma read_only_GetTask tenantName id : read_only (GetTask tenantName id) (fun _ => True).
Proof. unfold GetTask, TenantOrm.GetByName, TaskOrm.GetByID. reads. Qed.
Lemma read_only_ListTasks tenantName status : read_only (ListTasks tenantName status) (fun _ => True).
Proof. unfold ListTasks, TenantOrm.GetByName, TaskOrm.ListTasksByTenant. reads. Qed.
Lemma read_only_copy_all l : read_only (copy_all CopyTask l) (fun _ => True).
Proof. induction l as [|t l IH]; cbn [copy_all]; reads. Qed.
#[local] Hint Resolve read_only_GetTask read_only_ListTasks read_only_copy_all : gql.

Lemma Query_read_only ctx sel :
  within (@read_only) (_Query (Resolver notify CopyTask CopyTenant) ctx sel).
Proof.
  apply (within_Query (@read_only)).
  - intros n u. cbn [Resolver rr_Query queryResolver qr_GetTaskByID]. unfold address_of, Resolver_GetTaskByID. reads.
  - intros n s. cbn [Resolver rr_Query queryResolver qr_GetTaskList]. unfold addresses_of, Resolver_GetTaskList. reads.
Qed.
End Requests.

(** Queries only read.  Whatever a query selects, on whatever arguments, and
    whatever fails while it runs, it leaves the database as it was.  Assumed of
    [utils.CopyObj]: it does not write to the database. *)
Theorem queries_change_nothing notify CopyTask CopyTenant ctx sel first w o :
  (forall t, read_only (CopyTask t) (fun _ => True)) ->
  w_db (final (run (Exec (Resolver notify CopyTask CopyTenant) OpQuery ctx sel first []) w o)) =
  w_db w.
Proof.
  intros Hc.
  assert (within (@read_only) (Exec (Resolver notify CopyTask CopyTenant) OpQuery ctx sel first)) as H.
  { unfold Exec. destruct first; [|apply (within_ret (@read_only))].
    apply (within_bind (@read_only)); [|intros; apply (within_ret (@read_only))].
    by apply Query_read_only. }
  exact (proj2 (wp_run _ _ w o (H [] w))).
Qed.

(** ** One field at the root *)

(** A field whose arguments decode: the resolver runs, its error is reported, and
    its value is completed at the field's type. *)
Lemma wp_field {A} b ctx f init fc (resolver : FieldContext -> G (res A)) (p : prog (res A))
    marshal nn Q es w :
  init ctx f es = Ret (Val (Ok fc), es) ->
  resolver fc es = glift p es ->
  wp b p (fun r w' =>
    match r with
    | Ok a => exists v, (forall ctx, computes (marshal ctx (cf_Selections f) a) v) /\
        (forall ctx, within (@effect_free) (marshal ctx (cf_Selections f) a)) /\
        forall es', excused v es' -> Q (Val v, es') w'
    | Err e => Q (Val GNull, (es ++ [(WithFieldContext ctx fc, e)])%list) w'
    end) w ->
  wp b (ResolveField ctx f init resolver marshal true nn es) Q w.
Proof.
  intros Hi Hr Hp. rewrite ResolveField_eq. unfold gbind at 1. rewrite Hi. cbn [bind].
  unfold recovering, gbind at 1. rewrite Hr. apply wp_bind, wp_bind, wp_bind.
  eapply wp_mono; [|exact Hp]. intros [a|e] w'; cbn [wp bind].
  - intros (v & Hc & He & HQ). eapply wp_mono; [|apply (wp_computes b _ v es w' (Hc _) (He _))].
    intros [x es'] w'' (Hv & -> & _ & Hx). cbn in *. subst x. by apply HQ.
  - done.
Qed.

Lemma exec_single_concurrent b f case p Q es w :
  case f = Concurrently p ->
  wp b (p es) (fun x w' => exists v, x.1 = Val (v, invalids v) /\
    Q (Val (if is_Null v then GNull else GObj [(cf_Alias f, v)]), x.2) w') w ->
  wp b (exec_object [f] case es) Q w.
Proof.
  intros Hc Hp. unfold exec_object. cbn [set_fields]. rewrite Hc. unfold gbind. cbn.
  destruct (Dispatch_order [(0, p)]) as (ds & Hds & ->).
  apply Permutation_singleton_r in Hds as ->. cbn. unfold gbind.
  apply wp_bind, wp_bind. eapply wp_mono; [|exact Hp]. intros x w' (v & Hx & HQ).
  destruct x as [o es']. cbn in *. subst o. cbn. unfold invalids in *.
  by destruct v.
Qed.
Lemma exec_single_required b f case p Q es w :
  case f = Required p ->
  wp b (p es) (fun x w' => exists v, x.1 = Val v /\
    Q (Val (if is_Null v then GNull else GObj [(cf_Alias f, v)]), x.2) w') w ->
  wp b (exec_object [f] case es) Q w.
Proof.
  intros Hc Hp. unfold exec_object. cbn [set_fields]. rewrite Hc. unfold gbind. cbn.
  apply wp_bind, wp_bind, wp_bind. eapply wp_mono; [|exact Hp]. intros x w' (v & Hx & HQ).
  destruct x as [o es']. cbn in *. subst o. cbn.
  destruct (Dispatch_order []) as (ds & Hds & ->).
  symmetry in Hds. apply Permutation_nil in Hds as ->. cbn. by destruct v.
Qed.

Lemma complete_single n fs sel f t d :
  CollectFields sel [n] = [f] -> map_get n schema = Some fs ->
  map_get (cf_Name f) fs = Some t -> cf_Name f <> "__typename" -> nonnull t = true ->
  complete (req n) sel (PObj [(cf_Name f, d)]) =
  let v := complete t (cf_Selections f) d in if is_Null v then GNull else GObj [(cf_Alias f, v)].
Proof.
  intros Hsel Hn Ht Hne Hnn. cbn [complete req]. unfold complete_object, required.
  rewrite Hsel, Hn. cbn [default map zip existsb fst snd map_get].
  assert ((cf_Name f =s "__typename") = false) as -> by (by apply String.eqb_neq).
  assert ((cf_Name f =s cf_Name f) = true) as -> by (by apply String.eqb_eq).
  unfold id. rewrite Ht, Hnn. cbn. by rewrite orb_false_r.
Qed.

(** ** [GetTaskByID] *)

(** The field asks for the task [id] of the tenant [name]. *)
Definition asks (f : CollectedField) (name : string) (id : uuid) : Prop :=
  exists x y, map_get "tenant_name" (cf_ArgumentMap f) = Some x /\ UnmarshalString x = Ok name /\
              map_get "task_id" (cf_ArgumentMap f) = Some y /\
              UnmarshalUUID UnmarshalString y = Ok id.
Lemma asks_args ctx f name id :
  asks f name id ->
  field_Query_GetTaskByID_args ctx (cf_ArgumentMap f) =
    Val (Ok [("tenant_name", VString name); ("task_id", VUUID id)]).
Proof.
  intros (x & y & Hx & Hn & Hy & Hi). unfold field_Query_GetTaskByID_args.
  rewrite !ProcessArgField_eq, Hx, Hy. unfold unmarshalNString2string, unmarshalNUUID2UUID,
    unmarshalInputUUID, on_path. rewrite Hn, Hi. reflexivity.
Qed.

Section GetTaskByID.
Context (notify : string -> uuid -> prog (res unit)).
Context (CopyTask : Task * list TaskShard -> prog (res ApiTask)).
Context (CopyTenant : Tenant -> prog (res ApiTenant)).
#[local] Abbreviation resolvers := (Resolver notify CopyTask CopyTenant).
(** [utils.CopyObj] copies the fields of the same JSON names. *)
Context (HcT : forall t, CopyTask t = copies copied_task t).

(** The answer to a question about a task. *)
Definition task_answer (name : string) (id : uuid) (w : World) (r : res ApiTask) : Prop :=
  match r with
  | Ok a => exists t shards n, tasks (w_db w) !! id = Some t /\ shards ≡ₚ shards_of id (w_db w) /\
              named name (w_db w) n /\ TenantID t = rid n /\ a = copied_task (t, shards)
  | Err e =>
      ((forall n, ~ named name (w_db w) n) /\ errors_Is e ErrTenantNotFound = true) \/
      (errors_Is e ErrTaskNotFound = true /\ exists n, named name (w_db w) n /\
         forall t, tasks (w_db w) !! id = Some t -> TenantID t <> rid n)
  end.
Lemma wp_Resolver_GetTaskByID name id w :
  Inv (w_db w) -> w_db_open w = true ->
  wp false (qr_GetTaskByID (rr_Query resolvers) name id) (fun r w' => w_db w' = w_db w /\
    match r with
    | Ok a => exists t, a = Some t /\ task_answer name id w (Ok t)
    | Err e => task_answer name id w (Err e)
    end) w.
Proof.
  intros HI Ho. cbn [Resolver rr_Query queryResolver qr_GetTaskByID].
  apply wp_bindR, wp_bindR. eapply wp_mono; [|by apply wp_GetTask].
  intros [[t shards]|e] w' [Hw Hr].
  - rewrite HcT. cbn [wp copies]. split; [done|]. eexists. split; [reflexivity|].
    destruct Hr as (Ht & Hs & n & Hn & Ht'). by exists t, shards, n.
  - cbn [wp]. split; [done|]. by destruct Hr as [?|?].
Qed.

(** C38: A [GetTaskByID] query answers with the tenant's task.  When the arguments
    decode and nothing fails, the response is the reference execution of the schema
    on the stored task of that tenant with all its shards; a task of another tenant
    and a missing one give the same null with one "task not found" error, an unknown
    tenant a null with one "tenant not found" error.  The database is left alone.
    Assumed of [utils.CopyObj]: it copies the fields of the same JSON names. *)
Theorem GetTaskByID_response ctx sel f name id w o :
  Inv (w_db w) -> w_db_open w = true -> calm o ->
  CollectFields sel ["Query"] = [f] -> cf_Name f = "GetTaskByID" -> asks f name id ->
  valid (req "Task") (cf_Selections f) ->
  let x := run (_Query resolvers ctx sel []) w o in
  w_db (final x) = w_db w /\
  exists v es, result x = (Val v, es) /\
    ((exists t, task_answer name id w (Ok t) /\
        v = complete (req "Query") sel (PObj [("GetTaskByID", task_data t)]) /\
        (v = GNull -> es <> [])) \/
     (v = GNull /\ exists p e, es = [(p, e)] /\ task_answer name id w (Err e))).
Proof.
  intros HI Ho Hc Hsel Hname Hask Hv x.
  enough (wp false (_Query resolvers ctx sel []) (fun r w' => w_db w' = w_db w /\
    exists v es, r = (Val v, es) /\
    ((exists t, task_answer name id w (Ok t) /\
        v = complete (req "Query") sel (PObj [("GetTaskByID", task_data t)]) /\
        (v = GNull -> es <> [])) \/
     (v = GNull /\ exists p e, es = [(p, e)] /\ task_answer name id w (Err e)))) w) as H
    by (exact (wp_run_calm _ _ w o Hc H)).
  unfold _Query, queryImplementors. rewrite Hsel.
  eapply exec_single_concurrent; [rewrite Hname; reflexivity|].
  unfold concurrent_field. rewrite RootResolverMiddleware_eq.
  unfold recovering, gbind at 1. apply wp_bind, wp_bind.
  eapply wp_field.
  { unfold fieldContext_Query_GetTaskByID, with_arguments, recovering, gbind, gout.
    rewrite (asks_args _ f name id) by done. reflexivity. }
  { reflexivity. }
  eapply wp_mono; [|by apply wp_Resolver_GetTaskByID].
  intros [a|e] w' [Hw Hr].
  - destruct Hr as (t & -> & Ht). exists (complete (req "Task") (cf_Selections f) (task_data t)).
    split_and!; [intros ctx'; by apply Task_computes|intros ctx'; apply (within_Task _)|].
    intros es Hes. cbn [wp bind gret]. eexists. split; [reflexivity|]. split; [done|].
    eexists _, _. split; [reflexivity|]. left. exists t. split; [done|].
    rewrite <-Hname, (complete_single _ Query_type _ f (req "Task")); try done; try by rewrite Hname.
    cbv zeta. set (v := complete _ _ _) in *. unfold excused in Hes.
    destruct (is_Null v) eqn:Hnull; split; try done. intros _. apply Hes. by destruct v.
  - cbn [wp bind gret]. eexists. split; [reflexivity|]. split; [done|].
    eexists _, _. split; [reflexivity|]. right. split; [done|]. by eexists _, _.
Qed.
End GetTaskByID.

Lemma with_arguments_ok ctx fc args f l :
  args (WithFieldContext ctx fc) (cf_ArgumentMap f) = Val (Ok l) ->
  with_arguments ctx fc args f [] = Ret (Val (Ok (with_Args l fc)), []).
Proof. intros H. unfold with_arguments, recovering, gbind, gout. rewrite H. reflexivity. Qed.

(** ** One mutation

    What an object-valued field of [Mutation] answers when its arguments decode:
    [q] is the resolver, [data] the data of its value. *)
Section Mutation.
Context {A : Type} (q : prog (res A)) (type : string) (data : A -> pval).
Context (done_ : A -> World -> Prop) (failed : World -> Prop).

Definition mutation_response (sel : SelectionSet) (name : string)
    (x : out gval * list (Path * error)) (w' : World) : Prop :=
  exists v es, x = (Val v, es) /\
    ((exists a, done_ a w' /\ v = complete (req "Mutation") sel (PObj [(name, data a)]) /\
                (v = GNull -> es <> [])) \/
     (v = GNull /\ (exists p e, es = [(p, e)]) /\ failed w')).

Lemma wp_mutation b sel f ctx case init fc resolver marshal object w :
  CollectFields sel ["Mutation"] = [f] ->
  map_get (cf_Name f) Mutation_type = Some (req type) -> cf_Name f <> "__typename" ->
  case f = Required (root_field ctx f (fun ctx field =>
                       ResolveField ctx field init resolver marshal true true)) ->
  (forall ctx, init ctx f [] = Ret (Val (Ok fc), [])) ->
  resolver fc [] = glift (address_of q) [] ->
  (forall ctx a, marshal ctx (cf_Selections f) (Some a) = object ctx (cf_Selections f) a) ->
  (forall ctx a, computes (object ctx (cf_Selections f) a)
                   (complete (req type) (cf_Selections f) (data a))) ->
  (forall ctx a, within (@effect_free) (object ctx (cf_Selections f) a)) ->
  wp b q (fun r w' => match r with Ok a => done_ a w' | Err _ => failed w' end) w ->
  wp b (exec_object [f] case []) (mutation_response sel (cf_Name f)) w.
Proof.
  intros Hsel Htype Hne Hcase Hinit Hres Hmar Hcomp Heff Hq.
  eapply exec_single_required; [exact Hcase|].
  unfold root_field. rewrite RootResolverMiddleware_eq.
  eapply wp_field; [apply Hinit|exact Hres|].
  unfold address_of. apply wp_bindR. eapply wp_mono; [|exact Hq].
  intros [a|e] w' Hr; cbn [wp].
  - exists (complete (req type) (cf_Selections f) (data a)).
    split_and!; [intros ctx'; rewrite Hmar; apply Hcomp|intros ctx'; rewrite Hmar; apply Heff|].
    intros es Hes. eexists. split; [reflexivity|]. eexists _, _. split; [reflexivity|]. left.
    exists a. split; [done|].
    rewrite (complete_single "Mutation" Mutation_type sel f (req type)) by done.
    cbv zeta. set (v := complete (req type) _ _) in *. unfold excused in Hes.
    destruct (is_Null v) eqn:Hnull; split; try done. intros _. apply Hes. by destruct v.
  - exists GNull. split; [reflexivity|]. eexists _, _. split; [reflexivity|]. right.
    split; [done|]. split; [by eexists _, _|exact Hr].
Qed.
End Mutation.

(** ** [CancelTask] and [SubmitTask] *)
Section Mutations.
Context (CopyTask : Task * list TaskShard -> prog (res ApiTask)).
Context (CopyTenant : Tenant -> prog (res ApiTenant)).
#[local] Abbreviation resolvers := (Resolver NotifyCancelShard CopyTask CopyTenant).

(** The task [id] of the tenant [name] is cancelled, with its shards and its hook. *)
Definition cancelled_for (name : string) (id : uuid) (w w' : World) : Prop :=
  exists n t, named name (w_db w) n /\ tasks (w_db w) !! id = Some t /\
              cancelled (rid n) id (w_db w) (w_db w') /\ cancel_hooked t w w'.
(** There is nothing to cancel. *)
Definition not_cancellable (name : string) (id : uuid) (w : World) : Prop :=
  (forall n, ~ named name (w_db w) n) \/
  exists n, named name (w_db w) n /\ uncancellable (rid n) id (w_db w).

Lemma wp_Resolver_CancelTask b name id w :
  Inv (w_db w) -> w_db_open w = true -> w_notify w = true ->
  wp b (Resolver_CancelTask NotifyCancelShard name id) (fun r w' =>
    match r with
    | Ok a => a = mkCancelTaskPayload id TaskStatusCancelled /\ cancelled_for name id w w'
    | Err _ => w_db w' = w_db w /\ (b = true \/ not_cancellable name id w)
    end) w.
Proof.
  intros HI Ho Hnt. apply wp_bindR. eapply wp_mono; [|by apply wp_CancelTask].
  intros [u|e] w' Hr; cbn [wp]; [|done].
  destruct Hr as (n & t & Hn & Ht & Hd & Hh & _). split; [done|]. by exists n, t.
Qed.

(** C11: A [CancelTask] mutation does what it answers.  When the arguments decode,
    whatever fails, either the response is the reference execution of the schema on
    the payload (the task's identifier, CANCELLED), and the named tenant's task was
    not terminal and is cancelled in the database with its shards and its hook
    started; or it is null with exactly one error, and the database is unchanged.
    Without external failures the second happens only when the tenant is unknown,
    has no such task, or the task is terminal. *)
Theorem CancelTask_response ctx sel f name id w o :
  Inv (w_db w) -> w_db_open w = true -> w_notify w = true ->
  CollectFields sel ["Mutation"] = [f] -> cf_Name f = "CancelTask" -> asks f name id ->
  valid (req "CancelTaskPayload") (cf_Selections f) ->
  let x := run (_Mutation resolvers ctx sel []) w o in
  exists v es, result x = (Val v, es) /\
    ((cancelled_for name id w (final x) /\
      v = complete (req "Mutation") sel
            (PObj [("CancelTask", cancel_data (mkCancelTaskPayload id TaskStatusCancelled))]) /\
      (v = GNull -> es <> [])) \/
     (v = GNull /\ (exists p e, es = [(p, e)]) /\ w_db (final x) = w_db w /\
      (calm o -> not_cancellable name id w))).
Proof.
  intros HI Ho Hnt Hsel Hname Hask Hv x.
  destruct (wp_run_both (_Mutation resolvers ctx sel [])
    (fun b => mutation_response cancel_data
       (fun a w' => a = mkCancelTaskPayload id TaskStatusCancelled /\ cancelled_for name id w w')
       (fun w' => w_db w' = w_db w /\ (b = true \/ not_cancellable name id w)) sel (cf_Name f)) w o)
    as (b & Hb & v & es & Hx & Hr).
  { intros b. unfold _Mutation, mutationImplementors. rewrite Hsel.
    eapply (wp_mutation (Resolver_CancelTask NotifyCancelShard name id) "CancelTaskPayload" _ _ _ b sel f)
      with (object := _CancelTaskPayload) (init := fieldContext_Mutation_CancelTask)
           (fc := with_Args [("tenant_name", VString name); ("task_id", VUUID id)]
                    (object_context "Mutation" f true true "CancelTaskPayload"))
           (marshal := marshalNCancelTaskPayload2ptr_CancelTaskPayload)
           (resolver := fun fc =>
              tenant_name <~ arg as_string "tenant_name" fc ;;
              task_id <~ arg as_uuid "task_id" fc ;;
              glift (mr_CancelTask (rr_Mutation resolvers) tenant_name task_id));
      rewrite ?Hname; try reflexivity; try done.
    - intros ctx'. by apply with_arguments_ok, asks_args.
    - intros. by apply CancelTaskPayload_computes.
    - intros. apply (within_CancelTaskPayload _).
    - by apply wp_Resolver_CancelTask. }
  rewrite Hname in Hr. exists v, es. split; [exact Hx|].
  destruct Hr as [(a & [-> Hdone] & Hr)|(Hnull & Hone & Hd & Hr)]; [by left|].
  right. split_and!; [done..|]. intros Hc. destruct Hr as [->|?]; [by discriminate (Hb Hc)|done].
Qed.

(** The field submits [input]. *)
Definition hook_given (v : option any) (hook : option string) : Prop :=
  match v with
  | None | Some ANil => hook = None
  | Some v => exists url, UnmarshalString v = Ok url /\ hook = Some url
  end.
Definition submits (f : CollectedField) (input : SubmitTaskInput) : Prop :=
  exists m x y, map_get "input" (cf_ArgumentMap f) = Some (AMap m) /\
    map_get "tenant_name" m = Some x /\ UnmarshalString x = Ok (in_TenantName input) /\
    map_get "bundle_zip" m = Some y /\ UnmarshalUpload y = Ok (in_BundleZip input) /\
    hook_given (map_get "completion_hook_url" m) (in_CompletionHookURL input).

Lemma submits_args ctx f input :
  submits f input ->
  field_Mutation_SubmitTask_args ctx (cf_ArgumentMap f) = Val (Ok [("input", VSubmitTaskInput input)]).
Proof.
  intros (m & x & y & Hi & Hx & Hn & Hy & Hz & Hh). unfold field_Mutation_SubmitTask_args.
  rewrite ProcessArgField_eq, Hi. unfold unmarshalNSubmitTaskInput2SubmitTaskInput,
    unmarshalInputSubmitTaskInput, input_field. rewrite Hx, Hy.
  unfold unmarshalNString2string, unmarshalNUpload2Upload, on_path. rewrite Hn, Hz. cbn.
  destruct input as [n z h]. cbn in *.
  destruct (map_get "completion_hook_url" m) as [v|]; cbn in Hh; [|by subst h].
  destruct v as [|l|u]; cbn; [by subst h|..];
    destruct Hh as (url & Hu & ->); unfold on_path; by rewrite Hu.
Qed.

(** What the resolver passes on, and when it gives up. *)
Definition submit_params (input : SubmitTaskInput) (zip : string) : SubmitTaskParams :=
  mkSubmit (in_TenantName input) zip (default "" (in_CompletionHookURL input)).
Definition input_refused (input : SubmitTaskInput) (w : World) : Prop :=
  TrimSpace (in_TenantName input) = "" \/ is_err (in_BundleZip input) = true \/
  in_BundleZip input = Ok "" \/
  exists zip, in_BundleZip input = Ok zip /\ submit_refused (submit_params input zip) w.
Definition submitted_for (input : SubmitTaskInput) (id : uuid) (w w' : World) : Prop :=
  exists zip, in_BundleZip input = Ok zip /\ submission (submit_params input zip) id w w'.

Lemma wp_Resolver_SubmitTask b input w :
  Inv (w_db w) -> w_db_open w = true ->
  wp b (Resolver_SubmitTask input) (fun r w' =>
    match r with
    | Ok a => submitted_for input (sr_TaskID a) w w'
    | Err _ => w_db w' = w_db w /\ (b = true \/ input_refused input w)
    end) w.
Proof.
  intros HI Ho. unfold Resolver_SubmitTask, submitted_for, input_refused.
  destruct (TrimSpace _ =s "") eqn:Ht; clean; [cbn; auto|].
  destruct (in_BundleZip input) as [zip|e] eqn:Hz; cbn [bindR bind wp]; [|cbn; auto].
  destruct (zip =s "") eqn:He; clean; [subst zip; cbn; auto 6|].
  apply wp_bindR. eapply wp_mono; [|by apply (wp_submission b (submit_params input zip))].
  intros [id|e] w'; cbn [wp]; [eauto|]. intros [Hd [?|?]]; eauto 9.
Qed.

End Mutations.
End Queries.

(** ** The theorems on [demo] *)
From S2P Require Import Demo GqlDemo.
#[local] Existing Instances toy_env toy_laws toy_gql_laws.
#[local] Abbreviation top := ([] : list string).
(** [query { GetTaskByID(tenant_name: tenant, task_id: id) { id status shards { script_name } } }]. *)
Definition task_selection : tsel :=
  TSel [toy_leaf "id"; toy_leaf "status";
        ("shards", "parts", [], TSel [toy_leaf "script_name"; toy_leaf "started_at"])].
Definition task_request (tenant id : string) : tsel :=
  TSel [("GetTaskByID", "task", [("tenant_name", TStr tenant); ("task_id", TStr id)], task_selection)].
Definition demo_task : ApiTask :=
  mkApiTask 10 "RUNNING" "" 5 (Some 8%Z) None 1
    [Some (mkApiShard 13 "a.sh" "RUNNING" None None None (Some 8%Z) None)].

Lemma objects_follow_schema_witness : exists es,
  result (run (_Task (GT := toy_types) top task_selection demo_task []) demo quiet) =
    (Val (GObj [("id", GScalar (quoted "u||||||||||")); ("status", GScalar (quoted "RUNNING"));
                ("parts", GList [GObj [("script_name", GScalar (quoted "a.sh"));
                                       ("started_at", GScalar (quoted "8"))]])]), es).
Proof.
  destruct (proj1 (proj2 (objects_follow_schema (GT := toy_types))) top task_selection demo_task demo quiet)
    as (es & H & _); [checked|]. by exists es.
Defined.

(** [{ fields { type { name ofType { kind } } } }]. *)
Definition type_selection : tsel :=
  TSel [("fields", "fields", [("includeDeprecated", TStr "true")],
         TSel [("type", "type", [], TSel [toy_leaf "name";
                ("ofType", "of", [], TSel [toy_leaf "kind"])])])].
Lemma introspection_terminates_witness :
  selection_depth (Gql := toy_gql) type_selection = 4 /\
  (forall bottom, ___Type_fuel (GT := toy_types) bottom 5 top type_selection tt =
     ___Type (GT := toy_types) top type_selection tt) /\
  let r := run (___Type (GT := toy_types) top type_selection tt []) demo quiet in
  result r =
    (Val (GObj [("fields", GList [GObj [("type", GObj [("name", GScalar (quoted "Self"));
       ("of", GObj [("kind", GScalar (quoted "OBJECT"))])])]])]), []) /\
  final r = demo /\ exists v es, result r = (Val v, es) /\
    (conforms (req "__Type") type_selection v \/ (v = GNull /\ es <> [])).
Proof.
  destruct (introspection_terminates (GT := toy_types)) as (_ & _ & H1 & H2).
  split; [reflexivity|]. split; [intros bottom; apply H1; cbn; lia|].
  split; [vm_compute; reflexivity|]. apply (H2 top type_selection tt demo quiet). checked.
Defined.

Lemma GetTaskByID_response_witness :
  result (run (_Query (GT := toy_types) demo_resolvers top (task_request "acme" "u|||||||||||") [])
            demo quiet) =
    (Val (GObj [("task", GObj [("id", GScalar (quoted "u|||||||||||"));
       ("status", GScalar (quoted "RUNNING"));
       ("parts", GList [GObj [("script_name", GScalar (quoted "a.sh"));
                              ("started_at", GScalar (quoted "8"))];
                        GObj [("script_name", GScalar (quoted "b.sh"));
                              ("started_at", GScalar (quoted "8"))]])])]), []) /\
  let x := run (_Query (GT := toy_types) demo_resolvers top (task_request "globex" "u|||||||||||") [])
             demo quiet in
  w_db (final x) = demo_db /\ exists v es, result x = (Val v, es) /\
    ((exists t, task_answer "globex" 11 demo (Ok t) /\
        v = complete (req "Query") (task_request "globex" "u|||||||||||")
              (PObj [("GetTaskByID", task_data t)]) /\ (v = GNull -> es <> [])) \/
     (v = GNull /\ exists p e, es = [(p, e)] /\ task_answer "globex" 11 demo (Err e))).
Proof.
  split; [vm_compute; reflexivity|].
  eapply (GetTaskByID_response (GT := toy_types) (fun _ _ => Ret (Ok tt)) (copies copied_task)
    (copies copied_tenant) (fun _ => eq_refl)
    top (task_request "globex" "u|||||||||||") _ "globex" 11 demo quiet);
    try reflexivity; [apply demo_inv|by constructor| |checked].
  by eexists _, _.
Defined.

Lemma queries_change_nothing_witness :
  w_db (final (run (Exec (GT := toy_types) demo_resolvers OpQuery top
                      (task_request "acme" "u|||||||||||") true []) demo quiet)) = demo_db.
Proof.
  apply (queries_change_nothing (GT := toy_types) (fun _ _ => Ret (Ok tt)) (copies copied_task)
           (copies copied_tenant)).
  intros t w. split; reflexivity.
Defined.

Definition cancelling : ResolverRoot :=
  Resolver NotifyCancelShard (copies copied_task) (copies copied_tenant).
Lemma CancelTask_response_witness :
  let sel := cancel_request "acme" "u|||||||||||" in
  let x := run (_Mutation (GT := toy_types) cancelling top sel []) demo quiet in
  result x = (Val (GObj [("cancelled", GObj [("task_id", GScalar (quoted "u|||||||||||"));
                                             ("status", GScalar (quoted "CANCELLED"))])]), []) /\
  cancelled_for "acme" 11 demo (final x).
Proof.
  cbn zeta. assert (result (run (_Mutation (GT := toy_types) cancelling top
      (cancel_request "acme" "u|||||||||||") []) demo quiet) =
    (Val (GObj [("cancelled", GObj [("task_id", GScalar (quoted "u|||||||||||"));
                                    ("status", GScalar (quoted "CANCELLED"))])]), [])) as Hr
    by (vm_compute; reflexivity).
  split; [exact Hr|].
  epose proof (CancelTask_response (GT := toy_types) (copies copied_task) (copies copied_tenant)
    top (cancel_request "acme" "u|||||||||||") _ "acme" 11 demo quiet demo_inv eq_refl eq_refl
    eq_refl eq_refl ltac:(by eexists _, _) ltac:(checked)) as (v & es & Hx & [[H _]|(Hnull & _)]).
  - exact H.
  - exfalso. change (Resolver _ _ _) with cancelling in Hx.
    rewrite Hr in Hx. injection Hx as <- <-. discriminate Hnull.
Defined.

(** [mutation { SubmitTask(input: {...}) { task_id } }]. *)
Definition submit_request : tsel :=
  TSel [("SubmitTask", "task", [("input", TObj [("tenant_name", "acme"); ("bundle_zip", "zip");
                                                ("completion_hook_url", "http://hook")])],
         TSel [toy_leaf "task_id"])].
