(* ===== verification/Grpc.v ===== *)
(** * The control service on the gRPC runtime (proto/control_grpc.pb.go,
      cmd/server/grpc_server.go)

    protoc-gen-go-grpc generates a descriptor of the service, a handler that calls
    the registered implementation, and a client.  The gRPC runtime is an interface:
    a server to which services are registered and which serves a stream by its full
    method name. *)
From S2P Require Import Prelude Errors Model Env Proto World Effects Lifecycle Lawful.
From S2P Require Import AgentService Control.

(** ** The generated code *)
(** An implementation, with the way it embeds [UnimplementedControlServiceServer];
    the stream is the sequence of results of its [Recv]. *)
Inductive embedding := ByValue | ByPointer (is_nil : bool).
Record ControlServiceServer := mkControlServiceServer {
  srv_embeds : embedding;
  srv_OpenControlStream : list recv_result -> prog (res unit);
}.
Definition UnimplementedControlServiceServer (e : embedding) : ControlServiceServer :=
  mkControlServiceServer e (fun _ =>
    Ret (Err (EStatus Unimplemented "method OpenControlStream not implemented"))).
(** Whether [testEmbeddedByValue] panics. *)
Definition testEmbeddedByValue (srv : ControlServiceServer) : bool :=
  match srv_embeds srv with ByPointer true => true | _ => false end.

(** grpc.StreamDesc and grpc.ServiceDesc. *)
Record StreamDesc := mkStreamDesc {
  StreamName : string;
  Handler : ControlServiceServer -> list recv_result -> prog (res unit);
  ServerStreams : bool;
  ClientStreams : bool;
}.
Record ServiceDesc := mkServiceDesc {
  ServiceName : string;
  Methods : list string; (* unary methods: none *)
  Streams : list StreamDesc;
  Metadata : string;
}.

Definition _ControlService_OpenControlStream_Handler (srv : ControlServiceServer)
    (stream : list recv_result) : prog (res unit) :=
  srv_OpenControlStream srv stream.
Definition ControlService_ServiceDesc : ServiceDesc :=
  mkServiceDesc "rorchestrator.control.v1.ControlService" []
    [mkStreamDesc "OpenControlStream" _ControlService_OpenControlStream_Handler true true]
    "proto/control.proto".
Definition ControlService_OpenControlStream_FullMethodName : string :=
  "/rorchestrator.control.v1.ControlService/OpenControlStream".

(** ** The runtime *)
Class Grpc := {
  grpc_Server : Type;
  grpc_NewServer : grpc_Server;
  RegisterService : ServiceDesc -> ControlServiceServer -> grpc_Server -> grpc_Server;
  (* a stream opened with a full method name *)
  serve_stream : grpc_Server -> string -> list recv_result -> prog (res unit);
}.
(** The name by which a stream of a service is called. *)
Definition full_method (desc : ServiceDesc) (d : StreamDesc) : string :=
  "/" +:+ ServiceName desc +:+ "/" +:+ StreamName d.
Class GrpcLaws (G : Grpc) : Prop := {
  serve_nothing method l : exists msg,
    serve_stream grpc_NewServer method l = Ret (Err (EStatus Unimplemented msg));
  serve_registered desc srv s d l : d ∈ Streams desc -> NoDup (full_method desc <$> Streams desc) ->
    serve_stream (RegisterService desc srv s) (full_method desc d) l = Handler d srv l;
  serve_other desc srv s method l : method ∉ full_method desc <$> Streams desc ->
    serve_stream (RegisterService desc srv s) method l = serve_stream s method l;
}.

Section Service.
Context `{E : Env} {G : Grpc}.

(** [None] is a panic. *)
Definition RegisterControlServiceServer (s : grpc_Server) (srv : ControlServiceServer)
    : option grpc_Server :=
  if testEmbeddedByValue srv then None
  else Some (RegisterService ControlService_ServiceDesc srv s).

(** control.NewServer: [UnimplementedControlServiceServer] is embedded by value, and
    its method overridden. *)
Definition NewServer (db_set : bool) (expectedToken : string) : ControlServiceServer :=
  mkControlServiceServer ByValue (OpenControlStream db_set expectedToken).

Definition NewGRPCServer (db_set : bool) (agent_token : string)
    : prog (option (ControlServiceServer * grpc_Server)) :=
  let controlServer := NewServer db_set agent_token in
  SetTimeoutCallback ;;
  Ret (server ← RegisterControlServiceServer grpc_NewServer controlServer;
       Some (controlServer, server)).

(** The client's side; [NewStream] is the method of the connection. *)
Section Client.
Context {CallOption ClientStream : Type} (StaticMethod : CallOption).
Context (NewStream : option StreamDesc -> string -> list CallOption -> prog (res ClientStream)).
Definition controlServiceClient_OpenControlStream (opts : list CallOption)
    : prog (res ClientStream) :=
  let cOpts := StaticMethod :: opts in
  stream <-? NewStream (head (Streams ControlService_ServiceDesc))
               ControlService_OpenControlStream_FullMethodName cOpts ;;
  Ret (Ok stream).
End Client.

(** ** What is served *)
Context {LG : GrpcLaws G}.
Definition served_by (db_set : bool) (token : string) : grpc_Server :=
  default grpc_NewServer (RegisterControlServiceServer grpc_NewServer (NewServer db_set token)).

(** [NewGRPCServer] does not panic. *)
Lemma NewGRPCServer_ok db_set token :
  NewGRPCServer db_set token =
  (SetTimeoutCallback ;; Ret (Some (NewServer db_set token, served_by db_set token))).
Proof. reflexivity. Qed.

(** The method that the client calls runs [OpenControlStream]; any other is
    refused. *)
Theorem control_service_served db_set token method inputs :
  if method =s ControlService_OpenControlStream_FullMethodName
  then serve_stream (served_by db_set token) method inputs = OpenControlStream db_set token inputs
  else exists msg, serve_stream (served_by db_set token) method inputs =
                   Ret (Err (EStatus Unimplemented msg)).
Proof.
  unfold served_by, RegisterControlServiceServer. cbn [testEmbeddedByValue srv_embeds NewServer default].
  destruct (_ =s _) eqn:Hm; clean.
  - subst method. pose (d := mkStreamDesc "OpenControlStream"
      _ControlService_OpenControlStream_Handler true true).
    change ControlService_OpenControlStream_FullMethodName
      with (full_method ControlService_ServiceDesc d).
    apply (serve_registered ControlService_ServiceDesc (NewServer db_set token) grpc_NewServer d).
    + by left.
    + apply NoDup_singleton.
  - destruct (serve_nothing method inputs) as [msg Hno]. exists msg. rewrite <-Hno.
    apply serve_other. intros Hin%list_elem_of_singleton. by apply Hm.
Qed.

Lemma lawful_serve_stream {L : EnvLaws E} db_set token method inputs :
  lawful (serve_stream (served_by db_set token) method inputs).
Proof.
  pose proof (control_service_served db_set token method inputs) as H.
  destruct (_ =s _); [rewrite H; eauto with prog|]. destruct H as [msg ->]. apply lawful_ret.
Qed.
Lemma lawful_NewGRPCServer {L : EnvLaws E} db_set token : lawful (NewGRPCServer db_set token).
Proof. unfold NewGRPCServer. lawful_all. Qed.
End Service.
#[export] Hint Resolve lawful_serve_stream lawful_NewGRPCServer : prog.

(** A runtime that looks methods up in a list. *)
Fixpoint toy_serve (s : list (ServiceDesc * ControlServiceServer)) (method : string)
    (l : list recv_result) : prog (res unit) :=
  match s with
  | [] => Ret (Err (EStatus Unimplemented ("unknown method " +:+ method)))
  | (desc, srv) :: s' =>
    match List.find (fun d => method =s full_method desc d) (Streams desc) with
    | Some d => Handler d srv l
    | None => toy_serve s' method l
    end
  end.
Definition toy_grpc : Grpc :=
  Build_Grpc (list (ServiceDesc * ControlServiceServer)) []
    (fun desc srv s => (desc, srv) :: s) toy_serve.
#[export] Instance toy_grpc_laws : GrpcLaws toy_grpc.
Proof.
  split; cbn.
  - eauto.
  - intros desc srv s d l Hd HN.
    destruct (List.find _ _) as [d'|] eqn:Hf.
    + apply find_some in Hf as [Hd' Heq]. clean. apply list_elem_of_In in Hd'.
      f_equal. apply list_elem_of_lookup in Hd as [i Hi], Hd' as [j Hj].
      assert (j = i) as ->; [|congruence].
      eapply NoDup_lookup; [exact HN| |]; rewrite list_lookup_fmap.
      * by rewrite Hj.
      * by rewrite Hi; cbn; f_equal.
    + apply list_elem_of_In in Hd. pose proof (find_none _ _ Hf _ Hd) as Hn. cbn in Hn.
      by rewrite eqs_refl in Hn.
  - intros desc srv s method l Hm.
    destruct (List.find _ _) as [d'|] eqn:Hf; [|done].
    apply find_some in Hf as [Hd' Heq]. clean. apply list_elem_of_In in Hd'.
    destruct Hm. rewrite Heq. by apply list_elem_of_fmap_2.
Qed.
