(* ===== verification/System.v ===== *)
(** * The running server (cmd/server)

    A system state is a [World] with the goroutines under way.  A step is one
    atomic action of one goroutine, the arrival of a request or of a control
    stream, a tick of one of the three loops, the expiry of a timer, the start of
    a completion-hook goroutine, or a crash of the process, after which only the
    database is left and the server starts again. *)
From S2P Require Import Prelude Errors Model Env Proto World Effects Store StoreFacts.
From S2P Require Import Lifecycle Lawful Demo TaskOrm TaskShardOrm TenantOrm ClusterOrm AgentService.
From S2P Require Import TaskHooks TaskStatus TaskLease TaskApi ClusterService TaskPoll Control.
From S2P Require Import K8sBackend Config GqlModel Graph GqlRuntime GqlMarshal GqlIntrospect.
From S2P Require Import GqlExec GqlDemo GqlApi Grpc.

Section System.
Context `{E : Env} {GT : GqlTypes} {GQ : Gql} {IS : Introspection} {G : Grpc}.
Context (CopyTask : Task * list TaskShard -> prog (res ApiTask)).
Context (CopyTenant : Tenant -> prog (res ApiTenant)).
Context (client : KubeClient) (lib : KubeLib).
Context (client_Do : string -> CompletionHookPayload -> prog (res (Z * string))).
Context (cfg : Config).

(** ** main.go, auto_migrate.go *)
Definition AutoMigrate : prog (res unit) :=
  _ <-? call (fun w => (Ok tt, w)) # wrapf "auto migrate gorm models" ;;
  Ret (Ok tt).

Definition SetNotifyCancelShard : prog unit := modify (set_notify true).

Definition backend_config : K8sConfig :=
  mkK8sConfig (Namespace (Kubernetes (ClusterCfg cfg))) (AgentImage (ClusterCfg cfg))
    (ImagePullSecrets (Kubernetes (ClusterCfg cfg))) (GRPCPublicAddr (Server cfg))
    (AgentToken (ClusterCfg cfg)) (PublicURL (Server cfg))
    (KubeConfigPath (Kubernetes (ClusterCfg cfg))) (AgentLogLevel (ClusterCfg cfg)).
Definition provider_registry : ProviderRegistry :=
  Registry_Register BackendKindKubernetes (K8sProvider client backend_config) NewRegistry.

(** [main] from [orm.Open] to the start of the loops; the last external call is
    [net.Listen]. *)
Definition main_setup : prog (res unit) :=
  _ <-? Open (DatabaseURL (Database cfg)) ;;
  _ <-? AutoMigrate ;;
  SetTimeouts (AgentHeartbeatTimeout (ClusterCfg cfg)) (AgentDisconnectGrace (ClusterCfg cfg)) ;;
  _ <-? NewK8sProvider client backend_config lib ;;
  _ <- NewGRPCServer true (AgentToken (ClusterCfg cfg)) ;;
  SetNotifyCancelShard ;;
  _ <-? call (fun w => (Ok tt, w)) ;;
  _ <- CleanupOrphanShards (10 * Minute) ;;
  Ret (Ok tt).

(** The gRPC server that [main_setup] makes and lets listen. *)
Definition grpc_server : grpc_Server := served_by true (AgentToken (ClusterCfg cfg)).

(** The handler behind [/graphql]: the executor with the resolvers of graph/. *)
Definition api_resolver : ResolverRoot := Resolver NotifyCancelShard CopyTask CopyTenant.

(** ** What the server does on request or on a tick *)
Inductive job :=
| JStream (method : string) (inputs : list recv_result)
| JGraphQL (op : operation) (ctx : Path) (sel : SelectionSet)
| JPoll
| JRecycle
| JCleanup.

Definition void {A} (p : prog A) : prog unit := _ <- p ;; Ret tt.

Definition job_prog (j : job) : prog unit :=
  match j with
  | JStream method inputs => void (serve_stream grpc_server method inputs)
  | JGraphQL op ctx sel => void (Exec api_resolver op ctx sel true [])
  | JPoll => poll_tick provider_registry (cfg_BillingCycleSeconds (ClusterCfg cfg))
  | JRecycle => recycle_tick provider_registry
                  (duration_of_seconds (BillingAdvanceSeconds (ClusterCfg cfg)))
                  (duration_of_seconds (IdleThresholdSeconds (ClusterCfg cfg)))
  | JCleanup => cleanup_tick
  end.

Definition timer_prog (t : Timer) : prog unit :=
  match tm_kind t with
  | HeartbeatTimer => onHeartbeatTimeout HandleAgentTimeout (tm_agent t)
  | GraceTimer => onGraceExpired HandleAgentTimeout (tm_agent t)
  end.

(** ** Steps *)
Record Sys := mkSys {
  sy_world : World;
  sy_threads : list (prog unit);
  sy_picked : nat;                          (* hook goroutines of this process *)
  sy_started : list CompletionHookPayload;  (* hook goroutines started ever *)
}.

Definition fire (i : nat) (w : World) : World :=
  set_reg (set_theap (alter stop_timer i (theap (w_reg w))) (w_reg w)) w.

(** What is left of a process: the database and what lives outside. *)
Definition boot_registry : Registry := mkRegistry ∅ ∅ [] (30 * Second) (5 * Minute) false.
Definition crashed (w : World) : World :=
  mkWorld (w_db w) false boot_registry ∅ (w_nstreams w) (w_sent w) false [] (w_oss w)
          (w_k8s w) (w_uuids w) (w_clock w) [].

(** The steps of a process while it lives.  [sy_started] is a history: no step
    reads it. *)
Inductive live_step : Sys -> Sys -> Prop :=
| live_job j w ts n h : live_step (mkSys w ts n h) (mkSys w (job_prog j :: ts) n h)
| live_thread w ts n h i p p' w' :
    ts !! i = Some p -> pstep p w p' w' ->
    live_step (mkSys w ts n h) (mkSys w' (<[i := p']> ts) n h)
| live_timer w ts n h i t :
    theap (w_reg w) !! i = Some t -> tm_active t = true -> (tm_deadline t <= w_clock w)%Z ->
    live_step (mkSys w ts n h) (mkSys (fire i w) (timer_prog t :: ts) n h)
| live_hook w ts n h p :
    rev (w_hooks w) !! n = Some p ->
    live_step (mkSys w ts n h) (mkSys w (hook_goroutine client_Do p :: ts) (S n) (p :: h)).

Inductive sys_step : Sys -> Sys -> Prop :=
| sys_live s s' : live_step s s' -> sys_step s s'
| sys_crash w ts n h :
    sys_step (mkSys w ts n h) (mkSys (crashed w) [void main_setup] 0 h).

Definition sys_db (s : Sys) : DB := w_db (sy_world s).

(** A goroutine may run to its end without being interrupted. *)
Lemma live_psteps ts n h i (c c' : prog unit * World) :
  psteps c c' -> ts !! i = Some c.1 ->
  rtc live_step (mkSys c.2 ts n h) (mkSys c'.2 (<[i := c'.1]> ts) n h).
Proof.
  intros Hr. revert ts. induction Hr as [c|c1 c2 c3 H12 _ IH]; intros ts Hi.
  - rewrite list_insert_id by done. apply rtc_refl.
  - eapply rtc_l; [by eapply live_thread|].
    rewrite <-(list_insert_insert_eq ts i c3.1 c2.1). apply IH.
    apply list_lookup_insert_eq. by eapply lookup_lt_Some.
Qed.
Lemma live_sys s s' : rtc live_step s s' -> rtc sys_step s s'.
Proof. intros Hr. eapply rtc_subrel; [|exact Hr]. intros ? ?. apply sys_live. Qed.
Lemma live_thread_run w ts n h i p o : ts !! i = Some p ->
  let x := run p w o in
  rtc live_step (mkSys w ts n h) (mkSys (final x) (<[i := Ret (result x)]> ts) n h).
Proof. exact (live_psteps ts n h i _ _ (run_pstep p w o)). Qed.

(** ** Every goroutine is lawful *)
Context {L : EnvLaws E} {GL : GqlLaws GQ} {LK : LawfulKube client} {LB : LawfulKubeLib lib}
  {LG : GrpcLaws G}.
Context (HD : forall url p, lawful (client_Do url p)).
Context (HcT : forall t, lawful (CopyTask t)) (HcN : forall t, lawful (CopyTenant t)).

Lemma lawful_void {A} (p : prog A) : lawful p -> lawful (void p).
Proof. intros Hp. by apply lawful_bind. Qed.

Lemma lawful_provider_registry : lawful_registry provider_registry.
Proof.
  intros name p. unfold Registry_Get, provider_registry, Registry_Register, NewRegistry.
  destruct (decide (name = BackendKindKubernetes)) as [->|Hne].
  - rewrite lookup_insert_eq. intros [= <-]. apply _.
  - rewrite lookup_insert_ne by done. by rewrite lookup_empty.
Qed.
#[local] Hint Resolve lawful_provider_registry : prog.

Lemma lawful_main_setup : lawful main_setup.
Proof.
  unfold main_setup, Open, AutoMigrate, SetNotifyCancelShard. lawful_all.
Qed.

Lemma lawful_job j : lawful (job_prog j).
Proof.
  destruct j; cbn [job_prog]; try apply lawful_void; eauto with prog.
  apply lawful_Exec; eauto with prog.
Qed.

Lemma lawful_timer t : lawful (timer_prog t).
Proof. unfold timer_prog. destruct (tm_kind t); eauto with prog. Qed.

(** ** The accounts of all goroutines

    [gs] are the accounts of the goroutines; [ps] are the hooks dispatched so far,
    in this process or an earlier one, and [ts] the finished rows they announce. *)
Definition outstanding (gs : list Account) : list Task := gs ≫= permits.

Record ledger (s : Sys) (gs : list Account) (ps : list CompletionHookPayload) (ts : list Task)
    : Prop := mkLedger {
  lg_inv : Inv (sys_db s);
  lg_threads : Forall2 (fun g p => accounted g p (fun _ _ => True)) gs (sy_threads s);
  lg_accounts : forall g, g ∈ gs -> IW g (sy_world s);
  lg_announced : Forall2 announces ps ts;
  lg_once : NoDup (rid <$> (ts ++ outstanding gs)%list);
  lg_true : forall t, t ∈ (ts ++ outstanding gs)%list -> finished (sys_db s) t;
  lg_started : exists waiting picked lost,
    w_hooks (sy_world s) = (waiting ++ picked)%list /\ length picked = sy_picked s /\
    ps ≡ₚ (waiting ++ sy_started s ++ lost)%list;
}.

(** A goroutine with nothing on its account. *)
Definition fresh : Account := mkAccount [] [] [].
Lemma fresh_right w : Inv (w_db w) -> IW fresh w.
Proof. intros HI. split; [done|]. by split; intros ? ?%not_elem_of_nil. Qed.
Lemma accounted_fresh (p : prog unit) : lawful p -> accounted fresh p (fun _ _ => True).
Proof. intros Hp. eapply guarded_mono; [|apply Hp]. done. Qed.

(** Adding one action to the accounts. *)
Lemma balance d d' (ts outs outs' new tsn : list Task) :
  life d d' -> finishes d d' new -> (tsn ++ outs' ⊆+ new ++ outs)%list ->
  NoDup (rid <$> (ts ++ outs)%list) -> (forall t, t ∈ (ts ++ outs)%list -> finished d t) ->
  NoDup (rid <$> ((tsn ++ ts) ++ outs')%list) /\ forall t, t ∈ ((tsn ++ ts) ++ outs')%list -> finished d' t.
Proof.
  intros HL Hf Hsub Hnd Hfin.
  assert (((tsn ++ ts) ++ outs')%list ⊆+ (new ++ ts ++ outs)%list) as Hall.
  { rewrite (Permutation_app_comm tsn ts), <-app_assoc, (Permutation_app_swap_app new ts outs).
    by apply submseteq_skips_l. }
  split.
  - apply (fmap_submseteq rid), submseteq_Permutation in Hall as [k Hk].
    assert (NoDup (rid <$> (new ++ ts ++ outs)%list)) as Hn.
    { rewrite fmap_app. apply NoDup_app. split; [by destruct Hf|]. split; [|done].
      intros x (t' & -> & Ht')%list_elem_of_fmap (t & Heq & Ht)%list_elem_of_fmap.
      by destruct (finishes_fresh d d' new t t' Hf (Hfin t Ht) Ht'). }
    rewrite Hk in Hn. by apply NoDup_app in Hn as [? _].
  - intros t Ht. pose proof (elem_of_submseteq _ _ _ Ht Hall) as Hn.
    apply elem_of_app in Hn as [Hn|Hn].
    + by eapply finishes_finished.
    + eapply finished_life; eauto.
Qed.

Lemma outstanding_insert gs i g g' : gs !! i = Some g ->
  exists R, outstanding gs ≡ₚ (permits g ++ R)%list /\
            outstanding (<[i := g']> gs) ≡ₚ (permits g' ++ R)%list.
Proof.
  intros Hi. pose proof (lookup_lt_Some _ _ _ Hi) as Hlt.
  exists (outstanding (take i gs) ++ outstanding (drop (S i) gs))%list. unfold outstanding.
  rewrite insert_take_drop by done. rewrite <-(take_drop_middle gs i g Hi) at 1.
  rewrite !bind_app, !bind_cons. split; apply Permutation_app_swap_app.
Qed.

(** A goroutine starts. *)
Lemma ledger_spawn w ts n h p gs ps fs :
  ledger (mkSys w ts n h) gs ps fs -> lawful p ->
  ledger (mkSys w (p :: ts) n h) (fresh :: gs) ps fs.
Proof.
  intros [] Hp. split; cbn in *; try done.
  - constructor; [by apply accounted_fresh|done].
  - intros g [->|Hg]%elem_of_cons; [by apply fresh_right|auto].
Qed.

(** The world moves without a hook. *)
Lemma ledger_moves w w' ts n h gs ps fs :
  ledger (mkSys w ts n h) gs ps fs -> Inv (w_db w') -> moves w w' -> w_hooks w' = w_hooks w ->
  ledger (mkSys w' ts n h) gs ps fs.
Proof.
  intros [] HI HM HH. split; cbn in *; try done.
  - intros g Hg. eapply IW_moves; eauto.
  - intros t Ht. eapply finished_life; [apply HM|auto].
  - by rewrite HH.
Qed.

(** A goroutine makes a step. *)
Lemma ledger_thread w ts n h gs ps fs i p p' w' :
  ledger (mkSys w ts n h) gs ps fs -> ts !! i = Some p -> pstep p w p' w' ->
  moves w w' /\ exists gs' ps' fs', ledger (mkSys w' (<[i := p']> ts) n h) gs' ps' fs'.
Proof.
  intros [HI HT HK HA HN HF HS] Hi Hp. unfold sys_db in *. cbn in *.
  destruct (Forall2_lookup_r _ _ _ _ _ HT Hi) as (g & Hg & Hacc).
  assert (g ∈ gs) as Hin by by eapply list_elem_of_lookup_2.
  destruct (guarded_step IW GW g p p' _ w w' (GW_refl g) Hacc) as (g' & Hacc' & HI' & HM & HH);
    [by apply HK|done|].
  split; [done|]. pose proof (mv_life _ _ HM) as HL. destruct HH as (psn & tsn & new & Hw & Han & Hf & Hsub).
  destruct (outstanding_insert gs i g g' Hg) as (R & HR1 & HR2).
  rewrite HR1 in HN.
  destruct (balance (w_db w) (w_db w') fs (permits g ++ R)%list (permits g' ++ R)%list new tsn HL Hf)
    as [HN' HF'].
  { rewrite !app_assoc. by apply submseteq_skips_r. }
  { exact HN. }
  { intros t Ht. apply HF. by rewrite HR1. }
  exists (<[i := g']> gs), (psn ++ ps)%list, (tsn ++ fs)%list. split; cbn.
  - apply HI'.
  - by apply Forall2_insert.
  - intros g0 Hg0. apply list_elem_of_lookup in Hg0 as [j Hj].
    apply list_lookup_insert_Some in Hj as [(-> & <- & _)|[_ Hj]]; [done|].
    eapply IW_moves; [apply HI'|exact HM|]. eapply HK. by eapply list_elem_of_lookup_2.
  - by apply Forall2_app.
  - by rewrite HR2.
  - intros t. rewrite HR2. apply HF'.
  - destruct HS as (waiting & picked & lost & Hold & Hlen & Hps).
    exists (psn ++ waiting)%list, picked, lost. rewrite Hw, Hold, Hps, <-!app_assoc. done.
Qed.

(** A hook goroutine is started. *)
Lemma ledger_pick w ts n h gs ps fs p :
  ledger (mkSys w ts n h) gs ps fs -> rev (w_hooks w) !! n = Some p ->
  ledger (mkSys w ts (S n) (p :: h)) gs ps fs.
Proof.
  intros [HI HT HK HA HN HF HS] Hp. split; cbn in *; try done.
  destruct HS as (waiting & picked & lost & Hw & Hlen & Hps).
  rewrite Hw, rev_app_distr, lookup_app_r in Hp by (rewrite length_rev; lia).
  rewrite length_rev, Hlen, Nat.sub_diag in Hp.
  destruct (rev waiting) as [|q l] eqn:Hrev; [done|]. injection Hp as ->.
  assert (waiting = rev l ++ [p])%list as ->
    by by rewrite <-(rev_involutive waiting), Hrev.
  exists (rev l), (p :: picked), lost. rewrite Hw, Hps, <-!app_assoc. cbn.
  split; [done|]. split; [by rewrite Hlen|done].
Qed.

(** The process crashes: its accounts are lost, what it announced is not. *)
Lemma ledger_crash w ts n h gs ps fs :
  ledger (mkSys w ts n h) gs ps fs ->
  ledger (mkSys (crashed w) [void main_setup] 0 h) [fresh] ps fs.
Proof.
  intros [HI HT HK HA HN HF HS]. split; cbn in *; try done.
  - constructor; [|done]. exact (accounted_fresh _ (lawful_void _ lawful_main_setup)).
  - intros g ->%list_elem_of_singleton. by apply fresh_right.
  - rewrite app_nil_r. rewrite fmap_app in HN. by apply NoDup_app in HN as [? _].
  - intros t. rewrite app_nil_r. intros Ht. apply HF. apply elem_of_app. by left.
  - destruct HS as (waiting & picked & lost & _ & _ & Hps). exists [], [], (waiting ++ lost)%list.
    split; [done|]. split; [done|]. rewrite Hps. cbn. apply Permutation_app_swap_app.
Qed.

(** ** Reachable states *)
Definition healthy (s : Sys) : Prop := exists gs ps fs, ledger s gs ps fs.

Lemma live_step_healthy s s' : healthy s -> live_step s s' ->
  healthy s' /\ moves (sy_world s) (sy_world s').
Proof.
  intros (gs & ps & fs & HL) Hstep.
  destruct Hstep as [j w ts n h|w ts n h i p p' w' Hi Hp|w ts n h i t|w ts n h p Hp].
  - split; [|done]. do 3 eexists. apply ledger_spawn; [done|apply lawful_job].
  - by destruct (ledger_thread _ _ _ _ _ _ _ _ _ _ _ HL Hi Hp).
  - assert (moves w (fire i w)) as HM
      by (apply releases_moves; [cbn; reflexivity|by apply remembers_same]).
    split; [|done]. do 3 eexists. apply ledger_spawn; [|apply lawful_timer].
    eapply ledger_moves; [done| |done..]. by destruct HL.
  - split; [|done]. do 3 eexists. apply ledger_spawn; [by apply ledger_pick|].
    by apply lawful_hook_goroutine.
Qed.

Lemma sys_step_healthy s s' : healthy s -> sys_step s s' ->
  healthy s' /\ life (sys_db s) (sys_db s').
Proof.
  intros Hs Hstep. destruct Hstep as [s s' Hl|w ts n h].
  - destruct (live_step_healthy s s' Hs Hl) as [? []]. by split.
  - destruct Hs as (gs & ps & fs & HL). split; [|done]. do 3 eexists. by eapply ledger_crash.
Qed.

Lemma sys_reach s s' : healthy s -> rtc sys_step s s' -> healthy s' /\ life (sys_db s) (sys_db s').
Proof.
  intros Hs Hr. induction Hr as [s|s1 s2 s3 H12 _ IH]; [split; [done|reflexivity]|].
  destruct (sys_step_healthy s1 s2 Hs H12) as [H2 L2]. destruct (IH H2) as [H3 L3].
  split; [done|]. by etrans.
Qed.

Lemma live_reach s s' : healthy s -> rtc live_step s s' ->
  healthy s' /\ moves (sy_world s) (sy_world s').
Proof.
  intros Hs Hr. induction Hr as [s|s1 s2 s3 H12 _ IH]; [by split|].
  destruct (live_step_healthy s1 s2 Hs H12) as [H2 M2]. destruct (IH H2) as [H3 M3].
  split; [done|]. by etrans.
Qed.

(** The first start: no hook has been started. *)
Definition start (w : World) : Sys := mkSys w [void main_setup] 0 [].

Lemma start_healthy w : Inv (w_db w) -> w_hooks w = [] -> healthy (start w).
Proof.
  intros HI HH. exists [fresh], [], []. split; cbn; try done.
  - constructor; [|done]. exact (accounted_fresh _ (lawful_void _ lawful_main_setup)).
  - intros g ->%list_elem_of_singleton. by apply fresh_right.
  - constructor.
  - by intros t ?%not_elem_of_nil.
  - by exists [], [], [].
Qed.

Lemma healthy_inv s : healthy s -> Inv (sys_db s).
Proof. by intros (? & ? & ? & []). Qed.

(** What has been started was accounted for, once. *)
Lemma healthy_hooks s : healthy s ->
  NoDup (pl_TaskID <$> sy_started s) /\
  forall p, p ∈ sy_started s -> exists t, announces p t /\ finished (sys_db s) t.
Proof.
  intros (gs & ps & fs & [HI HT HK HA HN HF (waiting & picked & lost & _ & _ & Hps)]).
  assert (pl_TaskID <$> ps = rid <$> fs) as Hids.
  { clear -HA. induction HA as [|p t ps fs [Hid _] _ IH]; [done|]. cbn. by rewrite Hid, IH. }
  split.
  - rewrite fmap_app in HN. apply NoDup_app in HN as [HN _].
    rewrite <-Hids, Hps, !fmap_app in HN.
    apply NoDup_app in HN as (_ & _ & HN). by apply NoDup_app in HN as [? _].
  - intros p Hp. assert (p ∈ ps) as Hin by (rewrite Hps; set_solver).
    apply list_elem_of_lookup in Hin as [i Hi].
    destruct (Forall2_lookup_l _ _ _ _ _ HA Hi) as (t & Ht & Ha). exists t. split; [done|].
    apply HF. apply elem_of_app. left. by eapply list_elem_of_lookup_2.
Qed.

(** C1: The data stay consistent in every execution.  Whatever streams, requests,
    ticks, timers and hook goroutines interleave, whatever external calls fail and
    wherever the process crashes and restarts, every task keeps a known status and
    every shard a task whose status allows the shard's; in particular all shards
    of a SUCCEEDED task have SUCCEEDED, and no shard of a CANCELLED task is
    queued, leased or running. *)
Theorem system_invariant w s :
  Inv (w_db w) -> w_hooks w = [] -> rtc sys_step (start w) s ->
  Inv (sys_db s) /\
  forall k t j x, tasks (sys_db s) !! k = Some t -> task_shards (sys_db s) !! j = Some x ->
    sh_TaskID x = k ->
    (Status t = TaskStatusSucceeded -> sh_Status x = ShardStatusSucceeded) /\
    (Status t = TaskStatusCancelled -> sh_Status x ∈ terminal_statuses).
Proof.
  intros HI HH Hr. destruct (sys_reach _ _ (start_healthy w HI HH) Hr) as [Hs%healthy_inv _].
  split; [done|]. intros k t j x Ht Hx Hp. split; intros Hst.
  - by eapply succeeded_all.
  - by eapply cancelled_all.
Qed.

(** C2: A completion hook is started at most once per task, and tells the truth.
    In every execution, crashes included, the hook goroutines ever started are for
    different tasks; each names a task that has that tenant, that non-empty hook
    URL and, for good, that terminal status, and announces a result exactly when
    the task has SUCCEEDED. *)
Theorem hooks_at_most_once w s :
  Inv (w_db w) -> w_hooks w = [] -> rtc sys_step (start w) s ->
  NoDup (pl_TaskID <$> sy_started s) /\
  forall p, p ∈ sy_started s ->
    pl_CompletionHookURL p <> "" /\ pl_Status p ∈ terminal_statuses /\
    pl_ResultAvailable p = (pl_Status p =s TaskStatusSucceeded) /\
    forall s', rtc sys_step s s' ->
      exists t, tasks (sys_db s') !! pl_TaskID p = Some t /\ TenantID t = pl_TenantID p /\
        Status t = pl_Status p /\ CompletionHookURL t = pl_CompletionHookURL p.
Proof.
  intros HI HH Hr. destruct (sys_reach _ _ (start_healthy w HI HH) Hr) as [Hs _].
  destruct (healthy_hooks s Hs) as [HN Hp]. split; [done|]. intros p Hin.
  destruct (Hp p Hin) as (t0 & (Hid & HT & Hst & Hok & HU & Hne) & Hf).
  split; [congruence|]. split; [rewrite Hst; apply Hf|]. split; [congruence|].
  intros s' Hr'. destruct (sys_reach _ _ Hs Hr') as [_ HL].
  destruct (finished_life _ _ _ HL Hf) as [(t & Ht & (_ & _ & HT' & _ & HU' & Hm)) Htm].
  exists t. rewrite Hid, HT, HU, Hst. split_and!; [done..| |done]. by apply terminal_task_stays.
Qed.

(** C3: Tasks and shards only move along their life cycles.  Between any two
    moments of an execution no task or shard disappears, none changes its tenant,
    task, script, shard count or hook, and each status has moved along the status
    graph; in particular a task or shard that has SUCCEEDED, FAILED or been
    CANCELLED keeps that status: no late report or roll-back revives it.  (The table of
    shard statuses in the README says that a FAILED shard can be assigned again; no
    code does that.) *)
Theorem system_life_cycle w s1 s2 :
  Inv (w_db w) -> w_hooks w = [] -> rtc sys_step (start w) s1 -> rtc sys_step s1 s2 ->
  life (sys_db s1) (sys_db s2) /\
  (forall k t, tasks (sys_db s1) !! k = Some t -> Status t ∈ terminal_statuses ->
     exists t', tasks (sys_db s2) !! k = Some t' /\ Status t' = Status t) /\
  (forall k x, task_shards (sys_db s1) !! k = Some x -> sh_Status x ∈ terminal_statuses ->
     exists x', task_shards (sys_db s2) !! k = Some x' /\ sh_Status x' = sh_Status x).
Proof.
  intros HI HH H1 H2. destruct (sys_reach _ _ (start_healthy w HI HH) H1) as [Hh _].
  destruct (sys_reach _ _ Hh H2) as [_ HL]. split; [exact HL|]. destruct HL as [Lt Ls]. split.
  - intros k t Hk Ht. destruct (Lt k t Hk) as (t' & Hk' & (_ & _ & _ & _ & _ & Hm)).
    exists t'. split; [done|]. by apply terminal_task_stays.
  - intros k x Hk Hx. destruct (Ls k x Hk) as (x' & Hk' & (_ & _ & _ & _ & Hm)).
    exists x'. split; [done|]. by apply terminal_shard_stays.
Qed.

(** C4: Tenants are isolated.  While a process lives, an agent that has registered
    stays registered under the same tenant and backend, and a shard is assigned
    only to a registered agent of the tenant its task belongs to and of that
    tenant's backend, whatever agents connect, reconnect, time out or report. *)
Theorem tenants_isolated w s1 s2 :
  Inv (w_db w) -> w_hooks w = [] -> rtc sys_step (start w) s1 -> rtc live_step s1 s2 ->
  (forall id a, agents (w_reg (sy_world s1)) !! id = Some a ->
     exists a', agents (w_reg (sy_world s2)) !! id = Some a' /\
       ag_TenantID a' = ag_TenantID a /\ ag_BackendName a' = ag_BackendName a) /\
  (forall k x A, task_shards (sys_db s2) !! k = Some x -> holder x = Some A ->
     was_holder (sys_db s1) k A \/
     exists a t n, agents (w_reg (sy_world s2)) !! A = Some a /\
       tasks (sys_db s2) !! sh_TaskID x = Some t /\ TenantID t = ag_TenantID a /\
       tenants (sys_db s2) !! TenantID t = Some n /\ PrimaryBackendName n = ag_BackendName a).
Proof.
  intros HI HH H1 H2. destruct (sys_reach _ _ (start_healthy w HI HH) H1) as [Hs _].
  destruct (live_reach _ _ Hs H2) as [_ [_ _ HR HA]]. split; [exact HR|exact HA].
Qed.
End System.

(** The theorems on [demo]: a task is cancelled through the API, its hook goroutine
    is started, and the process crashes. *)
Definition demo_config : Config :=
  mkConfig (mkServerConfig "" "" "" "" "") (mkDatabaseConfig "" "" "" "" "" "")
    (mkClusterConfig 3600 180 600 "token" "" "" (90 * Second) (5 * Minute)
       (mkKubernetesConfig "r-agents" [] "")).
Definition demo_client : KubeClient := api_server (fun _ => Some 1%Z).
(** A machine without a kubeconfig file, inside a cluster. *)
Definition demo_lib : KubeLib :=
  mkKubeLib unit
    (fun _ => Ret (Err (EExternal "no such file"))) (Ret (Ok tt)) (Ret (Ok "/root"))
    (String.concat "/") (fun _ => Ret (Err (EExternal "no such file"))) (fun _ => Ret (Ok tt)).
#[export] Instance demo_lib_lawful : LawfulKubeLib demo_lib.
Proof. split; intros; apply lawful_ret. Qed.
Definition demo_Do (url : string) (p : CompletionHookPayload) : prog (res (Z * string)) :=
  call (fun w => (Ok (200%Z, "200 OK"), w)).
Lemma demo_Do_lawful url p : lawful (demo_Do url p).
Proof. by apply lawful_call. Qed.
Lemma demo_copy t : lawful (copies copied_task t).
Proof. apply lawful_ret. Qed.
Lemma demo_copy_tenant n : lawful (copies copied_tenant n).
Proof. apply lawful_ret. Qed.

Abbreviation in_demo f :=
  (f toy_env toy_types toy_gql toy_introspection toy_grpc (copies copied_task) (copies copied_tenant)
     demo_client demo_lib demo_Do demo_config) (only parsing).
Abbreviation in_live f :=
  (f toy_env toy_types toy_gql toy_introspection toy_grpc (copies copied_task) (copies copied_tenant)
     demo_client demo_Do demo_config) (only parsing).
#[local] Existing Instances toy_laws toy_gql_laws.
Definition demo_step := in_demo (@sys_step).
Definition demo_cancel : job :=
  JGraphQL (GT := toy_types) OpMutation ([] : list string) (cancel_request "acme" "u|||||||||||").
Definition demo_start : Sys := @start toy_env toy_grpc demo_client demo_lib demo_config demo.

Definition demo_cancel_prog : prog unit :=
  @job_prog toy_env toy_types toy_gql toy_introspection toy_grpc (copies copied_task)
    (copies copied_tenant) demo_client demo_config demo_cancel.
Definition demo_cancelled : World := final (run demo_cancel_prog demo quiet).
Definition demo_payload : CompletionHookPayload :=
  mkPayload 11 1 TaskStatusCancelled "" (Some 10%Z) false "http://hook".
Lemma demo_cancelled_hooks : w_hooks demo_cancelled = [demo_payload].
Proof. vm_compute. reflexivity. Qed.
Lemma demo_cancelled_task : exists t, tasks (w_db demo_cancelled) !! 11%N = Some t /\
  Status t = TaskStatusCancelled.
Proof.
  destruct (tasks (w_db demo_cancelled) !! 11%N) as [t|] eqn:Ht; vm_compute in Ht; [|done].
  exists t. injection Ht as <-. by split.
Qed.

Lemma demo_cancelled_shard : exists x, task_shards (w_db demo_cancelled) !! 16%N = Some x /\
  sh_TaskID x = 11%N.
Proof.
  destruct (task_shards (w_db demo_cancelled) !! 16%N) as [x|] eqn:Hx; vm_compute in Hx; [|done].
  exists x. injection Hx as <-. by split.
Qed.

(** The system after the cancellation, with the hook under way, and after the crash. *)
Definition demo_announcing : Sys := mkSys demo_cancelled
  [@hook_goroutine toy_env demo_Do demo_payload; Ret tt; void (@main_setup toy_env toy_grpc demo_client demo_lib demo_config)]
  1 [demo_payload].
Definition demo_crashed : Sys :=
  mkSys (crashed demo_cancelled) [void (@main_setup toy_env toy_grpc demo_client demo_lib demo_config)]
    0 [demo_payload].

Lemma demo_execution : rtc demo_step demo_start demo_announcing /\
                       rtc demo_step demo_announcing demo_crashed.
Proof.
  split; [|apply rtc_once, (in_demo (@sys_crash))]. apply (in_demo (@live_sys)).
  eapply rtc_l; [apply (in_live (@live_job) demo_cancel)|].
  etrans; [apply (in_live (@live_thread_run) _ _ _ _ 0 demo_cancel_prog quiet); reflexivity|].
  apply rtc_once. change (final _) with demo_cancelled.
  replace (result _) with tt by by destruct (result _).
  apply (in_live (@live_hook)). by rewrite demo_cancelled_hooks.
Qed.

Lemma system_invariant_witness :
  exists s t, rtc demo_step demo_start s /\ Inv (sys_db s) /\
    tasks (sys_db s) !! 11%N = Some t /\ Status t = TaskStatusCancelled /\
    exists x, task_shards (sys_db s) !! 16%N = Some x /\ sh_TaskID x = 11%N /\
              sh_Status x ∈ terminal_statuses.
Proof.
  destruct demo_execution as [H1 _]. destruct demo_cancelled_task as (t & Ht & Hst).
  destruct (in_demo (@system_invariant) demo_Do_lawful demo_copy demo_copy_tenant demo
              demo_announcing demo_inv eq_refl H1) as [HI HC].
  exists demo_announcing, t. split; [exact H1|]. split; [exact HI|]. split; [exact Ht|].
  split; [exact Hst|]. destruct demo_cancelled_shard as (x & Hx & Hp). exists x.
  split; [exact Hx|]. split; [exact Hp|]. exact (proj2 (HC _ _ _ _ Ht Hx Hp) Hst).
Defined.

Lemma hooks_at_most_once_witness :
  rtc demo_step demo_start demo_announcing /\ sy_started demo_announcing = [demo_payload] /\
  NoDup (pl_TaskID <$> [demo_payload]) /\
  exists t, tasks (sys_db demo_crashed) !! 11%N = Some t /\ Status t = TaskStatusCancelled /\
            CompletionHookURL t = "http://hook".
Proof.
  destruct demo_execution as [H1 H2]. split; [exact H1|]. split; [reflexivity|].
  destruct (in_demo (@hooks_at_most_once) demo_Do_lawful demo_copy demo_copy_tenant demo
              demo_announcing demo_inv eq_refl H1) as [HN HP]. split; [exact HN|].
  destruct (HP demo_payload) as (_ & _ & _ & Hlast); [apply list_elem_of_here|].
  destruct (Hlast demo_crashed H2) as (t & Ht & _ & Hst & HU).
  exists t. split; [exact Ht|]. split; [exact Hst|exact HU].
Defined.

Lemma system_life_cycle_witness :
  exists s1 s2, rtc demo_step s1 s2 /\ life (sys_db s1) (sys_db s2) /\ exists t t',
    tasks (sys_db s1) !! 11%N = Some t /\ Status t = TaskStatusCancelled /\
    tasks (sys_db s2) !! 11%N = Some t' /\ Status t' = Status t.
Proof.
  destruct demo_execution as [H1 H2]. destruct demo_cancelled_task as (t & Ht & Hst).
  destruct (in_demo (@system_life_cycle) demo_Do_lawful demo_copy demo_copy_tenant demo
              demo_announcing demo_crashed demo_inv eq_refl H1 H2) as (HL & HT & _).
  exists demo_announcing, demo_crashed. split; [exact H2|]. split; [exact HL|].
  destruct (HT 11%N t Ht) as (t' & Ht' & Hst').
  - rewrite Hst. by apply ins_spec.
  - exists t, t'. split; [exact Ht|]. split; [exact Hst|]. split; [exact Ht'|exact Hst'].
Defined.

(** A new agent of the tenant "acme" connects and is assigned a shard. *)
Definition demo_connect : job := JStream (GT := toy_types)
  ControlService_OpenControlStream_FullMethodName
  [RecvMsg (Some (AgentMessage_Register
     (mkRegister "new" (@uuid_String toy_env 1) "kubernetes" "token" "1.0")))].
Definition demo_connect_prog : prog unit :=
  @job_prog toy_env toy_types toy_gql toy_introspection toy_grpc (copies copied_task)
    (copies copied_tenant) demo_client demo_config demo_connect.
Definition demo_connected : World := final (run demo_connect_prog demo quiet).
Lemma demo_connected_shard : exists x, task_shards (w_db demo_connected) !! 13%N = Some x /\
  holder x = Some "new" /\ sh_TaskID x = 10%N.
Proof.
  destruct (task_shards (w_db demo_connected) !! 13%N) as [x|] eqn:Hx; vm_compute in Hx; [|done].
  exists x. injection Hx as <-. by split.
Qed.
Definition demo_live := in_live (@live_step).
Definition demo_after_connect : Sys := mkSys demo_connected
  [Ret tt; void (@main_setup toy_env toy_grpc demo_client demo_lib demo_config)] 0 [].
Lemma demo_connection : rtc demo_live demo_start demo_after_connect.
Proof.
  eapply rtc_l; [apply (in_live (@live_job) demo_connect)|].
  etrans; [apply (in_live (@live_thread_run) _ _ _ _ 0 demo_connect_prog quiet); reflexivity|].
  change (final _) with demo_connected. replace (result _) with tt by by destruct (result _).
  apply rtc_refl.
Qed.

Lemma tenants_isolated_witness :
  rtc demo_live demo_start demo_after_connect /\
  exists x a t, task_shards (sys_db demo_after_connect) !! 13%N = Some x /\ holder x = Some "new" /\
    agents (w_reg (sy_world demo_after_connect)) !! "new" = Some a /\
    tasks (sys_db demo_after_connect) !! sh_TaskID x = Some t /\ TenantID t = ag_TenantID a.
Proof.
  split; [exact demo_connection|]. destruct demo_connected_shard as (x & Hx & Hh & _).
  destruct (in_demo (@tenants_isolated) demo_Do_lawful demo_copy demo_copy_tenant demo
              demo_start demo_after_connect demo_inv eq_refl (rtc_refl _ _) demo_connection)
    as [_ HA].
  destruct (HA 13%N x "new" Hx Hh) as [(x0 & Hx0 & Hh0)|(a & t & n & Ha & Ht & HT & _)].
  - vm_compute in Hx0. injection Hx0 as <-. discriminate Hh0.
  - exists x, a, t. split; [exact Hx|]. split; [exact Hh|]. split; [exact Ha|].
    split; [exact Ht|exact HT].
Defined.
