(* ===== verification/Timers.v ===== *)
(** * The timers of the agent registry

    Each agent of the registry has a timer, for its heartbeats or for its grace period
    (agent.go).  [tidy] of AgentService.v says that every pending timer is the one the
    registry names for its agent, so that stopping that one stops them all.  Here: the
    operations on timers keep it, and so does a timer that expires and whose callback
    runs at once.  A callback that is delayed does not: [stale_callback_duplicates] of
    AgentService.v is the execution in which an agent ends up with two. *)
From S2P Require Import Prelude Errors Model Env Proto World Effects Store StoreFacts.
From S2P Require Import Lifecycle Lawful Demo TaskOrm TaskShardOrm AgentService TaskLease Control System.

Section Timers.
Context `{E : Env}.
Implicit Types (w : World) (r : Registry).

(** The timer [i] expires, if it is pending, and its callback runs at once. *)
Definition expire (i : nat) : prog unit :=
  due <- gets (fun w => match theap (w_reg w) !! i with
                        | Some t => if tm_active t then Some t else None
                        | None => None
                        end) ;;
  match due with
  | Some t => modify (fire i) ;; timer_prog t
  | None => Ret tt
  end.

(** What happens to the timers and to what their callbacks look at. *)
Inductive timer_event :=
| EvHeartbeat (id status : string) (shard : option string)
| EvDisconnect (id : string)
| EvReset (id : string)
| EvGrace (id : string)
| EvCancel (id : string)
| EvRemove (id : string)
| EvExpire (i : nat).
Definition event_prog (e : timer_event) : prog unit :=
  match e with
  | EvHeartbeat id status shard => void (HeartbeatAgent id status shard)
  | EvDisconnect id => DisconnectAgent id
  | EvReset id => ResetHeartbeat id
  | EvGrace id => BeginGrace id
  | EvCancel id => CancelTimer id
  | EvRemove id => RemoveAgent id
  | EvExpire i => expire i
  end.
Fixpoint events (es : list timer_event) : prog unit :=
  match es with
  | [] => Ret tt
  | e :: es => event_prog e ;; events es
  end.

Lemma tidy_same r r' : theap r' = theap r -> timers r' = timers r -> tidy r -> tidy r'.
Proof. intros Hh Ht Hr i t. rewrite Hh, Ht. apply Hr. Qed.

Lemma wp_tidy_reset b id w : tidy (w_reg w) -> wp b (ResetHeartbeat id) (fun _ w' => tidy (w_reg w')) w.
Proof. intros Hr. cbn. intros t _. by apply tidy_arm. Qed.
Lemma wp_tidy_cancel b id w : tidy (w_reg w) -> wp b (CancelTimer id) (fun _ w' => tidy (w_reg w')) w.
Proof.
  intros Hr. cbn. destruct (timers (w_reg w) !! id) as [j|] eqn:Hj; [|done].
  apply tidy_cancel; [done|by exists j].
Qed.
Lemma wp_tidy_heartbeat b id status shard w :
  tidy (w_reg w) -> wp b (HeartbeatAgent id status shard) (fun _ w' => tidy (w_reg w')) w.
Proof. intros Hr. cbn. intros t _. by destruct (agents (w_reg w) !! id). Qed.

Lemma framed_RollbackTimedOutShard id a T B : framed (RollbackTimedOutShard id a T B).
Proof.
  unfold RollbackTimedOutShard, LoadValidatedShard, TaskShardOrm.GetByID, GetShardTaskOwner. framed_all.
Qed.

(** The callback has nothing to do with timers. *)
Lemma wp_tidy_callback b a reason w :
  tidy (w_reg w) -> wp b (HandleAgentTimeout a reason) (fun _ w' => tidy (w_reg w')) w.
Proof.
  intros Hr. unfold HandleAgentTimeout. apply wp_bind. cbn [wp GetAgent gets act fst snd].
  destruct (agents (w_reg w) !! a) as [x|]; [|done].
  assert (forall w1, tidy (w_reg w1) -> wp b (if reason =s "grace_expired"
            then _ <- HeartbeatAgent a AgentStatusTimedOut None ;; Ret tt else Ret tt)
            (fun _ w' => tidy (w_reg w')) w1) as Hend.
  { intros w1 H1. destruct (_ =s _); [|done]. apply wp_bind. eapply wp_mono; [|by apply wp_tidy_heartbeat].
    by intros []. }
  apply wp_bind. destruct (CurrentShardID x) as [sid|]; [|by apply Hend].
  destruct (sid =s ""); [by apply Hend|]. destruct (uuid_Parse sid) as [id|]; [|by apply Hend].
  apply wp_bind. eapply wp_mono; [|apply framed_wp, framed_RollbackTimedOutShard].
  intros u w1 [_ Hreg _ _ _ _ _]. apply Hend. by rewrite Hreg.
Qed.

(** The registry when the expired timer of [id] has been forgotten. *)
Lemma tidy_expired i t w :
  tidy (w_reg w) -> theap (w_reg w) !! i = Some t -> tm_active t = true ->
  tidy (forget_timer (tm_agent t) (w_reg (fire i w))).
Proof.
  intros Hr Hi Hact. pose proof (Hr i t Hi Hact) as Hname.
  destruct (tidy_cancel (tm_agent t) (w_reg w) Hr ltac:(by eexists)) as [Ht _].
  eapply tidy_same; [..|exact Ht]; unfold stop_current; by rewrite Hname.
Qed.

Lemma section_timers id clock r :
  theap (heartbeat_timeout_section id clock r).2 = theap r /\
  timers (heartbeat_timeout_section id clock r).2 = timers r.
Proof.
  unfold heartbeat_timeout_section. destruct (agents r !! id); [|done].
  by repeat match goal with |- context [if ?c then _ else _] => destruct c end.
Qed.

Lemma wp_tidy_expire b i w : tidy (w_reg w) -> wp b (expire i) (fun _ w' => tidy (w_reg w')) w.
Proof.
  intros Hr. unfold expire. apply wp_bind. cbn [wp gets act fst snd].
  destruct (theap (w_reg w) !! i) as [t|] eqn:Hi; [|done]. destruct (tm_active t) eqn:Hact; [|done].
  pose proof (tidy_expired i t w Hr Hi Hact) as Hf. apply wp_bind. cbn [wp modify act fst snd].
  unfold timer_prog. destruct (tm_kind t).
  - unfold onHeartbeatTimeout. apply wp_bind. cbn [wp on_reg modify act fst snd]. apply wp_bind.
    cbn [wp now]. intros tk _. apply wp_bind. cbn [wp act fst snd w_reg set_reg set_clock w_clock].
    pose proof (section_timers (tm_agent t) tk (forget_timer (tm_agent t) (w_reg (fire i w)))) as [Hh Ht].
    destruct (heartbeat_timeout_section _ _ _) as [d r']. cbn [fst snd] in *.
    assert (tidy r') as Hr' by by eapply tidy_same.
    destruct d; [done|by apply wp_tidy_reset|by apply wp_tidy_callback].
  - unfold onGraceExpired. apply wp_bind. cbn [wp on_reg modify act fst snd]. apply wp_bind.
    cbn [wp gets act fst snd]. destruct (match agents _ !! _ with Some _ => _ | None => _ end); [|done].
    apply wp_bind. cbn [wp gets act fst snd]. destruct (onTimeout _); [|done]. by apply wp_tidy_callback.
Qed.

Lemma wp_tidy_event b e w : tidy (w_reg w) -> wp b (event_prog e) (fun _ w' => tidy (w_reg w')) w.
Proof.
  intros Hr. destruct e as [id st sh|id|id|id|id|id|i]; cbn [event_prog].
  - apply wp_bind. eapply wp_mono; [|by apply wp_tidy_heartbeat]. by intros.
  - cbn. by destruct (agents (w_reg w) !! id).
  - by apply wp_tidy_reset.
  - cbn. intros t _. by apply tidy_arm.
  - by apply wp_tidy_cancel.
  - apply wp_bind. eapply wp_mono; [|by apply wp_tidy_cancel]. by intros.
  - by apply wp_tidy_expire.
Qed.
Lemma wp_tidy_events b es w : tidy (w_reg w) -> wp b (events es) (fun _ w' => tidy (w_reg w')) w.
Proof.
  revert w. induction es as [|e es IH]; intros w Hr; cbn [events]; [done|].
  apply wp_bind. eapply wp_mono; [|by apply wp_tidy_event]. intros u w'. apply IH.
Qed.

(** C19: As long as no callback is delayed, an agent has at most one pending timer.
    Start from a registry in which every pending timer is the one it names for its
    agent, as when the process starts, and let heartbeats, disconnections,
    [ResetHeartbeat], [BeginGrace], [CancelTimer], [RemoveAgent] and expiring timers
    follow each other in any order, where a timer that expires runs its callback, with
    the roll-back of the agent's shard, before the next event, and anything may fail.
    Then no two pending timers are of one agent; after a further [ResetHeartbeat] or
    [BeginGrace] the agent's only pending timer is a new one of that kind, due after the
    configured delay, and after a [CancelTimer] it has none.  The hypothesis on the
    callbacks is needed: when a heartbeat comes between the expiry and the callback, the
    agent is left with two timers ([stale_callback_duplicates]). *)
Theorem timers_tidy es id w o o' :
  tidy (w_reg w) ->
  let w1 := final (run (events es) w o) in
  (forall i j t u, theap (w_reg w1) !! i = Some t -> theap (w_reg w1) !! j = Some u ->
     tm_active t = true -> tm_active u = true -> tm_agent t = tm_agent u -> i = j) /\
  (let w' := final (run (ResetHeartbeat id) w1 o') in
   forall t, pending id (w_reg w') t <->
     t = mkTimer id HeartbeatTimer (w_clock w' + heartbeatTimeout (w_reg w1)) true) /\
  (let w' := final (run (BeginGrace id) w1 o') in
   forall t, pending id (w_reg w') t <->
     t = mkTimer id GraceTimer (w_clock w' + gracePeriod (w_reg w1)) true) /\
  (let w' := final (run (CancelTimer id) w1 o') in forall t, ~ pending id (w_reg w') t).
Proof.
  intros Hr w1. assert (tidy (w_reg w1)) as H1 by exact (wp_run _ _ w o (wp_tidy_events true es w Hr)).
  split.
  - intros i j t u Hi Hj Ht Hu Heq. pose proof (H1 i t Hi Ht). pose proof (H1 j u Hj Hu). congruence.
  - destruct (timer_calls id w1 o' H1) as ([_ ?] & [_ ?] & [_ ?]). by split_and!.
Qed.
End Timers.

Lemma boot_tidy : tidy boot_registry.
Proof. by intros i t Hi. Qed.

(** On [demo]: the heartbeat timer of "busy" expires twice, with no heartbeat in
    between; then the agent is heard of again, disconnects and its grace begins. *)
Lemma timers_tidy_witness :
  let E := toy_env in
  let w1 := final (run (events [EvExpire 0; EvExpire 1; EvHeartbeat "busy" AgentStatusIdle None;
                                EvReset "busy"; EvDisconnect "busy"]) demo quiet) in
  length (theap (w_reg w1)) = 4 /\
  let w' := final (run (BeginGrace "busy") w1 quiet) in
  forall t, pending "busy" (w_reg w') t <->
    t = mkTimer "busy" GraceTimer (w_clock w' + gracePeriod (w_reg w1)) true.
Proof.
  cbn zeta. split; [vm_compute; reflexivity|].
  refine (proj1 (proj2 (proj2 (timers_tidy (E := toy_env) _ "busy" demo quiet quiet _)))).
  intros [|i] t Hi Hact; cbn in Hi; [|done]. injection Hi as <-. vm_compute. reflexivity.
Defined.
