(* ===== verification/Shutdown.v ===== *)
(** * The server process (cmd/server/main.go, once everything is set up)

    [main] starts the three loops and the two servers, waits for a signal or for a
    server to fail, and shuts down: it cancels the loops, stops both servers
    gracefully, forces the gRPC server after ten seconds, and waits for every
    goroutine.  An [own] step is one action of one goroutine or timer of the
    process; the signal, the requests served and the connections come from
    [outside].

    google.golang.org/grpc is not part of the repository: when [Serve] and
    [GracefulStop] return are parameters, and what its documentation says of [Stop]
    are hypotheses. *)
From S2P Require Import Prelude Errors Model Env World Effects Store.
From S2P Require Import ClusterService TaskPoll TaskLease Config.

(** ** The goroutines *)
Inductive worker :=
| Waiting                  (* in the [select] of its loop *)
| Working (p : prog bool)  (* at work; after [false] it returns *)
| Returned.
(** What [Serve] and [ListenAndServe] return: nil, [ErrServerStopped] or
    [ErrServerClosed], another error. *)
Inductive served := ServedNil | ServedStopped | ServedErr (e : error).
Inductive server :=
| Serving
| Sending (e : error)      (* at [server_errs <- e] *)
| Served.
Inductive closer := NotStarted | Closing | Closed.
Inductive alarm := Unarmed | Armed | Fired.
Inductive phase :=
| Selecting                (* [select { case <-ctx.Done(): case serve_err = <-server_errs: }] *)
| Cancelling               (* [cancel()] *)
| Starting                 (* [wg.Add(2)] and the two closing goroutines *)
| Arming                   (* [time.AfterFunc] *)
| Unlistening              (* [grpc_listener.Close()] *)
| Joining                  (* [wg.Wait()] *)
| Exited.

(** [ctx.Done()], the ticks the loops will still see, and the loops. *)
Record Loops := mkLoops { lp_done : bool; lp_ticks : nat; lp_workers : list worker }.
(** The two server goroutines and the buffer of [server_errs]. *)
Record Servers := mkServers { sv_grpc : server; sv_http : server; sv_errs : list error }.
(** The goroutines of [http_server.Shutdown] and [grpc_server.GracefulStop],
    [shutdown_ctx], the timer that calls [grpc_server.Stop], and the listener. *)
Record Closers := mkClosers {
  cl_Shutdown : closer;
  cl_GracefulStop : closer;
  cl_expired : bool;
  cl_alarm : alarm;
  cl_unlistened : bool;
}.
(** What is open: HTTP connections and control streams. *)
Record Traffic := mkTraffic { tr_conns : nat; tr_rpcs : nat }.
Record Proc := mkProc {
  pr_world : World;
  pr_open : Traffic;
  pr_loops : Loops;
  pr_servers : Servers;
  pr_closers : Closers;
  pr_wg : nat;
  pr_serve_err : option error;
  pr_main : phase;
}.

(** [make(chan error, 2)]. *)
Definition server_errs_cap : nat := 2.
(** [wg.Done()] as a goroutine ends. *)
Definition wg_Done (wg : nat) : nat := pred wg.

(** What the goroutine of a server does with the result. *)
Definition after_serve (what : string) (r : served) : server :=
  match r with
  | ServedErr e => Sending (wrapf what e)
  | _ => Served
  end.
Definition wg_after (s : server) (wg : nat) : nat :=
  match s with Served => wg_Done wg | _ => wg end.

(** [Stop] and [GracefulStop] have been called. *)
Definition stopped (c : Closers) : bool := match cl_alarm c with Fired => true | _ => false end.
Definition begun (c : closer) : bool := match c with NotStarted => false | _ => true end.

(** ** The loops [main] starts *)
Section Loops.
Context `{E : Env} (registry : ProviderRegistry) (cfg : ClusterConfig).
Definition forever (tick : prog unit) : prog bool := _ <- tick ;; Ret true.
(** [PollPendingTasks] returns at once without a database; [CleanupOrphanShardsLoop];
    [RecycleClusters]. *)
Definition server_loops : list (prog bool * prog bool) :=
  [(r <- GetDB ;; Ret (is_ok r), forever (poll_tick registry (cfg_BillingCycleSeconds cfg)));
   (Ret true, forever cleanup_tick);
   (Ret true, forever (recycle_tick registry (duration_of_seconds (BillingAdvanceSeconds cfg))
                         (duration_of_seconds (IdleThresholdSeconds cfg))))].
End Loops.

(** ** The process *)
Section Process.
(** What each loop does before its first [select], and on a tick. *)
Context (loops : list (prog bool * prog bool)).
(** gRPC: by the calls of [Stop] and [GracefulStop], the listener and the open
    streams, [Serve] may return [r]; [GracefulStop] may return. *)
Context (Serve_returns : bool -> bool -> bool -> nat -> served -> Prop).
Context (GracefulStop_returns : bool -> nat -> Prop).

(** [wg.Add(5)] and the five goroutines. *)
Definition started (w : World) (ticks : nat) : Proc :=
  mkProc w (mkTraffic 0 0) (mkLoops false ticks (map (fun l => Working l.1) loops))
    (mkServers Serving Serving [])
    (mkClosers NotStarted NotStarted false Unarmed false) (length loops + 2) None Selecting.

Inductive own : Proc -> Proc -> Prop :=
(* the loops *)
| own_tick i l w o d n ws S C g se m :
    ws !! i = Some Waiting -> loops !! i = Some l ->
    own (mkProc w o (mkLoops d (Datatypes.S n) ws) S C g se m)
        (mkProc w o (mkLoops d n (<[i := Working l.2]> ws)) S C g se m)
| own_work i p p' w w' o d n ws S C g se m :
    ws !! i = Some (Working p) -> pstep p w p' w' ->
    own (mkProc w o (mkLoops d n ws) S C g se m)
        (mkProc w' o (mkLoops d n (<[i := Working p']> ws)) S C g se m)
| own_again i w o d n ws S C g se m :
    ws !! i = Some (Working (Ret true)) ->
    own (mkProc w o (mkLoops d n ws) S C g se m)
        (mkProc w o (mkLoops d n (<[i := Waiting]> ws)) S C g se m)
| own_abort i w o d n ws S C g se m :
    ws !! i = Some (Working (Ret false)) ->
    own (mkProc w o (mkLoops d n ws) S C g se m)
        (mkProc w o (mkLoops d n (<[i := Returned]> ws)) S C (wg_Done g) se m)
| own_return i w o n ws S C g se m :
    ws !! i = Some Waiting ->
    own (mkProc w o (mkLoops true n ws) S C g se m)
        (mkProc w o (mkLoops true n (<[i := Returned]> ws)) S C (wg_Done g) se m)
(* the servers; once [Shutdown] is called, [ListenAndServe] returns [ErrServerClosed] *)
| own_Serve r w o L h es C g se m :
    Serve_returns (stopped C) (begun (cl_GracefulStop C)) (cl_unlistened C) (tr_rpcs o) r ->
    own (mkProc w o L (mkServers Serving h es) C g se m)
        (mkProc w o L (mkServers (after_serve "serve control grpc" r) h es) C
           (wg_after (after_serve "serve control grpc" r) g) se m)
| own_ListenAndServe r w o L s es C g se m :
    (r = ServedStopped /\ begun (cl_Shutdown C) = true) \/ (exists e, r = ServedErr e) ->
    own (mkProc w o L (mkServers s Serving es) C g se m)
        (mkProc w o L (mkServers s (after_serve "serve http" r) es) C
           (wg_after (after_serve "serve http" r) g) se m)
| own_send_grpc e w o L h es C g se m :
    length es < server_errs_cap ->
    own (mkProc w o L (mkServers (Sending e) h es) C g se m)
        (mkProc w o L (mkServers Served h (es ++ [e])%list) C (wg_Done g) se m)
| own_send_http e w o L s es C g se m :
    length es < server_errs_cap ->
    own (mkProc w o L (mkServers s (Sending e) es) C g se m)
        (mkProc w o L (mkServers s Served (es ++ [e])%list) C (wg_Done g) se m)
(* the closing goroutines and the timers *)
| own_Shutdown w o L S gs x a u g se m :
    tr_conns o = 0 \/ x = true ->
    own (mkProc w o L S (mkClosers Closing gs x a u) g se m)
        (mkProc w o L S (mkClosers Closed gs x a u) (wg_Done g) se m)
| own_GracefulStop w o L S sd x a u g se m :
    GracefulStop_returns (match a with Fired => true | _ => false end) (tr_rpcs o) ->
    own (mkProc w o L S (mkClosers sd Closing x a u) g se m)
        (mkProc w o L S (mkClosers sd Closed x a u) (wg_Done g) se m)
| own_expire w o L S sd gs a u g se m :
    begun sd = true ->
    own (mkProc w o L S (mkClosers sd gs false a u) g se m)
        (mkProc w o L S (mkClosers sd gs true a u) g se m)
| own_Stop w o L S sd gs x u g se m :
    own (mkProc w o L S (mkClosers sd gs x Armed u) g se m)
        (mkProc w o L S (mkClosers sd gs x Fired u) g se m)
(* main *)
| own_done w o n ws S C g se :
    own (mkProc w o (mkLoops true n ws) S C g se Selecting)
        (mkProc w o (mkLoops true n ws) S C g se Starting)
| own_failed e w o L s h es C g se :
    own (mkProc w o L (mkServers s h (e :: es)) C g se Selecting)
        (mkProc w o L (mkServers s h es) C g (Some e) Cancelling)
| own_cancel w o d n ws S C g se :
    own (mkProc w o (mkLoops d n ws) S C g se Cancelling)
        (mkProc w o (mkLoops true n ws) S C g se Starting)
| own_start w o L S sd gs x a u g se :
    own (mkProc w o L S (mkClosers sd gs x a u) g se Starting)
        (mkProc w o L S (mkClosers Closing Closing x a u) (g + 2) se Arming)
| own_AfterFunc w o L S sd gs x a u g se :
    own (mkProc w o L S (mkClosers sd gs x a u) g se Arming)
        (mkProc w o L S (mkClosers sd gs x Armed u) g se Unlistening)
| own_Close w o L S sd gs x a u g se :
    own (mkProc w o L S (mkClosers sd gs x a u) g se Unlistening)
        (mkProc w o L S (mkClosers sd gs x a true) g se Joining)
| own_Wait w o L S C se :
    own (mkProc w o L S C 0 se Joining) (mkProc w o L S C 0 se Exited).

(** The signal, and what requests and clients do meanwhile. *)
Inductive outside : Proc -> Proc -> Prop :=
| outside_signal w o d n ws S C g se m :
    outside (mkProc w o (mkLoops d n ws) S C g se m) (mkProc w o (mkLoops true n ws) S C g se m)
| outside_serve w w' o o' L S C g se m :
    outside (mkProc w o L S C g se m) (mkProc w' o' L S C g se m).

Definition proc_step (s s' : Proc) : Prop := own s s' \/ outside s s'.

(** Whatever the process and the outside do, and as long as the process does
    something when it can, a state with [P] is reached, and the process can always
    do something before. *)
Inductive inevitably (P : Proc -> Prop) : Proc -> Prop :=
| inevitably_now s : P s -> inevitably P s
| inevitably_later s :
    (forall s0, rtc outside s s0 -> exists s', own s0 s') ->
    (forall s0 s', rtc outside s s0 -> own s0 s' -> inevitably P s') ->
    inevitably P s.

(** A signal has arrived, a server has failed, or [main] is past its [select]. *)
Definition leaving (s : Proc) : Prop :=
  lp_done (pr_loops s) = true \/ sv_errs (pr_servers s) <> [] \/ pr_main s <> Selecting.

(** ** What holds throughout *)
Definition live_worker (x : worker) : nat := match x with Returned => 0 | _ => 1 end.
Definition live_server (s : server) : nat := match s with Served => 0 | _ => 1 end.
Definition live_closer (c : closer) : nat := match c with Closing => 1 | _ => 0 end.
Definition under_way (s : Proc) : nat :=
  sum_list_with live_worker (lp_workers (pr_loops s)) +
  live_server (sv_grpc (pr_servers s)) + live_server (sv_http (pr_servers s)) +
  live_closer (cl_Shutdown (pr_closers s)) + live_closer (cl_GracefulStop (pr_closers s)).

(** How far [main] is. *)
Definition rank (m : phase) : nat :=
  match m with
  | Selecting => 6 | Cancelling => 5 | Starting => 4 | Arming => 3 | Unlistening => 2
  | Joining => 1 | Exited => 0
  end.

Record sound (s : Proc) : Prop := mkSound {
  (* the counter is the number of goroutines under way *)
  sound_wg : pr_wg s = under_way s;
  (* there is room in [server_errs] for what the servers still send *)
  sound_errs : length (sv_errs (pr_servers s)) + live_server (sv_grpc (pr_servers s)) +
    live_server (sv_http (pr_servers s)) <= server_errs_cap;
  sound_loops : length (lp_workers (pr_loops s)) = length loops;
  sound_done : rank (pr_main s) <= 4 -> lp_done (pr_loops s) = true;
  sound_begun : begun (cl_Shutdown (pr_closers s)) = (rank (pr_main s) <=? 3)%nat /\
    begun (cl_GracefulStop (pr_closers s)) = (rank (pr_main s) <=? 3)%nat;
  sound_alarm : rank (pr_main s) <= 2 -> cl_alarm (pr_closers s) <> Unarmed;
  sound_exit : pr_main s = Exited -> pr_wg s = 0;
}.

Lemma sum_list_insert {A} (f : A -> nat) l i x y :
  l !! i = Some x -> sum_list_with f (<[i := y]> l) + f x = sum_list_with f l + f y.
Proof.
  revert i. induction l as [|z l IH]; intros [|i]; try done.
  - cbn. intros [= ->]. lia.
  - intros H. change (<[S i := y]> (z :: l)) with (z :: <[i := y]> l). cbn [sum_list_with].
    specialize (IH i H). lia.
Qed.

Lemma started_sound w ticks : sound (started w ticks).
Proof.
  assert (sum_list_with live_worker (map (fun l => Working l.1) loops) = length loops) as Hl.
  { induction loops as [|l ls IH]; cbn; [done|]. by rewrite IH. }
  split; try (cbn; lia); try done. apply length_map.
Qed.

Lemma outside_sound s s' : outside s s' -> sound s -> sound s'.
Proof. intros H [H1 H2 H3 H4 H5 H6 H7]. destruct H; split; try done. Qed.

Lemma own_sound s s' : own s s' -> sound s -> sound s'.
Proof.
  intros H [H1 H2 H3 H4 H5 H6 H7]; destruct H; unfold under_way in *; cbn in *;
    try match goal with Hi : ?ws !! ?i = Some ?x |- context [<[?i := ?y]> ?ws] =>
        pose proof (sum_list_insert live_worker ws i x y Hi) end;
    split; unfold under_way, wg_Done in *; cbn in *; rewrite ?length_insert, ?length_app;
    try (try destruct r; cbn in *; lia); try done;
    try (intros Hx; first [specialize (H7 Hx); try destruct r; cbn in *; lia
                          |apply H4; lia|apply H6; lia]).
  - destruct r; cbn; unfold wg_Done; lia.
  - destruct r; cbn; unfold wg_Done; lia.
  - destruct sd, gs; cbn in *; try (by destruct H5); lia.
Qed.

Lemma reached_sound w ticks s : rtc proc_step (started w ticks) s -> sound s.
Proof.
  intros H. assert (sound (started w ticks)) as Hs by apply started_sound. revert Hs.
  induction H as [|s s' s'' [Hst|Hst] _ IH]; eauto using own_sound, outside_sound.
Qed.

(** ** Progress *)
Context (Serve_after_Stop : forall graceful closed rpcs, exists r,
  Serve_returns true graceful closed rpcs r).
Context (GracefulStop_after_Stop : forall rpcs, GracefulStop_returns true rpcs).

Lemma pstep_total {A} (p : prog A) w : (exists a, p = Ret a) \/ exists p' w', pstep p w p' w'.
Proof.
  destruct p as [a|B f k|k|k|B body k]; [left; eauto|right..].
  - by exists (k (f w).1), (f w).2.
  - exists (k None), w. by exists None.
  - exists (k (w_clock w)), (set_clock (w_clock w) w). exists (w_clock w). split; [lia|done].
  - eexists _, _. exists quiet, (result (run (transaction body) w quiet)). done.
Qed.
Lemma sum_list_pos {A} (f : A -> nat) l :
  sum_list_with f l <> 0 -> exists i x, l !! i = Some x /\ f x <> 0.
Proof.
  induction l as [|x l IH]; [done|]. cbn [sum_list_with]. intros H.
  destruct (decide (f x = 0)) as [Hx|Hx]; [|by exists 0, x].
  destruct IH as (i & y & ? & ?); [lia|]. by exists (S i), y.
Qed.

(** A goroutine under way once the shutdown has begun. *)
Lemma joining_progress s :
  sound s -> pr_main s = Joining -> exists s', own s s'.
Proof.
  intros [H1 H2 H3 H4 H5 H6 _] Hm. destruct s as [w o [d n ws] [sg sh es] [sd gs x a u] g se m].
  unfold under_way in *. cbn in *. subst m. cbn in *. rewrite H4 by lia. destruct H5 as [H5 H5'].
  destruct (decide (sum_list_with live_worker ws = 0)) as [Hw|Hw].
  2:{ apply sum_list_pos in Hw as (i & y & Hi & Hy). destruct y as [|p|]; [| |done].
      - eexists. by eapply own_return.
      - destruct (pstep_total p w) as [[[] ->]|(p' & w' & Hp)]; eexists;
          [by eapply own_again|by eapply own_abort|by eapply own_work]. }
  destruct a; [by destruct H6; [lia|]|eexists; apply own_Stop|].
  destruct sg as [|e|]; cbn in *.
  { destruct (Serve_after_Stop (begun gs) u (tr_rpcs o)) as [r Hr]. eexists. by eapply own_Serve. }
  { eexists. apply own_send_grpc. unfold server_errs_cap in *. lia. }
  destruct sh as [|e|]; cbn in *.
  { eexists. apply (own_ListenAndServe ServedStopped). left. by cbn. }
  { eexists. apply own_send_http. unfold server_errs_cap in *. lia. }
  destruct sd; cbn in *; [done| |].
  { destruct x; [eexists; apply own_Shutdown; by right|eexists; by apply own_expire]. }
  destruct gs; cbn in *; [done|eexists; by apply own_GracefulStop|].
  subst g. rewrite Hw. eexists. apply own_Wait.
Qed.
Lemma progress s : sound s -> leaving s -> pr_main s <> Exited -> exists s', own s s'.
Proof.
  intros Hs Hl Hm. destruct (pr_main s) eqn:Hp; [| | | | |by apply joining_progress|done].
  all: destruct s as [w o [d n ws] [sg sh es] [sd gs x a u] g se m]; cbn in *; subst m.
  - destruct Hl as [Hl|[Hl|Hl]]; cbn in *; [subst d| |done].
    + eexists. apply own_done.
    + destruct es as [|e es]; [done|]. eexists. apply own_failed.
  - eexists. apply own_cancel.
  - eexists. apply own_start.
  - eexists. apply own_AfterFunc.
  - eexists. apply own_Close.
Qed.

(** ** Termination *)

(** What is left of a goroutine's work. *)
Inductive less_work : worker -> worker -> Prop :=
| less_step p p' w w' : pstep p w p' w' -> less_work (Working p') (Working p)
| less_waiting p : less_work Waiting (Working p)
| less_returned x : x <> Returned -> less_work Returned x.
Lemma returned_acc : Acc less_work Returned.
Proof. constructor. intros y H. by inversion H. Qed.
Lemma waiting_acc : Acc less_work Waiting.
Proof. constructor. intros y H. inversion H; subst. apply returned_acc. Qed.
Definition rest {A} (p' p : prog A) : Prop := exists w w', pstep p w p' w'.
Lemma rest_acc {A} (p : prog A) : Acc rest p.
Proof.
  induction p as [A b|A B f k IH|A k IH|A k IH|A B body _ k IH]; constructor;
    intros p' (w & w' & Hp); cbn in Hp.
  - done.
  - by destruct Hp as [-> _].
  - by destruct Hp as [x [-> _]].
  - by destruct Hp as (t & _ & -> & _).
  - by destruct Hp as (o & r & -> & _).
Qed.
Lemma working_acc p : Acc less_work (Working p).
Proof.
  induction (rest_acc p) as [p _ IH]. constructor. intros y Hy.
  inversion Hy; subst; [|apply waiting_acc|apply returned_acc]. apply IH. by eexists _, _.
Qed.
Lemma less_work_wf : well_founded less_work.
Proof. intros [|p|]; [apply waiting_acc|apply working_acc|apply returned_acc]. Qed.

(** One goroutine of several does some work. *)
Definition less_works (l' l : list worker) : Prop :=
  exists i x y, l !! i = Some x /\ less_work y x /\ l' = <[i := y]> l.
Lemma less_works_cons x l : Acc less_work x -> Acc less_works l -> Acc less_works (x :: l).
Proof.
  intros Hx. revert l. induction Hx as [x _ IHx]. intros l Hl. induction Hl as [l Hacc IHl].
  constructor. intros l' ([|i] & a & b & Ha & Hb & ->); cbn in Ha.
  - injection Ha as ->. apply IHx; [exact Hb|by constructor].
  - apply (IHl (<[i := b]> l)). by exists i, a, b.
Qed.
Lemma less_works_wf : well_founded less_works.
Proof.
  intros l. induction l as [|x l IH]; [|apply less_works_cons; [apply less_work_wf|exact IH]].
  constructor. by intros l' (i & x & y & H & _).
Qed.

(** How much is left for [main], the servers and the closing goroutines to do. *)
Definition server_rank (s : server) : nat :=
  match s with Serving => 2 | Sending _ => 1 | Served => 0 end.
Definition closer_rank (c : closer) : nat :=
  match c with NotStarted => 2 | Closing => 1 | Closed => 0 end.
Definition control (s : Proc) : nat :=
  3 * rank (pr_main s) + server_rank (sv_grpc (pr_servers s)) + server_rank (sv_http (pr_servers s)) +
  closer_rank (cl_Shutdown (pr_closers s)) + closer_rank (cl_GracefulStop (pr_closers s)) +
  (if cl_expired (pr_closers s) then 0 else 1) +
  match cl_alarm (pr_closers s) with Unarmed => 2 | Armed => 1 | Fired => 0 end.

Definition progresses (s s' : Proc) : Prop :=
  let l := pr_loops s in let l' := pr_loops s' in
  lp_ticks l' < lp_ticks l \/
  (lp_ticks l' = lp_ticks l /\ less_works (lp_workers l') (lp_workers l)) \/
  (lp_ticks l' = lp_ticks l /\ lp_workers l' = lp_workers l /\ control s' < control s).
Lemma own_progresses s s' : own s s' -> progresses s s'.
Proof.
  intros H. unfold progresses, control. destruct H; cbn in *;
    try (right; left; split; [done|]; eexists _, _, _; split; [eassumption|];
         split; [by econstructor|reflexivity]);
    try (left; lia); right; right; (split; [done|]); (split; [done|]); try lia;
    try (destruct r; cbn in *; lia).
Qed.

Lemma outside_same s s' : rtc outside s s' ->
  lp_ticks (pr_loops s') = lp_ticks (pr_loops s) /\
  lp_workers (pr_loops s') = lp_workers (pr_loops s) /\
  control s' = control s /\ pr_main s' = pr_main s /\ (leaving s -> leaving s') /\
  (sound s -> sound s').
Proof.
  induction 1 as [s|s s' s'' H _ IH]; [done|]. destruct IH as (-> & -> & -> & -> & Hl & Hs).
  assert (sound s -> sound s') as Hs' by (by apply outside_sound).
  destruct H; cbn in *; (split_and!; [done..| |tauto]); intros Hx; apply Hl; unfold leaving in *;
    cbn in *; tauto.
Qed.
Lemma own_leaving s s' : own s s' -> leaving s -> leaving s'.
Proof.
  unfold leaving. intros H. destruct H; cbn; try tauto; try (intros _; right; right; done).
  - intros _. right. left. by destruct es.
  - intros _. right. left. by destruct es.
Qed.

Lemma leaving_exits s : sound s -> leaving s -> inevitably (fun s => pr_main s = Exited) s.
Proof.
  remember (lp_ticks (pr_loops s)) as n eqn:Hn. revert s Hn.
  induction (lt_wf n) as [n _ IHn]. intros s. remember (lp_workers (pr_loops s)) as ws eqn:Hws.
  revert s Hws. induction (less_works_wf ws) as [ws _ IHws]. intros s.
  remember (control s) as c eqn:Hc. revert s Hc.
  induction (lt_wf c) as [c _ IHc]. intros s -> -> -> Hs Hl.
  destruct (decide (rank (pr_main s) = 0)) as [Hm|Hm].
  { apply inevitably_now. by destruct (pr_main s). }
  apply inevitably_later.
  - intros s0 Ho. apply outside_same in Ho as (_ & _ & _ & Hm' & Hl' & Hs').
    apply progress; [auto|auto|]. rewrite Hm'. by intros Hx; rewrite Hx in Hm.
  - intros s0 s' Ho H. apply outside_same in Ho as (Ht & Hw & Hc & _ & Hl' & Hs').
    pose proof (own_sound _ _ H (Hs' Hs)) as Hs1. pose proof (own_leaving _ _ H (Hl' Hl)) as Hl1.
    destruct (own_progresses _ _ H) as [Hp|[[Ht' Hp]|(Ht' & Hw' & Hp)]].
    + rewrite Ht in Hp. by eapply IHn.
    + rewrite Hw in Hp. eapply IHws; [exact Hp|done|congruence|done|done].
    + rewrite Hc in Hp. eapply IHc; [exact Hp|done|congruence|congruence|done|done].
Qed.
End Process.

(** ** The server *)
Section Server.
Context `{E : Env} (registry : ProviderRegistry) (cfg : ClusterConfig).
Context (Serve_returns : bool -> bool -> bool -> nat -> served -> Prop).
Context (GracefulStop_returns : bool -> nat -> Prop).
#[local] Abbreviation loops := (server_loops registry cfg).
#[local] Abbreviation step := (proc_step loops Serve_returns GracefulStop_returns).

(** C39: The server always shuts down.  From any moment at which a signal has
    arrived or one of its servers has failed, whatever the three loops are in the
    middle of, whatever clients do and however goroutines are scheduled, the process
    can always do something and does only finitely much before [main] returns:
    neither the sends on [server_errs] nor [wg.Wait] nor an open stream blocks it
    for ever.  Assumed of gRPC: after [Stop], [Serve] and [GracefulStop] return. *)
Theorem shutdown_terminates w ticks s :
  (forall graceful closed rpcs, exists r, Serve_returns true graceful closed rpcs r) ->
  (forall rpcs, GracefulStop_returns true rpcs) ->
  rtc step (started loops w ticks) s -> leaving s ->
  inevitably loops Serve_returns GracefulStop_returns (fun s => pr_main s = Exited) s.
Proof. intros H1 H2 Hr Hl. apply leaving_exits; eauto using reached_sound. Qed.

(** C40: [main] leaves nothing behind.  When it returns, the context of the loops is
    cancelled, every loop and both servers have returned, both closing goroutines
    are through, and the counter of the wait group is exactly zero. *)
Theorem exit_leaves_nothing w ticks s :
  rtc step (started loops w ticks) s -> pr_main s = Exited ->
  lp_done (pr_loops s) = true /\ lp_workers (pr_loops s) = [Returned; Returned; Returned] /\
  sv_grpc (pr_servers s) = Served /\ sv_http (pr_servers s) = Served /\
  cl_Shutdown (pr_closers s) = Closed /\ cl_GracefulStop (pr_closers s) = Closed /\ pr_wg s = 0.
Proof.
  intros Hr Hm. destruct (reached_sound _ _ _ _ _ _ Hr) as [H1 _ H3 H4 [H5 H5'] _ H7].
  rewrite Hm in *. cbn in *. specialize (H7 eq_refl). rewrite H7 in H1. unfold under_way in H1.
  split; [apply H4; lia|].
  destruct (lp_workers (pr_loops s)) as [|[| |] [|[| |] [|[| |] [|]]]]; cbn in *; try lia.
  destruct (sv_grpc _), (sv_http _), (cl_Shutdown _), (cl_GracefulStop _); cbn in *;
    try lia; done.
Qed.
End Server.

(** A run on [demo]: a signal arrives, the loops return, the servers are stopped. *)
From S2P Require Import Demo.
#[local] Existing Instance toy_env.
Definition demo_cluster_config : ClusterConfig :=
  mkClusterConfig 3600 180 600 "token" "" "" (90 * Second) (5 * Minute)
    (mkKubernetesConfig "r-agents" [] "").
Definition demo_loops : list (prog bool * prog bool) := server_loops NewRegistry demo_cluster_config.
(** gRPC, once its streams are gone or [Stop] is called. *)
Definition demo_Serve (stop graceful closed : bool) (rpcs : nat) (r : served) : Prop :=
  stop || graceful = true /\ r = ServedStopped.
Definition demo_GracefulStop (stop : bool) (rpcs : nat) : Prop := stop = true \/ rpcs = 0.
Definition demo_proc_step : Proc -> Proc -> Prop := proc_step demo_loops demo_Serve demo_GracefulStop.

Ltac on tac := eapply rtc_l; [left; tac|cbn [insert list_insert after_serve wg_after wg_Done pred]].
Lemma demo_shutdown : exists s1 s2,
  rtc demo_proc_step (started demo_loops demo 1) s1 /\ leaving s1 /\
  rtc demo_proc_step s1 s2 /\ pr_main s2 = Exited.
Proof.
  eexists _, _. split_and!.
  - eapply rtc_l; [right; apply outside_signal|]. apply rtc_refl.
  - by left.
  - on ltac:(eapply (own_work _ _ _ 0); [reflexivity|by split]).
    on ltac:(eapply (own_again _ _ _ 0); reflexivity).
    on ltac:(eapply (own_again _ _ _ 1); reflexivity).
    on ltac:(eapply (own_again _ _ _ 2); reflexivity).
    on ltac:(eapply (own_return _ _ _ 0); reflexivity).
    on ltac:(eapply (own_return _ _ _ 1); reflexivity).
    on ltac:(eapply (own_return _ _ _ 2); reflexivity).
    on ltac:(eapply own_done).
    on ltac:(eapply own_start).
    on ltac:(eapply own_AfterFunc).
    on ltac:(eapply own_Close).
    on ltac:(eapply (own_Serve _ _ _ ServedStopped); split; reflexivity).
    on ltac:(eapply (own_ListenAndServe _ _ _ ServedStopped); left; split; reflexivity).
    on ltac:(eapply own_Shutdown; left; reflexivity).
    on ltac:(eapply own_GracefulStop; right; reflexivity).
    on ltac:(eapply own_Wait).
    apply rtc_refl.
  - reflexivity.
Defined.

Lemma shutdown_terminates_witness : exists s, rtc demo_proc_step (started demo_loops demo 1) s /\
  inevitably demo_loops demo_Serve demo_GracefulStop (fun s => pr_main s = Exited) s.
Proof.
  destruct demo_shutdown as (s & _ & Hs & Hl & _). exists s. split; [exact Hs|].
  apply (shutdown_terminates NewRegistry demo_cluster_config demo_Serve demo_GracefulStop demo 1 s);
    [|by left|exact Hs|exact Hl].
  intros graceful closed rpcs. exists ServedStopped. by split.
Defined.

Lemma exit_leaves_nothing_witness : exists s, rtc demo_proc_step (started demo_loops demo 1) s /\
  pr_main s = Exited /\ lp_workers (pr_loops s) = [Returned; Returned; Returned] /\ pr_wg s = 0.
Proof.
  destruct demo_shutdown as (s1 & s & H1 & _ & H2 & Hm). exists s.
  assert (rtc demo_proc_step (started demo_loops demo 1) s) as H by (etrans; [exact H1|exact H2]).
  split; [exact H|]. split; [exact Hm|].
  destruct (exit_leaves_nothing NewRegistry demo_cluster_config demo_Serve demo_GracefulStop
              demo 1 s H Hm) as (_ & Hw & _ & _ & _ & _ & Hg).
  split; [exact Hw|exact Hg].
Defined.
